(** * VTF image loader (io-vtf.c): shallow embedding and verified properties

    The loader receives a complete VTF file in a byte buffer, reads the fixed
    header, locates the high-resolution image data by an offset computation
    over the mip levels, decodes one image per animation frame and hands the
    frames to a GdkPixbufSimpleAnim.

    Conventions of the embedding:
    - machine integers are [Z] with the wrap-around of their C type written
      out ([u8], [u16], [u32], [u64]);
    - the input buffer is a [list byte], the pixel array of a pixbuf a
      [list Z] updated in place by index;
    - code that reads the buffer and writes pixels threads a state and
      returns [option]: [None] stands for what C leaves undefined, an
      access outside an array or an overflow of the [int] read position;
    - what [gdk_pixbuf__vtf_image_stop_load] does to the outside (standard
      output, the error out-parameter, the animation object, the
      [prepared_func] callback) is recorded as a trace of events;
    - GdkPixbuf itself is not part of the loader: [gdk_pixbuf_new] is
      described by what the library documents, without allocation
      failure; for a width or height that is not positive it returns
      [NULL], which the loader does not test.

    The file has three parts: the embedding of the code, the properties in
    the words of the specification together with example files, and the
    proofs. *)

From Stdlib Require Import ZArith Lia List Bool.
From Stdlib Require Import Strings.String Strings.Ascii Strings.Byte.
From stdpp Require Import base list.
Import ListNotations.

Local Open Scope Z_scope.

(* ===================================================================== *)
(** ** Machine integers *)
(* ===================================================================== *)

Definition two8  : Z := 256.
Definition two16 : Z := 65536.
Definition two31 : Z := 2147483648.
Definition two32 : Z := 4294967296.

(** [INT_MAX] *)
Definition int_max : Z := two31 - 1.

(** Conversion to [unsigned char], [unsigned short] / [uint16_t],
    [unsigned int] / [uint32_t] and [uint64_t]. *)
Definition u8  (x : Z) : Z := x mod two8.
Definition u16 (x : Z) : Z := x mod two16.
Definition u32 (x : Z) : Z := x mod two32.
Definition u64 (x : Z) : Z := x mod (two32 * two32).

(** Conversion of an [unsigned int] to [int] (two's complement). *)
Definition to_int (x : Z) : Z :=
  let y := u32 x in if y <? two31 then y else y - two32.

(** [v >> n] on a non-negative 32-bit operand.  C defines the shift for
    [0 <= n < 32] only.  For a larger count the result is whatever the
    machine gives (x86 shifts by [n mod 32], ARM gives [0]); the value
    taken here, that of the unbounded shift, is a convention, and the
    properties that give the value of a mip size are stated for levels
    below 32. *)
Definition shr (v n : Z) : Z := if 32 <=? n then 0 else Z.shiftr v n.

(** The value of an input byte. *)
Definition byte_val (b : byte) : Z := Z.of_N (Byte.to_N b).

(* ===================================================================== *)
(** ** The header and the pixel formats *)
(* ===================================================================== *)

(** [VtfHeader].  The two float fields and the paddings are kept as the raw
    bytes they occupy; no code reads them. *)
Record VtfHeader := {
  signature          : list byte;   (* char[4] *)
  version0           : Z;           (* unsigned int version[0] *)
  version1           : Z;           (* unsigned int version[1] *)
  headerSize         : Z;           (* unsigned int *)
  width              : Z;           (* unsigned short *)
  height             : Z;           (* unsigned short *)
  flags              : Z;           (* unsigned int *)
  frames             : Z;           (* unsigned short *)
  firstFrame         : Z;           (* unsigned short *)
  reflectivity       : list byte;   (* float[3], raw *)
  bumpmapScale       : list byte;   (* float, raw *)
  highResImageFormat : Z;           (* unsigned int *)
  mipmapCount        : Z;           (* unsigned char *)
  lowResImageFormat  : Z;           (* unsigned int *)
  lowResImageWidth   : Z;           (* unsigned char *)
  lowResImageHeight  : Z;           (* unsigned char *)
  depth              : Z            (* unsigned short *)
}.

(** Every field lies in the range of its C type. *)
Record header_in_range (h : VtfHeader) : Prop := {
  hr_width   : 0 <= width h < two16;
  hr_height  : 0 <= height h < two16;
  hr_frames  : 0 <= frames h < two16;
  hr_depth   : 0 <= depth h < two16;
  hr_mipmaps : 0 <= mipmapCount h < two8;
  hr_format  : 0 <= highResImageFormat h < two32;
  hr_ver0    : 0 <= version0 h < two32;
  hr_ver1    : 0 <= version1 h < two32
}.

Definition set_depth (h : VtfHeader) (d : Z) : VtfHeader :=
  {| signature := signature h; version0 := version0 h; version1 := version1 h;
     headerSize := headerSize h; width := width h; height := height h;
     flags := flags h; frames := frames h; firstFrame := firstFrame h;
     reflectivity := reflectivity h; bumpmapScale := bumpmapScale h;
     highResImageFormat := highResImageFormat h; mipmapCount := mipmapCount h;
     lowResImageFormat := lowResImageFormat h;
     lowResImageWidth := lowResImageWidth h;
     lowResImageHeight := lowResImageHeight h; depth := d |}.

(** The anonymous enum of image formats (the ones the loader names). *)
Definition IMAGE_FORMAT_RGBA8888 : Z := 0.
Definition IMAGE_FORMAT_ABGR8888 : Z := 1.
Definition IMAGE_FORMAT_RGB888   : Z := 2.
Definition IMAGE_FORMAT_BGR888   : Z := 3.
Definition IMAGE_FORMAT_RGB565   : Z := 4.
Definition IMAGE_FORMAT_I8       : Z := 5.
Definition IMAGE_FORMAT_IA88     : Z := 6.
Definition IMAGE_FORMAT_P8       : Z := 7.
Definition IMAGE_FORMAT_A8       : Z := 8.
Definition IMAGE_FORMAT_RGB888_BLUESCREEN : Z := 9.
Definition IMAGE_FORMAT_BGR888_BLUESCREEN : Z := 10.
Definition IMAGE_FORMAT_ARGB8888 : Z := 11.
Definition IMAGE_FORMAT_BGRA8888 : Z := 12.
Definition IMAGE_FORMAT_DXT1     : Z := 13.
Definition IMAGE_FORMAT_DXT3     : Z := 14.
Definition IMAGE_FORMAT_DXT5     : Z := 15.

(** The formats [gdk_pixbuf__vtf_load_frame] has a branch for. *)
Definition supported_formats : list Z :=
  [ IMAGE_FORMAT_RGBA8888; IMAGE_FORMAT_ABGR8888; IMAGE_FORMAT_RGB888;
    IMAGE_FORMAT_BGR888; IMAGE_FORMAT_RGB565; IMAGE_FORMAT_I8;
    IMAGE_FORMAT_IA88; IMAGE_FORMAT_A8; IMAGE_FORMAT_DXT1; IMAGE_FORMAT_DXT5;
    IMAGE_FORMAT_ARGB8888; IMAGE_FORMAT_BGRA8888 ].

Definition supported (fmt : Z) : bool :=
  existsb (Z.eqb fmt) supported_formats.

(* ===================================================================== *)
(** ** Mip sizes and offsets *)
(* ===================================================================== *)

(** [vtf_mip_size]: all arithmetic is on [uint]. *)
Definition vtf_mip_size (header : VtfHeader) (mipLevel depth : Z) : Z :=
  let mipWidth  := u32 (shr (width header) mipLevel) in
  let mipHeight := u32 (shr (height header) mipLevel) in
  let mipDepth  := shr depth mipLevel in
  let mipWidth  := if mipWidth  <? 1 then 1 else mipWidth in
  let mipHeight := if mipHeight <? 1 then 1 else mipHeight in
  let mipDepth  := if mipDepth  <? 1 then 1 else mipDepth in
  let fmt := highResImageFormat header in
  let bytes :=
    if fmt =? IMAGE_FORMAT_RGBA8888 then u32 (u32 (mipWidth * mipHeight) * 4)
    else if fmt =? IMAGE_FORMAT_ABGR8888 then u32 (u32 (mipWidth * mipHeight) * 4)
    else if fmt =? IMAGE_FORMAT_RGB888 then u32 (u32 (mipWidth * mipHeight) * 3)
    else if fmt =? IMAGE_FORMAT_BGR888 then u32 (u32 (mipWidth * mipHeight) * 3)
    else if fmt =? IMAGE_FORMAT_RGB565 then u32 (u32 (mipWidth * mipHeight) * 2)
    else if fmt =? IMAGE_FORMAT_I8 then u32 (u32 (mipWidth * mipHeight) * 1)
    else if fmt =? IMAGE_FORMAT_IA88 then u32 (u32 (mipWidth * mipHeight) * 2)
    else if fmt =? IMAGE_FORMAT_A8 then u32 (u32 (mipWidth * mipHeight) * 1)
    else if fmt =? IMAGE_FORMAT_DXT1 then
      u32 (u32 (u32 (mipWidth + 3) / 4 * (u32 (mipHeight + 3) / 4)) * 8)
    else if fmt =? IMAGE_FORMAT_DXT5 then
      u32 (u32 (u32 (mipWidth + 3) / 4 * (u32 (mipHeight + 3) / 4)) * 16)
    else if fmt =? IMAGE_FORMAT_ARGB8888 then u32 (u32 (mipWidth * mipHeight) * 4)
    else if fmt =? IMAGE_FORMAT_BGRA8888 then u32 (u32 (mipWidth * mipHeight) * 4)
    else 0 in
  u32 (bytes * mipDepth).

(** The loop of [vtf_offset]:
    [for (int i = mipmapCount - 1; i > mipLevel; i--) offset += mip_size(i)].
    [i] is an [int]; it is converted to [uint] at the call. *)
Fixpoint offset_loop (fuel : nat) (header : VtfHeader) (mipLevel i offset : Z) : Z :=
  match fuel with
  | O => offset
  | S fuel' =>
      if mipLevel <? i then
        offset_loop fuel' header mipLevel (i - 1)
          (u32 (offset + vtf_mip_size header (u32 i) (depth header)))
      else offset
  end.

(** [vtf_offset].  The loop runs [mipmapCount - 1 - mipLevel] times when that
    is positive, which is the fuel given to it. *)
Definition vtf_offset (header : VtfHeader) (frame face slice mipLevel : Z) : Z :=
  let facecount := 1 in
  let offset :=
    offset_loop (Z.to_nat (mipmapCount header - 1 - mipLevel)) header mipLevel
      (mipmapCount header - 1) 0 in
  let offset := u32 (offset * u32 (frames header * facecount)) in
  let volume_bytes := vtf_mip_size header (u32 mipLevel) (depth header) in
  let slice_bytes  := vtf_mip_size header (u32 mipLevel) 1 in
  let offset := u32 (offset + u32 (volume_bytes * u32 (u32 (frame * facecount) + face))) in
  let offset := u32 (offset + u32 (slice_bytes * slice)) in
  offset.

(* ===================================================================== *)
(** ** Pixbufs, the input buffer and the decoding state *)
(* ===================================================================== *)

(** A [GdkPixbuf] as the loader uses it: 8 bits per sample, RGB colour
    space, three or four channels, rows [rowstride] bytes apart. *)
Record GdkPixbuf := {
  has_alpha : bool;
  pb_width  : Z;
  pb_height : Z;
  rowstride : Z;
  pb_pixels : list Z
}.

Definition n_channels (alpha : bool) : Z := if alpha then 4 else 3.

(** [gdk_pixbuf_new (GDK_COLORSPACE_RGB, alpha, 8, w, h)] of the GdkPixbuf
    library: rows are padded to a multiple of four bytes.  For a width or
    height that is not positive the library returns [NULL] ([None]); a
    failed allocation is left out.  The library does not promise the
    content of the fresh pixel array: it is shown as zeros, and no property
    below depends on it. *)
Definition gdk_pixbuf_new (alpha : bool) (w h : Z) : option GdkPixbuf :=
  if (0 <? w) && (0 <? h) then
    let stride := (w * n_channels alpha + 3) / 4 * 4 in
    Some {| has_alpha := alpha; pb_width := w; pb_height := h;
            rowstride := stride;
            pb_pixels := replicate (Z.to_nat (stride * h)) 0 |}
  else None.

Definition with_pixels (pb : GdkPixbuf) (px : list Z) : GdkPixbuf :=
  {| has_alpha := has_alpha pb; pb_width := pb_width pb;
     pb_height := pb_height pb; rowstride := rowstride pb; pb_pixels := px |}.

(** [gdk_pixbuf_get_rowstride] and [gdk_pixbuf_get_pixels].  Given [NULL]
    they return [-1] and [NULL]: no pixel can be written then. *)
Definition gdk_pixbuf_get_rowstride (pixbuf : option GdkPixbuf) : Z :=
  match pixbuf with Some pb => rowstride pb | None => -1 end.
Definition gdk_pixbuf_get_pixels (pixbuf : option GdkPixbuf) : list Z :=
  match pixbuf with Some pb => pb_pixels pb | None => [] end.

(** [VtfContext] without its callbacks, which appear as events below.
    [buffer] is the whole allocation ([buffer_size] bytes), of which the
    first [buffer_data_size] hold the file. *)
Record VtfContext := {
  buffer           : list byte;
  buffer_size      : Z;
  buffer_data_size : Z
}.

(** The state of a frame decode: the read position [pos] in the input
    buffer and the pixel array being filled. *)
Record dstate := { pos : Z; pixels : list Z }.

(** In the functions below [None] stands for what C leaves undefined: an
    access outside the array it addresses, or an overflow of the [int]
    read position. *)

(** [context->buffer[pos++]].  [pos] is an [int]: at [INT_MAX] its
    increment overflows. *)
Definition read_byte (buf : list byte) (st : dstate) : option (Z * dstate) :=
  if (pos st <? 0) || (int_max <=? pos st) then None
  else b ← buf !! Z.to_nat (pos st);
       Some (byte_val b, {| pos := pos st + 1; pixels := pixels st |}).

(** The end of what [read_byte] can read of a buffer. *)
Definition read_limit (buf : list byte) : Z :=
  Z.min (Z.of_nat (length buf)) int_max.

(** [pixels[idx] = v], [v] converted to [guchar]. *)
Definition poke (idx v : Z) (st : dstate) : option dstate :=
  if (0 <=? idx) && (idx <? Z.of_nat (length (pixels st))) then
    Some {| pos := pos st; pixels := <[Z.to_nat idx := u8 v]> (pixels st) |}
  else None.

(** [pixels[idx] = context->buffer[pos++]] *)
Definition copy_byte (buf : list byte) (idx : Z) (st : dstate) : option dstate :=
  '(b, st) ← read_byte buf st; poke idx b st.

(** The index [stride*i + bpp*j + c], computed on [uint32_t]. *)
Definition pix_index (stride i j bpp c : Z) : Z := u32 (stride * i + bpp * j + c).

(** [uint16_t c = buffer[pos++]; c |= buffer[pos++] << 8;] *)
Definition read_u16 (buf : list byte) (st : dstate) : option (Z * dstate) :=
  '(b0, st) ← read_byte buf st;
  let c := u16 b0 in
  '(b1, st) ← read_byte buf st;
  let c := u16 (Z.lor c (Z.shiftl b1 8)) in
  Some (c, st).

(** [uint32_t sel = buffer[pos++]; sel |= buffer[pos++] << 8; ...] *)
Definition read_u32 (buf : list byte) (st : dstate) : option (Z * dstate) :=
  '(b0, st) ← read_byte buf st;
  let sel := u32 b0 in
  '(b1, st) ← read_byte buf st;
  let sel := u32 (Z.lor sel (Z.shiftl b1 8)) in
  '(b2, st) ← read_byte buf st;
  let sel := u32 (Z.lor sel (Z.shiftl b2 16)) in
  '(b3, st) ← read_byte buf st;
  let sel := u32 (Z.lor sel (u32 (Z.shiftl b3 24))) in
  Some (sel, st).

(** [uint64_t sel = buffer[pos++]; sel |= (uint64_t)buffer[pos++] << 8; ...]
    over six bytes. *)
Definition read_u48 (buf : list byte) (st : dstate) : option (Z * dstate) :=
  '(b0, st) ← read_byte buf st;
  let sel := u64 b0 in
  '(b1, st) ← read_byte buf st;
  let sel := u64 (Z.lor sel (Z.shiftl b1 8)) in
  '(b2, st) ← read_byte buf st;
  let sel := u64 (Z.lor sel (Z.shiftl b2 16)) in
  '(b3, st) ← read_byte buf st;
  let sel := u64 (Z.lor sel (Z.shiftl b3 24)) in
  '(b4, st) ← read_byte buf st;
  let sel := u64 (Z.lor sel (Z.shiftl b4 32)) in
  '(b5, st) ← read_byte buf st;
  let sel := u64 (Z.lor sel (Z.shiftl b5 40)) in
  Some (sel, st).

(** [for (i = start; i < bound; i += step) body].  The loop state is
    threaded through the body; running out of fuel gives [None]. *)
Fixpoint for_lt {S : Type} (fuel : nat) (i bound step : Z)
    (body : Z -> S -> option S) (s : S) : option S :=
  match fuel with
  | O => None
  | S fuel' =>
      if i <? bound then
        s' ← body i s; for_lt fuel' (i + step) bound step body s'
      else Some s
  end.

(** [for (i = 0; i < bound; i += step)], with fuel for [bound] rounds and
    the final test. *)
Definition for_loop {S : Type} (bound step : Z)
    (body : Z -> S -> option S) (s : S) : option S :=
  for_lt (Datatypes.S (Z.to_nat bound)) 0 bound step body s.

(** The element [a[k]] of a local array. *)
Definition elt (a : list Z) (k : Z) : Z := nth (Z.to_nat k) a 0.

(* ===================================================================== *)
(** ** The per-format decoders of [gdk_pixbuf__vtf_load_frame] *)
(* ===================================================================== *)

(** The expansion of the three fields of a packed RGB565 colour:
    [r = (c >> 11) & 31; r = (r << 3) | (r >> 5);] and so on, each on
    [uint16_t]. *)
Definition rgb565_r (c : Z) : Z :=
  let r := u16 (Z.land (Z.shiftr c 11) 31) in
  u16 (Z.lor (Z.shiftl r 3) (Z.shiftr r 5)).
Definition rgb565_g (c : Z) : Z :=
  let g := u16 (Z.land (Z.shiftr c 5) 63) in
  u16 (Z.lor (Z.shiftl g 2) (Z.shiftr g 6)).
Definition rgb565_b (c : Z) : Z :=
  let b := u16 (Z.land (Z.shiftr c 0) 31) in
  u16 (Z.lor (Z.shiftl b 3) (Z.shiftr b 5)).

Section PixelBodies.
Variable buf : list byte.
Variable stride : Z.

(** The bodies of the pixel loops, one per uncompressed format, at row
    [i] and column [j]. *)
Definition px_RGBA8888 (i j : Z) (st : dstate) : option dstate :=
  st ← copy_byte buf (pix_index stride i j 4 0) st;
  st ← copy_byte buf (pix_index stride i j 4 1) st;
  st ← copy_byte buf (pix_index stride i j 4 2) st;
  copy_byte buf (pix_index stride i j 4 3) st.

Definition px_ABGR8888 (i j : Z) (st : dstate) : option dstate :=
  st ← copy_byte buf (pix_index stride i j 4 3) st;
  st ← copy_byte buf (pix_index stride i j 4 2) st;
  st ← copy_byte buf (pix_index stride i j 4 1) st;
  copy_byte buf (pix_index stride i j 4 0) st.

Definition px_RGB888 (i j : Z) (st : dstate) : option dstate :=
  st ← copy_byte buf (pix_index stride i j 3 0) st;
  st ← copy_byte buf (pix_index stride i j 3 1) st;
  copy_byte buf (pix_index stride i j 3 2) st.

Definition px_BGR888 (i j : Z) (st : dstate) : option dstate :=
  st ← copy_byte buf (pix_index stride i j 3 2) st;
  st ← copy_byte buf (pix_index stride i j 3 1) st;
  copy_byte buf (pix_index stride i j 3 0) st.

Definition px_RGB565 (i j : Z) (st : dstate) : option dstate :=
  '(c0, st) ← read_u16 buf st;
  let r := rgb565_r c0 in
  let g := rgb565_g c0 in
  let b := rgb565_b c0 in
  st ← poke (pix_index stride i j 3 0) r st;
  st ← poke (pix_index stride i j 3 1) g st;
  poke (pix_index stride i j 3 2) b st.

Definition px_I8 (i j : Z) (st : dstate) : option dstate :=
  '(v, st) ← read_byte buf st;
  st ← poke (pix_index stride i j 3 0) v st;
  st ← poke (pix_index stride i j 3 1) v st;
  poke (pix_index stride i j 3 2) v st.

Definition px_IA88 (i j : Z) (st : dstate) : option dstate :=
  '(v, st) ← read_byte buf st;
  st ← poke (pix_index stride i j 4 0) v st;
  st ← poke (pix_index stride i j 4 1) v st;
  st ← poke (pix_index stride i j 4 2) v st;
  copy_byte buf (pix_index stride i j 4 3) st.

Definition px_A8 (i j : Z) (st : dstate) : option dstate :=
  st ← poke (pix_index stride i j 4 0) 255 st;
  st ← poke (pix_index stride i j 4 1) 255 st;
  st ← poke (pix_index stride i j 4 2) 255 st;
  copy_byte buf (pix_index stride i j 4 3) st.

Definition px_ARGB8888 (i j : Z) (st : dstate) : option dstate :=
  st ← copy_byte buf (pix_index stride i j 4 1) st;
  st ← copy_byte buf (pix_index stride i j 4 2) st;
  st ← copy_byte buf (pix_index stride i j 4 3) st;
  copy_byte buf (pix_index stride i j 4 0) st.

Definition px_BGRA8888 (i j : Z) (st : dstate) : option dstate :=
  st ← copy_byte buf (pix_index stride i j 4 2) st;
  st ← copy_byte buf (pix_index stride i j 4 1) st;
  st ← copy_byte buf (pix_index stride i j 4 0) st;
  copy_byte buf (pix_index stride i j 4 3) st.

(** The colour tables [r], [g], [b] of a block with endpoints [c0], [c1]:
    entries 0 and 1 are the expanded endpoints; [opaque] selects the
    two-interpolant branch. *)
Definition color_table (chan : Z -> Z) (opaque : bool) (c0 c1 : Z) : list Z :=
  let v0 := chan c0 in
  let v1 := chan c1 in
  if opaque then
    [ v0; v1; u16 ((4 * v0 + 2 * v1 + 3) / 6); u16 ((2 * v0 + 4 * v1 + 3) / 6) ]
  else
    [ v0; v1; u16 ((v0 + v1 + 1) / 2); 0 ].

(** The alpha table [a] of a DXT1 block. *)
Definition dxt1_alpha_table (opaque : bool) : list Z :=
  if opaque then [255; 255; 255; 255] else [255; 255; 255; 0].

(** The body of the two inner loops of a DXT1 block, at row [i + ii] and
    column [j + jj].  The selector is a local variable of the loops and is
    part of their state. *)
Definition dxt1_texel (r g b a : list Z) (i j ii jj : Z) (s : Z * dstate)
    : option (Z * dstate) :=
  let '(sel, st) := s in
  st ← poke (pix_index stride (i + ii) (j + jj) 4 0) (elt r (Z.land sel 3)) st;
  st ← poke (pix_index stride (i + ii) (j + jj) 4 1) (elt g (Z.land sel 3)) st;
  st ← poke (pix_index stride (i + ii) (j + jj) 4 2) (elt b (Z.land sel 3)) st;
  st ← poke (pix_index stride (i + ii) (j + jj) 4 3) (elt a (Z.land sel 3)) st;
  Some (Z.shiftr sel 2, st).

(** One DXT1 block at rows [i..i+3], columns [j..j+3]. *)
Definition dxt1_block (i j : Z) (st : dstate) : option dstate :=
  '(c0, st) ← read_u16 buf st;
  '(c1, st) ← read_u16 buf st;
  let opaque := c1 <? c0 in
  let r := color_table rgb565_r opaque c0 c1 in
  let g := color_table rgb565_g opaque c0 c1 in
  let b := color_table rgb565_b opaque c0 c1 in
  let a := dxt1_alpha_table opaque in
  '(sel, st) ← read_u32 buf st;
  '(_, st) ← for_loop 4 1 (fun ii =>
               for_loop 4 1 (fun jj => dxt1_texel r g b a i j ii jj)) (sel, st);
  Some st.

(** The alpha table [a] of a DXT5 block with endpoints [a0], [a1]. *)
Definition dxt5_alpha_table (a0 a1 : Z) : list Z :=
  if a1 <? a0 then
    [ a0; a1;
      u16 ((12 * a0 + 2 * a1 + 7) / 14); u16 ((10 * a0 + 4 * a1 + 7) / 14);
      u16 ((8 * a0 + 6 * a1 + 7) / 14);  u16 ((6 * a0 + 8 * a1 + 7) / 14);
      u16 ((4 * a0 + 10 * a1 + 7) / 14); u16 ((2 * a0 + 12 * a1 + 7) / 14) ]
  else
    [ a0; a1;
      u16 ((8 * a0 + 2 * a1 + 5) / 10); u16 ((6 * a0 + 4 * a1 + 5) / 10);
      u16 ((4 * a0 + 6 * a1 + 5) / 10); u16 ((2 * a0 + 8 * a1 + 5) / 10);
      0; 255 ].

(** The bodies of the inner loops of the two sub-blocks of a DXT5 block. *)
Definition dxt5_alpha_texel (a : list Z) (i j ii jj : Z) (s : Z * dstate)
    : option (Z * dstate) :=
  let '(sel, st) := s in
  st ← poke (pix_index stride (i + ii) (j + jj) 4 3) (elt a (Z.land sel 7)) st;
  Some (Z.shiftr sel 3, st).

Definition dxt5_color_texel (r g b : list Z) (i j ii jj : Z) (s : Z * dstate)
    : option (Z * dstate) :=
  let '(sel, st) := s in
  st ← poke (pix_index stride (i + ii) (j + jj) 4 0) (elt r (Z.land sel 3)) st;
  st ← poke (pix_index stride (i + ii) (j + jj) 4 1) (elt g (Z.land sel 3)) st;
  st ← poke (pix_index stride (i + ii) (j + jj) 4 2) (elt b (Z.land sel 3)) st;
  Some (Z.shiftr sel 2, st).

(** One DXT5 block: the alpha sub-block, then the colour sub-block. *)
Definition dxt5_block (i j : Z) (st : dstate) : option dstate :=
  '(a0, st) ← read_byte buf st;
  '(a1, st) ← read_byte buf st;
  let a := dxt5_alpha_table (u16 a0) (u16 a1) in
  '(sel, st) ← read_u48 buf st;
  '(_, st) ← for_loop 4 1 (fun ii =>
               for_loop 4 1 (fun jj => dxt5_alpha_texel a i j ii jj)) (sel, st);
  '(c0, st) ← read_u16 buf st;
  '(c1, st) ← read_u16 buf st;
  let r := color_table rgb565_r true c0 c1 in
  let g := color_table rgb565_g true c0 c1 in
  let b := color_table rgb565_b true c0 c1 in
  '(sel, st) ← read_u32 buf st;
  '(_, st) ← for_loop 4 1 (fun ii =>
               for_loop 4 1 (fun jj => dxt5_color_texel r g b i j ii jj)) (sel, st);
  Some st.
End PixelBodies.

(* ===================================================================== *)
(** ** Events, [gdk_pixbuf__vtf_load_frame] and
       [gdk_pixbuf__vtf_image_stop_load] *)
(* ===================================================================== *)

(** [GdkPixbufError] *)
Inductive GdkPixbufError :=
| GDK_PIXBUF_ERROR_CORRUPT_IMAGE
| GDK_PIXBUF_ERROR_INSUFFICIENT_MEMORY
| GDK_PIXBUF_ERROR_BAD_OPTION
| GDK_PIXBUF_ERROR_UNKNOWN_TYPE
| GDK_PIXBUF_ERROR_UNSUPPORTED_OPERATION
| GDK_PIXBUF_ERROR_FAILED
| GDK_PIXBUF_ERROR_INCOMPLETE_ANIMATION.

(** What the loader does to the outside, in the order it does it: output on
    [stdout], the error out-parameter, the calls on the one animation object
    and the [prepared_func] callback, which is handed the frame and that
    same animation object.  [EvLoadFrame] marks the call that decodes a
    frame from position [pos]. *)
Inductive event :=
| EvPrintf (format : string) (arg : Z)
| EvSetError (code : GdkPixbufError) (message : string)
| EvAnimNew (w h rate : Z)
| EvAnimSetLoop (loop : bool)
| EvLoadFrame (pos : Z)
| EvAnimAddFrame (pixbuf : GdkPixbuf)
| EvPrepared (pixbuf : GdkPixbuf)
| EvAnimUnref.

Definition newline : string := String (ascii_of_nat 10) EmptyString.

Definition msg_unsupported_format : string :=
  String.append "Unsupported VTF format - %i." newline.
Definition msg_cant_read : string := "Can't read this yet.".
Definition msg_corrupt : string := "File corrupt or incomplete".

Section LoadFrame.
Variable header : VtfHeader.
Variable context : VtfContext.

(** The shape shared by the twelve branches: allocate the pixbuf, take
    its stride and pixel array, run the two loops with steps [step] and
    return the pixbuf.  The pointer that [gdk_pixbuf_new] returns is not
    tested: on [NULL] the loops run with no pixel array at all, and when
    they come back (having written nothing) the result is [NULL]. *)
Definition decode_with (alpha : bool) (step : Z)
    (body : list byte -> Z -> Z -> Z -> dstate -> option dstate) (pos : Z)
    : option (option GdkPixbuf) :=
  let pixbuf := gdk_pixbuf_new alpha (width header) (height header) in
  let stride := u32 (gdk_pixbuf_get_rowstride pixbuf) in
  st ← for_loop (height header) step (fun i =>
          for_loop (width header) step (fun j =>
            body (buffer context) stride i j))
        {| pos := pos; pixels := gdk_pixbuf_get_pixels pixbuf |};
  Some (pb ← pixbuf; Some (with_pixels pb (pixels st))).

(** [gdk_pixbuf__vtf_load_frame (header, context, error, pos)].  The
    result is the pixbuf or [NULL] ([None]), with the events of the
    branch taken. *)
Definition gdk_pixbuf__vtf_load_frame (pos : Z)
    : option (option GdkPixbuf * list event) :=
  let fmt := highResImageFormat header in
  let done (r : option (option GdkPixbuf)) := pixbuf ← r; Some (pixbuf, []) in
  if fmt =? IMAGE_FORMAT_RGBA8888 then done (decode_with true 1 px_RGBA8888 pos)
  else if fmt =? IMAGE_FORMAT_ABGR8888 then done (decode_with true 1 px_ABGR8888 pos)
  else if fmt =? IMAGE_FORMAT_RGB888 then done (decode_with false 1 px_RGB888 pos)
  else if fmt =? IMAGE_FORMAT_BGR888 then done (decode_with false 1 px_BGR888 pos)
  else if fmt =? IMAGE_FORMAT_RGB565 then done (decode_with false 1 px_RGB565 pos)
  else if fmt =? IMAGE_FORMAT_I8 then done (decode_with false 1 px_I8 pos)
  else if fmt =? IMAGE_FORMAT_IA88 then done (decode_with true 1 px_IA88 pos)
  else if fmt =? IMAGE_FORMAT_A8 then done (decode_with true 1 px_A8 pos)
  else if fmt =? IMAGE_FORMAT_DXT1 then done (decode_with true 4 dxt1_block pos)
  else if fmt =? IMAGE_FORMAT_DXT5 then done (decode_with true 4 dxt5_block pos)
  else if fmt =? IMAGE_FORMAT_ARGB8888 then done (decode_with true 1 px_ARGB8888 pos)
  else if fmt =? IMAGE_FORMAT_BGRA8888 then done (decode_with true 1 px_BGRA8888 pos)
  else
    Some (None,
          [ EvPrintf msg_unsupported_format (to_int fmt);
            EvSetError GDK_PIXBUF_ERROR_CORRUPT_IMAGE msg_cant_read ]).

(** The frame loop of [gdk_pixbuf__vtf_image_stop_load]:
    [for (int i = 0; i < header.frames; i++)], leaving by [goto end] when
    a frame comes back [NULL].  [tr] collects the events. *)
Fixpoint frames_loop (fuel : nat) (base i : Z) (tr : list event)
    : option (list event) :=
  match fuel with
  | O => None
  | S fuel' =>
      if i <? frames header then
        let pos := to_int (u32 (base + vtf_offset header i 0 0 0)) in
        '(pixbuf, evs) ← gdk_pixbuf__vtf_load_frame pos;
        match pixbuf with
        | None => Some (tr ++ [EvLoadFrame pos] ++ evs ++ [EvAnimUnref])
        | Some pb =>
            frames_loop fuel' base (i + 1)
              (tr ++ [EvLoadFrame pos] ++ evs ++ [EvAnimAddFrame pb]
                  ++ (if i =? 0 then [EvPrepared pb] else []))
        end
      else Some tr
  end.
End LoadFrame.

(** A little-endian unsigned integer. *)
Fixpoint le_value (bs : list byte) : Z :=
  match bs with
  | [] => 0
  | b :: bs' => byte_val b + 256 * le_value bs'
  end.

Definition field (buf : list byte) (off len : nat) : list byte :=
  take len (drop off buf).

Definition sizeof_VtfHeader : Z := 68.

(** [memcpy (&header, context->buffer, sizeof (header))] with the layout of
    the struct on a little-endian ABI of natural alignment (each member at
    the next multiple of its size: three bytes of padding follow
    [mipmapCount], the struct has 68 bytes). *)
Definition read_header (buf : list byte) : option VtfHeader :=
  if Z.of_nat (length buf) <? sizeof_VtfHeader then None
  else Some
    {| signature          := field buf 0 4;
       version0           := le_value (field buf 4 4);
       version1           := le_value (field buf 8 4);
       headerSize         := le_value (field buf 12 4);
       width              := le_value (field buf 16 2);
       height             := le_value (field buf 18 2);
       flags              := le_value (field buf 20 4);
       frames             := le_value (field buf 24 2);
       firstFrame         := le_value (field buf 26 2);
       reflectivity       := field buf 32 12;
       bumpmapScale       := field buf 48 4;
       highResImageFormat := le_value (field buf 52 4);
       mipmapCount        := le_value (field buf 56 1);
       lowResImageFormat  := le_value (field buf 60 4);
       lowResImageWidth   := le_value (field buf 64 1);
       lowResImageHeight  := le_value (field buf 65 1);
       depth              := le_value (field buf 66 2) |}.

(** ['V'], ['T'], ['F'], [0] *)
Definition vtf_signature : list byte := [x56; x54; x46; x00]%byte.

(** [header.signature[k]] *)
Definition sig_char (header : VtfHeader) (k : nat) : Z :=
  byte_val (nth k (signature header) x00%byte).

(** The test of the first [if] of [gdk_pixbuf__vtf_image_stop_load]. *)
Definition bad_header (header : VtfHeader) : bool :=
  negb (sig_char header 0 =? 86) || negb (sig_char header 1 =? 84)
  || negb (sig_char header 2 =? 70) || negb (sig_char header 3 =? 0)
  || (frames header =? 0).

(** What [gdk_pixbuf__vtf_image_stop_load] leaves behind: its return value
    and the events in order; [Fault] when the run reaches what C leaves
    undefined: a read outside the buffer, a write outside the pixel array
    or an overflow of the read position. *)
Inductive outcome :=
| Returned (retval : bool) (trace : list event)
| Fault.

Definition gdk_pixbuf__vtf_image_stop_load (context : VtfContext) : outcome :=
  match read_header (buffer context) with
  | None => Fault
  | Some header =>
      if bad_header header then
        Returned false [EvSetError GDK_PIXBUF_ERROR_CORRUPT_IMAGE msg_corrupt]
      else
        let header :=
          if u32 (u32 (version0 header * 256) + version1 header) <? 1794
          then set_depth header 1 else header in
        let fulldata := vtf_offset header 0 0 0 (-1) in
        let base := u32 (buffer_data_size context - fulldata) in
        let tr := [ EvAnimNew (width header) (height header) 8;
                    EvAnimSetLoop true ] in
        match frames_loop header context (S (Z.to_nat (frames header))) base 0 tr with
        | None => Fault
        | Some tr => Returned true tr
        end
  end.

(** *** Reading the trace *)

(** The error out-parameter after the call. *)
Fixpoint error_of (tr : list event) : option (GdkPixbufError * string) :=
  match tr with
  | [] => None
  | EvSetError c m :: _ => Some (c, m)
  | _ :: tr' => error_of tr'
  end.

(** The frames handed to the consumer by [prepared_func]. *)
Fixpoint prepared_of (tr : list event) : list GdkPixbuf :=
  match tr with
  | [] => []
  | EvPrepared pb :: tr' => pb :: prepared_of tr'
  | _ :: tr' => prepared_of tr'
  end.

(** The frames added to the animation, in order. *)
Fixpoint added_of (tr : list event) : list GdkPixbuf :=
  match tr with
  | [] => []
  | EvAnimAddFrame pb :: tr' => pb :: added_of tr'
  | _ :: tr' => added_of tr'
  end.

(** The positions the frames were read from, in order. *)
Fixpoint loads_of (tr : list event) : list Z :=
  match tr with
  | [] => []
  | EvLoadFrame p :: tr' => p :: loads_of tr'
  | _ :: tr' => loads_of tr'
  end.

(** Whether the loader dropped the animation. *)
Definition unref_in (tr : list event) : bool :=
  existsb (fun e => match e with EvAnimUnref => true | _ => false end) tr.

(** The sequence the caller ends up with: all added frames, none once the
    animation was dropped. *)
Definition delivered (tr : list event) : list GdkPixbuf :=
  if unref_in tr then [] else added_of tr.

(** *** The frame loop, piece by piece *)

(** The position frame [i] is read from. *)
Definition frame_pos (h : VtfHeader) (base i : Z) : Z :=
  to_int (u32 (base + vtf_offset h i 0 0 0)).

(** The events of one successful round of the frame loop. *)
Definition frame_events (h : VtfHeader) (base : Z) (pbs : Z -> GdkPixbuf) (i : Z)
    : list event :=
  [EvLoadFrame (frame_pos h base i); EvAnimAddFrame (pbs i)]
  ++ (if i =? 0 then [EvPrepared (pbs i)] else []).

(** The header [stop_load] works with after the version test. *)
Definition effective_header (h : VtfHeader) : VtfHeader :=
  if u32 (u32 (version0 h * 256) + version1 h) <? 1794 then set_depth h 1 else h.

(** [base], the start of the high-resolution data in the buffer. *)
Definition load_base (ctx : VtfContext) (h : VtfHeader) : Z :=
  u32 (buffer_data_size ctx - vtf_offset (effective_header h) 0 0 0 (-1)).

(* ===================================================================== *)
(** ** The properties, in the words of the specification *)
(* ===================================================================== *)

Definition Zsum (l : list Z) : Z := foldr Z.add 0 l.

(** *** Mip sizes *)

(** [max(1, v >> level)] *)
Definition mip_dim (v level : Z) : Z := Z.max 1 (Z.shiftr v level).

(** [ceil(a / b)] *)
Definition ceil_div (a b : Z) : Z := - ((- a) / b).

(** The byte cost of one [w] x [h] slice in format [fmt]. *)
Definition slice_cost (fmt w h : Z) : Z :=
  if (fmt =? IMAGE_FORMAT_RGBA8888) || (fmt =? IMAGE_FORMAT_ABGR8888)
     || (fmt =? IMAGE_FORMAT_ARGB8888) || (fmt =? IMAGE_FORMAT_BGRA8888)
  then w * h * 4
  else if (fmt =? IMAGE_FORMAT_RGB888) || (fmt =? IMAGE_FORMAT_BGR888)
  then w * h * 3
  else if (fmt =? IMAGE_FORMAT_RGB565) || (fmt =? IMAGE_FORMAT_IA88)
  then w * h * 2
  else if (fmt =? IMAGE_FORMAT_I8) || (fmt =? IMAGE_FORMAT_A8)
  then w * h * 1
  else if fmt =? IMAGE_FORMAT_DXT1 then ceil_div w 4 * ceil_div h 4 * 8
  else if fmt =? IMAGE_FORMAT_DXT5 then ceil_div w 4 * ceil_div h 4 * 16
  else 0.

(** The mip size as the specification words it, over the integers. *)
Definition mip_size_spec (h : VtfHeader) (level d : Z) : Z :=
  slice_cost (highResImageFormat h)
    (mip_dim (width h) level) (mip_dim (height h) level)
  * mip_dim d level.

(** *** Offsets *)

(** The mip indices [i] with [m < i <= mipmapCount - 1], in ascending order. *)
Definition mips_above (h : VtfHeader) (m : Z) : list Z :=
  seqZ (m + 1) (mipmapCount h - 1 - m).

(** The sum of [mipSize(i, depth)] over those indices, over the integers. *)
Definition mip_sum (h : VtfHeader) (m : Z) : Z :=
  Zsum (map (fun i => vtf_mip_size h (u32 i) (depth h)) (mips_above h m)).

(** The right-hand side of the offset formula, with [faceCount = 1]. *)
Definition offset_spec (h : VtfHeader) (frame face slice m : Z) : Z :=
  let faceCount := 1 in
  mip_sum h m * frames h * faceCount
  + vtf_mip_size h (u32 m) (depth h) * (frame * faceCount + face)
  + vtf_mip_size h (u32 m) 1 * slice.

(** The byte length of the whole high-resolution region: every mip level
    holds [frames] images of its size. *)
Definition region_length (h : VtfHeader) : Z :=
  Zsum (map (fun i => frames h * vtf_mip_size h i (depth h))
            (seqZ 0 (mipmapCount h))).

(** *** Decoded pixels *)

(** The byte at position [p] of the input. *)
Definition in_byte (buf : list byte) (p : Z) : Z :=
  match buf !! Z.to_nat p with
  | Some b => byte_val b
  | None => 0
  end.

(** The little-endian words of two, four and six bytes at position [p]. *)
Definition in_u16 (buf : list byte) (p : Z) : Z :=
  in_byte buf p + 256 * in_byte buf (p + 1).
Definition in_u32 (buf : list byte) (p : Z) : Z :=
  in_u16 buf p + 65536 * in_u16 buf (p + 2).
Definition in_u48 (buf : list byte) (p : Z) : Z :=
  in_u32 buf p + 4294967296 * in_u16 buf (p + 4).

(** Sample [c] of the pixel in column [x] of row [y] of a pixbuf. *)
Definition sample (pb : GdkPixbuf) (x y c : Z) : option Z :=
  pb_pixels pb !! Z.to_nat (rowstride pb * y + n_channels (has_alpha pb) * x + c).

(** The four samples R, G, B, A of a pixel of a pixbuf with alpha. *)
Definition pixel_of (pb : GdkPixbuf) (x y : Z) : option (Z * Z * Z * Z) :=
  r ← sample pb x y 0; g ← sample pb x y 1;
  b ← sample pb x y 2; a ← sample pb x y 3;
  Some (r, g, b, a).

(** The expansion of a 5-bit and of a 6-bit field to 8 bits. *)
Definition expand5 (v : Z) : Z := Z.lor (Z.shiftl v 3) (Z.shiftr v 5).
Definition expand6 (v : Z) : Z := Z.lor (Z.shiftl v 2) (Z.shiftr v 6).

(** The 8-bit R, G, B of a packed RGB565 colour. *)
Definition rgb_of_565 (c : Z) : Z * Z * Z :=
  (expand5 (Z.land (Z.shiftr c 11) 31),
   expand6 (Z.land (Z.shiftr c 5) 63),
   expand5 (Z.land c 31)).

(** The colours 2 and 3 of an opaque block, per channel, and colour 2 of a
    block in the one-bit-alpha mode. *)
Definition two_thirds (u v : Z) : Z := (4 * u + 2 * v + 3) / 6.
Definition one_third (u v : Z) : Z := (2 * u + 4 * v + 3) / 6.
Definition halfway (u v : Z) : Z := (u + v + 1) / 2.

Definition mix3 (f : Z -> Z -> Z) (p q : Z * Z * Z) : Z * Z * Z :=
  let '(r0, g0, b0) := p in
  let '(r1, g1, b1) := q in
  (f r0 r1, f g0 g1, f b0 b1).

Definition with_alpha (p : Z * Z * Z) (a : Z) : Z * Z * Z * Z :=
  let '(r, g, b) := p in (r, g, b, a).

(** The four palette entries of an opaque colour block. *)
Definition opaque_palette (c0 c1 : Z) : list (Z * Z * Z) :=
  let e0 := rgb_of_565 c0 in
  let e1 := rgb_of_565 c1 in
  [ e0; e1; mix3 two_thirds e0 e1; mix3 one_third e0 e1 ].

(** The four palette entries of a DXT1 block with endpoints [c0], [c1]. *)
Definition dxt1_palette (c0 c1 : Z) : list (Z * Z * Z * Z) :=
  let e0 := rgb_of_565 c0 in
  let e1 := rgb_of_565 c1 in
  if c0 >? c1 then
    map (fun e => with_alpha e 255) (opaque_palette c0 c1)
  else
    [ with_alpha e0 255; with_alpha e1 255;
      with_alpha (mix3 halfway e0 e1) 255; (0, 0, 0, 0) ].

(** The eight alpha values of a DXT5 block with endpoints [a0], [a1]. *)
Definition dxt5_alpha_palette (a0 a1 : Z) : list Z :=
  if a0 >? a1 then
    [ a0; a1;
      (12 * a0 + 2 * a1 + 7) / 14; (10 * a0 + 4 * a1 + 7) / 14;
      (8 * a0 + 6 * a1 + 7) / 14;  (6 * a0 + 8 * a1 + 7) / 14;
      (4 * a0 + 10 * a1 + 7) / 14; (2 * a0 + 12 * a1 + 7) / 14 ]
  else
    [ a0; a1;
      (8 * a0 + 2 * a1 + 5) / 10; (6 * a0 + 4 * a1 + 5) / 10;
      (4 * a0 + 6 * a1 + 5) / 10; (2 * a0 + 8 * a1 + 5) / 10;
      0; 255 ].

(** The index of the block holding pixel [(x, y)], blocks in raster order,
    and the index of the pixel within its block, in raster order. *)
Definition block_of (w x y : Z) : Z := (y / 4) * (w / 4) + x / 4.
Definition texel_of (x y : Z) : Z := 4 * (y mod 4) + x mod 4.

(** Pixel [(x, y)] of a DXT1 image of width [w] stored at [p0]. *)
Definition dxt1_pixel (buf : list byte) (p0 w x y : Z) : Z * Z * Z * Z :=
  let p := p0 + 8 * block_of w x y in
  let c0 := in_u16 buf p in
  let c1 := in_u16 buf (p + 2) in
  let sel := in_u32 buf (p + 4) in
  let k := Z.land (Z.shiftr sel (2 * texel_of x y)) 3 in
  nth (Z.to_nat k) (dxt1_palette c0 c1) (0, 0, 0, 0).

(** Pixel [(x, y)] of a DXT5 image of width [w] stored at [p0]. *)
Definition dxt5_pixel (buf : list byte) (p0 w x y : Z) : Z * Z * Z * Z :=
  let p := p0 + 16 * block_of w x y in
  let a0 := in_byte buf p in
  let a1 := in_byte buf (p + 1) in
  let asel := in_u48 buf (p + 2) in
  let ka := Z.land (Z.shiftr asel (3 * texel_of x y)) 7 in
  let c0 := in_u16 buf (p + 8) in
  let c1 := in_u16 buf (p + 10) in
  let sel := in_u32 buf (p + 12) in
  let k := Z.land (Z.shiftr sel (2 * texel_of x y)) 3 in
  with_alpha (nth (Z.to_nat k) (opaque_palette c0 c1) (0, 0, 0))
             (nth (Z.to_nat ka) (dxt5_alpha_palette a0 a1) 0).

(** Pixel [(x, y)] of an ARGB8888 image of width [w] stored at [p0], as the
    loader places its four bytes. *)
Definition argb_pixel (buf : list byte) (p0 w x y : Z) : Z * Z * Z * Z :=
  let p := p0 + 4 * (y * w + x) in
  (in_byte buf (p + 3), in_byte buf p, in_byte buf (p + 1), in_byte buf (p + 2)).

(** Sample [c] of a pixel value. *)
Definition channel (px : Z * Z * Z * Z) (c : Z) : Z :=
  let '(r, g, b, a) := px in
  if c =? 0 then r else if c =? 1 then g else if c =? 2 then b else a.

(* ===================================================================== *)
(** ** Invariants of the pixel loops *)
(* ===================================================================== *)


(** The pixel array of a [w] x [h] pixbuf with four channels. *)
Definition frame_ok (stride w h : Z) (px : list Z) : Prop :=
  4 * w <= stride /\ stride * h <= two32 /\ Z.of_nat (length px) = stride * h.

(** The samples selected by [D] hold the values [E]. *)
Definition holds (px : list Z) (stride w h : Z)
    (D : Z -> Z -> Z -> Prop) (E : Z -> Z -> Z -> Z) : Prop :=
  forall x y c, 0 <= x < w -> 0 <= y < h -> 0 <= c < 4 -> D x y c ->
    px !! Z.to_nat (stride * y + 4 * x + c) = Some (E x y c).

(** The state after [n] bytes were read. *)
Definition advance (st : dstate) (n : Z) : dstate :=
  {| pos := pos st + n; pixels := pixels st |}.

(* ===================================================================== *)
(** ** Example files *)
(* ===================================================================== *)

Definition byte_of (z : Z) : byte :=
  match Byte.of_N (Z.to_N z) with Some b => b | None => x00%byte end.

(** The [n] low bytes of [v], least significant first. *)
Fixpoint le_bytes (n : nat) (v : Z) : list Z :=
  match n with
  | O => []
  | S n' => v mod 256 :: le_bytes n' (v / 256)
  end.

(** An 80-byte header in the layout [read_header] reads. *)
Definition header_bytes (ver0 ver1 w h nframes fmt mips d : Z) : list Z :=
  [86; 84; 70; 0] ++ le_bytes 4 ver0 ++ le_bytes 4 ver1 ++ le_bytes 4 80
  ++ le_bytes 2 w ++ le_bytes 2 h ++ le_bytes 4 0 ++ le_bytes 2 nframes
  ++ le_bytes 2 0 ++ replicate 4 0 ++ replicate 12 0 ++ replicate 4 0
  ++ replicate 4 0 ++ le_bytes 4 fmt ++ [mips] ++ replicate 3 0
  ++ le_bytes 4 13 ++ [0; 0] ++ le_bytes 2 d ++ replicate 12 0.

(** A context whose buffer holds exactly the bytes [bs]. *)
Definition mk_context (bs : list Z) : VtfContext :=
  {| buffer := map byte_of bs; buffer_size := Z.of_nat (length bs);
     buffer_data_size := Z.of_nat (length bs) |}.

(** The header record that [read_header] finds in [header_bytes 7 2 ...]. *)
Definition mk_header (w h nframes fmt mips d : Z) : VtfHeader :=
  {| signature := vtf_signature; version0 := 7; version1 := 2;
     headerSize := 80; width := w; height := h; flags := 0;
     frames := nframes; firstFrame := 0;
     reflectivity := replicate 12 x00%byte;
     bumpmapScale := replicate 4 x00%byte;
     highResImageFormat := fmt; mipmapCount := mips;
     lowResImageFormat := 13; lowResImageWidth := 0; lowResImageHeight := 0;
     depth := d |}.

(** Example headers: seven frames of a 16384 x 16384 RGBA8888 texture with
    two mip levels; a 32768 x 32768 RGBA8888 texture; two frames of an
    8 x 8 RGBA8888 texture with four mip levels; an 8 x 4 DXT1 texture; an
    8 x 8 RGBA8888 texture with one mip level. *)
Definition hdr_seven_frames : VtfHeader :=
  mk_header 16384 16384 7 IMAGE_FORMAT_RGBA8888 2 1.
Definition hdr_huge : VtfHeader :=
  mk_header 32768 32768 1 IMAGE_FORMAT_RGBA8888 1 1.
Definition hdr_four_mips : VtfHeader :=
  mk_header 8 8 2 IMAGE_FORMAT_RGBA8888 4 1.
Definition hdr_dxt1 : VtfHeader :=
  mk_header 8 4 1 IMAGE_FORMAT_DXT1 4 1.
Definition hdr_8x8 : VtfHeader :=
  mk_header 8 8 1 IMAGE_FORMAT_RGBA8888 1 1.

(** A 32768 x 32772 texture: its rows take 2^17 bytes in the pixbuf, so
    that row 32768 begins at byte 2^32 of the pixel array. *)
Definition hdr_tall (fmt : Z) : VtfHeader := mk_header 32768 32772 1 fmt 1 1.

(** A context whose buffer holds [n] bytes [b] followed by the bytes
    [last]. *)
Definition ctx_filled (b : byte) (n : Z) (last : list byte) : VtfContext :=
  {| buffer := replicate (Z.to_nat n) b ++ last;
     buffer_size := n + Z.of_nat (length last);
     buffer_data_size := n + Z.of_nat (length last) |}.

(** The data of a 32768 x 32772 DXT1 image (8192 x 8193 blocks of 8
    bytes): every block transparent black ([c0 = c1], all selector bits
    set), but for the last one, which is opaque ([c0 = 1 > c1 = 0]). *)
Definition ctx_tall_dxt1 : VtfContext :=
  ctx_filled xff (8 * (8192 * 8193) - 8)
    [x01; x00; x00; x00; x00; x00; x00; x00]%byte.

(** The data of a 32768 x 32772 DXT5 image (8192 x 8193 blocks of 16
    bytes): every block zero (black, alpha 0), but for the last one, whose
    two colour endpoints are white. *)
Definition ctx_tall_dxt5 : VtfContext :=
  ctx_filled x00 (16 * (8192 * 8193) - 16)
    [x00; x00; x00; x00; x00; x00; x00; x00;
     xff; xff; xff; xff; x00; x00; x00; x00]%byte.

(** Example contexts. *)
Definition ctx_bad_signature : VtfContext :=
  mk_context ([88; 84; 70; 0] ++ drop 4 (header_bytes 7 2 4 4 1 0 1 1)
              ++ replicate 64 0).
Definition ctx_zero_frames : VtfContext :=
  mk_context (header_bytes 7 2 4 4 0 0 1 1 ++ replicate 64 0).
Definition ctx_format_99 : VtfContext :=
  mk_context (header_bytes 7 2 4 4 1 99 1 1 ++ replicate 64 0).
Definition ctx_format_98 : VtfContext :=
  mk_context (header_bytes 7 2 4 4 1 98 1 1 ++ replicate 64 0).
Definition ctx_two_frames : VtfContext :=
  mk_context (header_bytes 7 2 2 1 2 IMAGE_FORMAT_ARGB8888 1 1
              ++ [1; 2; 3; 4; 5; 6; 7; 8] ++ [11; 12; 13; 14; 15; 16; 17; 18]).
(** An RGBA8888 file of width 0 and height 4, with the 16 bytes its one
    mip level is computed to take. *)
Definition ctx_zero_width : VtfContext :=
  mk_context (header_bytes 7 2 0 4 1 IMAGE_FORMAT_RGBA8888 1 1
              ++ replicate 16 0).
(** Only the header of an 8 x 8 RGBA8888 file, whose data would take 256
    bytes. *)
Definition ctx_short : VtfContext :=
  mk_context (header_bytes 7 2 8 8 1 IMAGE_FORMAT_RGBA8888 1 1).

Definition outcome_error (o : outcome) : option (GdkPixbufError * string) :=
  match o with
  | Returned _ tr => error_of tr
  | Fault => None
  end.

(* ===================================================================== *)
(** ** The uncompressed formats: what a decoded pixel holds *)
(* ===================================================================== *)

(** The three samples R, G, B of a pixel of a pixbuf. *)
Definition rgb_of (pb : GdkPixbuf) (x y : Z) : option (Z * Z * Z) :=
  r ← sample pb x y 0; g ← sample pb x y 1; b ← sample pb x y 2;
  Some (r, g, b).

(** The first input byte of pixel [(x, y)] of an image of width [w] stored
    at [p0] with [k] bytes per pixel, rows in order, no padding. *)
Definition texel_pos (p0 k w x y : Z) : Z := p0 + k * (y * w + x).

(** The pixel [(x, y)] as each uncompressed branch of the loader leaves it,
    in the sample order R, G, B, A of the pixbuf. *)
Definition rgba_pixel (buf : list byte) (p0 w x y : Z) : Z * Z * Z * Z :=
  let p := texel_pos p0 4 w x y in
  (in_byte buf p, in_byte buf (p + 1), in_byte buf (p + 2), in_byte buf (p + 3)).

Definition abgr_pixel (buf : list byte) (p0 w x y : Z) : Z * Z * Z * Z :=
  let p := texel_pos p0 4 w x y in
  (in_byte buf (p + 3), in_byte buf (p + 2), in_byte buf (p + 1), in_byte buf p).

Definition bgra_pixel (buf : list byte) (p0 w x y : Z) : Z * Z * Z * Z :=
  let p := texel_pos p0 4 w x y in
  (in_byte buf (p + 2), in_byte buf (p + 1), in_byte buf p, in_byte buf (p + 3)).

Definition ia88_pixel (buf : list byte) (p0 w x y : Z) : Z * Z * Z * Z :=
  let p := texel_pos p0 2 w x y in
  (in_byte buf p, in_byte buf p, in_byte buf p, in_byte buf (p + 1)).

Definition a8_pixel (buf : list byte) (p0 w x y : Z) : Z * Z * Z * Z :=
  let p := texel_pos p0 1 w x y in
  (255, 255, 255, in_byte buf p).

Definition rgb888_pixel (buf : list byte) (p0 w x y : Z) : Z * Z * Z :=
  let p := texel_pos p0 3 w x y in
  (in_byte buf p, in_byte buf (p + 1), in_byte buf (p + 2)).

Definition bgr888_pixel (buf : list byte) (p0 w x y : Z) : Z * Z * Z :=
  let p := texel_pos p0 3 w x y in
  (in_byte buf (p + 2), in_byte buf (p + 1), in_byte buf p).

Definition rgb565_pixel (buf : list byte) (p0 w x y : Z) : Z * Z * Z :=
  rgb_of_565 (in_u16 buf (texel_pos p0 2 w x y)).

Definition i8_pixel (buf : list byte) (p0 w x y : Z) : Z * Z * Z :=
  let p := texel_pos p0 1 w x y in
  (in_byte buf p, in_byte buf p, in_byte buf p).

(** Sample [c] of a pixel value without alpha. *)
Definition channel3 (px : Z * Z * Z) (c : Z) : Z :=
  let '(r, g, b) := px in
  if c =? 0 then r else if c =? 1 then g else b.

(** The row stride [gdk_pixbuf_new] gives an image of width [w]. *)
Definition row_bytes (alpha : bool) (w : Z) : Z :=
  (w * n_channels alpha + 3) / 4 * 4.

(** *** Invariants of the pixel loops, for three or four channels *)

(** The pixel array of a [w] x [h] pixbuf with [n] channels. *)
Definition frame_ok_ch (n stride w h : Z) (px : list Z) : Prop :=
  n * w <= stride /\ stride * h <= two32 /\ Z.of_nat (length px) = stride * h.

(** The samples selected by [D] hold the values [E]. *)
Definition holds_ch (n : Z) (px : list Z) (stride w h : Z)
    (D : Z -> Z -> Z -> Prop) (E : Z -> Z -> Z -> Z) : Prop :=
  forall x y c, 0 <= x < w -> 0 <= y < h -> 0 <= c < n -> D x y c ->
    px !! Z.to_nat (stride * y + n * x + c) = Some (E x y c).

(** What a pixel body has to do: read [k] bytes and leave the expected
    values in the samples of its pixel. *)
Definition fills_pixel (n k p0 stride w h : Z) (E : Z -> Z -> Z -> Z)
    (body : Z -> Z -> dstate -> option dstate) : Prop :=
  forall i j D st,
    0 <= i < h -> 0 <= j < w ->
    frame_ok_ch n stride w h (pixels st) ->
    holds_ch n (pixels st) stride w h D E ->
    pos st = texel_pos p0 k w j i ->
    exists st',
      body i j st = Some st'
      /\ pos st' = pos st + k
      /\ frame_ok_ch n stride w h (pixels st')
      /\ holds_ch n (pixels st') stride w h
           (fun x y c => D x y c \/ (x = j /\ y = i)) E.

(** The number of rounds of [for (i = 0; i < bound; i += step)]. *)
Definition rounds (bound step : Z) : Z := Z.max 0 ((bound + step - 1) / step).

(** The input bytes one frame takes, as the loops of the loader consume
    them: per pixel, or per 4 x 4 block started. *)
Definition frame_bytes (fmt w h : Z) : Z :=
  if (fmt =? IMAGE_FORMAT_RGBA8888) || (fmt =? IMAGE_FORMAT_ABGR8888)
     || (fmt =? IMAGE_FORMAT_ARGB8888) || (fmt =? IMAGE_FORMAT_BGRA8888)
  then 4 * (h * w)
  else if (fmt =? IMAGE_FORMAT_RGB888) || (fmt =? IMAGE_FORMAT_BGR888)
  then 3 * (h * w)
  else if (fmt =? IMAGE_FORMAT_RGB565) || (fmt =? IMAGE_FORMAT_IA88)
  then 2 * (h * w)
  else if (fmt =? IMAGE_FORMAT_I8) || (fmt =? IMAGE_FORMAT_A8)
  then 1 * (h * w)
  else if fmt =? IMAGE_FORMAT_DXT1 then 8 * (rounds h 4 * rounds w 4)
  else if fmt =? IMAGE_FORMAT_DXT5 then 16 * (rounds h 4 * rounds w 4)
  else 0.

(** *** The twelve branches side by side *)

(** What distinguishes the branches of [gdk_pixbuf__vtf_load_frame]:
    whether the pixbuf has alpha, the step of the two loops, the input
    bytes a round of the inner loop takes, and the body of that loop. *)
Record branch := {
  br_alpha : bool;
  br_step  : Z;
  br_bytes : Z;
  br_body  : list byte -> Z -> Z -> Z -> dstate -> option dstate
}.

Definition branch_of (fmt : Z) : option branch :=
  if fmt =? IMAGE_FORMAT_RGBA8888 then Some (Build_branch true 1 4 px_RGBA8888)
  else if fmt =? IMAGE_FORMAT_ABGR8888 then Some (Build_branch true 1 4 px_ABGR8888)
  else if fmt =? IMAGE_FORMAT_RGB888 then Some (Build_branch false 1 3 px_RGB888)
  else if fmt =? IMAGE_FORMAT_BGR888 then Some (Build_branch false 1 3 px_BGR888)
  else if fmt =? IMAGE_FORMAT_RGB565 then Some (Build_branch false 1 2 px_RGB565)
  else if fmt =? IMAGE_FORMAT_I8 then Some (Build_branch false 1 1 px_I8)
  else if fmt =? IMAGE_FORMAT_IA88 then Some (Build_branch true 1 2 px_IA88)
  else if fmt =? IMAGE_FORMAT_A8 then Some (Build_branch true 1 1 px_A8)
  else if fmt =? IMAGE_FORMAT_DXT1 then Some (Build_branch true 4 8 dxt1_block)
  else if fmt =? IMAGE_FORMAT_DXT5 then Some (Build_branch true 4 16 dxt5_block)
  else if fmt =? IMAGE_FORMAT_ARGB8888 then Some (Build_branch true 1 4 px_ARGB8888)
  else if fmt =? IMAGE_FORMAT_BGRA8888 then Some (Build_branch true 1 4 px_BGRA8888)
  else None.

(** Two buffers hold the same bytes at the positions from [lo] up to
    [hi], or both end before them. *)
Definition agree (buf1 buf2 : list byte) (lo hi : Z) : Prop :=
  forall q, lo <= q < hi -> buf1 !! Z.to_nat q = buf2 !! Z.to_nat q.

(** *** What a step that came back has done *)

(** A step that came back read [k] bytes inside the buffer, below
    [INT_MAX], and kept the length of the pixel array. *)
Definition has_read (buf : list byte) (k : Z) (st st' : dstate) : Prop :=
  0 <= pos st /\ pos st' = pos st + k /\ pos st' <= read_limit buf
  /\ length (pixels st') = length (pixels st).

(** A block body that came back has written sample [c0] of each of its
    sixteen texels inside the pixel array. *)
Definition block_writes (c0 : Z)
    (body : list byte -> Z -> Z -> Z -> dstate -> option dstate) : Prop :=
  forall buf stride i j st st',
    body buf stride i j st = Some st' ->
    forall ii jj, 0 <= ii < 4 -> 0 <= jj < 4 ->
      pix_index stride (i + ii) (j + jj) 4 c0 < Z.of_nat (length (pixels st)).

(* ===================================================================== *)
(** ** [gdk_pixbuf__vtf_image_begin_load] and
       [gdk_pixbuf__vtf_image_load_increment] *)
(* ===================================================================== *)

(** Memory from GLib.  [g_malloc] and [g_realloc] return a block of the
    size asked for, and [NULL] ([None]) for a size of 0; when the memory
    cannot be had GLib ends the program, a case that is left out here.  What
    fresh memory holds is not specified: the byte at offset [k] of a fresh
    part is [junk k], for a [junk] that the properties quantify over.
    [g_realloc] keeps the old content up to the smaller of the two sizes. *)
Definition g_malloc (junk : Z -> byte) (n : Z) : option (list byte) :=
  if n =? 0 then None else Some (map junk (seqZ 0 n)).

Definition g_realloc (junk : Z -> byte) (mem : list byte) (n : Z)
    : option (list byte) :=
  if n =? 0 then None
  else Some (take (Z.to_nat n) mem
             ++ map junk (seqZ (Z.of_nat (length mem)) (n - Z.of_nat (length mem)))).

(** The bytes a pointer gives access to: none through [NULL]. *)
Definition pointee (p : option (list byte)) : list byte :=
  match p with Some mem => mem | None => [] end.

Definition msg_no_memory : string := "Not enough memory".

(** [sizeof (VtfContext)] with 8-byte pointers: five pointers and two
    [guint]. *)
Definition sizeof_VtfContext : Z := 48.

(** [gdk_pixbuf__vtf_image_begin_load]: the new context, or [NULL] with the
    error set. *)
Definition gdk_pixbuf__vtf_image_begin_load (junk : Z -> byte)
    : option VtfContext * list event :=
  match g_malloc junk sizeof_VtfContext with
  | None =>
      (None, [EvSetError GDK_PIXBUF_ERROR_INSUFFICIENT_MEMORY msg_no_memory])
  | Some _ =>
      let buffer_size := 1000000 in
      (Some {| buffer := pointee (g_malloc junk buffer_size);
               buffer_size := buffer_size;
               buffer_data_size := 0 |}, [])
  end.

(** [while (buffer_data_size > buffer_size) buffer_size *= 2;] on [guint].
    Running out of fuel gives [None]. *)
Fixpoint grow_loop (fuel : nat) (data_size size : Z) : option Z :=
  match fuel with
  | O => None
  | S fuel' =>
      if size <? data_size then grow_loop fuel' data_size (u32 (size * 2))
      else Some size
  end.

(** [memcpy (dst + off, src, n)]: [None] when the [n] bytes do not lie
    inside both arrays. *)
Definition memcpy_at (dst : list byte) (off : Z) (src : list byte) (n : Z)
    : option (list byte) :=
  if (0 <=? off) && (off + n <=? Z.of_nat (length dst))
     && (0 <=? n) && (n <=? Z.of_nat (length src))
  then Some (take (Z.to_nat off) dst ++ take (Z.to_nat n) src
             ++ drop (Z.to_nat (off + n)) dst)
  else None.

(** What a call of [gdk_pixbuf__vtf_image_load_increment] leaves behind:
    its return value, the context and the events; [IncFault] when the copy
    reaches outside an array; [IncNoFuel] when the doubling loop did not end
    within the fuel given. *)
Inductive inc_outcome :=
| IncReturned (retval : bool) (context : VtfContext) (trace : list event)
| IncFault
| IncNoFuel.

(** The last statement of [load_increment]:
    [memcpy (buffer + buffer_data_size - size, data, size)].  The pointer
    arithmetic is not reduced modulo 2^32. *)
Definition append_data (context : VtfContext) (data : list byte) (size : Z)
    : inc_outcome :=
  match memcpy_at (buffer context) (buffer_data_size context - size) data size with
  | None => IncFault
  | Some mem =>
      IncReturned true
        {| buffer := mem; buffer_size := buffer_size context;
           buffer_data_size := buffer_data_size context |} []
  end.

(** [gdk_pixbuf__vtf_image_load_increment (context, data, size, error)].
    [fuel] bounds the rounds of the doubling loop. *)
Definition gdk_pixbuf__vtf_image_load_increment (fuel : nat) (junk : Z -> byte)
    (context : VtfContext) (data : list byte) (size : Z) : inc_outcome :=
  let data_size := u32 (buffer_data_size context + size) in
  if buffer_size context <? data_size then
    match grow_loop fuel data_size (buffer_size context) with
    | None => IncNoFuel
    | Some new_size =>
        match g_realloc junk (buffer context) new_size with
        | None =>
            IncReturned false
              {| buffer := []; buffer_size := new_size;
                 buffer_data_size := data_size |}
              [EvSetError GDK_PIXBUF_ERROR_INSUFFICIENT_MEMORY msg_no_memory]
        | Some mem =>
            append_data
              {| buffer := mem; buffer_size := new_size;
                 buffer_data_size := data_size |} data size
        end
    end
  else
    append_data
      {| buffer := buffer context; buffer_size := buffer_size context;
         buffer_data_size := data_size |} data size.

(** *** A loader session *)

(** The calls a client makes after [begin_load]: one [load_increment] per
    chunk, with the length of the chunk as [size], as long as they return
    [TRUE]. *)
Fixpoint feed (fuel : nat) (junk : Z -> byte) (context : VtfContext)
    (chunks : list (list byte)) : inc_outcome :=
  match chunks with
  | [] => IncReturned true context []
  | data :: rest =>
      match gdk_pixbuf__vtf_image_load_increment fuel junk context data
              (Z.of_nat (length data)) with
      | IncReturned true context' _ => feed fuel junk context' rest
      | o => o
      end
  end.

(** A context as the loader keeps it: the buffer has [buffer_size] bytes,
    of which [buffer_data_size] are in use, and [buffer_size] is the
    initial size doubled some times without leaving [guint]. *)
Definition capacity (k : Z) : Z := 1000000 * 2 ^ k.

(** The largest capacity that fits [guint]. *)
Definition max_capacity : Z := 4096000000.

Record context_ok (ctx : VtfContext) : Prop := {
  ok_length : Z.of_nat (length (buffer ctx)) = buffer_size ctx;
  ok_data   : 0 <= buffer_data_size ctx <= buffer_size ctx;
  ok_size   : exists k, 0 <= k <= 12 /\ buffer_size ctx = capacity k
}.

(** The values [buffer_size] goes through when the initial size is doubled
    on [guint]: the capacities, then what is left of them modulo 2^32,
    then 0. *)
Fixpoint doublings (n : nat) (s : Z) : list Z :=
  match n with
  | O => []
  | S n' => s :: doublings n' (u32 (s * 2))
  end.

Definition size_orbit : list Z := doublings 27 1000000.

(** A context whose buffer is exactly the file. *)
Definition whole_file (file : list byte) : VtfContext :=
  {| buffer := file; buffer_size := Z.of_nat (length file);
     buffer_data_size := Z.of_nat (length file) |}.

(* ===================================================================== *)
(** ** Machine arithmetic and the mip sizes *)
(* ===================================================================== *)

Lemma u32_range (x : Z) : 0 <= u32 x < two32.
Proof. unfold u32, two32. apply Z.mod_pos_bound. lia. Qed.

Lemma u32_small (x : Z) : 0 <= x < two32 -> u32 x = x.
Proof. intros H. unfold u32. apply Z.mod_small. exact H. Qed.

Lemma u32_mul_l (a b : Z) : u32 (u32 a * b) = u32 (a * b).
Proof. unfold u32, two32. apply Z.mul_mod_idemp_l. lia. Qed.

Lemma u32_mul_r (a b : Z) : u32 (a * u32 b) = u32 (a * b).
Proof. unfold u32, two32. apply Z.mul_mod_idemp_r. lia. Qed.

Lemma u32_add_l (a b : Z) : u32 (u32 a + b) = u32 (a + b).
Proof. unfold u32, two32. apply Z.add_mod_idemp_l. lia. Qed.

Lemma shiftr_bounds (v n : Z) : 0 <= v -> 0 <= n -> 0 <= Z.shiftr v n <= v.
Proof.
  intros Hv Hn. rewrite Z.shiftr_div_pow2 by exact Hn.
  assert (0 < 2 ^ n) by (apply Z.pow_pos_nonneg; lia).
  split.
  - apply Z.div_pos; lia.
  - apply Z.div_le_upper_bound; nia.
Qed.

(** On 32-bit operands [shr] is the unbounded shift. *)
Lemma shr_shiftr (v n : Z) : 0 <= v < two32 -> 0 <= n -> shr v n = Z.shiftr v n.
Proof.
  intros Hv Hn. unfold shr. destruct (32 <=? n) eqn:E; [|reflexivity].
  apply Z.leb_le in E. symmetry.
  rewrite Z.shiftr_div_pow2 by exact Hn. apply Z.div_small.
  split; [lia|]. apply Z.lt_le_trans with (2 ^ 32).
  - unfold two32 in Hv. change (2 ^ 32) with 4294967296. lia.
  - apply Z.pow_le_mono_r; lia.
Qed.

Lemma clamp_mip_dim (v n : Z) :
  0 <= v < two32 -> 0 <= n ->
  (if u32 (shr v n) <? 1 then 1 else u32 (shr v n)) = mip_dim v n.
Proof.
  intros Hv Hn. rewrite shr_shiftr by assumption.
  pose proof (shiftr_bounds v n ltac:(lia) Hn) as Hb.
  rewrite u32_small by lia. unfold mip_dim.
  destruct (Z.shiftr v n <? 1) eqn:E.
  - apply Z.ltb_lt in E. lia.
  - apply Z.ltb_ge in E. lia.
Qed.

Lemma clamp_mip_dim' (v n : Z) :
  0 <= v < two32 -> 0 <= n ->
  (if shr v n <? 1 then 1 else shr v n) = mip_dim v n.
Proof.
  intros Hv Hn. rewrite <- clamp_mip_dim by assumption.
  rewrite shr_shiftr by assumption.
  pose proof (shiftr_bounds v n ltac:(lia) Hn) as Hb.
  rewrite u32_small by lia. reflexivity.
Qed.

Lemma mip_dim_bounds (v n : Z) : 0 <= v -> 0 <= n -> 1 <= mip_dim v n <= Z.max 1 v.
Proof.
  intros Hv Hn. pose proof (shiftr_bounds v n Hv Hn). unfold mip_dim. lia.
Qed.

Lemma ceil_div_4 (a : Z) : 0 <= a -> (a + 3) / 4 = ceil_div a 4.
Proof. intros Ha. unfold ceil_div. Z.to_euclidean_division_equations. lia. Qed.

(** The machine computation of [vtf_mip_size], before any reduction modulo
    [2^32] is dropped. *)
Lemma vtf_mip_size_mod (h : VtfHeader) (level d : Z) :
  header_in_range h -> 0 <= level -> 0 <= d < two32 ->
  vtf_mip_size h level d = u32 (mip_size_spec h level d).
Proof.
  intros Hr Hl Hd. destruct Hr.
  unfold vtf_mip_size, mip_size_spec.
  rewrite !clamp_mip_dim by (unfold two16, two32 in *; lia).
  rewrite clamp_mip_dim' by lia.
  pose proof (mip_dim_bounds (width h) level ltac:(lia) Hl) as HW.
  pose proof (mip_dim_bounds (height h) level ltac:(lia) Hl) as HH.
  set (W := mip_dim (width h) level) in *.
  set (H := mip_dim (height h) level) in *.
  set (D := mip_dim d level).
  assert (EW : u32 (W + 3) / 4 = ceil_div W 4).
  { rewrite u32_small by (unfold two16, two32 in *; lia). apply ceil_div_4. lia. }
  assert (EH : u32 (H + 3) / 4 = ceil_div H 4).
  { rewrite u32_small by (unfold two16, two32 in *; lia). apply ceil_div_4. lia. }
  unfold slice_cost, IMAGE_FORMAT_RGBA8888, IMAGE_FORMAT_ABGR8888,
    IMAGE_FORMAT_RGB888, IMAGE_FORMAT_BGR888, IMAGE_FORMAT_RGB565,
    IMAGE_FORMAT_I8, IMAGE_FORMAT_IA88, IMAGE_FORMAT_A8, IMAGE_FORMAT_DXT1,
    IMAGE_FORMAT_DXT5, IMAGE_FORMAT_ARGB8888, IMAGE_FORMAT_BGRA8888.
  rewrite EW, EH.
  repeat match goal with
         | |- context [?a =? ?b] => destruct (a =? b) eqn:?; simpl
         end;
    repeat match goal with
           | E : (_ =? _) = true |- _ => apply Z.eqb_eq in E
           | E : (_ =? _) = false |- _ => apply Z.eqb_neq in E
           end;
    try (exfalso; lia);
    rewrite ?u32_mul_l; try reflexivity;
    match goal with
    | |- u32 (u32 ?a * ?b * ?c) = _ =>
        replace (u32 a * b * c) with (u32 a * (b * c)) by ring;
        rewrite u32_mul_l; apply (f_equal u32); ring
    end.
Qed.

Lemma vtf_mip_size_range (h : VtfHeader) (level d : Z) :
  0 <= vtf_mip_size h level d < two32.
Proof. unfold vtf_mip_size. apply u32_range. Qed.

(** C2 as stated fails where the 32-bit product wraps: a 32768 x 32768
    RGBA8888 image has mip size 0 at level 0, not 2^32. *)
Lemma mip_size_wraps :
  vtf_mip_size hdr_huge 0 1 = 0
  /\ mip_size_spec hdr_huge 0 1 = 4294967296
  /\ vtf_mip_size hdr_huge 0 1 <> mip_size_spec hdr_huge 0 1.
Proof. vm_compute. repeat split. discriminate. Qed.

(** C2 (amended): for every header and every mip level below 32 (the
    shift counts C gives a meaning), [vtf_mip_size] is the per-format cost
    of a mipWidth x mipHeight slice times mipDepth, where each dimension is
    [max(1, dim >> level)], computed on 32-bit unsigned integers, that is
    reduced modulo 2^32; it is that product itself whenever the product is
    below 2^32. *)
Theorem mip_size_is_spec_mod_2_32 (h : VtfHeader) (level d : Z) :
  header_in_range h -> 0 <= level < 32 -> 0 <= d < two32 ->
  vtf_mip_size h level d = mip_size_spec h level d mod 2 ^ 32
  /\ (mip_size_spec h level d < 2 ^ 32 ->
      vtf_mip_size h level d = mip_size_spec h level d).
Proof.
  intros Hr [Hl Hl32] Hd.
  pose proof (vtf_mip_size_mod h level d Hr Hl Hd) as E.
  split; [exact E|].
  intros Hfit. rewrite E. apply u32_small. split; [|exact Hfit].
  destruct Hr. unfold mip_size_spec.
  pose proof (mip_dim_bounds (width h) level ltac:(lia) Hl).
  pose proof (mip_dim_bounds (height h) level ltac:(lia) Hl).
  pose proof (mip_dim_bounds d level ltac:(lia) Hl).
  assert (0 <= slice_cost (highResImageFormat h)
                 (mip_dim (width h) level) (mip_dim (height h) level)).
  { unfold slice_cost, ceil_div.
    repeat match goal with
           | |- context [if ?b then _ else _] => destruct b
           end; try nia.
    all: assert (0 <= - (- mip_dim (width h) level / 4))
           by (Z.to_euclidean_division_equations; lia);
         assert (0 <= - (- mip_dim (height h) level / 4))
           by (Z.to_euclidean_division_equations; lia); nia. }
  nia.
Qed.

Lemma mip_size_is_spec_mod_2_32_witness :
  vtf_mip_size hdr_dxt1 1 1 = 8 /\ mip_size_spec hdr_dxt1 1 1 = 8.
Proof.
  assert (Hr : header_in_range hdr_dxt1)
    by (split; vm_compute; split; congruence).
  destruct (mip_size_is_spec_mod_2_32 hdr_dxt1 1 1 Hr) as [_ E].
  - lia.
  - vm_compute. split; congruence.
  - split; [|reflexivity]. rewrite E; [reflexivity | vm_compute; reflexivity].
Defined.

(* ===================================================================== *)
(** ** The offset computation *)
(* ===================================================================== *)

Lemma Zsum_app (l1 l2 : list Z) : Zsum (l1 ++ l2) = Zsum l1 + Zsum l2.
Proof. unfold Zsum. induction l1 as [|a l1 IH]; simpl; lia. Qed.

Lemma Zsum_map_scale (c : Z) (f : Z -> Z) (l : list Z) :
  Zsum (map (fun i => c * f i) l) = c * Zsum (map f l).
Proof. unfold Zsum. induction l as [|a l IH]; simpl; lia. Qed.

Lemma Zsum_map_nonneg (f : Z -> Z) (l : list Z) :
  (forall i, 0 <= f i) -> 0 <= Zsum (map f l).
Proof.
  intros Hf. unfold Zsum. induction l as [|a l IH]; simpl; [lia|].
  specialize (Hf a). lia.
Qed.

Lemma seqZ_empty (m n : Z) : n <= 0 -> seqZ m n = [].
Proof.
  intros Hn. unfold seqZ. replace (Z.to_nat n) with O by lia. reflexivity.
Qed.

Lemma seqZ_snoc (m n : Z) : 0 <= n -> seqZ m (n + 1) = seqZ m n ++ [m + n].
Proof.
  intros Hn. rewrite seqZ_app by lia. f_equal.
Qed.

(** The loop adds the mip sizes above [m], from the top index down; the
    fuel [i - m] is exactly the number of rounds. *)
Lemma offset_loop_sum (h : VtfHeader) (m : Z) (n : nat) :
  forall i off,
    Z.of_nat n = Z.max 0 (i - m) ->
    u32 (offset_loop n h m i off)
    = u32 (off + Zsum (map (fun k => vtf_mip_size h (u32 k) (depth h))
                           (seqZ (m + 1) (i - m)))).
Proof.
  induction n as [|n IH]; intros i off Hn.
  - simpl. rewrite seqZ_empty by lia. simpl. f_equal. unfold Zsum. simpl. lia.
  - simpl. destruct (m <? i) eqn:E; [|apply Z.ltb_ge in E; lia].
    rewrite IH by lia.
    replace (i - m) with ((i - 1 - m) + 1) by lia.
    rewrite seqZ_snoc by lia. rewrite map_app, Zsum_app. simpl.
    replace (m + 1 + (i - 1 - m)) with i by lia.
    rewrite u32_add_l. apply (f_equal u32). unfold Zsum. simpl. lia.
Qed.

(** With more fuel than rounds the loop gives the same result: it leaves by
    its test. *)
Lemma offset_loop_fuel (h : VtfHeader) (m : Z) (n : nat) :
  forall i off k,
    Z.of_nat n = Z.max 0 (i - m) ->
    offset_loop (n + k) h m i off = offset_loop n h m i off.
Proof.
  induction n as [|n IH]; intros i off k Hn.
  - simpl. destruct k; simpl; [reflexivity|].
    destruct (m <? i) eqn:E; [apply Z.ltb_lt in E; lia | reflexivity].
  - simpl. destruct (m <? i) eqn:E; [|reflexivity].
    apply IH. lia.
Qed.

Lemma u32_add3 (a b c : Z) : u32 (u32 a + u32 b + u32 c) = u32 (a + b + c).
Proof.
  unfold u32, two32.
  rewrite (Z.add_mod (a + b) c), (Z.add_mod a b) by lia.
  rewrite (Z.add_mod (_ + _) (c mod _)) by lia.
  rewrite (Z.mod_mod c) by lia. reflexivity.
Qed.

Lemma vtf_offset_mod (h : VtfHeader) (frame face slice m : Z) :
  vtf_offset h frame face slice m = u32 (offset_spec h frame face slice m).
Proof.
  unfold vtf_offset, offset_spec, mip_sum, mips_above. cbv zeta.
  set (L := offset_loop _ h m _ 0).
  set (S := Zsum _).
  assert (EL : u32 L = u32 S).
  { unfold L, S. rewrite offset_loop_sum by lia. apply (f_equal u32). lia. }
  set (V := vtf_mip_size h (u32 m) (depth h)).
  set (T := vtf_mip_size h (u32 m) 1).
  rewrite (u32_add_l (u32 _ + u32 _)).
  rewrite (u32_add_l (frame * 1)).
  rewrite (u32_mul_r L), (u32_mul_r V).
  rewrite <- (u32_mul_l L), EL, u32_mul_l.
  rewrite u32_add3.
  apply (f_equal u32). ring.
Qed.

Lemma mip_index_u32 (i : Z) : 0 <= i < two8 -> u32 i = i.
Proof. intros H. apply u32_small. unfold two8, two32 in *. lia. Qed.

Lemma mip_sum_nonneg (h : VtfHeader) (m : Z) : 0 <= mip_sum h m.
Proof.
  unfold mip_sum. apply Zsum_map_nonneg. intros i. apply vtf_mip_size_range.
Qed.

(** Lowering the level adds the sizes of the levels in between. *)
Lemma mip_sum_split (h : VtfHeader) (m' m : Z) :
  m' <= m <= mipmapCount h - 1 ->
  mip_sum h m'
  = Zsum (map (fun i => vtf_mip_size h (u32 i) (depth h)) (seqZ (m' + 1) (m - m')))
    + mip_sum h m.
Proof.
  intros Hm. unfold mip_sum, mips_above.
  replace (mipmapCount h - 1 - m') with ((m - m') + (mipmapCount h - 1 - m)) by lia.
  rewrite seqZ_app by lia. rewrite map_app, Zsum_app.
  replace (m' + 1 + (m - m')) with (m + 1) by lia. reflexivity.
Qed.

Lemma mip_sum_antitone (h : VtfHeader) (m' m : Z) :
  m' <= m -> mip_sum h m <= mip_sum h m'.
Proof.
  intros Hm. destruct (Z_le_gt_dec m (mipmapCount h - 1)) as [Hle|Hgt].
  - rewrite (mip_sum_split h m' m) by lia.
    pose proof (Zsum_map_nonneg (fun i => vtf_mip_size h (u32 i) (depth h))
                  (seqZ (m' + 1) (m - m'))
                  (fun i => proj1 (vtf_mip_size_range h (u32 i) (depth h)))).
    lia.
  - unfold mip_sum at 1, mips_above. rewrite seqZ_empty by lia.
    simpl. apply mip_sum_nonneg.
Qed.

Lemma region_length_mip_sum (h : VtfHeader) :
  header_in_range h -> region_length h = mip_sum h (-1) * frames h.
Proof.
  intros Hr. unfold region_length, mip_sum, mips_above.
  rewrite Zsum_map_scale.
  replace (mipmapCount h - 1 - -1) with (mipmapCount h) by lia.
  replace (-1 + 1) with 0 by lia.
  rewrite Z.mul_comm. f_equal. f_equal.
  apply map_ext_in. intros i Hi.
  apply list_elem_of_In, elem_of_seqZ in Hi.
  rewrite mip_index_u32; [reflexivity|]. destruct Hr. lia.
Qed.

Lemma vtf_offset_exact (h : VtfHeader) (m : Z) :
  header_in_range h -> region_length h < two32 -> -1 <= m ->
  vtf_offset h 0 0 0 m = mip_sum h m * frames h.
Proof.
  intros Hr Hfit Hm. rewrite vtf_offset_mod. unfold offset_spec.
  rewrite !Z.mul_0_r, !Z.add_0_r, Z.mul_1_r.
  apply u32_small.
  pose proof (mip_sum_nonneg h m). pose proof (mip_sum_antitone h (-1) m Hm).
  rewrite (region_length_mip_sum h Hr) in Hfit.
  destruct Hr. nia.
Qed.

(** C1 as stated fails where the 32-bit sum wraps: with seven frames of a
    16384 x 16384 RGBA8888 texture with two mip levels, the offset of level
    -1 is smaller than the offset of level 0 and is not the length of the
    region. *)
Lemma vtf_offset_wraps :
  vtf_offset hdr_seven_frames 0 0 0 (-1) = 805306368
  /\ vtf_offset hdr_seven_frames 0 0 0 0 = 1879048192
  /\ offset_spec hdr_seven_frames 0 0 0 (-1) = 9395240960
  /\ region_length hdr_seven_frames = 9395240960
  /\ ~ (vtf_offset hdr_seven_frames 0 0 0 0 <= vtf_offset hdr_seven_frames 0 0 0 (-1)).
Proof. vm_compute. repeat split; congruence. Qed.

(** C1 (amended): [vtf_offset] is the stated expression (sum of the mip
    sizes above the level times frames times faceCount, plus the volume and
    slice terms) computed on 32-bit unsigned integers, that is modulo 2^32,
    and it is the expression itself when that is below 2^32.  When the whole
    region is shorter than 2^32 bytes, [offset(0,0,0,-1)] is the length of
    the region, it is [offset(0,0,0,0) + frames * mipSize(0, depth)] when
    there is a mip level, and the offsets do not decrease as the level
    decreases to -1. *)
Theorem vtf_offset_is_spec_mod_2_32 (h : VtfHeader) :
  header_in_range h ->
  (forall frame face slice m,
      vtf_offset h frame face slice m = offset_spec h frame face slice m mod 2 ^ 32
      /\ (0 <= offset_spec h frame face slice m < 2 ^ 32 ->
          vtf_offset h frame face slice m = offset_spec h frame face slice m))
  /\ (region_length h < 2 ^ 32 ->
      vtf_offset h 0 0 0 (-1) = region_length h
      /\ (1 <= mipmapCount h ->
          vtf_offset h 0 0 0 (-1)
          = vtf_offset h 0 0 0 0 + frames h * vtf_mip_size h 0 (depth h))
      /\ (forall m m', -1 <= m' <= m ->
            vtf_offset h 0 0 0 m <= vtf_offset h 0 0 0 m')).
Proof.
  intros Hr. split.
  - intros frame face slice m. split.
    + apply vtf_offset_mod.
    + intros Hfit. rewrite vtf_offset_mod. apply u32_small. exact Hfit.
  - intros Hfit. change (2 ^ 32) with two32 in Hfit. repeat split.
    + rewrite vtf_offset_exact by (assumption || lia).
      symmetry. apply region_length_mip_sum. exact Hr.
    + intros Hm. rewrite !vtf_offset_exact by (assumption || lia).
      rewrite (mip_sum_split h (-1) 0) by lia.
      change (seqZ (-1 + 1) (0 - -1)) with [0]. simpl.
      unfold Zsum. simpl. change (u32 0) with 0. lia.
    + intros m m' Hm. rewrite !vtf_offset_exact by (assumption || lia).
      pose proof (mip_sum_antitone h m' m ltac:(lia)).
      destruct Hr. nia.
Qed.

Lemma vtf_offset_is_spec_mod_2_32_witness :
  vtf_offset hdr_four_mips 0 0 0 (-1) = 680
  /\ region_length hdr_four_mips = 680
  /\ vtf_offset hdr_four_mips 0 0 0 (-1) = vtf_offset hdr_four_mips 0 0 0 0 + 2 * 256
  /\ vtf_offset hdr_four_mips 0 0 0 2 <= vtf_offset hdr_four_mips 0 0 0 1.
Proof.
  assert (Hr : header_in_range hdr_four_mips)
    by (split; vm_compute; split; congruence).
  destruct (vtf_offset_is_spec_mod_2_32 hdr_four_mips Hr) as [_ Hx].
  destruct Hx as (E1 & E2 & E3); [vm_compute; reflexivity|].
  split; [|split; [|split]].
  - rewrite E1. vm_compute. reflexivity.
  - vm_compute. reflexivity.
  - rewrite E2; [reflexivity | vm_compute; congruence].
  - apply E3. lia.
Defined.

(* ===================================================================== *)
(** ** Reading the header *)
(* ===================================================================== *)

Lemma byte_val_range (b : byte) : 0 <= byte_val b < 256.
Proof.
  unfold byte_val. pose proof (Byte.to_N_bounded b). lia.
Qed.

Lemma le_value_range (bs : list byte) : 0 <= le_value bs < 256 ^ Z.of_nat (length bs).
Proof.
  induction bs as [|b bs IH]; simpl length; simpl le_value.
  - simpl. lia.
  - rewrite Nat2Z.inj_succ, Z.pow_succ_r by lia.
    pose proof (byte_val_range b). lia.
Qed.

Lemma field_length (buf : list byte) (off len : nat) :
  (off + len <= length buf)%nat -> length (field buf off len) = len.
Proof.
  intros H. unfold field. rewrite length_take, length_drop. lia.
Qed.

Lemma field_value_range (buf : list byte) (off len : nat) :
  (off + len <= length buf)%nat ->
  0 <= le_value (field buf off len) < 256 ^ Z.of_nat len.
Proof.
  intros H. pose proof (le_value_range (field buf off len)) as R.
  rewrite field_length in R by exact H. exact R.
Qed.

Lemma read_header_Some (buf : list byte) :
  sizeof_VtfHeader <= Z.of_nat (length buf) ->
  exists h, read_header buf = Some h.
Proof.
  intros H. unfold read_header.
  destruct (Z.of_nat (length buf) <? sizeof_VtfHeader) eqn:E.
  - apply Z.ltb_lt in E. lia.
  - eexists. reflexivity.
Qed.

Lemma read_header_in_range (buf : list byte) (h : VtfHeader) :
  read_header buf = Some h -> header_in_range h.
Proof.
  unfold read_header, sizeof_VtfHeader.
  destruct (Z.of_nat (length buf) <? 68) eqn:E; [discriminate|].
  apply Z.ltb_ge in E. intros [= <-].
  split; simpl;
    match goal with
    | |- _ <= le_value (field _ ?o ?l) < _ =>
        pose proof (field_value_range buf o l ltac:(lia)) as R;
        unfold two8, two16, two32;
        simpl in R; lia
    end.
Qed.

Lemma read_header_signature (buf : list byte) (h : VtfHeader) :
  read_header buf = Some h -> signature h = take 4 buf.
Proof.
  unfold read_header.
  destruct (Z.of_nat (length buf) <? sizeof_VtfHeader); [discriminate|].
  intros [= <-]. reflexivity.
Qed.

Lemma byte_val_inj (a b : byte) : byte_val a = byte_val b -> a = b.
Proof.
  unfold byte_val. intros H.
  assert (E : Byte.to_N a = Byte.to_N b) by lia.
  pose proof (Byte.of_to_N a) as Ha. pose proof (Byte.of_to_N b) as Hb.
  rewrite E in Ha. congruence.
Qed.

(** The test of the signature compares the four characters with ['V'],
    ['T'], ['F'] and [0]. *)
Lemma bad_header_iff (buf : list byte) (h : VtfHeader) :
  read_header buf = Some h ->
  bad_header h = true <-> take 4 buf <> vtf_signature \/ frames h = 0.
Proof.
  intros Hh. pose proof (read_header_signature buf h Hh) as Hs.
  assert (Hlen : length (signature h) = 4%nat).
  { unfold read_header, sizeof_VtfHeader in Hh.
    destruct (Z.of_nat (length buf) <? 68) eqn:E; [discriminate|].
    apply Z.ltb_ge in E. rewrite Hs, length_take. lia. }
  unfold bad_header, sig_char. rewrite <- Hs.
  destruct (signature h) as [|a [|b [|c [|d [|e l]]]]]; try discriminate.
  simpl nth. unfold vtf_signature.
  rewrite !orb_true_iff, !negb_true_iff, !Z.eqb_neq, Z.eqb_eq.
  change 86 with (byte_val x56). change 84 with (byte_val x54).
  change 70 with (byte_val x46). change 0 with (byte_val x00) at 1.
  split.
  - intros [[[[H|H]|H]|H]|H]; [left; intros [= -> -> -> ->]; congruence ..|right; exact H].
  - intros [H|H]; [|right; exact H]. left.
    destruct (decide (byte_val a = byte_val x56)) as [Ea|Ea]; [|tauto].
    destruct (decide (byte_val b = byte_val x54)) as [Eb|Eb]; [|tauto].
    destruct (decide (byte_val c = byte_val x46)) as [Ec|Ec]; [|tauto].
    right. intros Ed. apply H.
    apply byte_val_inj in Ea, Eb, Ec, Ed. congruence.
Qed.

Lemma good_header (buf : list byte) (h : VtfHeader) :
  read_header buf = Some h ->
  take 4 buf = vtf_signature -> frames h <> 0 -> bad_header h = false.
Proof.
  intros Hh Hs Hf. destruct (bad_header h) eqn:E; [|reflexivity].
  destruct (proj1 (bad_header_iff buf h Hh) E); contradiction.
Qed.

(* ===================================================================== *)
(** ** The frame loop and the trace *)
(* ===================================================================== *)

Ltac unfold_formats :=
  unfold IMAGE_FORMAT_RGBA8888, IMAGE_FORMAT_ABGR8888, IMAGE_FORMAT_RGB888,
    IMAGE_FORMAT_BGR888, IMAGE_FORMAT_RGB565, IMAGE_FORMAT_I8,
    IMAGE_FORMAT_IA88, IMAGE_FORMAT_A8, IMAGE_FORMAT_DXT1, IMAGE_FORMAT_DXT5,
    IMAGE_FORMAT_ARGB8888, IMAGE_FORMAT_BGRA8888 in *.

Lemma load_frame_unsupported (h : VtfHeader) (ctx : VtfContext) (p : Z) :
  supported (highResImageFormat h) = false ->
  gdk_pixbuf__vtf_load_frame h ctx p
  = Some (None, [ EvPrintf msg_unsupported_format (to_int (highResImageFormat h));
                  EvSetError GDK_PIXBUF_ERROR_CORRUPT_IMAGE msg_cant_read ]).
Proof.
  unfold supported, supported_formats, gdk_pixbuf__vtf_load_frame.
  simpl existsb. unfold_formats. intros H.
  repeat (apply orb_false_elim in H; destruct H as [? H]).
  repeat match goal with E : (_ =? _) = false |- _ => rewrite E; clear E end.
  reflexivity.
Qed.

(** A loop whose rounds change nothing ends in the state it began in. *)
Lemma for_lt_idle {S : Type} (bound step : Z) (body : Z -> S -> option S) (s : S) :
  0 < step -> (forall i, body i s = Some s) ->
  forall (fuel : nat) i,
    Z.max 0 (bound - i) < Z.of_nat fuel ->
    for_lt fuel i bound step body s = Some s.
Proof.
  intros Hstep Hbody. induction fuel as [|fuel IH]; intros i Hf; [lia|].
  simpl. destruct (i <? bound) eqn:E; [|reflexivity].
  apply Z.ltb_lt in E. rewrite Hbody. simpl. apply IH. lia.
Qed.

Lemma for_loop_idle {S : Type} (bound step : Z) (body : Z -> S -> option S) (s : S) :
  0 < step -> (forall i, body i s = Some s) ->
  for_loop bound step body s = Some s.
Proof.
  intros Hstep Hbody. unfold for_loop. apply for_lt_idle; [assumption..|lia].
Qed.

Lemma for_loop_empty {S : Type} (bound step : Z) (body : Z -> S -> option S) (s : S) :
  bound <= 0 -> for_loop bound step body s = Some s.
Proof.
  intros Hb. unfold for_loop. simpl.
  destruct (0 <? bound) eqn:E; [apply Z.ltb_lt in E; lia | reflexivity].
Qed.

Lemma gdk_pixbuf_new_null (alpha : bool) (w h : Z) :
  gdk_pixbuf_new alpha w h = None <-> (w <= 0 \/ h <= 0).
Proof.
  unfold gdk_pixbuf_new.
  destruct (0 <? w) eqn:Ew; destruct (0 <? h) eqn:Eh; simpl;
    rewrite ?Z.ltb_lt, ?Z.ltb_ge in *; split; intros H; try discriminate;
    try reflexivity; lia.
Qed.

(** With a width or height that is not positive no round of the two loops
    touches a pixel or the buffer, and the frame comes back [NULL]. *)
Lemma decode_with_null (hd : VtfHeader) (ctx : VtfContext) (alpha : bool)
    (step : Z) (body : list byte -> Z -> Z -> Z -> dstate -> option dstate)
    (p : Z) :
  0 < step -> width hd <= 0 \/ height hd <= 0 ->
  decode_with hd ctx alpha step body p = Some None.
Proof.
  intros Hstep Hdim. unfold decode_with.
  rewrite (proj2 (gdk_pixbuf_new_null alpha _ _) Hdim).
  destruct (Z_le_gt_dec (height hd) 0) as [Hh|Hh].
  - rewrite for_loop_empty by exact Hh. reflexivity.
  - rewrite for_loop_idle; [reflexivity | exact Hstep |].
    intros i. apply for_loop_empty. lia.
Qed.

(** A frame that comes back is [NULL] exactly when the width or the height
    is not positive. *)
Lemma decode_with_result (hd : VtfHeader) (ctx : VtfContext) (alpha : bool)
    (step : Z) (body : list byte -> Z -> Z -> Z -> dstate -> option dstate)
    (p : Z) (pixbuf : option GdkPixbuf) :
  decode_with hd ctx alpha step body p = Some pixbuf ->
  (pixbuf = None <-> (width hd <= 0 \/ height hd <= 0)).
Proof.
  unfold decode_with. destruct (for_loop _ _ _ _) as [st|]; [|discriminate].
  simpl. intros [= <-].
  rewrite <- (gdk_pixbuf_new_null alpha).
  destruct (gdk_pixbuf_new alpha (width hd) (height hd)); simpl;
    split; intros H; congruence.
Qed.

Lemma decode_with_Some (hd : VtfHeader) (ctx : VtfContext) (alpha : bool)
    (step : Z) (body : list byte -> Z -> Z -> Z -> dstate -> option dstate)
    (p : Z) (pb : GdkPixbuf) :
  decode_with hd ctx alpha step body p = Some (Some pb) ->
  0 < width hd /\ 0 < height hd.
Proof.
  intros H. pose proof (decode_with_result _ _ _ _ _ _ _ H) as Hn.
  destruct (Z_le_gt_dec (width hd) 0) as [Hw|Hw];
    [discriminate (proj2 Hn (or_introl Hw))|].
  destruct (Z_le_gt_dec (height hd) 0) as [Hh|Hh];
    [discriminate (proj2 Hn (or_intror Hh))|].
  lia.
Qed.

(** The branch of a supported format sets no error; its frame is [NULL]
    exactly when the width or the height is not positive. *)
Lemma load_frame_supported (h : VtfHeader) (ctx : VtfContext) (p : Z) r :
  supported (highResImageFormat h) = true ->
  gdk_pixbuf__vtf_load_frame h ctx p = Some r ->
  exists pixbuf, r = (pixbuf, [])
    /\ (pixbuf = None <-> (width h <= 0 \/ height h <= 0)).
Proof.
  unfold supported, supported_formats, gdk_pixbuf__vtf_load_frame.
  simpl existsb. unfold_formats. intros H.
  repeat match goal with
         | |- context [if ?a =? ?b then _ else _] => destruct (a =? b) eqn:?
         end;
    try (simpl in H; discriminate H);
    match goal with
    | |- (_ ≫= _) = Some _ -> _ =>
        let E := fresh in
        destruct (decode_with _ _ _ _ _ _) eqn:E; simpl; [|discriminate];
        intros [= <-]; eexists; split; [reflexivity|];
        exact (decode_with_result _ _ _ _ _ _ _ E)
    end.
Qed.

(** The frame of a supported format with a width or height that is not
    positive: [NULL], no event. *)
Lemma load_frame_null (h : VtfHeader) (ctx : VtfContext) (p : Z) :
  supported (highResImageFormat h) = true ->
  width h <= 0 \/ height h <= 0 ->
  gdk_pixbuf__vtf_load_frame h ctx p = Some (None, []).
Proof.
  unfold supported, supported_formats, gdk_pixbuf__vtf_load_frame.
  simpl existsb. unfold_formats. intros H Hdim.
  repeat match goal with
         | |- context [if ?a =? ?b then _ else _] => destruct (a =? b) eqn:?
         end;
    try (simpl in H; discriminate H);
    rewrite decode_with_null by (assumption || lia); reflexivity.
Qed.

Lemma error_of_app_none (tr1 tr2 : list event) :
  error_of tr1 = None -> error_of (tr1 ++ tr2) = error_of tr2.
Proof.
  induction tr1 as [|e tr1 IH]; simpl; [reflexivity|].
  destruct e; try exact IH. discriminate.
Qed.

Lemma unref_in_app (tr1 tr2 : list event) :
  unref_in (tr1 ++ tr2) = unref_in tr1 || unref_in tr2.
Proof. unfold unref_in. apply existsb_app. Qed.

Lemma prepared_of_app (tr1 tr2 : list event) :
  prepared_of (tr1 ++ tr2) = prepared_of tr1 ++ prepared_of tr2.
Proof.
  induction tr1 as [|e tr1 IH]; simpl; [reflexivity|].
  destruct e; simpl; rewrite ?IH; reflexivity.
Qed.

Lemma added_of_app (tr1 tr2 : list event) :
  added_of (tr1 ++ tr2) = added_of tr1 ++ added_of tr2.
Proof.
  induction tr1 as [|e tr1 IH]; simpl; [reflexivity|].
  destruct e; simpl; rewrite ?IH; reflexivity.
Qed.



(** With a supported format the loop sets no error, and with positive
    dimensions it never drops the animation. *)
Lemma frames_loop_supported (h : VtfHeader) (ctx : VtfContext) (base : Z) (fuel : nat) :
  supported (highResImageFormat h) = true ->
  forall i tr tr',
    frames_loop h ctx fuel base i tr = Some tr' ->
    (0 < width h -> 0 < height h -> unref_in tr' = unref_in tr)
    /\ (error_of tr = None -> error_of tr' = None).
Proof.
  intros Hs. induction fuel as [|fuel IH]; intros i tr tr'; simpl; [discriminate|].
  destruct (i <? frames h); [|intros [= <-]; tauto].
  destruct (gdk_pixbuf__vtf_load_frame h ctx _) as [r|] eqn:E; simpl; [|discriminate].
  destruct (load_frame_supported h ctx _ r Hs E) as (pixbuf & -> & Hnull).
  destruct pixbuf as [pb|].
  - intros Hl. apply IH in Hl. destruct Hl as [Hu He]. split.
    + intros Hw Hh. rewrite (Hu Hw Hh). rewrite !unref_in_app. simpl.
      destruct (i =? 0); simpl; rewrite ?orb_false_r; reflexivity.
    + intros Hn. apply He. rewrite error_of_app_none by exact Hn.
      simpl. destruct (i =? 0); reflexivity.
  - intros [= <-]. split.
    + intros Hw Hh. destruct (proj1 Hnull eq_refl); lia.
    + intros Hn. rewrite error_of_app_none by exact Hn. reflexivity.
Qed.

(** With a supported format and a width or height that is not positive the
    first round gets a [NULL] frame: the animation is dropped and no error
    is set. *)
Lemma frames_loop_null (h : VtfHeader) (ctx : VtfContext) (base : Z) (fuel : nat) tr :
  supported (highResImageFormat h) = true ->
  width h <= 0 \/ height h <= 0 ->
  0 < frames h ->
  frames_loop h ctx (S fuel) base 0 tr
  = Some (tr ++ [EvLoadFrame (frame_pos h base 0); EvAnimUnref]).
Proof.
  intros Hs Hdim Hf. simpl.
  destruct (0 <? frames h) eqn:E; [|apply Z.ltb_ge in E; lia].
  rewrite load_frame_null by assumption. reflexivity.
Qed.

Lemma loads_of_app (tr1 tr2 : list event) :
  loads_of (tr1 ++ tr2) = loads_of tr1 ++ loads_of tr2.
Proof.
  induction tr1 as [|e tr1 IH]; simpl; [reflexivity|].
  destruct e; simpl; rewrite ?IH; reflexivity.
Qed.

(** With a supported format and positive dimensions a run that completes
    has read every frame, in order, from the position computed for it. *)
Lemma frames_loop_loads (h : VtfHeader) (ctx : VtfContext) (base : Z) (fuel : nat) :
  supported (highResImageFormat h) = true ->
  0 < width h -> 0 < height h ->
  forall i tr tr',
    frames_loop h ctx fuel base i tr = Some tr' ->
    loads_of tr' = loads_of tr ++ map (frame_pos h base) (seqZ i (frames h - i)).
Proof.
  intros Hs Hw Hh. induction fuel as [|fuel IH]; intros i tr tr'; simpl; [discriminate|].
  destruct (i <? frames h) eqn:E.
  - apply Z.ltb_lt in E.
    destruct (gdk_pixbuf__vtf_load_frame h ctx _) as [r|] eqn:El; simpl; [|discriminate].
    destruct (load_frame_supported h ctx _ r Hs El) as (pixbuf & -> & Hnull).
    destruct pixbuf as [pb|]; [|destruct (proj1 Hnull eq_refl); lia].
    intros Hl. apply IH in Hl. rewrite Hl.
    rewrite (seqZ_cons i) by lia. simpl map.
    replace (Z.succ i) with (i + 1) by lia.
    replace (Z.pred (frames h - i)) with (frames h - (i + 1)) by lia.
    rewrite !loads_of_app. simpl loads_of.
    assert (Ep : loads_of (if i =? 0 then [EvPrepared pb] else []) = [])
      by (destruct (i =? 0); reflexivity).
    rewrite Ep, <- app_assoc. reflexivity.
  - apply Z.ltb_ge in E. intros [= <-].
    rewrite seqZ_empty by lia. simpl. rewrite app_nil_r. reflexivity.
Qed.

(** The loop only adds events, and a round that is run begins with the
    decode of its frame. *)
Lemma frames_loop_extends (h : VtfHeader) (ctx : VtfContext) (base : Z) (fuel : nat) :
  forall i tr tr',
    frames_loop h ctx fuel base i tr = Some tr' ->
    exists more, tr' = tr ++ more.
Proof.
  induction fuel as [|fuel IH]; intros i tr tr'; simpl; [discriminate|].
  destruct (i <? frames h); [|intros [= <-]; exists []; rewrite app_nil_r; reflexivity].
  destruct (gdk_pixbuf__vtf_load_frame h ctx _) as [[[pb|] evs]|]; simpl;
    [| |discriminate].
  - intros Hl. apply IH in Hl. destruct Hl as [more ->].
    rewrite <- app_assoc. eauto.
  - intros [= <-]. eauto.
Qed.

Lemma frames_loop_first_load (h : VtfHeader) (ctx : VtfContext) (base : Z) (fuel : nat)
    (i : Z) (tr tr' : list event) :
  i < frames h ->
  frames_loop h ctx fuel base i tr = Some tr' ->
  exists rest, loads_of tr' = loads_of tr ++ frame_pos h base i :: rest.
Proof.
  intros Hi. destruct fuel as [|fuel]; simpl; [discriminate|].
  destruct (i <? frames h) eqn:E; [|apply Z.ltb_ge in E; lia].
  fold (frame_pos h base i).
  destruct (gdk_pixbuf__vtf_load_frame h ctx _) as [[[pb|] evs]|]; simpl;
    [| |discriminate].
  - intros Hl. apply frames_loop_extends in Hl. destruct Hl as [more ->].
    rewrite !loads_of_app. simpl. rewrite <- app_assoc. simpl. eauto.
  - intros [= <-]. rewrite loads_of_app. simpl. eauto.
Qed.

(** With an unsupported format the first round fails. *)
Lemma frames_loop_unsupported (h : VtfHeader) (ctx : VtfContext) (base : Z) (fuel : nat) tr :
  supported (highResImageFormat h) = false ->
  0 < frames h ->
  frames_loop h ctx (S fuel) base 0 tr
  = Some (tr ++ [ EvLoadFrame (frame_pos h base 0);
                  EvPrintf msg_unsupported_format (to_int (highResImageFormat h));
                  EvSetError GDK_PIXBUF_ERROR_CORRUPT_IMAGE msg_cant_read;
                  EvAnimUnref ]).
Proof.
  intros Hs Hf. simpl.
  destruct (0 <? frames h) eqn:E; [|apply Z.ltb_ge in E; lia].
  rewrite load_frame_unsupported by exact Hs. reflexivity.
Qed.

(** When every frame decodes, the loop runs through all of them in order. *)
Lemma frames_loop_success (h : VtfHeader) (ctx : VtfContext) (base : Z)
    (pbs : Z -> GdkPixbuf) :
  (forall i, 0 <= i < frames h ->
     gdk_pixbuf__vtf_load_frame h ctx (frame_pos h base i) = Some (Some (pbs i), [])) ->
  forall (fuel : nat) i tr,
    0 <= i -> Z.max 0 (frames h - i) < Z.of_nat fuel ->
    frames_loop h ctx fuel base i tr
    = Some (tr ++ flat_map (frame_events h base pbs) (seqZ i (frames h - i))).
Proof.
  intros Hd. induction fuel as [|fuel IH]; intros i tr Hi Hf; [lia|].
  simpl. destruct (i <? frames h) eqn:E.
  - apply Z.ltb_lt in E. fold (frame_pos h base i).
    rewrite Hd by lia. simpl.
    rewrite IH by lia.
    rewrite (seqZ_cons i) by lia. simpl flat_map.
    replace (Z.succ i) with (i + 1) by lia.
    replace (Z.pred (frames h - i)) with (frames h - (i + 1)) by lia.
    unfold frame_events at 2. rewrite <- !app_assoc. reflexivity.
  - apply Z.ltb_ge in E. rewrite seqZ_empty by lia. simpl.
    rewrite app_nil_r. reflexivity.
Qed.



Lemma effective_header_fields (h : VtfHeader) :
  width (effective_header h) = width h
  /\ height (effective_header h) = height h
  /\ frames (effective_header h) = frames h
  /\ highResImageFormat (effective_header h) = highResImageFormat h.
Proof.
  unfold effective_header. destruct (_ <? _); simpl; tauto.
Qed.

Lemma stop_load_unfold (ctx : VtfContext) (h : VtfHeader) :
  read_header (buffer ctx) = Some h ->
  gdk_pixbuf__vtf_image_stop_load ctx
  = if bad_header h then
      Returned false [EvSetError GDK_PIXBUF_ERROR_CORRUPT_IMAGE msg_corrupt]
    else
      match frames_loop (effective_header h) ctx
              (S (Z.to_nat (frames (effective_header h)))) (load_base ctx h) 0
              [ EvAnimNew (width (effective_header h)) (height (effective_header h)) 8;
                EvAnimSetLoop true ] with
      | None => Fault
      | Some tr => Returned true tr
      end.
Proof.
  intros Hh. unfold gdk_pixbuf__vtf_image_stop_load. rewrite Hh. reflexivity.
Qed.

Lemma good_header_has_frames (buf : list byte) (h : VtfHeader) :
  read_header buf = Some h -> bad_header h = false -> 0 < frames h.
Proof.
  intros Hh Hb. pose proof (read_header_in_range buf h Hh) as [].
  unfold bad_header in Hb. apply orb_false_elim in Hb. destruct Hb as [_ Hb].
  apply Z.eqb_neq in Hb. lia.
Qed.

(** What [stop_load] does with a validated header of an unsupported format. *)
Lemma stop_load_unsupported (ctx : VtfContext) (h : VtfHeader) :
  read_header (buffer ctx) = Some h ->
  bad_header h = false ->
  supported (highResImageFormat h) = false ->
  gdk_pixbuf__vtf_image_stop_load ctx
  = Returned true
      [ EvAnimNew (width h) (height h) 8; EvAnimSetLoop true;
        EvLoadFrame (frame_pos (effective_header h) (load_base ctx h) 0);
        EvPrintf msg_unsupported_format (to_int (highResImageFormat h));
        EvSetError GDK_PIXBUF_ERROR_CORRUPT_IMAGE msg_cant_read;
        EvAnimUnref ].
Proof.
  intros Hh Hb Hs. rewrite (stop_load_unfold ctx h Hh), Hb.
  destruct (effective_header_fields h) as (Ew & Eh & Ef & Efmt).
  rewrite frames_loop_unsupported.
  - rewrite Ew, Eh, Efmt. reflexivity.
  - rewrite Efmt. exact Hs.
  - rewrite Ef. eapply good_header_has_frames; eassumption.
Qed.

(** What [stop_load] does with a validated header of a supported format
    whose width or height is 0. *)
Lemma stop_load_null (ctx : VtfContext) (h : VtfHeader) :
  read_header (buffer ctx) = Some h ->
  bad_header h = false ->
  supported (highResImageFormat h) = true ->
  width h <= 0 \/ height h <= 0 ->
  gdk_pixbuf__vtf_image_stop_load ctx
  = Returned true
      [ EvAnimNew (width h) (height h) 8; EvAnimSetLoop true;
        EvLoadFrame (frame_pos (effective_header h) (load_base ctx h) 0);
        EvAnimUnref ].
Proof.
  intros Hh Hb Hs Hdim. rewrite (stop_load_unfold ctx h Hh), Hb.
  destruct (effective_header_fields h) as (Ew & Eh & Ef & Efmt).
  rewrite frames_loop_null.
  - rewrite Ew, Eh. reflexivity.
  - rewrite Efmt. exact Hs.
  - rewrite Ew, Eh. exact Hdim.
  - rewrite Ef. eapply good_header_has_frames; eassumption.
Qed.

(** The frame loop has fuel for all its rounds: it gives no result only
    when the decode of a frame gives none. *)
Lemma frames_loop_None (h : VtfHeader) (ctx : VtfContext) (base : Z) :
  forall (fuel : nat) i tr,
    Z.max 0 (frames h - i) < Z.of_nat fuel ->
    frames_loop h ctx fuel base i tr = None ->
    exists k, i <= k < frames h
      /\ gdk_pixbuf__vtf_load_frame h ctx (frame_pos h base k) = None.
Proof.
  induction fuel as [|fuel IH]; intros i tr Hf; [lia|].
  simpl. destruct (i <? frames h) eqn:E; [|discriminate].
  apply Z.ltb_lt in E. fold (frame_pos h base i).
  destruct (gdk_pixbuf__vtf_load_frame h ctx (frame_pos h base i))
    as [[[pb|] evs]|] eqn:El; simpl.
  - intros Hl. apply IH in Hl; [|lia]. destruct Hl as (k & Hk & Hn).
    exists k. split; [lia | exact Hn].
  - discriminate.
  - intros _. exists i. split; [lia | exact El].
Qed.

(** [stop_load] ends in [Fault] only when the buffer is shorter than the
    header struct or the decode of a frame gives no result. *)
Lemma stop_load_Fault (ctx : VtfContext) :
  gdk_pixbuf__vtf_image_stop_load ctx = Fault ->
  Z.of_nat (length (buffer ctx)) < sizeof_VtfHeader
  \/ exists h k,
       read_header (buffer ctx) = Some h /\ 0 <= k < frames h
       /\ gdk_pixbuf__vtf_load_frame (effective_header h) ctx
            (frame_pos (effective_header h) (load_base ctx h) k) = None.
Proof.
  destruct (read_header (buffer ctx)) as [h|] eqn:Hh.
  - rewrite (stop_load_unfold ctx h Hh).
    destruct (bad_header h); [discriminate|].
    destruct (frames_loop _ _ _ _ _ _) as [tr|] eqn:El; [discriminate|].
    intros _. right.
    apply frames_loop_None in El; [|lia].
    destruct El as (k & Hk & Hn).
    destruct (effective_header_fields h) as (_ & _ & Ef & _).
    exists h, k. rewrite Ef in Hk. auto.
  - intros _. left. unfold read_header in Hh.
    destruct (Z.of_nat (length (buffer ctx)) <? sizeof_VtfHeader) eqn:E;
      [apply Z.ltb_lt in E; exact E | discriminate].
Qed.

(* ===================================================================== *)
(** ** Header validation, errors and the order of the frames *)
(* ===================================================================== *)

(** C6: a buffer whose first four bytes are not ['V','T','F',0] or whose
    frames field is zero makes [stop_load] fail with the corrupt-image error
    and no frame is produced; with a good signature and a non-zero frame
    count the call never fails up front (it never returns [FALSE]). *)
Theorem corrupt_header_rejected (ctx : VtfContext) :
  sizeof_VtfHeader <= Z.of_nat (length (buffer ctx)) ->
  exists h, read_header (buffer ctx) = Some h
    /\ (take 4 (buffer ctx) <> vtf_signature \/ frames h = 0 ->
        exists tr,
          gdk_pixbuf__vtf_image_stop_load ctx = Returned false tr
          /\ error_of tr = Some (GDK_PIXBUF_ERROR_CORRUPT_IMAGE, msg_corrupt)
          /\ prepared_of tr = [] /\ added_of tr = [])
    /\ (take 4 (buffer ctx) = vtf_signature -> frames h <> 0 ->
        forall tr, gdk_pixbuf__vtf_image_stop_load ctx <> Returned false tr).
Proof.
  intros Hlen. destruct (read_header_Some _ Hlen) as [h Hh].
  exists h. split; [exact Hh|].
  rewrite (stop_load_unfold ctx h Hh).
  pose proof (bad_header_iff _ h Hh) as Hb. split.
  - intros Hbad. apply Hb in Hbad. rewrite Hbad.
    eexists. split; [reflexivity|]. simpl. auto.
  - intros Hs Hf tr.
    destruct (bad_header h) eqn:E.
    + destruct (proj1 Hb eq_refl); contradiction.
    + destruct (frames_loop _ _ _ _ _ _); discriminate.
Qed.

Lemma corrupt_header_rejected_witness :
  exists tr,
    gdk_pixbuf__vtf_image_stop_load ctx_bad_signature = Returned false tr
    /\ error_of tr = Some (GDK_PIXBUF_ERROR_CORRUPT_IMAGE, msg_corrupt)
    /\ prepared_of tr = [] /\ added_of tr = [].
Proof.
  destruct (corrupt_header_rejected ctx_bad_signature) as (h & Hh & Hbad & _).
  - vm_compute. discriminate.
  - apply Hbad. left. vm_compute. discriminate.
Defined.

(** C7 as stated fails: for format 99 the error carries the same code as
    the corrupt-header error and the fixed text "Can't read this yet.",
    the same as for format 98, so the number is not part of it. *)
Lemma unsupported_error_is_corrupt_image :
  outcome_error (gdk_pixbuf__vtf_image_stop_load ctx_format_99)
    = Some (GDK_PIXBUF_ERROR_CORRUPT_IMAGE, msg_cant_read)
  /\ outcome_error (gdk_pixbuf__vtf_image_stop_load ctx_format_98)
     = outcome_error (gdk_pixbuf__vtf_image_stop_load ctx_format_99)
  /\ fst <$> outcome_error (gdk_pixbuf__vtf_image_stop_load ctx_bad_signature)
     = fst <$> outcome_error (gdk_pixbuf__vtf_image_stop_load ctx_format_99).
Proof. vm_compute. repeat split. Qed.

(** C7 (amended): when the header passes the validation and its format is
    not one of the twelve supported ones, the decode of the first frame
    fails: the format number is printed on standard output, the error is set
    with the code of the corrupt-image error and the text "Can't read this
    yet.", the animation is dropped and no frame is produced, whatever the
    rest of the file holds. *)
Theorem unsupported_format_fails (ctx : VtfContext) (h : VtfHeader) :
  read_header (buffer ctx) = Some h ->
  take 4 (buffer ctx) = vtf_signature -> frames h <> 0 ->
  supported (highResImageFormat h) = false ->
  exists p tr,
    gdk_pixbuf__vtf_image_stop_load ctx = Returned true tr
    /\ tr = [ EvAnimNew (width h) (height h) 8; EvAnimSetLoop true;
              EvLoadFrame p;
              EvPrintf msg_unsupported_format (to_int (highResImageFormat h));
              EvSetError GDK_PIXBUF_ERROR_CORRUPT_IMAGE msg_cant_read;
              EvAnimUnref ]
    /\ error_of tr = Some (GDK_PIXBUF_ERROR_CORRUPT_IMAGE, msg_cant_read)
    /\ prepared_of tr = [] /\ delivered tr = [].
Proof.
  intros Hh Hsig Hf Hs.
  rewrite (stop_load_unsupported ctx h Hh (good_header _ h Hh Hsig Hf) Hs).
  eexists _, _. split; [reflexivity|]. split; [reflexivity|]. simpl. auto.
Qed.

Lemma unsupported_format_fails_witness :
  exists tr,
    gdk_pixbuf__vtf_image_stop_load ctx_format_99 = Returned true tr
    /\ error_of tr = Some (GDK_PIXBUF_ERROR_CORRUPT_IMAGE, msg_cant_read)
    /\ delivered tr = [].
Proof.
  destruct (read_header (buffer ctx_format_99)) as [h|] eqn:Hh;
    [|vm_compute in Hh; discriminate].
  destruct (unsupported_format_fails ctx_format_99 h Hh)
    as (p & tr & H1 & _ & H2 & _ & H3).
  - vm_compute. reflexivity.
  - vm_compute in Hh. injection Hh as <-. vm_compute. discriminate.
  - vm_compute in Hh. injection Hh as <-. vm_compute. reflexivity.
  - exists tr. auto.
Defined.

(** C10 as stated fails: an RGBA8888 file of width 0 passes the
    validation, its one frame comes back [NULL] from the decoder, the
    animation is dropped and [TRUE] is returned, yet no error is set. *)
Lemma null_frame_sets_no_error :
  gdk_pixbuf__vtf_image_stop_load ctx_zero_width
  = Returned true
      [EvAnimNew 0 4 8; EvAnimSetLoop true; EvLoadFrame 80; EvAnimUnref]
  /\ supported IMAGE_FORMAT_RGBA8888 = true
  /\ outcome_error (gdk_pixbuf__vtf_image_stop_load ctx_zero_width) = None.
Proof. vm_compute. repeat split. Qed.

(** C10 (amended): a failed frame decode leaves the return value [TRUE];
    the error is set when the failure is that of an unsupported format and
    is left unset when the format is supported and the frame is [NULL]
    because the width or the height is 0; [FALSE] is returned exactly when
    the signature or the frame count fails the validation. *)
Theorem stop_load_return_value (ctx : VtfContext) (h : VtfHeader) :
  read_header (buffer ctx) = Some h ->
  (forall rv tr,
      gdk_pixbuf__vtf_image_stop_load ctx = Returned rv tr ->
      (rv = false <-> (take 4 (buffer ctx) <> vtf_signature \/ frames h = 0))
      /\ (unref_in tr = true ->
          rv = true
          /\ if supported (highResImageFormat h)
             then (width h = 0 \/ height h = 0) /\ error_of tr = None
             else error_of tr
                  = Some (GDK_PIXBUF_ERROR_CORRUPT_IMAGE, msg_cant_read)))
  /\ (take 4 (buffer ctx) = vtf_signature -> frames h <> 0 ->
      supported (highResImageFormat h) = false ->
      exists tr,
        gdk_pixbuf__vtf_image_stop_load ctx = Returned true tr
        /\ unref_in tr = true
        /\ error_of tr = Some (GDK_PIXBUF_ERROR_CORRUPT_IMAGE, msg_cant_read))
  /\ (take 4 (buffer ctx) = vtf_signature -> frames h <> 0 ->
      supported (highResImageFormat h) = true ->
      width h = 0 \/ height h = 0 ->
      exists tr,
        gdk_pixbuf__vtf_image_stop_load ctx = Returned true tr
        /\ unref_in tr = true /\ error_of tr = None).
Proof.
  intros Hh. pose proof (bad_header_iff _ h Hh) as Hb.
  pose proof (read_header_in_range _ h Hh) as Hr.
  destruct (effective_header_fields h) as (Ew & Eh & Ef & Efmt).
  split; [|split].
  - intros rv tr. rewrite (stop_load_unfold ctx h Hh).
    destruct (bad_header h) eqn:E.
    + intros [= <- <-]. split; [tauto|]. simpl. discriminate.
    + destruct (frames_loop _ _ _ _ _ _) as [tr'|] eqn:El; [|discriminate].
      intros [= <- <-]. split.
      * split; [discriminate|]. intros H. apply Hb in H. discriminate.
      * intros Hu. split; [reflexivity|]. rewrite <- Efmt.
        destruct (supported (highResImageFormat (effective_header h))) eqn:Es.
        -- apply (frames_loop_supported _ _ _ _ Es) in El.
           destruct El as [El Ee]. split; [|apply Ee; reflexivity].
           rewrite Ew, Eh in El.
           destruct (Z_le_gt_dec (width h) 0) as [Hw|Hw]; [destruct Hr; lia|].
           destruct (Z_le_gt_dec (height h) 0) as [Hh0|Hh0]; [destruct Hr; lia|].
           rewrite El in Hu by lia. discriminate.
        -- rewrite frames_loop_unsupported in El.
           ++ injection El as <-. reflexivity.
           ++ exact Es.
           ++ rewrite Ef. eapply good_header_has_frames; eassumption.
  - intros Hs Hf Hu.
    rewrite (stop_load_unsupported ctx h Hh (good_header _ h Hh Hs Hf) Hu).
    eexists. split; [reflexivity|]. split; reflexivity.
  - intros Hs Hf Hu Hdim.
    rewrite (stop_load_null ctx h Hh (good_header _ h Hh Hs Hf) Hu)
      by (destruct Hdim; lia).
    eexists. split; [reflexivity|]. split; reflexivity.
Qed.

Lemma stop_load_return_value_witness :
  exists tr,
    gdk_pixbuf__vtf_image_stop_load ctx_format_99 = Returned true tr
    /\ unref_in tr = true
    /\ error_of tr = Some (GDK_PIXBUF_ERROR_CORRUPT_IMAGE, msg_cant_read).
Proof.
  destruct (read_header (buffer ctx_format_99)) as [h|] eqn:Hh;
    [|vm_compute in Hh; discriminate].
  destruct (stop_load_return_value ctx_format_99 h Hh) as (_ & H & _).
  apply H.
  - vm_compute. reflexivity.
  - vm_compute in Hh. injection Hh as <-. vm_compute. discriminate.
  - vm_compute in Hh. injection Hh as <-. vm_compute. reflexivity.
Defined.




(** C3 as stated fails: handed the 80 header bytes of an 8 x 8 RGBA8888
    file, whose data region is computed as 256 bytes, the loader raises no
    error; it goes on to read the frame from position -176, outside the
    buffer. *)
Lemma short_buffer_not_rejected :
  read_header (buffer ctx_short) = Some hdr_8x8
  /\ vtf_offset hdr_8x8 0 0 0 (-1) = 256
  /\ buffer_data_size ctx_short = 80
  /\ frame_pos hdr_8x8 (load_base ctx_short hdr_8x8) 0
     = -176
  /\ gdk_pixbuf__vtf_image_stop_load ctx_short = Fault.
Proof. vm_compute. repeat split. Qed.

(** C3 (amended): the loader compares nothing with the buffer length.  With
    a header that passes the validation and a supported format it either
    runs into what C leaves undefined (a read outside the buffer, a write
    outside the pixel array or an overflow of the read position), or
    completes with no error set, having read frame [i] from the position
    [base + offset(i,0,0,0)], [base = buffer_data_size - offset(0,0,0,-1)],
    both on 32-bit unsigned integers: every frame when width and height are
    positive, frame 0 alone (which comes back [NULL]) when one of them is
    0.  The corrupt-image error is never raised for a data region that
    exceeds the buffer. *)
Theorem no_bounds_check (ctx : VtfContext) (h : VtfHeader) :
  read_header (buffer ctx) = Some h ->
  take 4 (buffer ctx) = vtf_signature -> frames h <> 0 ->
  supported (highResImageFormat h) = true ->
  gdk_pixbuf__vtf_image_stop_load ctx = Fault
  \/ exists tr,
       gdk_pixbuf__vtf_image_stop_load ctx = Returned true tr
       /\ error_of tr = None
       /\ loads_of tr
          = map (fun i =>
                   to_int (u32 (u32 (buffer_data_size ctx
                                     - vtf_offset (effective_header h) 0 0 0 (-1))
                                + vtf_offset (effective_header h) i 0 0 0)))
                (if (0 <? width h) && (0 <? height h)
                 then seqZ 0 (frames h) else [0]).
Proof.
  intros Hh Hs Hf Hsup. pose proof (bad_header_iff _ h Hh) as Hb.
  pose proof (good_header _ h Hh Hs Hf) as E.
  destruct (effective_header_fields h) as (Ew & Eh & Ef & Efmt).
  destruct ((0 <? width h) && (0 <? height h)) eqn:Edim.
  - apply andb_true_iff in Edim. destruct Edim as [Hw Hh0].
    apply Z.ltb_lt in Hw, Hh0.
    rewrite (stop_load_unfold ctx h Hh), E.
    destruct (frames_loop _ _ _ _ _ _) as [tr'|] eqn:El; [|left; reflexivity].
    right. exists tr'. split; [reflexivity|].
    rewrite <- Efmt in Hsup.
    pose proof (frames_loop_loads _ _ _ _ Hsup ltac:(lia) ltac:(lia) _ _ _ El)
      as Hloads.
    apply (frames_loop_supported _ _ _ _ Hsup) in El.
    destruct El as [_ El]. split; [apply El; reflexivity|].
    rewrite Hloads, Ef, Z.sub_0_r. reflexivity.
  - right.
    assert (Hdim : width h <= 0 \/ height h <= 0).
    { apply andb_false_iff in Edim.
      destruct Edim as [Ed|Ed]; apply Z.ltb_ge in Ed; auto. }
    rewrite (stop_load_null ctx h Hh E Hsup Hdim).
    eexists. split; [reflexivity|]. split; reflexivity.
Qed.

Lemma no_bounds_check_witness :
  gdk_pixbuf__vtf_image_stop_load ctx_two_frames = Fault
  \/ exists tr,
       gdk_pixbuf__vtf_image_stop_load ctx_two_frames = Returned true tr
       /\ error_of tr = None
       /\ loads_of tr = [80; 88].
Proof.
  destruct (read_header (buffer ctx_two_frames)) as [h|] eqn:Hh;
    [|vm_compute in Hh; discriminate].
  destruct (no_bounds_check ctx_two_frames h Hh) as [H|(tr & H1 & H2 & H3)].
  - vm_compute. reflexivity.
  - vm_compute in Hh. injection Hh as <-. vm_compute. discriminate.
  - vm_compute in Hh. injection Hh as <-. vm_compute. reflexivity.
  - left. exact H.
  - right. exists tr. split; [exact H1|]. split; [exact H2|].
    rewrite H3. vm_compute in Hh. injection Hh as <-. vm_compute. reflexivity.
Defined.

(* ===================================================================== *)
(** ** Bytes, words and the pixel array *)
(* ===================================================================== *)

Lemma land_ones_range (x n : Z) : 0 <= n -> 0 <= Z.land x (Z.ones n) < 2 ^ n.
Proof.
  intros Hn. rewrite Z.land_ones by exact Hn.
  apply Z.mod_pos_bound. apply Z.pow_pos_nonneg; lia.
Qed.

Lemma land_31_range (x : Z) : 0 <= Z.land x 31 < 32.
Proof. apply (land_ones_range x 5). lia. Qed.

Lemma land_63_range (x : Z) : 0 <= Z.land x 63 < 64.
Proof. apply (land_ones_range x 6). lia. Qed.

Lemma land_3_range (x : Z) : 0 <= Z.land x 3 < 4.
Proof. apply (land_ones_range x 2). lia. Qed.

Lemma land_7_range (x : Z) : 0 <= Z.land x 7 < 8.
Proof. apply (land_ones_range x 3). lia. Qed.

(** Bits that do not overlap add up. *)
Lemma lor_shiftl_add (a b n : Z) :
  0 <= n -> 0 <= a < 2 ^ n -> Z.lor a (Z.shiftl b n) = a + b * 2 ^ n.
Proof.
  intros Hn Ha. rewrite <- Z.shiftl_mul_pow2 by exact Hn.
  symmetry. apply Z.add_nocarry_lor.
  apply Z.bits_inj'. intros i Hi. rewrite Z.land_spec, Z.bits_0.
  destruct (Z_lt_ge_dec i n) as [Hlt|Hge].
  - rewrite Z.shiftl_spec_low by exact Hlt. apply andb_false_r.
  - assert (Hb : Z.testbit a i = false).
    { apply (proj1 (Z.bounded_iff_bits_nonneg n a Hn ltac:(lia))); lia. }
    rewrite Hb. reflexivity.
Qed.

Lemma expand5_mul (v : Z) : 0 <= v < 32 -> expand5 v = 8 * v.
Proof.
  intros Hv. unfold expand5.
  rewrite (Z.shiftr_div_pow2 v 5), Z.div_small, Z.lor_0_r by (simpl; lia).
  rewrite Z.shiftl_mul_pow2 by lia. simpl. lia.
Qed.

Lemma expand6_mul (v : Z) : 0 <= v < 64 -> expand6 v = 4 * v.
Proof.
  intros Hv. unfold expand6.
  rewrite (Z.shiftr_div_pow2 v 6), Z.div_small, Z.lor_0_r by (simpl; lia).
  rewrite Z.shiftl_mul_pow2 by lia. simpl. lia.
Qed.

Lemma u16_small (x : Z) : 0 <= x < two16 -> u16 x = x.
Proof. intros H. apply Z.mod_small. exact H. Qed.

Lemma u8_small (x : Z) : 0 <= x < two8 -> u8 x = x.
Proof. intros H. apply Z.mod_small. exact H. Qed.

Lemma u64_small (x : Z) : 0 <= x < two32 * two32 -> u64 x = x.
Proof. intros H. apply Z.mod_small. exact H. Qed.

(** The tables of the loader hold the channels of [rgb_of_565]. *)
Lemma rgb565_channels (c : Z) :
  rgb_of_565 c = (rgb565_r c, rgb565_g c, rgb565_b c)
  /\ 0 <= rgb565_r c < 256 /\ 0 <= rgb565_g c < 256 /\ 0 <= rgb565_b c < 256.
Proof.
  unfold rgb_of_565, rgb565_r, rgb565_g, rgb565_b. rewrite Z.shiftr_0_r.
  pose proof (land_31_range (Z.shiftr c 11)) as H1.
  pose proof (land_63_range (Z.shiftr c 5)) as H2.
  pose proof (land_31_range c) as H3.
  rewrite !(u16_small (Z.land _ _)) by (unfold two16; lia).
  fold (expand5 (Z.land (Z.shiftr c 11) 31)).
  fold (expand6 (Z.land (Z.shiftr c 5) 63)).
  fold (expand5 (Z.land c 31)).
  rewrite !expand5_mul, !expand6_mul by lia.
  rewrite !u16_small by (unfold two16; lia).
  repeat split; lia.
Qed.

Lemma in_byte_range (buf : list byte) (p : Z) : 0 <= in_byte buf p < 256.
Proof.
  unfold in_byte. destruct (buf !! Z.to_nat p); [apply byte_val_range | lia].
Qed.

(** The positions below [read_limit] lie in the buffer and below
    [INT_MAX]. *)
Lemma read_limit_length (buf : list byte) : read_limit buf <= Z.of_nat (length buf).
Proof. unfold read_limit. lia. Qed.

Lemma read_limit_int (buf : list byte) : read_limit buf <= int_max.
Proof. unfold read_limit. lia. Qed.

Lemma read_limit_fits (buf : list byte) (p : Z) :
  p <= Z.of_nat (length buf) -> p < two31 -> p <= read_limit buf.
Proof. unfold read_limit, int_max. lia. Qed.

Lemma read_byte_ok (buf : list byte) (st : dstate) :
  0 <= pos st < read_limit buf ->
  read_byte buf st = Some (in_byte buf (pos st), advance st 1).
Proof.
  intros Hp. unfold read_byte, in_byte.
  pose proof (read_limit_length buf). pose proof (read_limit_int buf).
  destruct (pos st <? 0) eqn:E; [apply Z.ltb_lt in E; lia|].
  destruct (int_max <=? pos st) eqn:E'; [apply Z.leb_le in E'; lia|].
  destruct (lookup_lt_is_Some_2 buf (Z.to_nat (pos st)) ltac:(lia)) as [b Hb].
  simpl. rewrite Hb. reflexivity.
Qed.

Lemma advance_advance (st : dstate) (n m : Z) :
  advance (advance st n) m = advance st (n + m).
Proof. unfold advance. simpl. f_equal. lia. Qed.

Lemma read_u16_ok (buf : list byte) (st : dstate) :
  0 <= pos st -> pos st + 2 <= read_limit buf ->
  read_u16 buf st = Some (in_u16 buf (pos st), advance st 2).
Proof.
  intros Hp Hl. unfold read_u16.
  rewrite read_byte_ok by lia. simpl.
  rewrite read_byte_ok by (simpl; lia). simpl.
  rewrite advance_advance. simpl. f_equal. f_equal.
  pose proof (in_byte_range buf (pos st)) as H0.
  pose proof (in_byte_range buf (pos st + 1)) as H1.
  rewrite (u16_small (in_byte buf (pos st))) by (unfold two16; lia).
  rewrite (lor_shiftl_add _ _ 8) by (simpl; lia).
  change (2 ^ 8) with 256. unfold in_u16.
  rewrite u16_small by (unfold two16; lia). lia.
Qed.

Lemma read_u32_ok (buf : list byte) (st : dstate) :
  0 <= pos st -> pos st + 4 <= read_limit buf ->
  read_u32 buf st = Some (in_u32 buf (pos st), advance st 4).
Proof.
  intros Hp Hl. unfold read_u32.
  rewrite read_byte_ok by lia. simpl.
  rewrite read_byte_ok by (simpl; lia). simpl.
  rewrite read_byte_ok by (simpl; lia). simpl.
  rewrite read_byte_ok by (simpl; lia). simpl.
  rewrite !advance_advance. simpl. f_equal. f_equal.
  replace (pos st + 1 + 1) with (pos st + 2) by lia.
  replace (pos st + 2 + 1) with (pos st + 3) by lia.
  pose proof (in_byte_range buf (pos st)) as H0.
  pose proof (in_byte_range buf (pos st + 1)) as H1.
  pose proof (in_byte_range buf (pos st + 2)) as H2.
  pose proof (in_byte_range buf (pos st + 3)) as H3.
  rewrite (u32_small (in_byte buf (pos st))) by (unfold two32; lia).
  rewrite (lor_shiftl_add _ _ 8) by (simpl; lia). change (2 ^ 8) with 256.
  rewrite (u32_small (_ + _ * 256)) by (unfold two32; lia).
  rewrite (lor_shiftl_add _ _ 16) by (simpl; lia). change (2 ^ 16) with 65536.
  rewrite (u32_small (_ + _ * 65536)) by (unfold two32; lia).
  rewrite (Z.shiftl_mul_pow2 _ 24) by lia. change (2 ^ 24) with 16777216.
  rewrite (u32_small (_ * 16777216)) by (unfold two32; lia).
  rewrite <- (Z.shiftl_mul_pow2 _ 24) by lia.
  rewrite (lor_shiftl_add _ _ 24) by (simpl; lia). change (2 ^ 24) with 16777216.
  unfold in_u32, in_u16.
  replace (pos st + 2 + 1) with (pos st + 3) by lia.
  rewrite u32_small by (unfold two32; lia). lia.
Qed.

Lemma read_u48_ok (buf : list byte) (st : dstate) :
  0 <= pos st -> pos st + 6 <= read_limit buf ->
  read_u48 buf st = Some (in_u48 buf (pos st), advance st 6).
Proof.
  intros Hp Hl. unfold read_u48.
  rewrite read_byte_ok by lia. simpl.
  rewrite read_byte_ok by (simpl; lia). simpl.
  rewrite read_byte_ok by (simpl; lia). simpl.
  rewrite read_byte_ok by (simpl; lia). simpl.
  rewrite read_byte_ok by (simpl; lia). simpl.
  rewrite read_byte_ok by (simpl; lia). simpl.
  rewrite !advance_advance. simpl. f_equal. f_equal.
  replace (pos st + 1 + 1) with (pos st + 2) by lia.
  replace (pos st + 2 + 1) with (pos st + 3) by lia.
  replace (pos st + 3 + 1) with (pos st + 4) by lia.
  replace (pos st + 4 + 1) with (pos st + 5) by lia.
  pose proof (in_byte_range buf (pos st)) as H0.
  pose proof (in_byte_range buf (pos st + 1)) as H1.
  pose proof (in_byte_range buf (pos st + 2)) as H2.
  pose proof (in_byte_range buf (pos st + 3)) as H3.
  pose proof (in_byte_range buf (pos st + 4)) as H4.
  pose proof (in_byte_range buf (pos st + 5)) as H5.
  rewrite (u64_small (in_byte buf (pos st))) by (unfold two32; lia).
  rewrite (lor_shiftl_add _ _ 8) by (simpl; lia). change (2 ^ 8) with 256.
  rewrite (u64_small (_ + _ * 256)) by (unfold two32; lia).
  rewrite (lor_shiftl_add _ _ 16) by (simpl; lia). change (2 ^ 16) with 65536.
  rewrite (u64_small (_ + _ * 65536)) by (unfold two32; lia).
  rewrite (lor_shiftl_add _ _ 24) by (simpl; lia). change (2 ^ 24) with 16777216.
  rewrite (u64_small (_ + _ * 16777216)) by (unfold two32; lia).
  rewrite (lor_shiftl_add _ _ 32) by (simpl; lia). change (2 ^ 32) with 4294967296.
  rewrite (u64_small (_ + _ * 4294967296)) by (unfold two32; lia).
  rewrite (lor_shiftl_add _ _ 40) by (simpl; lia). change (2 ^ 40) with 1099511627776.
  unfold in_u48, in_u32, in_u16.
  replace (pos st + 2 + 1) with (pos st + 3) by lia.
  replace (pos st + 4 + 1) with (pos st + 5) by lia.
  rewrite u64_small by (unfold two32; lia). lia.
Qed.

(* ===================================================================== *)
(** ** Loops over the pixel array *)
(* ===================================================================== *)

(** A loop that keeps an invariant and has fuel for its rounds ends by its
    test, with the invariant. *)
Lemma for_lt_inv {S : Type} (Inv : Z -> S -> Prop) (bound step : Z)
    (body : Z -> S -> option S) :
  0 < step ->
  (forall i s, i < bound -> Inv i s ->
     exists s', body i s = Some s' /\ Inv (i + step) s') ->
  forall (fuel : nat) i s,
    Inv i s -> (0 < fuel)%nat -> bound - i <= (Z.of_nat fuel - 1) * step ->
    exists i' s', for_lt fuel i bound step body s = Some s' /\ Inv i' s' /\ bound <= i'.
Proof.
  intros Hstep Hbody. induction fuel as [|fuel IH]; intros i s Hinv Hpos Hfuel; [lia|].
  simpl. destruct (i <? bound) eqn:E.
  - apply Z.ltb_lt in E. destruct (Hbody i s E Hinv) as (s1 & -> & Hinv1). simpl.
    apply IH; [exact Hinv1 | nia | nia].
  - apply Z.ltb_ge in E. exists i, s. auto.
Qed.

Lemma for_loop_inv {S : Type} (Inv : Z -> S -> Prop) (bound step : Z)
    (body : Z -> S -> option S) (s : S) :
  0 < step ->
  (forall i s, i < bound -> Inv i s ->
     exists s', body i s = Some s' /\ Inv (i + step) s') ->
  Inv 0 s ->
  exists i' s', for_loop bound step body s = Some s' /\ Inv i' s' /\ bound <= i'.
Proof.
  intros Hstep Hbody Hinv. unfold for_loop.
  apply (for_lt_inv Inv); try assumption; [lia | nia].
Qed.

(** A loop has fuel for all its rounds: it gives no result only when its
    body gives none. *)
Lemma for_lt_None {S : Type} (bound step : Z) (body : Z -> S -> option S) :
  0 < step ->
  forall (fuel : nat) i s,
    (0 < fuel)%nat -> bound - i <= (Z.of_nat fuel - 1) * step ->
    for_lt fuel i bound step body s = None ->
    exists i' s', i <= i' < bound /\ body i' s' = None.
Proof.
  intros Hstep. induction fuel as [|fuel IH]; intros i s Hpos Hfuel; [lia|].
  simpl. destruct (i <? bound) eqn:E; [|discriminate].
  apply Z.ltb_lt in E. destruct (body i s) as [s1|] eqn:Eb; simpl.
  - intros Hl. apply IH in Hl; [|nia|nia].
    destruct Hl as (i' & s' & Hi' & Hn). exists i', s'. split; [lia | exact Hn].
  - intros _. exists i, s. split; [lia | exact Eb].
Qed.

Lemma for_loop_None {S : Type} (bound step : Z) (body : Z -> S -> option S) (s : S) :
  0 < step ->
  for_loop bound step body s = None ->
  exists i s', 0 <= i < bound /\ body i s' = None.
Proof.
  intros Hstep. unfold for_loop. apply for_lt_None; [exact Hstep | lia | nia].
Qed.

(** Distinct samples of the image have distinct indices. *)
Lemma index_inj (stride w x y c x' y' c' : Z) :
  4 * w <= stride ->
  0 <= x < w -> 0 <= x' < w -> 0 <= c < 4 -> 0 <= c' < 4 -> 0 <= y -> 0 <= y' ->
  stride * y + 4 * x + c = stride * y' + 4 * x' + c' ->
  x = x' /\ y = y' /\ c = c'.
Proof.
  intros Hs Hx Hx' Hc Hc' Hy Hy' E.
  assert (y = y') as ->.
  { destruct (Z.lt_trichotomy y y') as [H|[H|H]]; [|exact H|]; exfalso; nia. }
  lia.
Qed.

Lemma index_in_frame (stride w h x y c : Z) :
  4 * w <= stride -> 0 <= x < w -> 0 <= y < h -> 0 <= c < 4 ->
  0 <= stride * y + 4 * x + c < stride * h.
Proof. intros. nia. Qed.

(** Writing the expected value of one more sample. *)
Lemma poke_holds (stride w h : Z) (D : Z -> Z -> Z -> Prop) (E : Z -> Z -> Z -> Z)
    (st : dstate) (x0 y0 c0 v : Z) :
  frame_ok stride w h (pixels st) ->
  holds (pixels st) stride w h D E ->
  0 <= x0 < w -> 0 <= y0 < h -> 0 <= c0 < 4 ->
  0 <= v < 256 -> E x0 y0 c0 = v ->
  exists st',
    poke (pix_index stride y0 x0 4 c0) v st = Some st'
    /\ pos st' = pos st
    /\ frame_ok stride w h (pixels st')
    /\ holds (pixels st') stride w h
         (fun x y c => D x y c \/ (x = x0 /\ y = y0 /\ c = c0)) E.
Proof.
  intros (Hs & H32 & Hlen) Hh Hx Hy Hc Hv HE.
  pose proof (index_in_frame stride w h x0 y0 c0 Hs Hx Hy Hc) as Hidx.
  unfold poke, pix_index. rewrite u32_small by lia.
  destruct (_ && _) eqn:Eb.
  2:{ apply andb_false_iff in Eb. destruct Eb as [Eb|Eb].
      - apply Z.leb_gt in Eb. lia.
      - apply Z.ltb_ge in Eb. lia. }
  eexists. split; [reflexivity|]. simpl. split; [reflexivity|].
  split.
  - unfold frame_ok. rewrite length_insert. auto.
  - intros x y c Hx' Hy' Hc' HD.
    destruct (decide (x = x0 /\ y = y0 /\ c = c0)) as [(-> & -> & ->)|Hne].
    + rewrite list_lookup_insert_eq by lia.
      rewrite u8_small by (unfold two8; lia). congruence.
    + rewrite list_lookup_insert_ne.
      * destruct HD as [HD|HD]; [|tauto]. apply Hh; assumption.
      * intros Heq. apply Hne.
        pose proof (index_in_frame stride w h x y c Hs Hx' Hy' Hc').
        apply (index_inj stride w x y c x0 y0 c0); try lia.
Qed.

Lemma holds_weaken (px : list Z) (stride w h : Z)
    (D D' : Z -> Z -> Z -> Prop) (E : Z -> Z -> Z -> Z) :
  holds px stride w h D E ->
  (forall x y c, 0 <= x < w -> 0 <= y < h -> 0 <= c < 4 -> D' x y c -> D x y c) ->
  holds px stride w h D' E.
Proof. intros Hh Hsub x y c Hx Hy Hc HD. apply Hh; auto. Qed.

(** [pixels[idx] = buffer[pos++]] for the expected value of a sample. *)
Lemma copy_byte_holds (buf : list byte) (stride w h : Z)
    (D : Z -> Z -> Z -> Prop) (E : Z -> Z -> Z -> Z)
    (st : dstate) (x0 y0 c0 : Z) :
  frame_ok stride w h (pixels st) ->
  holds (pixels st) stride w h D E ->
  0 <= x0 < w -> 0 <= y0 < h -> 0 <= c0 < 4 ->
  0 <= pos st < read_limit buf ->
  E x0 y0 c0 = in_byte buf (pos st) ->
  exists st',
    copy_byte buf (pix_index stride y0 x0 4 c0) st = Some st'
    /\ pos st' = pos st + 1
    /\ frame_ok stride w h (pixels st')
    /\ holds (pixels st') stride w h
         (fun x y c => D x y c \/ (x = x0 /\ y = y0 /\ c = c0)) E.
Proof.
  intros Hok Hh Hx Hy Hc Hp HE. unfold copy_byte.
  rewrite read_byte_ok by exact Hp. simpl.
  apply (poke_holds stride w h D E (advance st 1)); try assumption.
  apply in_byte_range.
Qed.

(** The two loops over the image, in steps of [step] pixels, with a body
    that reads [k] bytes and fills the [step] x [step] cell at its
    position: they fill the whole image, cell after cell in raster order. *)
Lemma raster_holds (stride w h step k p0 W H : Z) (E : Z -> Z -> Z -> Z)
    (body : Z -> Z -> dstate -> option dstate) :
  0 < step -> w = step * W -> h = step * H -> 0 <= W -> 0 <= H ->
  (forall a b D st,
      0 <= a < H -> 0 <= b < W ->
      frame_ok stride w h (pixels st) ->
      holds (pixels st) stride w h D E ->
      pos st = p0 + k * (a * W + b) ->
      exists st',
        body (step * a) (step * b) st = Some st'
        /\ pos st' = pos st + k
        /\ frame_ok stride w h (pixels st')
        /\ holds (pixels st') stride w h
             (fun x y c => D x y c
                           \/ (step * a <= y < step * a + step
                               /\ step * b <= x < step * b + step)) E) ->
  forall st,
    frame_ok stride w h (pixels st) -> pos st = p0 ->
    exists st',
      for_loop h step (fun i => for_loop w step (fun j => body i j)) st = Some st'
      /\ frame_ok stride w h (pixels st')
      /\ holds (pixels st') stride w h (fun _ _ _ => True) E
      /\ pos st' = p0 + k * (H * W).
Proof.
  intros Hstep Hw Hh HW HH Hbody st Hok Hpos.
  pose (InvO := fun (i : Z) (s : dstate) =>
    exists a, i = step * a /\ 0 <= a <= H
      /\ frame_ok stride w h (pixels s)
      /\ pos s = p0 + k * (a * W)
      /\ holds (pixels s) stride w h (fun x y c => y < step * a) E).
  destruct (for_loop_inv InvO h step
              (fun i => for_loop w step (fun j => body i j)) st Hstep)
    as (i' & st' & Hrun & (a' & Hi' & Ha' & Hok' & Hpos' & Hh') & Hend).
  - intros i s Hi (a & -> & Ha & Hoks & Hposs & Hhs).
    assert (Ha1 : a < H) by nia.
    pose (InvI := fun (j : Z) (s : dstate) =>
      exists b, j = step * b /\ 0 <= b <= W
        /\ frame_ok stride w h (pixels s)
        /\ pos s = p0 + k * (a * W + b)
        /\ holds (pixels s) stride w h
             (fun x y c => y < step * a
                           \/ (step * a <= y < step * a + step /\ x < step * b)) E).
    destruct (for_loop_inv InvI w step (fun j => body (step * a) j) s Hstep)
      as (j' & s' & Hrun & (b' & Hj' & Hb' & Hok' & Hpos' & Hh') & Hend).
    + intros j t Hj (b & -> & Hb & Hokt & Hpost & Hht).
      assert (Hb1 : b < W) by nia.
      destruct (Hbody a b _ t ltac:(lia) ltac:(lia) Hokt Hht Hpost)
        as (t' & Hrun & Hpos' & Hok' & Hh').
      exists t'. split; [exact Hrun|].
      exists (b + 1). split; [ring|]. split; [lia|]. split; [exact Hok'|].
      split; [rewrite Hpos', Hpost; ring|].
      eapply holds_weaken; [exact Hh'|].
      intros x y c Hx Hy Hc HD. simpl.
      replace (step * (b + 1)) with (step * b + step) in HD by ring. lia.
    + exists 0. split; [ring|]. split; [lia|]. split; [exact Hoks|].
      split; [rewrite Hposs; ring|].
      eapply holds_weaken; [exact Hhs|].
      intros x y c Hx Hy Hc HD. simpl. lia.
    + assert (b' = W) as -> by nia.
      exists s'. split; [exact Hrun|].
      exists (a + 1). split; [ring|]. split; [lia|]. split; [exact Hok'|].
      split; [rewrite Hpos'; ring|].
      eapply holds_weaken; [exact Hh'|].
      intros x y c Hx Hy Hc HD. simpl.
      replace (step * (a + 1)) with (step * a + step) in HD by ring. lia.
  - exists 0. split; [ring|]. split; [lia|]. split; [exact Hok|].
    split; [rewrite Hpos; ring|].
    intros x y c Hx Hy Hc HD. lia.
  - assert (a' = H) as -> by nia.
    exists st'. split; [exact Hrun|]. split; [exact Hok'|]. split.
    + eapply holds_weaken; [exact Hh'|].
      intros x y c Hx Hy Hc _. simpl. lia.
    + rewrite Hpos'. ring.
Qed.

(* ===================================================================== *)
(** ** Decoding a frame with four channels *)
(* ===================================================================== *)

Lemma gdk_pixbuf_new_rgba (w h : Z) :
  0 < w -> 0 < h ->
  gdk_pixbuf_new true w h
  = Some {| has_alpha := true; pb_width := w; pb_height := h;
            rowstride := 4 * w;
            pb_pixels := replicate (Z.to_nat (4 * w * h)) 0 |}.
Proof.
  intros Hw Hh. unfold gdk_pixbuf_new.
  destruct (0 <? w) eqn:E1; [|apply Z.ltb_ge in E1; lia].
  destruct (0 <? h) eqn:E2; [|apply Z.ltb_ge in E2; lia].
  simpl. replace ((w * 4 + 3) / 4 * 4) with (4 * w)
    by (Z.to_euclidean_division_equations; lia).
  reflexivity.
Qed.

(** A frame of a four-channel format: when the body fills its cell with the
    values [E], the pixbuf that comes back holds [E] everywhere. *)
Lemma decode_with_rgba (hd : VtfHeader) (ctx : VtfContext) (step k p0 W H : Z)
    (E : Z -> Z -> Z -> Z)
    (body : list byte -> Z -> Z -> Z -> dstate -> option dstate) :
  header_in_range hd ->
  0 < width hd -> 0 < height hd -> 4 * width hd * height hd <= two32 ->
  0 < step -> width hd = step * W -> height hd = step * H ->
  (forall a b D st,
      0 <= a < H -> 0 <= b < W ->
      frame_ok (4 * width hd) (width hd) (height hd) (pixels st) ->
      holds (pixels st) (4 * width hd) (width hd) (height hd) D E ->
      pos st = p0 + k * (a * W + b) ->
      exists st',
        body (buffer ctx) (4 * width hd) (step * a) (step * b) st = Some st'
        /\ pos st' = pos st + k
        /\ frame_ok (4 * width hd) (width hd) (height hd) (pixels st')
        /\ holds (pixels st') (4 * width hd) (width hd) (height hd)
             (fun x y c => D x y c
                           \/ (step * a <= y < step * a + step
                               /\ step * b <= x < step * b + step)) E) ->
  exists pb,
    decode_with hd ctx true step body p0 = Some (Some pb)
    /\ has_alpha pb = true /\ pb_width pb = width hd /\ pb_height pb = height hd
    /\ rowstride pb = 4 * width hd
    /\ holds (pb_pixels pb) (4 * width hd) (width hd) (height hd)
         (fun _ _ _ => True) E.
Proof.
  intros Hr Hw Hh H32 Hstep HW HH Hbody.
  unfold decode_with. rewrite gdk_pixbuf_new_rgba by assumption. simpl.
  assert (Hs : u32 (4 * width hd) = 4 * width hd).
  { apply u32_small. destruct Hr. unfold two16, two32 in *. lia. }
  rewrite Hs.
  destruct (raster_holds (4 * width hd) (width hd) (height hd) step k p0 W H E
              (body (buffer ctx) (4 * width hd)) Hstep HW HH ltac:(nia) ltac:(nia) Hbody
              {| pos := p0; pixels := replicate (Z.to_nat (4 * width hd * height hd)) 0 |})
    as (st' & Hrun & Hok & Hholds & _).
  - simpl. unfold frame_ok. rewrite length_replicate. split; [lia|]. split; lia.
  - reflexivity.
  - rewrite Hrun. simpl. eexists. split; [reflexivity|]. simpl. auto.
Qed.

Lemma holds_pixel_of (pb : GdkPixbuf) (w h : Z) (f : Z -> Z -> Z * Z * Z * Z) :
  has_alpha pb = true -> rowstride pb = 4 * w ->
  holds (pb_pixels pb) (4 * w) w h (fun _ _ _ => True)
    (fun x y c => channel (f x y) c) ->
  forall x y, 0 <= x < w -> 0 <= y < h -> pixel_of pb x y = Some (f x y).
Proof.
  intros Ha Hs Hh x y Hx Hy. unfold pixel_of, sample. rewrite Ha, Hs. simpl.
  rewrite !Hh by (auto; lia). simpl.
  destruct (f x y) as [[[r g] b] a]. reflexivity.
Qed.

(** The body of the ARGB8888 loop fills its pixel. *)
Lemma px_ARGB8888_holds (buf : list byte) (stride w h p0 : Z)
    (D : Z -> Z -> Z -> Prop) (st : dstate) (i j : Z) :
  0 <= p0 -> p0 + 4 * (h * w) <= read_limit buf ->
  0 <= i < h -> 0 <= j < w ->
  frame_ok stride w h (pixels st) ->
  holds (pixels st) stride w h D (fun x y c => channel (argb_pixel buf p0 w x y) c) ->
  pos st = p0 + 4 * (i * w + j) ->
  exists st',
    px_ARGB8888 buf stride i j st = Some st'
    /\ pos st' = pos st + 4
    /\ frame_ok stride w h (pixels st')
    /\ holds (pixels st') stride w h
         (fun x y c => D x y c \/ (i <= y < i + 1 /\ j <= x < j + 1))
         (fun x y c => channel (argb_pixel buf p0 w x y) c).
Proof.
  intros Hp0 Hlen Hi Hj Hok Hh Hpos.
  assert (Hfit : p0 + 4 * (i * w + j) + 4 <= p0 + 4 * (h * w)) by nia.
  assert (Hnn : 0 <= i * w + j) by nia.
  unfold px_ARGB8888.
  destruct (copy_byte_holds buf stride w h _ _ st j i 1 Hok Hh)
    as (s1 & -> & P1 & O1 & H1); try lia.
  { unfold argb_pixel. simpl. rewrite Hpos. reflexivity. }
  simpl.
  destruct (copy_byte_holds buf stride w h _ _ s1 j i 2 O1 H1)
    as (s2 & -> & P2 & O2 & H2); try lia.
  { unfold argb_pixel. simpl. rewrite P1, Hpos. reflexivity. }
  simpl.
  destruct (copy_byte_holds buf stride w h _ _ s2 j i 3 O2 H2)
    as (s3 & -> & P3 & O3 & H3); try lia.
  { unfold argb_pixel. simpl. rewrite P2, P1, Hpos. f_equal. lia. }
  simpl.
  destruct (copy_byte_holds buf stride w h _ _ s3 j i 0 O3 H3)
    as (s4 & -> & P4 & O4 & H4); try lia.
  { unfold argb_pixel. simpl. rewrite P3, P2, P1, Hpos. f_equal. lia. }
  exists s4. split; [reflexivity|]. split; [lia|]. split; [exact O4|].
  eapply holds_weaken; [exact H4|].
  intros x y c Hx Hy Hc [HD|HD]; [tauto|].
  assert (x = j /\ y = i) as [-> ->] by lia.
  assert (Ec : c = 0 \/ c = 1 \/ c = 2 \/ c = 3) by lia.
  intuition.
Qed.

(** C8 as stated fails: of the four bytes 10, 20, 30, 40 of a 1 x 1
    ARGB8888 image the first goes to G, not to A, and the last to R. *)
Lemma argb_first_byte_is_green :
  exists pb,
    gdk_pixbuf__vtf_load_frame
      (mk_header 1 1 1 IMAGE_FORMAT_ARGB8888 1 1)
      (mk_context [10; 20; 30; 40]) 0 = Some (Some pb, [])
    /\ sample pb 0 0 3 = Some 30 /\ sample pb 0 0 3 <> Some 10
    /\ sample pb 0 0 1 = Some 10 /\ sample pb 0 0 0 = Some 40.
Proof. eexists. vm_compute. repeat split. discriminate. Qed.

(** C8 (amended): of the four bytes of each pixel of an ARGB8888 image, in
    the order they are stored, the first goes to the G sample, the second
    to B, the third to A and the fourth to R.  This holds for an image of
    positive dimensions whose pixel array takes at most 2^32 bytes (the
    pixel index is a [uint32_t]) and whose data lies inside the buffer and
    ends below position 2^31 (the read position is an [int]). *)
Theorem argb8888_byte_order (hd : VtfHeader) (ctx : VtfContext) (p0 : Z) :
  header_in_range hd ->
  highResImageFormat hd = IMAGE_FORMAT_ARGB8888 ->
  0 < width hd -> 0 < height hd -> 4 * width hd * height hd <= 2 ^ 32 ->
  0 <= p0 -> p0 + 4 * (height hd * width hd) <= Z.of_nat (length (buffer ctx)) ->
  p0 + 4 * (height hd * width hd) < 2 ^ 31 ->
  exists pb,
    gdk_pixbuf__vtf_load_frame hd ctx p0 = Some (Some pb, [])
    /\ has_alpha pb = true /\ pb_width pb = width hd /\ pb_height pb = height hd
    /\ forall x y, 0 <= x < width hd -> 0 <= y < height hd ->
         let p := p0 + 4 * (y * width hd + x) in
         pixel_of pb x y
         = Some (in_byte (buffer ctx) (p + 3), in_byte (buffer ctx) p,
                 in_byte (buffer ctx) (p + 1), in_byte (buffer ctx) (p + 2)).
Proof.
  intros Hr Hfmt Hw Hh H32 Hp0 Hlen Hint.
  pose proof (read_limit_fits _ _ Hlen Hint) as Hlim.
  destruct (decode_with_rgba hd ctx 1 4 p0 (width hd) (height hd)
              (fun x y c => channel (argb_pixel (buffer ctx) p0 (width hd) x y) c)
              px_ARGB8888 Hr Hw Hh H32 ltac:(lia) ltac:(lia) ltac:(lia))
    as (pb & Hrun & Ha & Hpw & Hph & Hs & Hholds).
  - intros a b D st Ha Hb Hok Hhold Hpos.
    rewrite !Z.mul_1_l.
    apply (px_ARGB8888_holds (buffer ctx) _ _ _ p0); assumption.
  - exists pb. unfold gdk_pixbuf__vtf_load_frame. rewrite Hfmt. simpl.
    rewrite Hrun. simpl. split; [reflexivity|]. repeat (split; [assumption|]).
    intros x y Hx Hy.
    apply (holds_pixel_of pb (width hd) (height hd)
             (argb_pixel (buffer ctx) p0 (width hd))); assumption.
Qed.

Lemma argb8888_byte_order_witness :
  exists pb,
    gdk_pixbuf__vtf_load_frame
      (mk_header 1 1 1 IMAGE_FORMAT_ARGB8888 1 1)
      (mk_context [10; 20; 30; 40]) 0 = Some (Some pb, [])
    /\ pixel_of pb 0 0 = Some (40, 10, 20, 30).
Proof.
  destruct (argb8888_byte_order (mk_header 1 1 1 IMAGE_FORMAT_ARGB8888 1 1)
              (mk_context [10; 20; 30; 40]) 0)
    as (pb & Hrun & _ & _ & _ & Hpx).
  - split; vm_compute; split; congruence.
  - reflexivity.
  - reflexivity.
  - reflexivity.
  - vm_compute. congruence.
  - lia.
  - vm_compute. congruence.
  - vm_compute. reflexivity.
  - exists pb. split; [exact Hrun|].
    rewrite (Hpx 0 0) by (simpl; lia). vm_compute. reflexivity.
Defined.

(* ===================================================================== *)
(** ** Block decoding *)
(* ===================================================================== *)

(** The two inner loops of a block at column [x0], row [y0]: each round
    writes the samples [C] of one pixel and shifts the selector by [bits]. *)
Lemma texel_loops (stride w h x0 y0 bits sel0 : Z) (C : Z -> Prop)
    (E : Z -> Z -> Z -> Z) (body : Z -> Z -> Z * dstate -> option (Z * dstate)) :
  0 <= bits ->
  (forall ii jj D t,
      0 <= ii < 4 -> 0 <= jj < 4 ->
      frame_ok stride w h (pixels t) ->
      holds (pixels t) stride w h D E ->
      exists t',
        body ii jj (Z.shiftr sel0 (bits * (4 * ii + jj)), t)
        = Some (Z.shiftr (Z.shiftr sel0 (bits * (4 * ii + jj))) bits, t')
        /\ pos t' = pos t
        /\ frame_ok stride w h (pixels t')
        /\ holds (pixels t') stride w h
             (fun x y c => D x y c \/ (x = x0 + jj /\ y = y0 + ii /\ C c)) E) ->
  forall D st,
    frame_ok stride w h (pixels st) ->
    holds (pixels st) stride w h D E ->
    exists s' st',
      for_loop 4 1 (fun ii => for_loop 4 1 (fun jj => body ii jj)) (sel0, st)
      = Some (s', st')
      /\ pos st' = pos st
      /\ frame_ok stride w h (pixels st')
      /\ holds (pixels st') stride w h
           (fun x y c => D x y c
                         \/ (y0 <= y < y0 + 4 /\ x0 <= x < x0 + 4 /\ C c)) E.
Proof.
  intros Hbits Hbody D st Hok Hh.
  pose (InvO := fun (ii : Z) (s : Z * dstate) =>
    0 <= ii <= 4 /\ fst s = Z.shiftr sel0 (bits * (4 * ii))
    /\ pos (snd s) = pos st /\ frame_ok stride w h (pixels (snd s))
    /\ holds (pixels (snd s)) stride w h
         (fun x y c => D x y c
                       \/ (y0 <= y < y0 + ii /\ x0 <= x < x0 + 4 /\ C c)) E).
  destruct (for_loop_inv InvO 4 1
              (fun ii => for_loop 4 1 (fun jj => body ii jj)) (sel0, st) ltac:(lia))
    as (i' & [s' st'] & Hrun & (Hi' & _ & Hpos' & Hok' & Hh') & Hend).
  - intros ii [s t] Hii (Hr & Hs & Hp & Hokt & Hht). simpl in Hs, Hp, Hokt, Hht.
    pose (InvI := fun (jj : Z) (s : Z * dstate) =>
      0 <= jj <= 4 /\ fst s = Z.shiftr sel0 (bits * (4 * ii + jj))
      /\ pos (snd s) = pos st /\ frame_ok stride w h (pixels (snd s))
      /\ holds (pixels (snd s)) stride w h
           (fun x y c => D x y c
                         \/ (y0 <= y < y0 + ii /\ x0 <= x < x0 + 4 /\ C c)
                         \/ (y = y0 + ii /\ x0 <= x < x0 + jj /\ C c)) E).
    destruct (for_loop_inv InvI 4 1 (fun jj => body ii jj) (s, t) ltac:(lia))
      as (j' & [s2 t2] & Hrun & (Hj' & Hs2 & Hp2 & Hok2 & Hh2) & Hend).
    + intros jj [u v] Hjj (Hrj & Hu & Hpv & Hokv & Hhv).
      simpl in Hu, Hpv, Hokv, Hhv. subst u.
      destruct (Hbody ii jj _ v ltac:(lia) ltac:(lia) Hokv Hhv)
        as (v' & Hrun & Hpv' & Hokv' & Hhv').
      eexists. split; [exact Hrun|]. unfold InvI. simpl.
      split; [lia|]. split.
      { rewrite Z.shiftr_shiftr by exact Hbits. f_equal. ring. }
      split; [lia|]. split; [exact Hokv'|].
      eapply holds_weaken; [exact Hhv'|].
      intros x y c Hx Hy Hc [HD|[HD|HD]]; [tauto | tauto |].
      destruct (Z.eq_dec x (x0 + jj)) as [->|Hne]; [tauto|].
      left. right. right. intuition lia.
    + unfold InvI. simpl. split; [lia|]. split.
      { rewrite Hs. f_equal. ring. }
      split; [exact Hp|]. split; [exact Hokt|].
      eapply holds_weaken; [exact Hht|].
      intros x y c Hx Hy Hc [HD|[HD|HD]]; [tauto | tauto | lia].
    + simpl in Hs2, Hp2, Hok2, Hh2.
      assert (j' = 4) as -> by lia.
      eexists. split; [exact Hrun|]. unfold InvO. simpl.
      split; [lia|]. split.
      { rewrite Hs2. f_equal. ring. }
      split; [exact Hp2|]. split; [exact Hok2|].
      eapply holds_weaken; [exact Hh2|].
      intros x y c Hx Hy Hc [HD|HD]; [tauto|].
      destruct (Z.eq_dec y (y0 + ii)) as [->|Hne].
      * right. right. intuition lia.
      * right. left. intuition lia.
  - unfold InvO. simpl. split; [lia|]. split.
    { replace (bits * (4 * 0)) with 0 by ring. rewrite Z.shiftr_0_r. reflexivity. }
    split; [reflexivity|]. split; [exact Hok|].
    eapply holds_weaken; [exact Hh|].
    intros x y c Hx Hy Hc [HD|HD]; [tauto | lia].
  - simpl in Hpos', Hok', Hh'. assert (i' = 4) as -> by lia.
    exists s', st'. auto.
Qed.

(** Where pixel [(4b + jj, 4a + ii)] lies. *)
Lemma block_of_cell (W a b ii jj : Z) :
  0 <= ii < 4 -> 0 <= jj < 4 ->
  block_of (4 * W) (4 * b + jj) (4 * a + ii) = a * W + b
  /\ texel_of (4 * b + jj) (4 * a + ii) = 4 * ii + jj.
Proof.
  intros Hii Hjj. unfold block_of, texel_of.
  replace ((4 * a + ii) / 4) with a by (Z.to_euclidean_division_equations; lia).
  replace ((4 * b + jj) / 4) with b by (Z.to_euclidean_division_equations; lia).
  replace (4 * W / 4) with W by (Z.to_euclidean_division_equations; lia).
  replace ((4 * a + ii) mod 4) with ii by (Z.to_euclidean_division_equations; lia).
  replace ((4 * b + jj) mod 4) with jj by (Z.to_euclidean_division_equations; lia).
  split; reflexivity.
Qed.

Lemma four_cases (k : Z) : 0 <= k < 4 -> k = 0 \/ k = 1 \/ k = 2 \/ k = 3.
Proof. lia. Qed.

Lemma eight_cases (k : Z) :
  0 <= k < 8 ->
  k = 0 \/ k = 1 \/ k = 2 \/ k = 3 \/ k = 4 \/ k = 5 \/ k = 6 \/ k = 7.
Proof. lia. Qed.

(** The colour tables of the loader against the palette of an opaque
    block. *)
Lemma opaque_tables (c0 c1 k : Z) :
  0 <= k < 4 ->
  nth (Z.to_nat k) (opaque_palette c0 c1) (0, 0, 0)
  = (elt (color_table rgb565_r true c0 c1) k,
     elt (color_table rgb565_g true c0 c1) k,
     elt (color_table rgb565_b true c0 c1) k)
  /\ 0 <= elt (color_table rgb565_r true c0 c1) k < 256
  /\ 0 <= elt (color_table rgb565_g true c0 c1) k < 256
  /\ 0 <= elt (color_table rgb565_b true c0 c1) k < 256.
Proof.
  intros Hk.
  destruct (rgb565_channels c0) as (E0 & R0 & G0 & B0).
  destruct (rgb565_channels c1) as (E1 & R1 & G1 & B1).
  unfold opaque_palette, color_table. rewrite E0, E1.
  set (r0 := rgb565_r c0) in *. set (g0 := rgb565_g c0) in *.
  set (b0 := rgb565_b c0) in *. set (r1 := rgb565_r c1) in *.
  set (g1 := rgb565_g c1) in *. set (b1 := rgb565_b c1) in *.
  assert (T : forall u v, 0 <= u < 256 -> 0 <= v < 256 ->
                u16 ((4 * u + 2 * v + 3) / 6) = two_thirds u v
                /\ 0 <= two_thirds u v < 256).
  { intros u v Hu Hv. unfold two_thirds.
    assert (0 <= (4 * u + 2 * v + 3) / 6 < 256)
      by (Z.to_euclidean_division_equations; lia).
    rewrite u16_small by (unfold two16; lia). auto. }
  assert (O : forall u v, 0 <= u < 256 -> 0 <= v < 256 ->
                u16 ((2 * u + 4 * v + 3) / 6) = one_third u v
                /\ 0 <= one_third u v < 256).
  { intros u v Hu Hv. unfold one_third.
    assert (0 <= (2 * u + 4 * v + 3) / 6 < 256)
      by (Z.to_euclidean_division_equations; lia).
    rewrite u16_small by (unfold two16; lia). auto. }
  destruct (T r0 r1 R0 R1) as [-> Hq1]. destruct (T g0 g1 G0 G1) as [-> Hq2].
  destruct (T b0 b1 B0 B1) as [-> Hq3]. destruct (O r0 r1 R0 R1) as [-> Hq4].
  destruct (O g0 g1 G0 G1) as [-> Hq5]. destruct (O b0 b1 B0 B1) as [-> Hq6].
  destruct (four_cases k Hk) as [-> | [-> | [-> | ->]]]; simpl; unfold elt; simpl;
    repeat split; lia.
Qed.

(** The tables of the loader against the palette of a DXT1 block. *)
Lemma dxt1_tables (c0 c1 k : Z) :
  0 <= k < 4 ->
  let opq := c1 <? c0 in
  nth (Z.to_nat k) (dxt1_palette c0 c1) (0, 0, 0, 0)
  = (elt (color_table rgb565_r opq c0 c1) k,
     elt (color_table rgb565_g opq c0 c1) k,
     elt (color_table rgb565_b opq c0 c1) k,
     elt (dxt1_alpha_table opq) k)
  /\ 0 <= elt (color_table rgb565_r opq c0 c1) k < 256
  /\ 0 <= elt (color_table rgb565_g opq c0 c1) k < 256
  /\ 0 <= elt (color_table rgb565_b opq c0 c1) k < 256
  /\ 0 <= elt (dxt1_alpha_table opq) k < 256.
Proof.
  intros Hk opq. unfold dxt1_palette. rewrite Z.gtb_ltb. fold opq.
  destruct opq eqn:Eo.
  - destruct (opaque_tables c0 c1 k Hk) as (E & R & G & B).
    assert (Ea : 0 <= elt (dxt1_alpha_table true) k < 256
                 /\ elt (dxt1_alpha_table true) k = 255).
    { destruct (four_cases k Hk) as [-> | [-> | [-> | ->]]]; unfold elt; simpl; lia. }
    destruct Ea as [Ra Ea].
    rewrite (nth_indep _ _ (with_alpha (0, 0, 0) 255)).
    2:{ rewrite length_map. simpl. lia. }
    rewrite (map_nth (fun e => with_alpha e 255)), E, Ea. unfold with_alpha.
    split; [reflexivity|]. repeat split; lia.
  - destruct (rgb565_channels c0) as (E0 & R0 & G0 & B0).
    destruct (rgb565_channels c1) as (E1 & R1 & G1 & B1).
    unfold color_table, dxt1_alpha_table. rewrite E0, E1.
    set (r0 := rgb565_r c0) in *. set (g0 := rgb565_g c0) in *.
    set (b0 := rgb565_b c0) in *. set (r1 := rgb565_r c1) in *.
    set (g1 := rgb565_g c1) in *. set (b1 := rgb565_b c1) in *.
    assert (T : forall u v, 0 <= u < 256 -> 0 <= v < 256 ->
                  u16 ((u + v + 1) / 2) = halfway u v
                  /\ 0 <= halfway u v < 256).
    { intros u v Hu Hv. unfold halfway.
      assert (0 <= (u + v + 1) / 2 < 256)
        by (Z.to_euclidean_division_equations; lia).
      rewrite u16_small by (unfold two16; lia). auto. }
    destruct (T r0 r1 R0 R1) as [-> Hq7]. destruct (T g0 g1 G0 G1) as [-> Hq8].
    destruct (T b0 b1 B0 B1) as [-> Hq9].
    destruct (four_cases k Hk) as [-> | [-> | [-> | ->]]]; simpl; unfold elt; simpl;
      repeat split; lia.
Qed.

(** Pixel [(4b + jj, 4a + ii)] of a DXT1 image in terms of the tables the
    loader builds for block [(a, b)]. *)
Lemma dxt1_pixel_cell (buf : list byte) (p0 W a b ii jj : Z) :
  0 <= ii < 4 -> 0 <= jj < 4 ->
  let p := p0 + 8 * (a * W + b) in
  let c0 := in_u16 buf p in
  let c1 := in_u16 buf (p + 2) in
  let k := Z.land (Z.shiftr (in_u32 buf (p + 4)) (2 * (4 * ii + jj))) 3 in
  let opq := c1 <? c0 in
  dxt1_pixel buf p0 (4 * W) (4 * b + jj) (4 * a + ii)
  = (elt (color_table rgb565_r opq c0 c1) k,
     elt (color_table rgb565_g opq c0 c1) k,
     elt (color_table rgb565_b opq c0 c1) k,
     elt (dxt1_alpha_table opq) k)
  /\ 0 <= elt (color_table rgb565_r opq c0 c1) k < 256
  /\ 0 <= elt (color_table rgb565_g opq c0 c1) k < 256
  /\ 0 <= elt (color_table rgb565_b opq c0 c1) k < 256
  /\ 0 <= elt (dxt1_alpha_table opq) k < 256.
Proof.
  intros Hii Hjj p c0 c1 k opq. unfold dxt1_pixel.
  destruct (block_of_cell W a b ii jj Hii Hjj) as [-> ->].
  fold p. fold c0. fold c1. fold k.
  apply dxt1_tables. apply land_3_range.
Qed.

(** One DXT1 block fills its 4 x 4 cell. *)
Lemma dxt1_block_holds (buf : list byte) (stride W H p0 : Z)
    (D : Z -> Z -> Z -> Prop) (st : dstate) (a b : Z) :
  0 <= p0 -> p0 + 8 * (H * W) <= read_limit buf ->
  0 <= a < H -> 0 <= b < W ->
  frame_ok stride (4 * W) (4 * H) (pixels st) ->
  holds (pixels st) stride (4 * W) (4 * H) D
    (fun x y c => channel (dxt1_pixel buf p0 (4 * W) x y) c) ->
  pos st = p0 + 8 * (a * W + b) ->
  exists st',
    dxt1_block buf stride (4 * a) (4 * b) st = Some st'
    /\ pos st' = pos st + 8
    /\ frame_ok stride (4 * W) (4 * H) (pixels st')
    /\ holds (pixels st') stride (4 * W) (4 * H)
         (fun x y c => D x y c
                       \/ (4 * a <= y < 4 * a + 4 /\ 4 * b <= x < 4 * b + 4))
         (fun x y c => channel (dxt1_pixel buf p0 (4 * W) x y) c).
Proof.
  intros Hp0 Hlen Ha Hb Hok Hh Hpos.
  assert (Hfit : p0 + 8 * (a * W + b) + 8 <= p0 + 8 * (H * W)) by nia.
  assert (Hnn : 0 <= a * W + b) by nia.
  unfold dxt1_block.
  rewrite read_u16_ok by lia. simpl.
  rewrite read_u16_ok by (simpl; lia). simpl.
  rewrite read_u32_ok by (simpl; lia). simpl.
  rewrite !advance_advance. simpl. change (2 + (2 + 4)) with 8.
  replace (pos st + 2 + 2) with (pos st + 4) by lia.
  set (c0 := in_u16 buf (pos st)). set (c1 := in_u16 buf (pos st + 2)).
  set (sel0 := in_u32 buf (pos st + 4)).
  set (opq := c1 <? c0).
  set (E := fun x y c => channel (dxt1_pixel buf p0 (4 * W) x y) c) in *.
  destruct (texel_loops stride (4 * W) (4 * H) (4 * b) (4 * a) 2 sel0
              (fun _ => True) E
              (dxt1_texel stride (color_table rgb565_r opq c0 c1)
                 (color_table rgb565_g opq c0 c1)
                 (color_table rgb565_b opq c0 c1) (dxt1_alpha_table opq)
                 (4 * a) (4 * b)) ltac:(lia))
    with (D := D) (st := advance st 8)
    as (s' & st' & Hrun & Hpos' & Hok' & Hh').
  - intros ii jj D' t Hii Hjj Hokt Hht.
    destruct (dxt1_pixel_cell buf p0 W a b ii jj Hii Hjj)
      as (Epx & Rr & Rg & Rb & Ra).
    rewrite <- Hpos in Epx, Rr, Rg, Rb, Ra.
    fold c0 c1 sel0 opq in Epx, Rr, Rg, Rb, Ra.
    set (k := Z.land (Z.shiftr sel0 (2 * (4 * ii + jj))) 3) in *.
    unfold dxt1_texel. fold k.
    destruct (poke_holds stride (4 * W) (4 * H) _ E t (4 * b + jj) (4 * a + ii) 0
                (elt (color_table rgb565_r opq c0 c1) k) Hokt Hht) as (t1 & -> & P1 & O1 & H1); try lia.
    { unfold E. rewrite Epx. reflexivity. }
    simpl.
    destruct (poke_holds stride (4 * W) (4 * H) _ E t1 (4 * b + jj) (4 * a + ii) 1
                (elt (color_table rgb565_g opq c0 c1) k) O1 H1) as (t2 & -> & P2 & O2 & H2); try lia.
    { unfold E. rewrite Epx. reflexivity. }
    simpl.
    destruct (poke_holds stride (4 * W) (4 * H) _ E t2 (4 * b + jj) (4 * a + ii) 2
                (elt (color_table rgb565_b opq c0 c1) k) O2 H2) as (t3 & -> & P3 & O3 & H3); try lia.
    { unfold E. rewrite Epx. reflexivity. }
    simpl.
    destruct (poke_holds stride (4 * W) (4 * H) _ E t3 (4 * b + jj) (4 * a + ii) 3
                (elt (dxt1_alpha_table opq) k) O3 H3) as (t4 & -> & P4 & O4 & H4); try lia.
    { unfold E. rewrite Epx. reflexivity. }
    simpl.
    exists t4. split; [reflexivity|]. split; [lia|]. split; [exact O4|].
    eapply holds_weaken; [exact H4|].
    intros x y c Hx Hy Hc [HD|(-> & -> & _)]; [tauto|].
    assert (Ec : c = 0 \/ c = 1 \/ c = 2 \/ c = 3) by lia.
    intuition.
  - exact Hok.
  - exact Hh.
  - rewrite Hrun. simpl. exists st'.
    split; [reflexivity|]. split; [rewrite Hpos'; simpl; lia|].
    split; [exact Hok'|].
    eapply holds_weaken; [exact Hh'|].
    intros x y c Hx Hy Hc [HD|HD]; [tauto | right; lia].
Qed.

(** C4 (amended): a DXT1 image with positive block-aligned dimensions,
    whose pixel array takes at most 2^32 bytes (the pixel index is a
    [uint32_t]) and whose data lies inside the buffer and ends below
    position 2^31 (the read position is an [int]), decodes block by block,
    the blocks in raster order, eight bytes each: two little-endian RGB565
    endpoints expanded to eight bits per channel, the palette of four
    entries (two interpolated colours and alpha 255 when [c0 > c1]; the
    rounded mean and transparent black otherwise), and a little-endian
    32-bit selector that gives each of the sixteen pixels, in raster order,
    two bits from the low end. *)
Theorem dxt1_decoding (hd : VtfHeader) (ctx : VtfContext) (p0 : Z) :
  header_in_range hd ->
  highResImageFormat hd = IMAGE_FORMAT_DXT1 ->
  0 < width hd -> 0 < height hd ->
  width hd mod 4 = 0 -> height hd mod 4 = 0 ->
  4 * width hd * height hd <= 2 ^ 32 ->
  0 <= p0 ->
  p0 + 8 * ((height hd / 4) * (width hd / 4)) <= Z.of_nat (length (buffer ctx)) ->
  p0 + 8 * ((height hd / 4) * (width hd / 4)) < 2 ^ 31 ->
  exists pb,
    gdk_pixbuf__vtf_load_frame hd ctx p0 = Some (Some pb, [])
    /\ has_alpha pb = true /\ pb_width pb = width hd /\ pb_height pb = height hd
    /\ forall x y, 0 <= x < width hd -> 0 <= y < height hd ->
         pixel_of pb x y = Some (dxt1_pixel (buffer ctx) p0 (width hd) x y).
Proof.
  intros Hr Hfmt Hw Hh Hw4 Hh4 H32 Hp0 Hlen Hint.
  pose proof (read_limit_fits _ _ Hlen Hint) as Hlim.
  remember (width hd / 4) as W eqn:EW.
  remember (height hd / 4) as H eqn:EH.
  assert (HW : width hd = 4 * W) by (Z.to_euclidean_division_equations; lia).
  assert (HH : height hd = 4 * H) by (Z.to_euclidean_division_equations; lia).
  destruct (decode_with_rgba hd ctx 4 8 p0 W H
              (fun x y c => channel (dxt1_pixel (buffer ctx) p0 (width hd) x y) c)
              dxt1_block Hr Hw Hh H32 ltac:(lia) HW HH)
    as (pb & Hrun & Ha & Hpw & Hph & Hs & Hholds).
  - intros a b D st Ha Hb. rewrite HW, HH.
    apply (dxt1_block_holds (buffer ctx) _ W H p0); assumption.
  - exists pb. unfold gdk_pixbuf__vtf_load_frame. rewrite Hfmt. simpl.
    rewrite Hrun. simpl. split; [reflexivity|]. repeat (split; [assumption|]).
    intros x y Hx Hy.
    apply (holds_pixel_of pb (width hd) (height hd)
             (dxt1_pixel (buffer ctx) p0 (width hd))); assumption.
Qed.

Lemma dxt1_decoding_witness :
  exists pb,
    gdk_pixbuf__vtf_load_frame
      (mk_header 4 4 1 IMAGE_FORMAT_DXT1 1 1)
      (mk_context [255; 255; 0; 0; 0; 0; 0; 0]) 0 = Some (Some pb, [])
    /\ pixel_of pb 3 2 = Some (248, 252, 248, 255).
Proof.
  destruct (dxt1_decoding (mk_header 4 4 1 IMAGE_FORMAT_DXT1 1 1)
              (mk_context [255; 255; 0; 0; 0; 0; 0; 0]) 0)
    as (pb & Hrun & _ & _ & _ & Hpx).
  - split; vm_compute; split; congruence.
  - reflexivity.
  - reflexivity.
  - reflexivity.
  - reflexivity.
  - reflexivity.
  - vm_compute. congruence.
  - lia.
  - vm_compute. congruence.
  - vm_compute. reflexivity.
  - exists pb. split; [exact Hrun|].
    rewrite (Hpx 3 2) by (simpl; lia). vm_compute. reflexivity.
Defined.

(** The alpha table of the loader against the alpha palette of a DXT5
    block. *)
Lemma dxt5_alpha_tables (a0 a1 k : Z) :
  0 <= a0 < 256 -> 0 <= a1 < 256 -> 0 <= k < 8 ->
  nth (Z.to_nat k) (dxt5_alpha_palette a0 a1) 0
  = elt (dxt5_alpha_table (u16 a0) (u16 a1)) k
  /\ 0 <= elt (dxt5_alpha_table (u16 a0) (u16 a1)) k < 256.
Proof.
  intros H0 H1 Hk.
  rewrite !u16_small by (unfold two16; lia).
  unfold dxt5_alpha_palette, dxt5_alpha_table. rewrite Z.gtb_ltb.
  assert (T : forall m n d r, 0 < d -> 0 <= m -> 0 <= n -> m + n = d -> 2 * r = d ->
                0 <= (m * a0 + n * a1 + r) / d < 256).
  { intros m n d r Hd Hm Hn Hmn Hrd. split.
    - apply Z.div_pos; nia.
    - apply Z.div_lt_upper_bound; nia. }
  destruct (a1 <? a0).
  - pose proof (T 12 2 14 7 ltac:(lia) ltac:(lia) ltac:(lia) eq_refl eq_refl).
    pose proof (T 10 4 14 7 ltac:(lia) ltac:(lia) ltac:(lia) eq_refl eq_refl).
    pose proof (T 8 6 14 7 ltac:(lia) ltac:(lia) ltac:(lia) eq_refl eq_refl).
    pose proof (T 6 8 14 7 ltac:(lia) ltac:(lia) ltac:(lia) eq_refl eq_refl).
    pose proof (T 4 10 14 7 ltac:(lia) ltac:(lia) ltac:(lia) eq_refl eq_refl).
    pose proof (T 2 12 14 7 ltac:(lia) ltac:(lia) ltac:(lia) eq_refl eq_refl).
    rewrite !u16_small by (unfold two16; lia).
    destruct (eight_cases k Hk) as [-> | [-> | [-> | [-> | [-> | [-> | [-> | ->]]]]]]];
      unfold elt; simpl; split; (reflexivity || lia).
  - assert (T' : forall m n, 0 <= m -> 0 <= n -> m + n = 10 ->
                   0 <= (m * a0 + n * a1 + 5) / 10 < 256).
    { intros m n Hm Hn Hmn. split.
      - apply Z.div_pos; nia.
      - apply Z.div_lt_upper_bound; nia. }
    pose proof (T' 8 2 ltac:(lia) ltac:(lia) eq_refl).
    pose proof (T' 6 4 ltac:(lia) ltac:(lia) eq_refl).
    pose proof (T' 4 6 ltac:(lia) ltac:(lia) eq_refl).
    pose proof (T' 2 8 ltac:(lia) ltac:(lia) eq_refl).
    rewrite !u16_small by (unfold two16; lia).
    destruct (eight_cases k Hk) as [-> | [-> | [-> | [-> | [-> | [-> | [-> | ->]]]]]]];
      unfold elt; simpl; split; (reflexivity || lia).
Qed.

(** Pixel [(4b + jj, 4a + ii)] of a DXT5 image in terms of the tables the
    loader builds for block [(a, b)]. *)
Lemma dxt5_pixel_cell (buf : list byte) (p0 W a b ii jj : Z) :
  0 <= ii < 4 -> 0 <= jj < 4 ->
  let p := p0 + 16 * (a * W + b) in
  let al := dxt5_alpha_table (u16 (in_byte buf p)) (u16 (in_byte buf (p + 1))) in
  let ka := Z.land (Z.shiftr (in_u48 buf (p + 2)) (3 * (4 * ii + jj))) 7 in
  let c0 := in_u16 buf (p + 8) in
  let c1 := in_u16 buf (p + 10) in
  let k := Z.land (Z.shiftr (in_u32 buf (p + 12)) (2 * (4 * ii + jj))) 3 in
  dxt5_pixel buf p0 (4 * W) (4 * b + jj) (4 * a + ii)
  = (elt (color_table rgb565_r true c0 c1) k,
     elt (color_table rgb565_g true c0 c1) k,
     elt (color_table rgb565_b true c0 c1) k,
     elt al ka)
  /\ 0 <= elt (color_table rgb565_r true c0 c1) k < 256
  /\ 0 <= elt (color_table rgb565_g true c0 c1) k < 256
  /\ 0 <= elt (color_table rgb565_b true c0 c1) k < 256
  /\ 0 <= elt al ka < 256.
Proof.
  intros Hii Hjj p al ka c0 c1 k. unfold dxt5_pixel.
  destruct (block_of_cell W a b ii jj Hii Hjj) as [-> ->].
  fold p. fold c0. fold c1. fold k. fold ka.
  destruct (opaque_tables c0 c1 k (land_3_range _)) as (-> & Rr & Rg & Rb).
  destruct (dxt5_alpha_tables (in_byte buf p) (in_byte buf (p + 1)) ka
              (in_byte_range _ _) (in_byte_range _ _) (land_7_range _))
    as (-> & Ra).
  fold al. unfold with_alpha. auto.
Qed.

(** One DXT5 block fills its 4 x 4 cell. *)
Lemma dxt5_block_holds (buf : list byte) (stride W H p0 : Z)
    (D : Z -> Z -> Z -> Prop) (st : dstate) (a b : Z) :
  0 <= p0 -> p0 + 16 * (H * W) <= read_limit buf ->
  0 <= a < H -> 0 <= b < W ->
  frame_ok stride (4 * W) (4 * H) (pixels st) ->
  holds (pixels st) stride (4 * W) (4 * H) D
    (fun x y c => channel (dxt5_pixel buf p0 (4 * W) x y) c) ->
  pos st = p0 + 16 * (a * W + b) ->
  exists st',
    dxt5_block buf stride (4 * a) (4 * b) st = Some st'
    /\ pos st' = pos st + 16
    /\ frame_ok stride (4 * W) (4 * H) (pixels st')
    /\ holds (pixels st') stride (4 * W) (4 * H)
         (fun x y c => D x y c
                       \/ (4 * a <= y < 4 * a + 4 /\ 4 * b <= x < 4 * b + 4))
         (fun x y c => channel (dxt5_pixel buf p0 (4 * W) x y) c).
Proof.
  intros Hp0 Hlen Ha Hb Hok Hh Hpos.
  assert (Hfit : p0 + 16 * (a * W + b) + 16 <= p0 + 16 * (H * W)) by nia.
  assert (Hnn : 0 <= a * W + b) by nia.
  set (E := fun x y c => channel (dxt5_pixel buf p0 (4 * W) x y) c) in *.
  assert (Hcell : forall ii jj, 0 <= ii < 4 -> 0 <= jj < 4 ->
            let p := pos st in
            let al := dxt5_alpha_table (u16 (in_byte buf p)) (u16 (in_byte buf (p + 1))) in
            let ka := Z.land (Z.shiftr (in_u48 buf (p + 2)) (3 * (4 * ii + jj))) 7 in
            let c0 := in_u16 buf (p + 8) in
            let c1 := in_u16 buf (p + 10) in
            let k := Z.land (Z.shiftr (in_u32 buf (p + 12)) (2 * (4 * ii + jj))) 3 in
            (E (4 * b + jj) (4 * a + ii) 0 = elt (color_table rgb565_r true c0 c1) k
             /\ E (4 * b + jj) (4 * a + ii) 1 = elt (color_table rgb565_g true c0 c1) k
             /\ E (4 * b + jj) (4 * a + ii) 2 = elt (color_table rgb565_b true c0 c1) k
             /\ E (4 * b + jj) (4 * a + ii) 3 = elt al ka)
            /\ 0 <= elt (color_table rgb565_r true c0 c1) k < 256
            /\ 0 <= elt (color_table rgb565_g true c0 c1) k < 256
            /\ 0 <= elt (color_table rgb565_b true c0 c1) k < 256
            /\ 0 <= elt al ka < 256).
  { intros ii jj Hii Hjj. rewrite Hpos.
    destruct (dxt5_pixel_cell buf p0 W a b ii jj Hii Hjj) as (Epx & R).
    simpl. split; [|exact R]. unfold E. rewrite Epx. simpl. auto. }
  unfold dxt5_block.
  rewrite read_byte_ok by lia. cbn [mbind option_bind].
  rewrite read_byte_ok by (simpl; lia). cbn [mbind option_bind].
  rewrite read_u48_ok by (simpl; lia). cbn [mbind option_bind].
  rewrite !advance_advance. cbn [pos advance].
  change (1 + 1 + 6) with 8. change (1 + 1) with 2.
  destruct (texel_loops stride (4 * W) (4 * H) (4 * b) (4 * a) 3
              (in_u48 buf (pos st + 2)) (fun c => c = 3) E
              (dxt5_alpha_texel stride
                 (dxt5_alpha_table (u16 (in_byte buf (pos st)))
                    (u16 (in_byte buf (pos st + 1)))) (4 * a) (4 * b)) ltac:(lia))
    with (D := D) (st := advance st 8)
    as (s1 & st1 & Hrun1 & Hpos1 & Hok1 & Hh1).
  { intros ii jj D' t Hii Hjj Hokt Hht.
    destruct (Hcell ii jj Hii Hjj) as ((_ & _ & _ & Ea) & _ & _ & _ & Ra).
    unfold dxt5_alpha_texel.
    destruct (poke_holds stride (4 * W) (4 * H) _ E t (4 * b + jj) (4 * a + ii) 3
                _ Hokt Hht ltac:(lia) ltac:(lia) ltac:(lia) Ra Ea)
      as (t1 & -> & P1 & O1 & H1).
    simpl. exists t1. auto. }
  { exact Hok. }
  { exact Hh. }
  rewrite Hrun1. simpl in Hpos1. cbn [mbind option_bind].
  rewrite read_u16_ok by lia. cbn [mbind option_bind].
  rewrite read_u16_ok by (simpl; lia). cbn [mbind option_bind].
  rewrite read_u32_ok by (simpl; lia). cbn [mbind option_bind].
  rewrite !advance_advance. cbn [pos advance].
  change (2 + 2 + 4) with 8. change (2 + 2) with 4.
  rewrite Hpos1.
  replace (pos st + 8 + 2) with (pos st + 10) by lia.
  replace (pos st + 8 + 4) with (pos st + 12) by lia.
  pose (c0 := in_u16 buf (pos st + 8)).
  pose (c1 := in_u16 buf (pos st + 10)).
  destruct (texel_loops stride (4 * W) (4 * H) (4 * b) (4 * a) 2
              (in_u32 buf (pos st + 12)) (fun c => c < 3) E
              (dxt5_color_texel stride (color_table rgb565_r true c0 c1)
                 (color_table rgb565_g true c0 c1)
                 (color_table rgb565_b true c0 c1) (4 * a) (4 * b)) ltac:(lia))
    with (D := fun x y c => D x y c
                  \/ (4 * a <= y < 4 * a + 4 /\ 4 * b <= x < 4 * b + 4 /\ c = 3))
         (st := advance st1 8)
    as (s2 & st2 & Hrun2 & Hpos2 & Hok2 & Hh2).
  { intros ii jj D' t Hii Hjj Hokt Hht.
    destruct (Hcell ii jj Hii Hjj) as ((Er & Eg & Eb & _) & Rr & Rg & Rb & _).
    unfold dxt5_color_texel, c0, c1.
    destruct (poke_holds stride (4 * W) (4 * H) _ E t (4 * b + jj) (4 * a + ii) 0
                _ Hokt Hht ltac:(lia) ltac:(lia) ltac:(lia) Rr Er)
      as (t1 & -> & P1 & O1 & H1).
    cbn [mbind option_bind].
    destruct (poke_holds stride (4 * W) (4 * H) _ E t1 (4 * b + jj) (4 * a + ii) 1
                _ O1 H1 ltac:(lia) ltac:(lia) ltac:(lia) Rg Eg)
      as (t2 & -> & P2 & O2 & H2).
    cbn [mbind option_bind].
    destruct (poke_holds stride (4 * W) (4 * H) _ E t2 (4 * b + jj) (4 * a + ii) 2
                _ O2 H2 ltac:(lia) ltac:(lia) ltac:(lia) Rb Eb)
      as (t3 & -> & P3 & O3 & H3).
    cbn [mbind option_bind]. exists t3. split; [reflexivity|]. split; [lia|]. split; [exact O3|].
    eapply holds_weaken; [exact H3|].
    intros x y c Hx Hy Hc [HD|(-> & -> & Hc3)]; [tauto|].
    assert (Ec : c = 0 \/ c = 1 \/ c = 2) by lia.
    intuition. }
  { exact Hok1. }
  { exact Hh1. }
  fold c0 c1. rewrite Hrun2. simpl in Hpos2. cbn [mbind option_bind]. exists st2.
  split; [reflexivity|]. split; [lia|]. split; [exact Hok2|].
  eapply holds_weaken; [exact Hh2|].
  intros x y c Hx Hy Hc [HD|HD]; [tauto|].
  destruct (Z.eq_dec c 3) as [->|Hne].
  - left. right. lia.
  - right. lia.
Qed.

(** C5 (amended): a DXT5 image with positive block-aligned dimensions,
    whose pixel array takes at most 2^32 bytes (the pixel index is a
    [uint32_t]) and whose data lies inside the buffer and ends below
    position 2^31 (the read position is an [int]), decodes block by block,
    sixteen bytes each, the alpha sub-block first: two alpha endpoints, the
    palette of eight alpha values (six interpolated over 14 when
    [a0 > a1]; four over 10, then 0 and 255 otherwise) and a little-endian
    48-bit selector with three bits per pixel, which give the alpha sample
    only; then the colour sub-block, decoded with the palette of an opaque
    DXT1 block whatever the order of [c0] and [c1], which gives R, G, B. *)
Theorem dxt5_decoding (hd : VtfHeader) (ctx : VtfContext) (p0 : Z) :
  header_in_range hd ->
  highResImageFormat hd = IMAGE_FORMAT_DXT5 ->
  0 < width hd -> 0 < height hd ->
  width hd mod 4 = 0 -> height hd mod 4 = 0 ->
  4 * width hd * height hd <= 2 ^ 32 ->
  0 <= p0 ->
  p0 + 16 * ((height hd / 4) * (width hd / 4)) <= Z.of_nat (length (buffer ctx)) ->
  p0 + 16 * ((height hd / 4) * (width hd / 4)) < 2 ^ 31 ->
  exists pb,
    gdk_pixbuf__vtf_load_frame hd ctx p0 = Some (Some pb, [])
    /\ has_alpha pb = true /\ pb_width pb = width hd /\ pb_height pb = height hd
    /\ forall x y, 0 <= x < width hd -> 0 <= y < height hd ->
         pixel_of pb x y = Some (dxt5_pixel (buffer ctx) p0 (width hd) x y).
Proof.
  intros Hr Hfmt Hw Hh Hw4 Hh4 H32 Hp0 Hlen Hint.
  pose proof (read_limit_fits _ _ Hlen Hint) as Hlim.
  remember (width hd / 4) as W eqn:EW.
  remember (height hd / 4) as H eqn:EH.
  assert (HW : width hd = 4 * W) by (Z.to_euclidean_division_equations; lia).
  assert (HH : height hd = 4 * H) by (Z.to_euclidean_division_equations; lia).
  destruct (decode_with_rgba hd ctx 4 16 p0 W H
              (fun x y c => channel (dxt5_pixel (buffer ctx) p0 (width hd) x y) c)
              dxt5_block Hr Hw Hh H32 ltac:(lia) HW HH)
    as (pb & Hrun & Ha & Hpw & Hph & Hs & Hholds).
  - intros a b D st Ha Hb. rewrite HW, HH.
    apply (dxt5_block_holds (buffer ctx) _ W H p0); assumption.
  - exists pb. unfold gdk_pixbuf__vtf_load_frame. rewrite Hfmt. simpl.
    rewrite Hrun. simpl. split; [reflexivity|]. repeat (split; [assumption|]).
    intros x y Hx Hy.
    apply (holds_pixel_of pb (width hd) (height hd)
             (dxt5_pixel (buffer ctx) p0 (width hd))); assumption.
Qed.

Lemma dxt5_decoding_witness :
  exists pb,
    gdk_pixbuf__vtf_load_frame
      (mk_header 4 4 1 IMAGE_FORMAT_DXT5 1 1)
      (mk_context [255; 0; 0; 0; 0; 0; 0; 0; 0; 0; 255; 255; 0; 0; 0; 64]) 0
    = Some (Some pb, [])
    /\ pixel_of pb 0 0 = Some (0, 0, 0, 255)
    /\ pixel_of pb 3 3 = Some (248, 252, 248, 255).
Proof.
  destruct (dxt5_decoding (mk_header 4 4 1 IMAGE_FORMAT_DXT5 1 1)
              (mk_context [255; 0; 0; 0; 0; 0; 0; 0; 0; 0; 255; 255; 0; 0; 0; 64]) 0)
    as (pb & Hrun & _ & _ & _ & Hpx).
  - split; vm_compute; split; congruence.
  - reflexivity.
  - reflexivity.
  - reflexivity.
  - reflexivity.
  - reflexivity.
  - vm_compute. congruence.
  - lia.
  - vm_compute. congruence.
  - vm_compute. reflexivity.
  - exists pb. split; [exact Hrun|].
    rewrite (Hpx 0 0), (Hpx 3 3) by (simpl; lia). vm_compute. split; reflexivity.
Defined.
(* ===================================================================== *)
(** ** Pixel arrays of more than 2^32 bytes *)
(* ===================================================================== *)

(** The two loops over the image, in steps of [step] pixels, with a body
    that reads [k] bytes and keeps the property [P]: they come back, with
    [P], when every round comes back. *)
Lemma raster_inv (P : dstate -> Prop) (w h step k p0 W H : Z)
    (body : Z -> Z -> dstate -> option dstate) :
  0 < step -> w = step * W -> h = step * H -> 0 <= W -> 0 <= H ->
  (forall a b st,
      0 <= a < H -> 0 <= b < W -> P st ->
      pos st = p0 + k * (a * W + b) ->
      exists st',
        body (step * a) (step * b) st = Some st'
        /\ pos st' = pos st + k /\ P st') ->
  forall st,
    P st -> pos st = p0 ->
    exists st',
      for_loop h step (fun i => for_loop w step (fun j => body i j)) st = Some st'
      /\ P st' /\ pos st' = p0 + k * (H * W).
Proof.
  intros Hstep Hw Hh HW HH Hbody st HP Hpos.
  pose (InvO := fun (i : Z) (s : dstate) =>
    exists a, i = step * a /\ 0 <= a <= H /\ P s /\ pos s = p0 + k * (a * W)).
  destruct (for_loop_inv InvO h step
              (fun i => for_loop w step (fun j => body i j)) st Hstep)
    as (i' & st' & Hrun & (a' & Hi' & Ha' & HP' & Hpos') & Hend).
  - intros i s Hi (a & -> & Ha & HPs & Hposs).
    assert (Ha1 : a < H) by nia.
    pose (InvI := fun (j : Z) (t : dstate) =>
      exists b, j = step * b /\ 0 <= b <= W /\ P t
                /\ pos t = p0 + k * (a * W + b)).
    destruct (for_loop_inv InvI w step (fun j => body (step * a) j) s Hstep)
      as (j' & s' & Hrun & (b' & Hj' & Hb' & HP' & Hpos') & Hend).
    + intros j t Hj (b & -> & Hb & HPt & Hpost).
      assert (Hb1 : b < W) by nia.
      destruct (Hbody a b t ltac:(lia) ltac:(lia) HPt Hpost)
        as (t' & Hrun & Hpos' & HP').
      exists t'. split; [exact Hrun|].
      exists (b + 1). split; [ring|]. split; [lia|]. split; [exact HP'|].
      rewrite Hpos', Hpost. ring.
    + exists 0. split; [ring|]. split; [lia|]. split; [exact HPs|].
      rewrite Hposs. ring.
    + assert (b' = W) as -> by nia.
      exists s'. split; [exact Hrun|].
      exists (a + 1). split; [ring|]. split; [lia|]. split; [exact HP'|].
      rewrite Hpos'. ring.
  - exists 0. split; [ring|]. split; [lia|]. split; [exact HP|].
    rewrite Hpos. ring.
  - assert (a' = H) as -> by nia.
    exists st'. split; [exact Hrun|]. split; [exact HP'|]. exact Hpos'.
Qed.

Section Far.
Variable buf : list byte.
Variable stride : Z.
Variable L : nat.
Hypothesis Hbig : two32 <= Z.of_nat L.

(** The index of a sample is a [uint32_t]: in a pixel array of 2^32 bytes
    or more every write lands inside the array. *)
Lemma poke_far (idx v : Z) (st : dstate) :
  length (pixels st) = L ->
  exists st',
    poke (u32 idx) v st = Some st'
    /\ pos st' = pos st /\ length (pixels st') = L
    /\ pixels st' !! Z.to_nat (u32 idx) = Some (u8 v).
Proof.
  intros Hl. unfold poke.
  pose proof (u32_range idx) as Hi.
  destruct (0 <=? u32 idx) eqn:E1; [|apply Z.leb_gt in E1; lia].
  destruct (u32 idx <? Z.of_nat (length (pixels st))) eqn:E2;
    [|apply Z.ltb_ge in E2; lia].
  simpl. eexists. split; [reflexivity|]. simpl. split; [reflexivity|].
  split.
  - rewrite length_insert. exact Hl.
  - apply list_lookup_insert_eq. lia.
Qed.

(** The two inner loops of a block, whose rounds read nothing and keep
    the length of the array; [Q] is what the last round leaves. *)
Lemma texel_loops_last (Q : dstate -> Prop)
    (body : Z -> Z -> Z * dstate -> option (Z * dstate)) (s : Z * dstate) :
  (forall ii jj t,
     0 <= ii < 4 -> 0 <= jj < 4 -> length (pixels (snd t)) = L ->
     exists t', body ii jj t = Some t'
                /\ pos (snd t') = pos (snd t)
                /\ length (pixels (snd t')) = L
                /\ (ii = 3 -> jj = 3 -> Q (snd t'))) ->
  length (pixels (snd s)) = L ->
  exists s',
    for_loop 4 1 (fun ii => for_loop 4 1 (fun jj => body ii jj)) s = Some s'
    /\ pos (snd s') = pos (snd s) /\ length (pixels (snd s')) = L
    /\ Q (snd s').
Proof.
  intros Hbody Hl.
  pose (InvO := fun (ii : Z) (t : Z * dstate) =>
    0 <= ii <= 4 /\ pos (snd t) = pos (snd s)
    /\ length (pixels (snd t)) = L /\ (ii = 4 -> Q (snd t))).
  destruct (for_loop_inv InvO 4 1
              (fun ii => for_loop 4 1 (fun jj => body ii jj)) s ltac:(lia))
    as (i' & s' & Hrun & (Hi' & Hpos' & Hl' & HQ') & Hend).
  - intros ii t Hii (Hr & Hpt & Hlt & _).
    pose (InvI := fun (jj : Z) (u : Z * dstate) =>
      0 <= jj <= 4 /\ pos (snd u) = pos (snd s)
      /\ length (pixels (snd u)) = L /\ (ii = 3 -> jj = 4 -> Q (snd u))).
    destruct (for_loop_inv InvI 4 1 (fun jj => body ii jj) t ltac:(lia))
      as (j' & t' & Hrun & (Hj' & Hpos' & Hl' & HQ') & Hend).
    + intros jj u Hjj (Hrj & Hpu & Hlu & _).
      destruct (Hbody ii jj u ltac:(lia) ltac:(lia) Hlu)
        as (u' & Hrun & Hpos' & Hl' & HQ').
      exists u'. split; [exact Hrun|].
      split; [lia|]. split; [congruence|]. split; [exact Hl'|].
      intros H3 H4. apply HQ'; lia.
    + split; [lia|]. split; [exact Hpt|]. split; [exact Hlt|]. lia.
    + exists t'. split; [exact Hrun|].
      split; [lia|]. split; [exact Hpos'|]. split; [exact Hl'|].
      intros H4. apply HQ'; lia.
  - split; [lia|]. split; [reflexivity|]. split; [exact Hl|]. lia.
  - exists s'. split; [exact Hrun|]. split; [exact Hpos'|].
    split; [exact Hl'|]. apply HQ'. lia.
Qed.

Ltac poke_next :=
  unfold pix_index;
  match goal with
  | HL : length (pixels ?t) = L |- context [poke (u32 ?e) ?v ?t] =>
      let t' := fresh "t" in
      let E := fresh "E" in
      let Hp := fresh "Hp" in
      let HL' := fresh "HL" in
      let Hv := fresh "Hv" in
      destruct (poke_far e v t HL) as (t' & E & Hp & HL' & Hv);
      rewrite E; cbn [mbind option_bind]; clear E
  end.

(** A texel of a DXT1 block: the alpha sample is written last. *)
Lemma dxt1_texel_far (r g b a : list Z) (i j ii jj : Z) (t : Z * dstate) :
  length (pixels (snd t)) = L ->
  exists t', dxt1_texel stride r g b a i j ii jj t = Some t'
             /\ pos (snd t') = pos (snd t)
             /\ length (pixels (snd t')) = L
             /\ pixels (snd t') !! Z.to_nat (pix_index stride (i + ii) (j + jj) 4 3)
                = Some (u8 (elt a (Z.land (fst t) 3))).
Proof.
  destruct t as [sel st]. simpl. intros HL. unfold dxt1_texel. cbv beta iota.
  do 4 poke_next.
  eexists. split; [reflexivity|]. simpl. split; [congruence|].
  split; assumption.
Qed.

Lemma dxt5_alpha_texel_far (a : list Z) (i j ii jj : Z) (t : Z * dstate) :
  length (pixels (snd t)) = L ->
  exists t', dxt5_alpha_texel stride a i j ii jj t = Some t'
             /\ pos (snd t') = pos (snd t)
             /\ length (pixels (snd t')) = L.
Proof.
  destruct t as [sel st]. simpl. intros HL. unfold dxt5_alpha_texel.
  cbv beta iota. poke_next.
  eexists. split; [reflexivity|]. simpl. split; [congruence | assumption].
Qed.

(** A texel of the colour part of a DXT5 block: the B sample is written
    last. *)
Lemma dxt5_color_texel_far (r g b : list Z) (i j ii jj : Z) (t : Z * dstate) :
  length (pixels (snd t)) = L ->
  exists t', dxt5_color_texel stride r g b i j ii jj t = Some t'
             /\ pos (snd t') = pos (snd t)
             /\ length (pixels (snd t')) = L
             /\ pixels (snd t') !! Z.to_nat (pix_index stride (i + ii) (j + jj) 4 2)
                = Some (u8 (elt b (Z.land (fst t) 3))).
Proof.
  destruct t as [sel st]. simpl. intros HL. unfold dxt5_color_texel.
  cbv beta iota. do 3 poke_next.
  eexists. split; [reflexivity|]. simpl. split; [congruence|].
  split; assumption.
Qed.

(** A DXT1 block whose bytes can be read is decoded; when it is opaque,
    it leaves alpha 255 where the index of the alpha sample of its last
    texel points. *)
Lemma dxt1_block_far (i j : Z) (st : dstate) :
  0 <= pos st -> pos st + 8 <= read_limit buf ->
  length (pixels st) = L ->
  exists st',
    dxt1_block buf stride i j st = Some st'
    /\ pos st' = pos st + 8 /\ length (pixels st') = L
    /\ (in_u16 buf (pos st + 2) < in_u16 buf (pos st) ->
        pixels st' !! Z.to_nat (pix_index stride (i + 3) (j + 3) 4 3) = Some 255).
Proof.
  intros Hp Hl HL. unfold dxt1_block.
  rewrite read_u16_ok by lia. cbn [mbind option_bind].
  rewrite read_u16_ok by (simpl; lia). cbn [mbind option_bind].
  rewrite read_u32_ok by (simpl; lia). cbn [mbind option_bind].
  cbv zeta. simpl pos.
  set (c0 := in_u16 buf (pos st)). set (c1 := in_u16 buf (pos st + 2)).
  match goal with
  | |- context [for_loop 4 1 (fun ii => for_loop 4 1
                  (fun jj => dxt1_texel stride ?r ?g ?b ?a i j ii jj)) ?s] =>
      destruct (texel_loops_last
                  (fun t => c1 < c0 ->
                     pixels t !! Z.to_nat (pix_index stride (i + 3) (j + 3) 4 3)
                     = Some 255)
                  (fun ii jj => dxt1_texel stride r g b a i j ii jj) s)
        as ([sel' st'] & Hrun & Hpos' & HL' & HQ')
  end.
  - intros ii jj t Hii Hjj Ht.
    destruct (dxt1_texel_far (color_table rgb565_r (c1 <? c0) c0 c1)
                (color_table rgb565_g (c1 <? c0) c0 c1)
                (color_table rgb565_b (c1 <? c0) c0 c1)
                (dxt1_alpha_table (c1 <? c0)) i j ii jj t Ht)
      as (t' & Hrun & Hpos' & HL' & Hv).
    exists t'. split; [exact Hrun|]. split; [exact Hpos'|]. split; [exact HL'|].
    intros -> -> Hop. rewrite Hv.
    replace (c1 <? c0) with true by (symmetry; apply Z.ltb_lt; exact Hop).
    destruct (four_cases _ (land_3_range (fst t))) as [-> | [-> | [-> | ->]]];
      reflexivity.
  - exact HL.
  - rewrite Hrun. cbn [mbind option_bind]. exists st'.
    split; [reflexivity|]. simpl in *. split; [lia|]. split; assumption.
Qed.

(** A DXT5 block whose bytes can be read is decoded; when its two colour
    endpoints are white, it leaves 248 where the index of the B sample of
    its last texel points. *)
Lemma dxt5_block_far (i j : Z) (st : dstate) :
  0 <= pos st -> pos st + 16 <= read_limit buf ->
  length (pixels st) = L ->
  exists st',
    dxt5_block buf stride i j st = Some st'
    /\ pos st' = pos st + 16 /\ length (pixels st') = L
    /\ (in_u16 buf (pos st + 8) = 65535 -> in_u16 buf (pos st + 10) = 65535 ->
        pixels st' !! Z.to_nat (pix_index stride (i + 3) (j + 3) 4 2) = Some 248).
Proof.
  intros Hp Hl HL. unfold dxt5_block.
  rewrite read_byte_ok by lia. cbn [mbind option_bind].
  rewrite read_byte_ok by (simpl; lia). cbn [mbind option_bind].
  rewrite read_u48_ok by (simpl; lia). cbn [mbind option_bind].
  cbv zeta.
  match goal with
  | |- context [for_loop 4 1 (fun ii => for_loop 4 1
                  (fun jj => dxt5_alpha_texel stride ?a i j ii jj)) ?s] =>
      destruct (texel_loops_last (fun _ => True)
                  (fun ii jj => dxt5_alpha_texel stride a i j ii jj) s)
        as ([sel1 s1] & Hrun1 & Hpos1 & HL1 & _)
  end.
  - intros ii jj t Hii Hjj Ht.
    match goal with
    | |- context [dxt5_alpha_texel stride ?a i j ii jj t] =>
        destruct (dxt5_alpha_texel_far a i j ii jj t Ht)
          as (t' & Hrun & Hpos' & HL')
    end.
    exists t'. auto.
  - exact HL.
  - rewrite Hrun1. cbn [mbind option_bind]. simpl in Hpos1, HL1.
    rewrite read_u16_ok by lia. cbn [mbind option_bind].
    rewrite read_u16_ok by (simpl; lia). cbn [mbind option_bind].
    rewrite read_u32_ok by (simpl; lia). cbn [mbind option_bind].
    simpl pos. rewrite Hpos1.
    replace (pos st + 1 + 1 + 6) with (pos st + 8) by ring.
    replace (pos st + 8 + 2) with (pos st + 10) by ring.
    set (c0 := in_u16 buf (pos st + 8)). set (c1 := in_u16 buf (pos st + 10)).
    match goal with
    | |- context [for_loop 4 1 (fun ii => for_loop 4 1
                    (fun jj => dxt5_color_texel stride ?r ?g ?b i j ii jj)) ?s] =>
        destruct (texel_loops_last
                    (fun t => c0 = 65535 -> c1 = 65535 ->
                       pixels t !! Z.to_nat (pix_index stride (i + 3) (j + 3) 4 2)
                       = Some 248)
                    (fun ii jj => dxt5_color_texel stride r g b i j ii jj) s)
          as ([sel2 s2] & Hrun2 & Hpos2 & HL2 & HQ2)
    end.
    + intros ii jj t Hii Hjj Ht.
      destruct (dxt5_color_texel_far
                  (color_table rgb565_r true c0 c1) (color_table rgb565_g true c0 c1)
                  (color_table rgb565_b true c0 c1) i j ii jj t Ht)
        as (t' & Hrun & Hpos' & HL' & Hv).
      exists t'. split; [exact Hrun|]. split; [exact Hpos'|]. split; [exact HL'|].
      intros -> -> E0 E1. rewrite Hv, E0, E1.
      destruct (four_cases _ (land_3_range (fst t))) as [-> | [-> | [-> | ->]]];
        reflexivity.
    + exact HL1.
    + rewrite Hrun2. cbn [mbind option_bind]. exists s2.
      split; [reflexivity|]. simpl in *. split; [lia|]. split; assumption.
Qed.
End Far.

(** A DXT frame of whole blocks whose pixel array takes 2^32 bytes or more
    is decoded without a fault when its data can be read; the last write of
    the last block stays.  [c] is the sample written last, [v] its value. *)
Lemma dxt_last_write (hd : VtfHeader) (ctx : VtfContext) (k c v p0 : Z) :
  header_in_range hd ->
  0 < width hd -> 0 < height hd ->
  width hd mod 4 = 0 -> height hd mod 4 = 0 ->
  two32 <= 4 * width hd * height hd ->
  0 <= p0 ->
  let p_last := p0 + k * ((height hd / 4) * (width hd / 4)) - k in
  p_last + k <= read_limit (buffer ctx) ->
  (highResImageFormat hd = IMAGE_FORMAT_DXT1 /\ k = 8 /\ c = 3 /\ v = 255
   /\ in_u16 (buffer ctx) (p_last + 2) < in_u16 (buffer ctx) p_last)
  \/ (highResImageFormat hd = IMAGE_FORMAT_DXT5 /\ k = 16 /\ c = 2 /\ v = 248
      /\ in_u16 (buffer ctx) (p_last + 8) = 65535
      /\ in_u16 (buffer ctx) (p_last + 10) = 65535) ->
  exists pb,
    gdk_pixbuf__vtf_load_frame hd ctx p0 = Some (Some pb, [])
    /\ has_alpha pb = true /\ rowstride pb = 4 * width hd
    /\ Z.of_nat (length (pb_pixels pb)) = 4 * width hd * height hd
    /\ pb_pixels pb
       !! Z.to_nat (u32 (4 * width hd * (height hd - 1) + 4 * (width hd - 1) + c))
       = Some v.
Proof.
  intros Hr Hw Hh Hw4 Hh4 Hbig Hp0 p_last Hlim Hfmt.
  set (W := width hd / 4) in *. set (H := height hd / 4) in *.
  set (L := Z.to_nat (4 * width hd * height hd)).
  assert (HbigL : two32 <= Z.of_nat L) by (unfold L; lia).
  assert (HW : width hd = 4 * W)
    by (unfold W; Z.to_euclidean_division_equations; lia).
  assert (HH : height hd = 4 * H)
    by (unfold H; Z.to_euclidean_division_equations; lia).
  assert (Hs : u32 (4 * width hd) = 4 * width hd).
  { apply u32_small. destruct Hr. unfold two16, two32 in *. lia. }
  set (q := Z.to_nat (u32 (4 * width hd * (height hd - 1)
                           + 4 * (width hd - 1) + c))).
  assert (Hk : 0 < k) by (destruct Hfmt as [(_ & -> & _)|(_ & -> & _)]; lia).
  assert (Hgen : forall body,
            (forall a b st,
               0 <= pos st -> pos st + k <= read_limit (buffer ctx) ->
               length (pixels st) = L ->
               exists st',
                 body (buffer ctx) (4 * width hd) (4 * a) (4 * b) st = Some st'
                 /\ pos st' = pos st + k /\ length (pixels st') = L
                 /\ (a = H - 1 -> b = W - 1 -> pos st = p_last ->
                     pixels st' !! q = Some v)) ->
            exists pb,
              decode_with hd ctx true 4 body p0 = Some (Some pb)
              /\ has_alpha pb = true /\ rowstride pb = 4 * width hd
              /\ length (pb_pixels pb) = L /\ pb_pixels pb !! q = Some v).
  { intros body Hbody. unfold decode_with.
    rewrite gdk_pixbuf_new_rgba by assumption.
    cbn [gdk_pixbuf_get_rowstride gdk_pixbuf_get_pixels rowstride pb_pixels].
    rewrite Hs.
    destruct (raster_inv
                (fun t => length (pixels t) = L
                          /\ (pos t = p_last + k -> pixels t !! q = Some v))
                (width hd) (height hd) 4 k p0 W H
                (body (buffer ctx) (4 * width hd))
                ltac:(lia) HW HH ltac:(lia) ltac:(lia))
      with (st := {| pos := p0;
                     pixels := replicate (Z.to_nat (4 * width hd * height hd)) 0 |})
      as (st' & Hrun & [HL' HQ'] & Hpos').
    - intros a b st Ha Hb [HL _] Hpos.
      assert (Hcount : a * W + b + 1 <= H * W) by nia.
      destruct (Hbody a b st ltac:(nia) ltac:(unfold p_last in Hlim; nia) HL)
        as (st' & Hrun & Hpos' & HL' & Hv).
      exists st'. split; [exact Hrun|]. split; [exact Hpos'|].
      split; [exact HL'|]. intros Hend.
      assert (Hab : a * W + b + 1 = H * W) by (unfold p_last in Hend; nia).
      assert (a = H - 1) by nia.
      assert (b = W - 1) by nia.
      apply Hv; [assumption | assumption | unfold p_last in *; nia].
    - simpl. split; [unfold L; apply length_replicate|].
      intros Hend. unfold p_last in Hend. nia.
    - reflexivity.
    - rewrite Hrun. cbn [mbind option_bind]. eexists. split; [reflexivity|].
      simpl. split; [reflexivity|]. split; [reflexivity|].
      split; [exact HL'|]. apply HQ'. unfold p_last. lia. }
  assert (Hq : forall a b, a = H - 1 -> b = W - 1 ->
            Z.to_nat (pix_index (4 * width hd) (4 * a + 3) (4 * b + 3) 4 c) = q).
  { intros a b -> ->. unfold q, pix_index. do 2 f_equal. lia. }
  assert (Hrun : exists pb,
            gdk_pixbuf__vtf_load_frame hd ctx p0 = Some (Some pb, [])
            /\ has_alpha pb = true /\ rowstride pb = 4 * width hd
            /\ length (pb_pixels pb) = L /\ pb_pixels pb !! q = Some v).
  { unfold gdk_pixbuf__vtf_load_frame.
    destruct Hfmt as [(Hfmt & -> & -> & -> & Hop)|(Hfmt & -> & -> & -> & E0 & E1)];
      rewrite Hfmt; simpl.
    - destruct (Hgen dxt1_block) as (pb & -> & Hrest); [|eauto].
      intros a b st Hp Hl HL.
      destruct (dxt1_block_far (buffer ctx) (4 * width hd) L HbigL
                  (4 * a) (4 * b) st Hp Hl HL)
        as (st' & Hrun & Hpos' & HL' & Hv).
      exists st'. split; [exact Hrun|]. split; [exact Hpos'|].
      split; [exact HL'|]. intros Ea Eb Epos.
      rewrite <- (Hq a b Ea Eb). apply Hv. rewrite Epos. exact Hop.
    - destruct (Hgen dxt5_block) as (pb & -> & Hrest); [|eauto].
      intros a b st Hp Hl HL.
      destruct (dxt5_block_far (buffer ctx) (4 * width hd) L HbigL
                  (4 * a) (4 * b) st Hp Hl HL)
        as (st' & Hrun & Hpos' & HL' & Hv).
      exists st'. split; [exact Hrun|]. split; [exact Hpos'|].
      split; [exact HL'|]. intros Ea Eb Epos.
      rewrite <- (Hq a b Ea Eb). apply Hv; rewrite Epos; assumption. }
  destruct Hrun as (pb & Hrun & Ha & Hst & Hlen & Hv).
  exists pb. split; [exact Hrun|]. split; [exact Ha|]. split; [exact Hst|].
  split; [rewrite Hlen; unfold L; lia | exact Hv].
Qed.

Lemma read_limit_filled (b : byte) (n : Z) (last : list byte) :
  0 <= n -> n + Z.of_nat (length last) < two31 ->
  read_limit (buffer (ctx_filled b n last)) = n + Z.of_nat (length last).
Proof.
  intros Hn Hlt. unfold read_limit, ctx_filled, int_max. cbn [buffer].
  rewrite length_app, length_replicate. lia.
Qed.

Lemma in_byte_filled (b : byte) (n p : Z) (last : list byte) :
  0 <= p < n -> in_byte (buffer (ctx_filled b n last)) p = byte_val b.
Proof.
  intros Hp. unfold in_byte, ctx_filled. cbn [buffer].
  rewrite lookup_app_l by (rewrite length_replicate; lia).
  rewrite lookup_replicate_2 by lia. reflexivity.
Qed.

Lemma in_byte_last (b : byte) (n p : Z) (last : list byte) :
  0 <= n <= p ->
  in_byte (buffer (ctx_filled b n last)) p = in_byte last (p - n).
Proof.
  intros Hp. unfold in_byte, ctx_filled. cbn [buffer].
  rewrite lookup_app_r by (rewrite length_replicate; lia).
  rewrite length_replicate.
  replace (Z.to_nat p - Z.to_nat n)%nat with (Z.to_nat (p - n)) by lia.
  reflexivity.
Qed.

(** The samples of a pixel inside the pixel array. *)
Lemma sample_in_array (pb : GdkPixbuf) (w h x y c : Z) :
  has_alpha pb = true -> rowstride pb = 4 * w ->
  Z.of_nat (length (pb_pixels pb)) = 4 * w * h ->
  0 <= x < w -> 0 <= y < h -> 0 <= c < 4 ->
  exists v, sample pb x y c = Some v.
Proof.
  intros Ha Hs Hl Hx Hy Hc. unfold sample. rewrite Ha, Hs. simpl n_channels.
  apply lookup_lt_is_Some_2. nia.
Qed.

(** C4 as stated fails where the [uint32_t] pixel index wraps.  In a
    32768 x 32772 DXT1 image the rows from 32768 on lie at byte 2^32 and
    beyond of the pixel array, and their writes land on rows 0 to 3.  With
    every block transparent black but for the last, which is opaque, pixel
    (32767, 3) ends with alpha 255, written by the last block of the image,
    where its own block gives transparent black. *)
Lemma dxt1_index_wraps :
  exists pb r g b,
    gdk_pixbuf__vtf_load_frame (hdr_tall IMAGE_FORMAT_DXT1) ctx_tall_dxt1 0
    = Some (Some pb, [])
    /\ pixel_of pb 32767 3 = Some (r, g, b, 255)
    /\ dxt1_pixel (buffer ctx_tall_dxt1) 0 32768 32767 3 = (0, 0, 0, 0).
Proof.
  assert (Hlim : read_limit (buffer ctx_tall_dxt1) = 536936448).
  { unfold ctx_tall_dxt1. rewrite read_limit_filled; [reflexivity | lia |].
    unfold two31. simpl length. lia. }
  destruct (dxt_last_write (hdr_tall IMAGE_FORMAT_DXT1) ctx_tall_dxt1 8 3 255 0)
    as (pb & Hrun & Ha & Hs & Hl & Hv).
  - split; vm_compute; split; congruence.
  - reflexivity.
  - reflexivity.
  - reflexivity.
  - reflexivity.
  - vm_compute. congruence.
  - lia.
  - rewrite Hlim. vm_compute. congruence.
  - left. split; [reflexivity|]. split; [reflexivity|]. split; [reflexivity|].
    split; [reflexivity|].
    change (0 + 8 * (height (hdr_tall IMAGE_FORMAT_DXT1) / 4
                     * (width (hdr_tall IMAGE_FORMAT_DXT1) / 4)) - 8)
      with 536936440.
    unfold in_u16, ctx_tall_dxt1.
    rewrite !in_byte_last by lia. vm_compute. reflexivity.
  - destruct (sample_in_array pb 32768 32772 32767 3 0 Ha Hs Hl) as [r Hr]; try lia.
    destruct (sample_in_array pb 32768 32772 32767 3 1 Ha Hs Hl) as [g Hg]; try lia.
    destruct (sample_in_array pb 32768 32772 32767 3 2 Ha Hs Hl) as [b Hb]; try lia.
    exists pb, r, g, b. split; [exact Hrun|]. split.
    + unfold pixel_of. rewrite Hr, Hg, Hb. cbn [mbind option_bind].
      unfold sample. rewrite Ha, Hs. simpl n_channels.
      change (4 * width (hdr_tall IMAGE_FORMAT_DXT1) * 3 + 4 * 32767 + 3)
        with (u32 (4 * width (hdr_tall IMAGE_FORMAT_DXT1)
                   * (height (hdr_tall IMAGE_FORMAT_DXT1) - 1)
                   + 4 * (width (hdr_tall IMAGE_FORMAT_DXT1) - 1) + 3)).
      rewrite Hv. reflexivity.
    + unfold dxt1_pixel, in_u32, in_u16, ctx_tall_dxt1. cbv zeta.
      rewrite !in_byte_filled by (vm_compute; split; congruence).
      reflexivity.
Qed.

(** C5 as stated fails in the same way: in a 32768 x 32772 DXT5 image
    with every block zero but for the last, whose colour endpoints are both
    white, pixel (32767, 3) ends with B = 248, written by the last block of
    the image, where its own block gives black with alpha 0. *)
Lemma dxt5_index_wraps :
  exists pb r g a,
    gdk_pixbuf__vtf_load_frame (hdr_tall IMAGE_FORMAT_DXT5) ctx_tall_dxt5 0
    = Some (Some pb, [])
    /\ pixel_of pb 32767 3 = Some (r, g, 248, a)
    /\ dxt5_pixel (buffer ctx_tall_dxt5) 0 32768 32767 3 = (0, 0, 0, 0).
Proof.
  assert (Hlim : read_limit (buffer ctx_tall_dxt5) = 1073872896).
  { unfold ctx_tall_dxt5. rewrite read_limit_filled; [reflexivity | lia |].
    unfold two31. simpl length. lia. }
  destruct (dxt_last_write (hdr_tall IMAGE_FORMAT_DXT5) ctx_tall_dxt5 16 2 248 0)
    as (pb & Hrun & Ha & Hs & Hl & Hv).
  - split; vm_compute; split; congruence.
  - reflexivity.
  - reflexivity.
  - reflexivity.
  - reflexivity.
  - vm_compute. congruence.
  - lia.
  - rewrite Hlim. vm_compute. congruence.
  - right. split; [reflexivity|]. split; [reflexivity|]. split; [reflexivity|].
    split; [reflexivity|].
    change (0 + 16 * (height (hdr_tall IMAGE_FORMAT_DXT5) / 4
                      * (width (hdr_tall IMAGE_FORMAT_DXT5) / 4)) - 16)
      with 1073872880.
    unfold in_u16, ctx_tall_dxt5.
    rewrite !in_byte_last by lia. vm_compute. split; reflexivity.
  - destruct (sample_in_array pb 32768 32772 32767 3 0 Ha Hs Hl) as [r Hr]; try lia.
    destruct (sample_in_array pb 32768 32772 32767 3 1 Ha Hs Hl) as [g Hg]; try lia.
    destruct (sample_in_array pb 32768 32772 32767 3 3 Ha Hs Hl) as [a Ha3]; try lia.
    exists pb, r, g, a. split; [exact Hrun|]. split.
    + unfold pixel_of. rewrite Hr, Hg, Ha3.
      unfold sample. rewrite Ha, Hs. simpl n_channels.
      change (4 * width (hdr_tall IMAGE_FORMAT_DXT5) * 3 + 4 * 32767 + 2)
        with (u32 (4 * width (hdr_tall IMAGE_FORMAT_DXT5)
                   * (height (hdr_tall IMAGE_FORMAT_DXT5) - 1)
                   + 4 * (width (hdr_tall IMAGE_FORMAT_DXT5) - 1) + 2)).
      rewrite Hv. reflexivity.
    + unfold dxt5_pixel, in_u48, in_u32, in_u16, ctx_tall_dxt5. cbv zeta.
      rewrite !in_byte_filled by (vm_compute; split; congruence).
      reflexivity.
Qed.

(* ===================================================================== *)
(** ** The pixel loops of the uncompressed formats *)
(* ===================================================================== *)

(** Distinct samples of an image with [n] channels have distinct indices. *)
Lemma index_inj_ch (n stride w x y c x' y' c' : Z) :
  n * w <= stride ->
  0 <= x < w -> 0 <= x' < w -> 0 <= c < n -> 0 <= c' < n -> 0 <= y -> 0 <= y' ->
  stride * y + n * x + c = stride * y' + n * x' + c' ->
  x = x' /\ y = y' /\ c = c'.
Proof.
  intros Hs Hx Hx' Hc Hc' Hy Hy' E.
  assert (Hrow : 0 <= n * x + c < stride) by nia.
  assert (Hrow' : 0 <= n * x' + c' < stride) by nia.
  assert (y = y') as ->.
  { destruct (Z.lt_trichotomy y y') as [H|[H|H]]; [|exact H|]; exfalso; nia. }
  assert (x = x') as ->.
  { destruct (Z.lt_trichotomy x x') as [H|[H|H]]; [|exact H|]; exfalso; nia. }
  lia.
Qed.

Lemma index_in_frame_ch (n stride w h x y c : Z) :
  n * w <= stride -> 0 <= x < w -> 0 <= y < h -> 0 <= c < n ->
  0 <= stride * y + n * x + c < stride * h.
Proof.
  intros Hs Hx Hy Hc.
  assert (Hrow : 0 <= n * x + c < stride) by nia.
  assert (0 <= stride * y) by nia.
  assert (stride * (y + 1) <= stride * h) by nia.
  lia.
Qed.

(** Writing the expected value of one more sample. *)
Lemma poke_holds_ch (n stride w h : Z) (D : Z -> Z -> Z -> Prop)
    (E : Z -> Z -> Z -> Z) (st : dstate) (x0 y0 c0 v : Z) :
  frame_ok_ch n stride w h (pixels st) ->
  holds_ch n (pixels st) stride w h D E ->
  0 <= x0 < w -> 0 <= y0 < h -> 0 <= c0 < n ->
  0 <= v < 256 -> E x0 y0 c0 = v ->
  exists st',
    poke (pix_index stride y0 x0 n c0) v st = Some st'
    /\ pos st' = pos st
    /\ frame_ok_ch n stride w h (pixels st')
    /\ holds_ch n (pixels st') stride w h
         (fun x y c => D x y c \/ (x = x0 /\ y = y0 /\ c = c0)) E.
Proof.
  intros (Hs & H32 & Hlen) Hh Hx Hy Hc Hv HE.
  pose proof (index_in_frame_ch n stride w h x0 y0 c0 Hs Hx Hy Hc) as Hidx.
  unfold poke, pix_index. rewrite u32_small by lia.
  destruct (_ && _) eqn:Eb.
  2:{ apply andb_false_iff in Eb. destruct Eb as [Eb|Eb].
      - apply Z.leb_gt in Eb. lia.
      - apply Z.ltb_ge in Eb. lia. }
  eexists. split; [reflexivity|]. simpl. split; [reflexivity|].
  split.
  - unfold frame_ok_ch. rewrite length_insert. auto.
  - intros x y c Hx' Hy' Hc' HD.
    destruct (decide (x = x0 /\ y = y0 /\ c = c0)) as [(-> & -> & ->)|Hne].
    + rewrite list_lookup_insert_eq by lia.
      rewrite u8_small by (unfold two8; lia). congruence.
    + rewrite list_lookup_insert_ne.
      * destruct HD as [HD|HD]; [|tauto]. apply Hh; assumption.
      * intros Heq. apply Hne.
        pose proof (index_in_frame_ch n stride w h x y c Hs Hx' Hy' Hc').
        apply (index_inj_ch n stride w x y c x0 y0 c0); try lia.
Qed.

Lemma holds_ch_weaken (n : Z) (px : list Z) (stride w h : Z)
    (D D' : Z -> Z -> Z -> Prop) (E : Z -> Z -> Z -> Z) :
  holds_ch n px stride w h D E ->
  (forall x y c, 0 <= x < w -> 0 <= y < h -> 0 <= c < n -> D' x y c -> D x y c) ->
  holds_ch n px stride w h D' E.
Proof. intros Hh Hsub x y c Hx Hy Hc HD. apply Hh; auto. Qed.

(** [pixels[idx] = buffer[pos++]] for the expected value of a sample. *)
Lemma copy_byte_holds_ch (buf : list byte) (n stride w h : Z)
    (D : Z -> Z -> Z -> Prop) (E : Z -> Z -> Z -> Z)
    (st : dstate) (x0 y0 c0 : Z) :
  frame_ok_ch n stride w h (pixels st) ->
  holds_ch n (pixels st) stride w h D E ->
  0 <= x0 < w -> 0 <= y0 < h -> 0 <= c0 < n ->
  0 <= pos st < read_limit buf ->
  E x0 y0 c0 = in_byte buf (pos st) ->
  exists st',
    copy_byte buf (pix_index stride y0 x0 n c0) st = Some st'
    /\ pos st' = pos st + 1
    /\ frame_ok_ch n stride w h (pixels st')
    /\ holds_ch n (pixels st') stride w h
         (fun x y c => D x y c \/ (x = x0 /\ y = y0 /\ c = c0)) E.
Proof.
  intros Hok Hh Hx Hy Hc Hp HE. unfold copy_byte.
  rewrite read_byte_ok by exact Hp. simpl.
  apply (poke_holds_ch n stride w h D E (advance st 1)); try assumption.
  apply in_byte_range.
Qed.

(** The two loops over the pixels fill the whole image, row after row. *)
Lemma pixel_loops_hold (n k p0 stride w h : Z) (E : Z -> Z -> Z -> Z)
    (body : Z -> Z -> dstate -> option dstate) :
  0 <= w -> 0 <= h ->
  fills_pixel n k p0 stride w h E body ->
  forall st,
    frame_ok_ch n stride w h (pixels st) -> pos st = p0 ->
    exists st',
      for_loop h 1 (fun i => for_loop w 1 (fun j => body i j)) st = Some st'
      /\ frame_ok_ch n stride w h (pixels st')
      /\ holds_ch n (pixels st') stride w h (fun _ _ _ => True) E
      /\ pos st' = p0 + k * (h * w).
Proof.
  intros Hw Hh Hbody st Hok Hpos.
  pose (InvO := fun (i : Z) (s : dstate) =>
    0 <= i <= h
    /\ frame_ok_ch n stride w h (pixels s)
    /\ pos s = p0 + k * (i * w)
    /\ holds_ch n (pixels s) stride w h (fun x y c => y < i) E).
  destruct (for_loop_inv InvO h 1
              (fun i => for_loop w 1 (fun j => body i j)) st ltac:(lia))
    as (i' & st' & Hrun & (Hi' & Hok' & Hpos' & Hh') & Hend).
  - intros i s Hi (Hi0 & Hoks & Hposs & Hhs).
    pose (InvI := fun (j : Z) (s : dstate) =>
      0 <= j <= w
      /\ frame_ok_ch n stride w h (pixels s)
      /\ pos s = p0 + k * (i * w + j)
      /\ holds_ch n (pixels s) stride w h
           (fun x y c => y < i \/ (y = i /\ x < j)) E).
    destruct (for_loop_inv InvI w 1 (fun j => body i j) s ltac:(lia))
      as (j' & s' & Hrun & (Hj' & Hok' & Hpos' & Hh') & Hend).
    + intros j t Hj (Hj0 & Hokt & Hpost & Hht).
      destruct (Hbody i j _ t ltac:(lia) ltac:(lia) Hokt Hht Hpost)
        as (t' & Hrun & Hpos' & Hok' & Hh').
      exists t'. split; [exact Hrun|].
      split; [lia|]. split; [exact Hok'|].
      split; [rewrite Hpos', Hpost; ring|].
      eapply holds_ch_weaken; [exact Hh'|].
      intros x y c Hx Hy Hc HD. simpl. lia.
    + split; [lia|]. split; [exact Hoks|].
      split; [rewrite Hposs; ring|].
      eapply holds_ch_weaken; [exact Hhs|].
      intros x y c Hx Hy Hc HD. simpl. lia.
    + assert (j' = w) as -> by lia.
      exists s'. split; [exact Hrun|].
      split; [lia|]. split; [exact Hok'|].
      split; [rewrite Hpos'; ring|].
      eapply holds_ch_weaken; [exact Hh'|].
      intros x y c Hx Hy Hc HD. simpl. lia.
  - split; [lia|]. split; [exact Hok|].
    split; [rewrite Hpos; ring|].
    intros x y c Hx Hy Hc HD. lia.
  - assert (i' = h) as -> by lia.
    exists st'. split; [exact Hrun|]. split; [exact Hok'|]. split.
    + eapply holds_ch_weaken; [exact Hh'|].
      intros x y c Hx Hy Hc _. simpl. lia.
    + rewrite Hpos'. ring.
Qed.

(** The stride of a fresh pixbuf: at least the bytes of a row, at most
    four bytes per pixel. *)
Lemma row_bytes_bounds (alpha : bool) (w : Z) :
  0 < w ->
  n_channels alpha * w <= row_bytes alpha w <= 4 * w.
Proof.
  intros Hw. unfold row_bytes, n_channels.
  destruct alpha; Z.to_euclidean_division_equations; lia.
Qed.

Lemma gdk_pixbuf_new_ok (alpha : bool) (w h : Z) :
  0 < w -> 0 < h ->
  gdk_pixbuf_new alpha w h
  = Some {| has_alpha := alpha; pb_width := w; pb_height := h;
            rowstride := row_bytes alpha w;
            pb_pixels := replicate (Z.to_nat (row_bytes alpha w * h)) 0 |}.
Proof.
  intros Hw Hh. unfold gdk_pixbuf_new.
  destruct (0 <? w) eqn:E1; [|apply Z.ltb_ge in E1; lia].
  destruct (0 <? h) eqn:E2; [|apply Z.ltb_ge in E2; lia].
  reflexivity.
Qed.

(** A frame of an uncompressed format: when the body fills its pixel with
    the values [E], the pixbuf that comes back holds [E] everywhere. *)
Lemma decode_with_pixels (hd : VtfHeader) (ctx : VtfContext) (alpha : bool)
    (k p0 : Z) (E : Z -> Z -> Z -> Z)
    (body : list byte -> Z -> Z -> Z -> dstate -> option dstate) :
  header_in_range hd ->
  0 < width hd -> 0 < height hd -> 4 * width hd * height hd <= two32 ->
  fills_pixel (n_channels alpha) k p0 (row_bytes alpha (width hd))
    (width hd) (height hd) E
    (body (buffer ctx) (row_bytes alpha (width hd))) ->
  exists pb,
    decode_with hd ctx alpha 1 body p0 = Some (Some pb)
    /\ has_alpha pb = alpha /\ pb_width pb = width hd /\ pb_height pb = height hd
    /\ rowstride pb = row_bytes alpha (width hd)
    /\ holds_ch (n_channels alpha) (pb_pixels pb) (row_bytes alpha (width hd))
         (width hd) (height hd) (fun _ _ _ => True) E.
Proof.
  intros Hr Hw Hh H32 Hbody.
  pose proof (row_bytes_bounds alpha (width hd) Hw) as Hrb.
  unfold decode_with. rewrite gdk_pixbuf_new_ok by assumption. simpl.
  assert (Hs : u32 (row_bytes alpha (width hd)) = row_bytes alpha (width hd)).
  { apply u32_small. destruct Hr. unfold two16, two32 in *.
    assert (0 <= n_channels alpha) by (destruct alpha; simpl; lia). nia. }
  rewrite Hs.
  destruct (pixel_loops_hold (n_channels alpha) k p0 (row_bytes alpha (width hd))
              (width hd) (height hd) E
              (body (buffer ctx) (row_bytes alpha (width hd)))
              ltac:(lia) ltac:(lia) Hbody
              {| pos := p0;
                 pixels := replicate
                   (Z.to_nat (row_bytes alpha (width hd) * height hd)) 0 |})
    as (st' & Hrun & Hok & Hholds & _).
  - simpl. unfold frame_ok_ch. rewrite length_replicate.
    assert (0 <= n_channels alpha) by (destruct alpha; simpl; lia).
    assert (0 <= row_bytes alpha (width hd) * height hd) by nia.
    assert (row_bytes alpha (width hd) * height hd <= 4 * width hd * height hd)
      by (apply Z.mul_le_mono_nonneg_r; lia).
    split; [lia|]. split; lia.
  - reflexivity.
  - rewrite Hrun. simpl. eexists. split; [reflexivity|]. simpl. auto.
Qed.

Lemma holds_pixel_of_ch (pb : GdkPixbuf) (w h : Z) (f : Z -> Z -> Z * Z * Z * Z) :
  has_alpha pb = true ->
  holds_ch 4 (pb_pixels pb) (rowstride pb) w h (fun _ _ _ => True)
    (fun x y c => channel (f x y) c) ->
  forall x y, 0 <= x < w -> 0 <= y < h -> pixel_of pb x y = Some (f x y).
Proof.
  intros Ha Hh x y Hx Hy. unfold pixel_of, sample. rewrite Ha. simpl.
  rewrite !Hh by (auto; lia). simpl.
  destruct (f x y) as [[[r g] b] a]. reflexivity.
Qed.

Lemma holds_rgb_of (pb : GdkPixbuf) (w h : Z) (f : Z -> Z -> Z * Z * Z) :
  has_alpha pb = false ->
  holds_ch 3 (pb_pixels pb) (rowstride pb) w h (fun _ _ _ => True)
    (fun x y c => channel3 (f x y) c) ->
  forall x y, 0 <= x < w -> 0 <= y < h -> rgb_of pb x y = Some (f x y).
Proof.
  intros Ha Hh x y Hx Hy. unfold rgb_of, sample. rewrite Ha. simpl.
  rewrite !Hh by (auto; lia). simpl.
  destruct (f x y) as [[r g] b]. reflexivity.
Qed.

(* ===================================================================== *)
(** ** The pixel bodies of the uncompressed formats *)
(* ===================================================================== *)

(** The bytes of pixel [(j, i)] lie inside the frame. *)
Lemma texel_in_frame (p0 k w h i j : Z) :
  0 < k -> 0 <= i < h -> 0 <= j < w ->
  p0 <= texel_pos p0 k w j i /\ texel_pos p0 k w j i + k <= p0 + k * (h * w).
Proof.
  intros Hk Hi Hj. unfold texel_pos.
  assert (0 <= i * w + j) by nia.
  assert (i * w + j + 1 <= h * w) by nia.
  split; nia.
Qed.

(** One [pixels[...] = buffer[pos++]] of a body, with the value expected
    at sample [c]. *)
Ltac copy_step buf n stride w h st j i c Hok Hh s P O H :=
  destruct (copy_byte_holds_ch buf n stride w h _ _ st j i c Hok Hh)
    as (s & -> & P & O & H); [lia | lia | lia | lia | | cbn [mbind option_bind]].

(** One [pixels[...] = v] of a body. *)
Ltac poke_step n stride w h st j i c v Hok Hh s P O H :=
  destruct (poke_holds_ch n stride w h _ _ st j i c v Hok Hh)
    as (s & -> & P & O & H); [lia | lia | lia | | | cbn [mbind option_bind]].

(** Closing a body: all samples of the pixel were written. *)
Ltac close_pixel Hlast :=
  eapply holds_ch_weaken; [exact Hlast|];
  let x := fresh "x" in let y := fresh "y" in let c := fresh "c" in
  let HD := fresh "HD" in
  intros x y c ? ? ? [HD|[-> ->]]; [tauto|];
  assert (c = 0 \/ c = 1 \/ c = 2 \/ c = 3) as Ec by lia;
  intuition lia.

Section Bodies.
Variable buf : list byte.
Variables stride w h p0 : Z.
Hypothesis Hp0 : 0 <= p0.

Lemma px_RGBA8888_fills :
  p0 + 4 * (h * w) <= read_limit buf ->
  fills_pixel 4 4 p0 stride w h
    (fun x y c => channel (rgba_pixel buf p0 w x y) c) (px_RGBA8888 buf stride).
Proof.
  intros Hlen i j D st Hi Hj Hok Hh Hpos.
  destruct (texel_in_frame p0 4 w h i j ltac:(lia) Hi Hj) as [Hlo Hhi].
  unfold px_RGBA8888.
  copy_step buf 4 stride w h st j i 0 Hok Hh s1 P1 O1 H1.
  { unfold rgba_pixel. simpl. rewrite Hpos. f_equal; lia. }
  copy_step buf 4 stride w h s1 j i 1 O1 H1 s2 P2 O2 H2.
  { unfold rgba_pixel. simpl. rewrite P1, Hpos. f_equal; lia. }
  copy_step buf 4 stride w h s2 j i 2 O2 H2 s3 P3 O3 H3.
  { unfold rgba_pixel. simpl. rewrite P2, P1, Hpos. f_equal; lia. }
  destruct (copy_byte_holds_ch buf 4 stride w h _ _ s3 j i 3 O3 H3)
    as (s4 & -> & P4 & O4 & H4); try lia.
  { unfold rgba_pixel. simpl. rewrite P3, P2, P1, Hpos. f_equal; lia. }
  exists s4. split; [reflexivity|]. split; [lia|]. split; [exact O4|].
  close_pixel H4.
Qed.

Lemma px_ABGR8888_fills :
  p0 + 4 * (h * w) <= read_limit buf ->
  fills_pixel 4 4 p0 stride w h
    (fun x y c => channel (abgr_pixel buf p0 w x y) c) (px_ABGR8888 buf stride).
Proof.
  intros Hlen i j D st Hi Hj Hok Hh Hpos.
  destruct (texel_in_frame p0 4 w h i j ltac:(lia) Hi Hj) as [Hlo Hhi].
  unfold px_ABGR8888.
  copy_step buf 4 stride w h st j i 3 Hok Hh s1 P1 O1 H1.
  { unfold abgr_pixel. simpl. rewrite Hpos. f_equal; lia. }
  copy_step buf 4 stride w h s1 j i 2 O1 H1 s2 P2 O2 H2.
  { unfold abgr_pixel. simpl. rewrite P1, Hpos. f_equal; lia. }
  copy_step buf 4 stride w h s2 j i 1 O2 H2 s3 P3 O3 H3.
  { unfold abgr_pixel. simpl. rewrite P2, P1, Hpos. f_equal; lia. }
  destruct (copy_byte_holds_ch buf 4 stride w h _ _ s3 j i 0 O3 H3)
    as (s4 & -> & P4 & O4 & H4); try lia.
  { unfold abgr_pixel. simpl. rewrite P3, P2, P1, Hpos. f_equal; lia. }
  exists s4. split; [reflexivity|]. split; [lia|]. split; [exact O4|].
  close_pixel H4.
Qed.

Lemma px_ARGB8888_fills :
  p0 + 4 * (h * w) <= read_limit buf ->
  fills_pixel 4 4 p0 stride w h
    (fun x y c => channel (argb_pixel buf p0 w x y) c) (px_ARGB8888 buf stride).
Proof.
  intros Hlen i j D st Hi Hj Hok Hh Hpos.
  destruct (texel_in_frame p0 4 w h i j ltac:(lia) Hi Hj) as [Hlo Hhi].
  unfold texel_pos in *.
  unfold px_ARGB8888.
  copy_step buf 4 stride w h st j i 1 Hok Hh s1 P1 O1 H1.
  { unfold argb_pixel. simpl. rewrite Hpos. f_equal; lia. }
  copy_step buf 4 stride w h s1 j i 2 O1 H1 s2 P2 O2 H2.
  { unfold argb_pixel. simpl. rewrite P1, Hpos. f_equal; lia. }
  copy_step buf 4 stride w h s2 j i 3 O2 H2 s3 P3 O3 H3.
  { unfold argb_pixel. simpl. rewrite P2, P1, Hpos. f_equal; lia. }
  destruct (copy_byte_holds_ch buf 4 stride w h _ _ s3 j i 0 O3 H3)
    as (s4 & -> & P4 & O4 & H4); try lia.
  { unfold argb_pixel. simpl. rewrite P3, P2, P1, Hpos. f_equal; lia. }
  exists s4. split; [reflexivity|]. split; [lia|]. split; [exact O4|].
  close_pixel H4.
Qed.

Lemma px_BGRA8888_fills :
  p0 + 4 * (h * w) <= read_limit buf ->
  fills_pixel 4 4 p0 stride w h
    (fun x y c => channel (bgra_pixel buf p0 w x y) c) (px_BGRA8888 buf stride).
Proof.
  intros Hlen i j D st Hi Hj Hok Hh Hpos.
  destruct (texel_in_frame p0 4 w h i j ltac:(lia) Hi Hj) as [Hlo Hhi].
  unfold px_BGRA8888.
  copy_step buf 4 stride w h st j i 2 Hok Hh s1 P1 O1 H1.
  { unfold bgra_pixel. simpl. rewrite Hpos. f_equal; lia. }
  copy_step buf 4 stride w h s1 j i 1 O1 H1 s2 P2 O2 H2.
  { unfold bgra_pixel. simpl. rewrite P1, Hpos. f_equal; lia. }
  copy_step buf 4 stride w h s2 j i 0 O2 H2 s3 P3 O3 H3.
  { unfold bgra_pixel. simpl. rewrite P2, P1, Hpos. f_equal; lia. }
  destruct (copy_byte_holds_ch buf 4 stride w h _ _ s3 j i 3 O3 H3)
    as (s4 & -> & P4 & O4 & H4); try lia.
  { unfold bgra_pixel. simpl. rewrite P3, P2, P1, Hpos. f_equal; lia. }
  exists s4. split; [reflexivity|]. split; [lia|]. split; [exact O4|].
  close_pixel H4.
Qed.

Lemma px_RGB888_fills :
  p0 + 3 * (h * w) <= read_limit buf ->
  fills_pixel 3 3 p0 stride w h
    (fun x y c => channel3 (rgb888_pixel buf p0 w x y) c) (px_RGB888 buf stride).
Proof.
  intros Hlen i j D st Hi Hj Hok Hh Hpos.
  destruct (texel_in_frame p0 3 w h i j ltac:(lia) Hi Hj) as [Hlo Hhi].
  unfold px_RGB888.
  copy_step buf 3 stride w h st j i 0 Hok Hh s1 P1 O1 H1.
  { unfold rgb888_pixel. simpl. rewrite Hpos. f_equal; lia. }
  copy_step buf 3 stride w h s1 j i 1 O1 H1 s2 P2 O2 H2.
  { unfold rgb888_pixel. simpl. rewrite P1, Hpos. f_equal; lia. }
  destruct (copy_byte_holds_ch buf 3 stride w h _ _ s2 j i 2 O2 H2)
    as (s3 & -> & P3 & O3 & H3); try lia.
  { unfold rgb888_pixel. simpl. rewrite P2, P1, Hpos. f_equal; lia. }
  exists s3. split; [reflexivity|]. split; [lia|]. split; [exact O3|].
  close_pixel H3.
Qed.

Lemma px_BGR888_fills :
  p0 + 3 * (h * w) <= read_limit buf ->
  fills_pixel 3 3 p0 stride w h
    (fun x y c => channel3 (bgr888_pixel buf p0 w x y) c) (px_BGR888 buf stride).
Proof.
  intros Hlen i j D st Hi Hj Hok Hh Hpos.
  destruct (texel_in_frame p0 3 w h i j ltac:(lia) Hi Hj) as [Hlo Hhi].
  unfold px_BGR888.
  copy_step buf 3 stride w h st j i 2 Hok Hh s1 P1 O1 H1.
  { unfold bgr888_pixel. simpl. rewrite Hpos. f_equal; lia. }
  copy_step buf 3 stride w h s1 j i 1 O1 H1 s2 P2 O2 H2.
  { unfold bgr888_pixel. simpl. rewrite P1, Hpos. f_equal; lia. }
  destruct (copy_byte_holds_ch buf 3 stride w h _ _ s2 j i 0 O2 H2)
    as (s3 & -> & P3 & O3 & H3); try lia.
  { unfold bgr888_pixel. simpl. rewrite P2, P1, Hpos. f_equal; lia. }
  exists s3. split; [reflexivity|]. split; [lia|]. split; [exact O3|].
  close_pixel H3.
Qed.

Lemma px_RGB565_fills :
  p0 + 2 * (h * w) <= read_limit buf ->
  fills_pixel 3 2 p0 stride w h
    (fun x y c => channel3 (rgb565_pixel buf p0 w x y) c) (px_RGB565 buf stride).
Proof.
  intros Hlen i j D st Hi Hj Hok Hh Hpos.
  destruct (texel_in_frame p0 2 w h i j ltac:(lia) Hi Hj) as [Hlo Hhi].
  unfold px_RGB565.
  rewrite read_u16_ok by lia. cbn [mbind option_bind].
  destruct (rgb565_channels (in_u16 buf (pos st))) as (Ergb & Rr & Rg & Rb).
  assert (Epx : rgb565_pixel buf p0 w j i
                = (rgb565_r (in_u16 buf (pos st)), rgb565_g (in_u16 buf (pos st)),
                   rgb565_b (in_u16 buf (pos st)))).
  { unfold rgb565_pixel. rewrite <- Hpos. exact Ergb. }
  poke_step 3 stride w h (advance st 2) j i 0 (rgb565_r (in_u16 buf (pos st)))
    Hok Hh s1 P1 O1 H1.
  { exact Rr. }
  { rewrite Epx. reflexivity. }
  poke_step 3 stride w h s1 j i 1 (rgb565_g (in_u16 buf (pos st)))
    O1 H1 s2 P2 O2 H2.
  { exact Rg. }
  { rewrite Epx. reflexivity. }
  destruct (poke_holds_ch 3 stride w h _ _ s2 j i 2
              (rgb565_b (in_u16 buf (pos st))) O2 H2)
    as (s3 & -> & P3 & O3 & H3); try lia.
  { rewrite Epx. reflexivity. }
  exists s3. split; [reflexivity|].
  split; [rewrite P3, P2, P1; reflexivity|]. split; [exact O3|].
  close_pixel H3.
Qed.

Lemma px_I8_fills :
  p0 + 1 * (h * w) <= read_limit buf ->
  fills_pixel 3 1 p0 stride w h
    (fun x y c => channel3 (i8_pixel buf p0 w x y) c) (px_I8 buf stride).
Proof.
  intros Hlen i j D st Hi Hj Hok Hh Hpos.
  destruct (texel_in_frame p0 1 w h i j ltac:(lia) Hi Hj) as [Hlo Hhi].
  unfold px_I8.
  rewrite read_byte_ok by lia. cbn [mbind option_bind].
  pose proof (in_byte_range buf (pos st)) as Rv.
  assert (Epx : i8_pixel buf p0 w j i
                = (in_byte buf (pos st), in_byte buf (pos st), in_byte buf (pos st))).
  { unfold i8_pixel. rewrite <- Hpos. reflexivity. }
  poke_step 3 stride w h (advance st 1) j i 0 (in_byte buf (pos st))
    Hok Hh s1 P1 O1 H1.
  { exact Rv. }
  { rewrite Epx. reflexivity. }
  poke_step 3 stride w h s1 j i 1 (in_byte buf (pos st)) O1 H1 s2 P2 O2 H2.
  { exact Rv. }
  { rewrite Epx. reflexivity. }
  destruct (poke_holds_ch 3 stride w h _ _ s2 j i 2 (in_byte buf (pos st)) O2 H2)
    as (s3 & -> & P3 & O3 & H3); try lia.
  { rewrite Epx. reflexivity. }
  exists s3. split; [reflexivity|].
  split; [rewrite P3, P2, P1; reflexivity|]. split; [exact O3|].
  close_pixel H3.
Qed.

Lemma px_IA88_fills :
  p0 + 2 * (h * w) <= read_limit buf ->
  fills_pixel 4 2 p0 stride w h
    (fun x y c => channel (ia88_pixel buf p0 w x y) c) (px_IA88 buf stride).
Proof.
  intros Hlen i j D st Hi Hj Hok Hh Hpos.
  destruct (texel_in_frame p0 2 w h i j ltac:(lia) Hi Hj) as [Hlo Hhi].
  unfold px_IA88.
  rewrite read_byte_ok by lia. cbn [mbind option_bind].
  pose proof (in_byte_range buf (pos st)) as Rv.
  assert (Epx : ia88_pixel buf p0 w j i
                = (in_byte buf (pos st), in_byte buf (pos st), in_byte buf (pos st),
                   in_byte buf (pos st + 1))).
  { unfold ia88_pixel. rewrite <- Hpos. reflexivity. }
  poke_step 4 stride w h (advance st 1) j i 0 (in_byte buf (pos st))
    Hok Hh s1 P1 O1 H1.
  { exact Rv. }
  { rewrite Epx. reflexivity. }
  poke_step 4 stride w h s1 j i 1 (in_byte buf (pos st)) O1 H1 s2 P2 O2 H2.
  { exact Rv. }
  { rewrite Epx. reflexivity. }
  poke_step 4 stride w h s2 j i 2 (in_byte buf (pos st)) O2 H2 s3 P3 O3 H3.
  { exact Rv. }
  { rewrite Epx. reflexivity. }
  assert (Ps3 : pos s3 = pos st + 1) by (rewrite P3, P2, P1; reflexivity).
  destruct (copy_byte_holds_ch buf 4 stride w h _ _ s3 j i 3 O3 H3)
    as (s4 & -> & P4 & O4 & H4); try lia.
  { rewrite Epx, Ps3. reflexivity. }
  exists s4. split; [reflexivity|]. split; [lia|]. split; [exact O4|].
  close_pixel H4.
Qed.

Lemma px_A8_fills :
  p0 + 1 * (h * w) <= read_limit buf ->
  fills_pixel 4 1 p0 stride w h
    (fun x y c => channel (a8_pixel buf p0 w x y) c) (px_A8 buf stride).
Proof.
  intros Hlen i j D st Hi Hj Hok Hh Hpos.
  destruct (texel_in_frame p0 1 w h i j ltac:(lia) Hi Hj) as [Hlo Hhi].
  unfold px_A8.
  poke_step 4 stride w h st j i 0 255 Hok Hh s1 P1 O1 H1.
  { lia. }
  { reflexivity. }
  poke_step 4 stride w h s1 j i 1 255 O1 H1 s2 P2 O2 H2.
  { lia. }
  { reflexivity. }
  poke_step 4 stride w h s2 j i 2 255 O2 H2 s3 P3 O3 H3.
  { lia. }
  { reflexivity. }
  assert (Ps3 : pos s3 = pos st) by (rewrite P3, P2, P1; reflexivity).
  destruct (copy_byte_holds_ch buf 4 stride w h _ _ s3 j i 3 O3 H3)
    as (s4 & -> & P4 & O4 & H4); try lia.
  { unfold a8_pixel. simpl. rewrite Ps3, Hpos. reflexivity. }
  exists s4. split; [reflexivity|]. split; [lia|]. split; [exact O4|].
  close_pixel H4.
Qed.
End Bodies.

(* ===================================================================== *)
(** ** Decoding the uncompressed formats *)
(* ===================================================================== *)

Lemma rgb565_pixel_fields (buf : list byte) (p0 w x y : Z) :
  rgb565_pixel buf p0 w x y
  = (let c := in_u16 buf (p0 + 2 * (y * w + x)) in
     (8 * Z.land (Z.shiftr c 11) 31, 4 * Z.land (Z.shiftr c 5) 63,
      8 * Z.land c 31)).
Proof.
  unfold rgb565_pixel, rgb_of_565, texel_pos. cbv zeta.
  rewrite !expand5_mul by apply land_31_range.
  rewrite expand6_mul by apply land_63_range. reflexivity.
Qed.

(** X1: an RGBA8888 frame whose data lies inside the buffer and ends
    below position 2^31 (the read position is an [int]) decodes to a
    pixbuf with alpha of the size of the header in which pixel [(x, y)] holds
    the four bytes at [p0 + 4 * (y * width + x)] as R, G, B, A, in the order
    they are stored. *)
Theorem rgba8888_decoding (hd : VtfHeader) (ctx : VtfContext) (p0 : Z) :
  header_in_range hd ->
  highResImageFormat hd = IMAGE_FORMAT_RGBA8888 ->
  0 < width hd -> 0 < height hd -> 4 * width hd * height hd <= 2 ^ 32 ->
  0 <= p0 -> p0 + 4 * (height hd * width hd) <= Z.of_nat (length (buffer ctx)) ->
  p0 + 4 * (height hd * width hd) < 2 ^ 31 ->
  exists pb,
    gdk_pixbuf__vtf_load_frame hd ctx p0 = Some (Some pb, [])
    /\ has_alpha pb = true /\ pb_width pb = width hd /\ pb_height pb = height hd
    /\ forall x y, 0 <= x < width hd -> 0 <= y < height hd ->
         let p := p0 + 4 * (y * width hd + x) in
         pixel_of pb x y
         = Some (in_byte (buffer ctx) p, in_byte (buffer ctx) (p + 1),
                 in_byte (buffer ctx) (p + 2), in_byte (buffer ctx) (p + 3)).
Proof.
  intros Hr Hfmt Hw Hh H32 Hp0 Hlen Hint.
  pose proof (read_limit_fits _ _ Hlen Hint) as Hlim.
  destruct (decode_with_pixels hd ctx true 4 p0
              (fun x y c => channel (rgba_pixel (buffer ctx) p0 (width hd) x y) c)
              px_RGBA8888 Hr Hw Hh H32)
    as (pb & Hrun & Ha & Hpw & Hph & Hs & Hholds).
  - apply px_RGBA8888_fills; assumption.
  - exists pb. unfold gdk_pixbuf__vtf_load_frame. rewrite Hfmt. simpl.
    rewrite Hrun. simpl. split; [reflexivity|]. repeat (split; [assumption|]).
    rewrite <- Hs in Hholds.
    intros x y Hx Hy. cbv zeta.
    apply (holds_pixel_of_ch pb (width hd) (height hd)
             (rgba_pixel (buffer ctx) p0 (width hd))); assumption.
Qed.

Lemma rgba8888_decoding_witness :
  exists pb,
    gdk_pixbuf__vtf_load_frame
      (mk_header 2 1 1 IMAGE_FORMAT_RGBA8888 1 1)
      (mk_context [1; 2; 3; 4; 5; 6; 7; 8]) 0 = Some (Some pb, [])
    /\ pixel_of pb 1 0 = Some (5, 6, 7, 8).
Proof.
  destruct (rgba8888_decoding (mk_header 2 1 1 IMAGE_FORMAT_RGBA8888 1 1)
              (mk_context [1; 2; 3; 4; 5; 6; 7; 8]) 0)
    as (pb & Hrun & Hrest).
  - split; vm_compute; split; congruence.
  - reflexivity.
  - reflexivity.
  - reflexivity.
  - vm_compute. congruence.
  - lia.
  - vm_compute. congruence.
  - vm_compute. reflexivity.
  - exists pb. split; [exact Hrun|].
    repeat match type of Hrest with _ /\ _ => destruct Hrest as [_ Hrest] end.
    rewrite (Hrest 1 0) by (simpl; lia). vm_compute. reflexivity.
Defined.

(** X2: an ABGR8888 frame whose data lies inside the buffer and ends
    below position 2^31 (the read position is an [int]) decodes to a
    pixbuf with alpha in which pixel [(x, y)] takes its A, B, G, R samples,
    in this order, from the four bytes at [p0 + 4 * (y * width + x)]. *)
Theorem abgr8888_decoding (hd : VtfHeader) (ctx : VtfContext) (p0 : Z) :
  header_in_range hd ->
  highResImageFormat hd = IMAGE_FORMAT_ABGR8888 ->
  0 < width hd -> 0 < height hd -> 4 * width hd * height hd <= 2 ^ 32 ->
  0 <= p0 -> p0 + 4 * (height hd * width hd) <= Z.of_nat (length (buffer ctx)) ->
  p0 + 4 * (height hd * width hd) < 2 ^ 31 ->
  exists pb,
    gdk_pixbuf__vtf_load_frame hd ctx p0 = Some (Some pb, [])
    /\ has_alpha pb = true /\ pb_width pb = width hd /\ pb_height pb = height hd
    /\ forall x y, 0 <= x < width hd -> 0 <= y < height hd ->
         let p := p0 + 4 * (y * width hd + x) in
         pixel_of pb x y
         = Some (in_byte (buffer ctx) (p + 3), in_byte (buffer ctx) (p + 2),
                 in_byte (buffer ctx) (p + 1), in_byte (buffer ctx) p).
Proof.
  intros Hr Hfmt Hw Hh H32 Hp0 Hlen Hint.
  pose proof (read_limit_fits _ _ Hlen Hint) as Hlim.
  destruct (decode_with_pixels hd ctx true 4 p0
              (fun x y c => channel (abgr_pixel (buffer ctx) p0 (width hd) x y) c)
              px_ABGR8888 Hr Hw Hh H32)
    as (pb & Hrun & Ha & Hpw & Hph & Hs & Hholds).
  - apply px_ABGR8888_fills; assumption.
  - exists pb. unfold gdk_pixbuf__vtf_load_frame. rewrite Hfmt. simpl.
    rewrite Hrun. simpl. split; [reflexivity|]. repeat (split; [assumption|]).
    rewrite <- Hs in Hholds.
    intros x y Hx Hy. cbv zeta.
    apply (holds_pixel_of_ch pb (width hd) (height hd)
             (abgr_pixel (buffer ctx) p0 (width hd))); assumption.
Qed.

Lemma abgr8888_decoding_witness :
  exists pb,
    gdk_pixbuf__vtf_load_frame
      (mk_header 2 1 1 IMAGE_FORMAT_ABGR8888 1 1)
      (mk_context [1; 2; 3; 4; 5; 6; 7; 8]) 0 = Some (Some pb, [])
    /\ pixel_of pb 1 0 = Some (8, 7, 6, 5).
Proof.
  destruct (abgr8888_decoding (mk_header 2 1 1 IMAGE_FORMAT_ABGR8888 1 1)
              (mk_context [1; 2; 3; 4; 5; 6; 7; 8]) 0)
    as (pb & Hrun & Hrest).
  - split; vm_compute; split; congruence.
  - reflexivity.
  - reflexivity.
  - reflexivity.
  - vm_compute. congruence.
  - lia.
  - vm_compute. congruence.
  - vm_compute. reflexivity.
  - exists pb. split; [exact Hrun|].
    repeat match type of Hrest with _ /\ _ => destruct Hrest as [_ Hrest] end.
    rewrite (Hrest 1 0) by (simpl; lia). vm_compute. reflexivity.
Defined.

(** X3: an RGB888 frame whose data lies inside the buffer and ends
    below position 2^31 (the read position is an [int]) decodes to a
    pixbuf without alpha, its rows padded to a multiple of four bytes, in
    which pixel [(x, y)] holds the three bytes at
    [p0 + 3 * (y * width + x)] as R, G, B; the input rows are not padded. *)
Theorem rgb888_decoding (hd : VtfHeader) (ctx : VtfContext) (p0 : Z) :
  header_in_range hd ->
  highResImageFormat hd = IMAGE_FORMAT_RGB888 ->
  0 < width hd -> 0 < height hd -> 4 * width hd * height hd <= 2 ^ 32 ->
  0 <= p0 -> p0 + 3 * (height hd * width hd) <= Z.of_nat (length (buffer ctx)) ->
  p0 + 3 * (height hd * width hd) < 2 ^ 31 ->
  exists pb,
    gdk_pixbuf__vtf_load_frame hd ctx p0 = Some (Some pb, [])
    /\ has_alpha pb = false /\ pb_width pb = width hd /\ pb_height pb = height hd
    /\ rowstride pb = (width hd * 3 + 3) / 4 * 4
    /\ forall x y, 0 <= x < width hd -> 0 <= y < height hd ->
         let p := p0 + 3 * (y * width hd + x) in
         rgb_of pb x y
         = Some (in_byte (buffer ctx) p, in_byte (buffer ctx) (p + 1),
                 in_byte (buffer ctx) (p + 2)).
Proof.
  intros Hr Hfmt Hw Hh H32 Hp0 Hlen Hint.
  pose proof (read_limit_fits _ _ Hlen Hint) as Hlim.
  destruct (decode_with_pixels hd ctx false 3 p0
              (fun x y c => channel3 (rgb888_pixel (buffer ctx) p0 (width hd) x y) c)
              px_RGB888 Hr Hw Hh H32)
    as (pb & Hrun & Ha & Hpw & Hph & Hs & Hholds).
  - apply px_RGB888_fills; assumption.
  - exists pb. unfold gdk_pixbuf__vtf_load_frame. rewrite Hfmt. simpl.
    rewrite Hrun. simpl. split; [reflexivity|]. repeat (split; [assumption|]).
    rewrite <- Hs in Hholds.
    intros x y Hx Hy. cbv zeta.
    apply (holds_rgb_of pb (width hd) (height hd)
             (rgb888_pixel (buffer ctx) p0 (width hd))); assumption.
Qed.

Lemma rgb888_decoding_witness :
  exists pb,
    gdk_pixbuf__vtf_load_frame
      (mk_header 2 2 1 IMAGE_FORMAT_RGB888 1 1)
      (mk_context [1; 2; 3; 4; 5; 6; 7; 8; 9; 10; 11; 12]) 0 = Some (Some pb, [])
    /\ rgb_of pb 1 1 = Some (10, 11, 12).
Proof.
  destruct (rgb888_decoding (mk_header 2 2 1 IMAGE_FORMAT_RGB888 1 1)
              (mk_context [1; 2; 3; 4; 5; 6; 7; 8; 9; 10; 11; 12]) 0)
    as (pb & Hrun & Hrest).
  - split; vm_compute; split; congruence.
  - reflexivity.
  - reflexivity.
  - reflexivity.
  - vm_compute. congruence.
  - lia.
  - vm_compute. congruence.
  - vm_compute. reflexivity.
  - exists pb. split; [exact Hrun|].
    repeat match type of Hrest with _ /\ _ => destruct Hrest as [_ Hrest] end.
    rewrite (Hrest 1 1) by (simpl; lia). vm_compute. reflexivity.
Defined.

(** X4: a BGR888 frame whose data lies inside the buffer and ends
    below position 2^31 (the read position is an [int]) decodes to a
    pixbuf without alpha in which pixel [(x, y)] takes its B, G, R samples,
    in this order, from the three bytes at [p0 + 3 * (y * width + x)]. *)
Theorem bgr888_decoding (hd : VtfHeader) (ctx : VtfContext) (p0 : Z) :
  header_in_range hd ->
  highResImageFormat hd = IMAGE_FORMAT_BGR888 ->
  0 < width hd -> 0 < height hd -> 4 * width hd * height hd <= 2 ^ 32 ->
  0 <= p0 -> p0 + 3 * (height hd * width hd) <= Z.of_nat (length (buffer ctx)) ->
  p0 + 3 * (height hd * width hd) < 2 ^ 31 ->
  exists pb,
    gdk_pixbuf__vtf_load_frame hd ctx p0 = Some (Some pb, [])
    /\ has_alpha pb = false /\ pb_width pb = width hd /\ pb_height pb = height hd
    /\ rowstride pb = (width hd * 3 + 3) / 4 * 4
    /\ forall x y, 0 <= x < width hd -> 0 <= y < height hd ->
         let p := p0 + 3 * (y * width hd + x) in
         rgb_of pb x y
         = Some (in_byte (buffer ctx) (p + 2), in_byte (buffer ctx) (p + 1),
                 in_byte (buffer ctx) p).
Proof.
  intros Hr Hfmt Hw Hh H32 Hp0 Hlen Hint.
  pose proof (read_limit_fits _ _ Hlen Hint) as Hlim.
  destruct (decode_with_pixels hd ctx false 3 p0
              (fun x y c => channel3 (bgr888_pixel (buffer ctx) p0 (width hd) x y) c)
              px_BGR888 Hr Hw Hh H32)
    as (pb & Hrun & Ha & Hpw & Hph & Hs & Hholds).
  - apply px_BGR888_fills; assumption.
  - exists pb. unfold gdk_pixbuf__vtf_load_frame. rewrite Hfmt. simpl.
    rewrite Hrun. simpl. split; [reflexivity|]. repeat (split; [assumption|]).
    rewrite <- Hs in Hholds.
    intros x y Hx Hy. cbv zeta.
    apply (holds_rgb_of pb (width hd) (height hd)
             (bgr888_pixel (buffer ctx) p0 (width hd))); assumption.
Qed.

Lemma bgr888_decoding_witness :
  exists pb,
    gdk_pixbuf__vtf_load_frame
      (mk_header 2 2 1 IMAGE_FORMAT_BGR888 1 1)
      (mk_context [1; 2; 3; 4; 5; 6; 7; 8; 9; 10; 11; 12]) 0 = Some (Some pb, [])
    /\ rgb_of pb 1 1 = Some (12, 11, 10).
Proof.
  destruct (bgr888_decoding (mk_header 2 2 1 IMAGE_FORMAT_BGR888 1 1)
              (mk_context [1; 2; 3; 4; 5; 6; 7; 8; 9; 10; 11; 12]) 0)
    as (pb & Hrun & Hrest).
  - split; vm_compute; split; congruence.
  - reflexivity.
  - reflexivity.
  - reflexivity.
  - vm_compute. congruence.
  - lia.
  - vm_compute. congruence.
  - vm_compute. reflexivity.
  - exists pb. split; [exact Hrun|].
    repeat match type of Hrest with _ /\ _ => destruct Hrest as [_ Hrest] end.
    rewrite (Hrest 1 1) by (simpl; lia). vm_compute. reflexivity.
Defined.

(** X5: an RGB565 frame whose data lies inside the buffer and ends
    below position 2^31 (the read position is an [int]) decodes to a
    pixbuf without alpha in which pixel [(x, y)] is the little-endian 16-bit
    word at [p0 + 2 * (y * width + x)], its top five bits expanded to R, the
    next six to G and the low five to B; an expanded 5-bit field [v] is
    [8 * v] and an expanded 6-bit field [4 * v], so that the low bits of
    each sample are zero. *)
Theorem rgb565_decoding (hd : VtfHeader) (ctx : VtfContext) (p0 : Z) :
  header_in_range hd ->
  highResImageFormat hd = IMAGE_FORMAT_RGB565 ->
  0 < width hd -> 0 < height hd -> 4 * width hd * height hd <= 2 ^ 32 ->
  0 <= p0 -> p0 + 2 * (height hd * width hd) <= Z.of_nat (length (buffer ctx)) ->
  p0 + 2 * (height hd * width hd) < 2 ^ 31 ->
  exists pb,
    gdk_pixbuf__vtf_load_frame hd ctx p0 = Some (Some pb, [])
    /\ has_alpha pb = false /\ pb_width pb = width hd /\ pb_height pb = height hd
    /\ rowstride pb = (width hd * 3 + 3) / 4 * 4
    /\ forall x y, 0 <= x < width hd -> 0 <= y < height hd ->
         let c := in_u16 (buffer ctx) (p0 + 2 * (y * width hd + x)) in
         rgb_of pb x y
         = Some (8 * Z.land (Z.shiftr c 11) 31, 4 * Z.land (Z.shiftr c 5) 63,
                 8 * Z.land c 31).
Proof.
  intros Hr Hfmt Hw Hh H32 Hp0 Hlen Hint.
  pose proof (read_limit_fits _ _ Hlen Hint) as Hlim.
  destruct (decode_with_pixels hd ctx false 2 p0
              (fun x y c => channel3 (rgb565_pixel (buffer ctx) p0 (width hd) x y) c)
              px_RGB565 Hr Hw Hh H32)
    as (pb & Hrun & Ha & Hpw & Hph & Hs & Hholds).
  - apply px_RGB565_fills; assumption.
  - exists pb. unfold gdk_pixbuf__vtf_load_frame. rewrite Hfmt. simpl.
    rewrite Hrun. simpl. split; [reflexivity|]. repeat (split; [assumption|]).
    rewrite <- Hs in Hholds.
    intros x y Hx Hy. cbv zeta.
    rewrite (holds_rgb_of pb (width hd) (height hd)
               (rgb565_pixel (buffer ctx) p0 (width hd))) by assumption.
    rewrite rgb565_pixel_fields. reflexivity.
Qed.

Lemma rgb565_decoding_witness :
  exists pb,
    gdk_pixbuf__vtf_load_frame
      (mk_header 2 1 1 IMAGE_FORMAT_RGB565 1 1)
      (mk_context [0; 0; 255; 255]) 0 = Some (Some pb, [])
    /\ rgb_of pb 1 0 = Some (248, 252, 248).
Proof.
  destruct (rgb565_decoding (mk_header 2 1 1 IMAGE_FORMAT_RGB565 1 1)
              (mk_context [0; 0; 255; 255]) 0)
    as (pb & Hrun & Hrest).
  - split; vm_compute; split; congruence.
  - reflexivity.
  - reflexivity.
  - reflexivity.
  - vm_compute. congruence.
  - lia.
  - vm_compute. congruence.
  - vm_compute. reflexivity.
  - exists pb. split; [exact Hrun|].
    repeat match type of Hrest with _ /\ _ => destruct Hrest as [_ Hrest] end.
    rewrite (Hrest 1 0) by (simpl; lia). vm_compute. reflexivity.
Defined.

(** X6: an I8 frame whose data lies inside the buffer and ends
    below position 2^31 (the read position is an [int]) decodes to a pixbuf
    without alpha in which R, G and B of pixel [(x, y)] all hold the byte at
    [p0 + y * width + x]. *)
Theorem i8_decoding (hd : VtfHeader) (ctx : VtfContext) (p0 : Z) :
  header_in_range hd ->
  highResImageFormat hd = IMAGE_FORMAT_I8 ->
  0 < width hd -> 0 < height hd -> 4 * width hd * height hd <= 2 ^ 32 ->
  0 <= p0 -> p0 + height hd * width hd <= Z.of_nat (length (buffer ctx)) ->
  p0 + height hd * width hd < 2 ^ 31 ->
  exists pb,
    gdk_pixbuf__vtf_load_frame hd ctx p0 = Some (Some pb, [])
    /\ has_alpha pb = false /\ pb_width pb = width hd /\ pb_height pb = height hd
    /\ rowstride pb = (width hd * 3 + 3) / 4 * 4
    /\ forall x y, 0 <= x < width hd -> 0 <= y < height hd ->
         let v := in_byte (buffer ctx) (p0 + (y * width hd + x)) in
         rgb_of pb x y = Some (v, v, v).
Proof.
  intros Hr Hfmt Hw Hh H32 Hp0 Hlen Hint.
  pose proof (read_limit_fits _ _ Hlen Hint) as Hlim.
  destruct (decode_with_pixels hd ctx false 1 p0
              (fun x y c => channel3 (i8_pixel (buffer ctx) p0 (width hd) x y) c)
              px_I8 Hr Hw Hh H32)
    as (pb & Hrun & Ha & Hpw & Hph & Hs & Hholds).
  - apply px_I8_fills; [assumption | lia].
  - exists pb. unfold gdk_pixbuf__vtf_load_frame. rewrite Hfmt. simpl.
    rewrite Hrun. simpl. split; [reflexivity|]. repeat (split; [assumption|]).
    rewrite <- Hs in Hholds.
    intros x y Hx Hy. cbv zeta.
    rewrite (holds_rgb_of pb (width hd) (height hd)
               (i8_pixel (buffer ctx) p0 (width hd))) by assumption.
    unfold i8_pixel, texel_pos. rewrite Z.mul_1_l. reflexivity.
Qed.

Lemma i8_decoding_witness :
  exists pb,
    gdk_pixbuf__vtf_load_frame
      (mk_header 3 2 1 IMAGE_FORMAT_I8 1 1)
      (mk_context [10; 20; 30; 40; 50; 60]) 0 = Some (Some pb, [])
    /\ rgb_of pb 2 1 = Some (60, 60, 60).
Proof.
  destruct (i8_decoding (mk_header 3 2 1 IMAGE_FORMAT_I8 1 1)
              (mk_context [10; 20; 30; 40; 50; 60]) 0)
    as (pb & Hrun & Hrest).
  - split; vm_compute; split; congruence.
  - reflexivity.
  - reflexivity.
  - reflexivity.
  - vm_compute. congruence.
  - lia.
  - vm_compute. congruence.
  - vm_compute. reflexivity.
  - exists pb. split; [exact Hrun|].
    repeat match type of Hrest with _ /\ _ => destruct Hrest as [_ Hrest] end.
    rewrite (Hrest 2 1) by (simpl; lia). vm_compute. reflexivity.
Defined.

(** X7: an IA88 frame whose data lies inside the buffer and ends
    below position 2^31 (the read position is an [int]) decodes to a
    pixbuf with alpha in which R, G and B of pixel [(x, y)] hold the first
    and A the second of the two bytes at [p0 + 2 * (y * width + x)]. *)
Theorem ia88_decoding (hd : VtfHeader) (ctx : VtfContext) (p0 : Z) :
  header_in_range hd ->
  highResImageFormat hd = IMAGE_FORMAT_IA88 ->
  0 < width hd -> 0 < height hd -> 4 * width hd * height hd <= 2 ^ 32 ->
  0 <= p0 -> p0 + 2 * (height hd * width hd) <= Z.of_nat (length (buffer ctx)) ->
  p0 + 2 * (height hd * width hd) < 2 ^ 31 ->
  exists pb,
    gdk_pixbuf__vtf_load_frame hd ctx p0 = Some (Some pb, [])
    /\ has_alpha pb = true /\ pb_width pb = width hd /\ pb_height pb = height hd
    /\ forall x y, 0 <= x < width hd -> 0 <= y < height hd ->
         let p := p0 + 2 * (y * width hd + x) in
         pixel_of pb x y
         = Some (in_byte (buffer ctx) p, in_byte (buffer ctx) p,
                 in_byte (buffer ctx) p, in_byte (buffer ctx) (p + 1)).
Proof.
  intros Hr Hfmt Hw Hh H32 Hp0 Hlen Hint.
  pose proof (read_limit_fits _ _ Hlen Hint) as Hlim.
  destruct (decode_with_pixels hd ctx true 2 p0
              (fun x y c => channel (ia88_pixel (buffer ctx) p0 (width hd) x y) c)
              px_IA88 Hr Hw Hh H32)
    as (pb & Hrun & Ha & Hpw & Hph & Hs & Hholds).
  - apply px_IA88_fills; assumption.
  - exists pb. unfold gdk_pixbuf__vtf_load_frame. rewrite Hfmt. simpl.
    rewrite Hrun. simpl. split; [reflexivity|]. repeat (split; [assumption|]).
    rewrite <- Hs in Hholds.
    intros x y Hx Hy. cbv zeta.
    apply (holds_pixel_of_ch pb (width hd) (height hd)
             (ia88_pixel (buffer ctx) p0 (width hd))); assumption.
Qed.

Lemma ia88_decoding_witness :
  exists pb,
    gdk_pixbuf__vtf_load_frame
      (mk_header 2 1 1 IMAGE_FORMAT_IA88 1 1)
      (mk_context [10; 20; 30; 40]) 0 = Some (Some pb, [])
    /\ pixel_of pb 1 0 = Some (30, 30, 30, 40).
Proof.
  destruct (ia88_decoding (mk_header 2 1 1 IMAGE_FORMAT_IA88 1 1)
              (mk_context [10; 20; 30; 40]) 0)
    as (pb & Hrun & Hrest).
  - split; vm_compute; split; congruence.
  - reflexivity.
  - reflexivity.
  - reflexivity.
  - vm_compute. congruence.
  - lia.
  - vm_compute. congruence.
  - vm_compute. reflexivity.
  - exists pb. split; [exact Hrun|].
    repeat match type of Hrest with _ /\ _ => destruct Hrest as [_ Hrest] end.
    rewrite (Hrest 1 0) by (simpl; lia). vm_compute. reflexivity.
Defined.

(** X8: an A8 frame whose data lies inside the buffer and ends
    below position 2^31 (the read position is an [int]) decodes to a pixbuf
    with alpha in which every pixel is white (R, G, B are 255) and A of
    pixel [(x, y)] holds the byte at [p0 + y * width + x]. *)
Theorem a8_decoding (hd : VtfHeader) (ctx : VtfContext) (p0 : Z) :
  header_in_range hd ->
  highResImageFormat hd = IMAGE_FORMAT_A8 ->
  0 < width hd -> 0 < height hd -> 4 * width hd * height hd <= 2 ^ 32 ->
  0 <= p0 -> p0 + height hd * width hd <= Z.of_nat (length (buffer ctx)) ->
  p0 + height hd * width hd < 2 ^ 31 ->
  exists pb,
    gdk_pixbuf__vtf_load_frame hd ctx p0 = Some (Some pb, [])
    /\ has_alpha pb = true /\ pb_width pb = width hd /\ pb_height pb = height hd
    /\ forall x y, 0 <= x < width hd -> 0 <= y < height hd ->
         pixel_of pb x y
         = Some (255, 255, 255, in_byte (buffer ctx) (p0 + (y * width hd + x))).
Proof.
  intros Hr Hfmt Hw Hh H32 Hp0 Hlen Hint.
  pose proof (read_limit_fits _ _ Hlen Hint) as Hlim.
  destruct (decode_with_pixels hd ctx true 1 p0
              (fun x y c => channel (a8_pixel (buffer ctx) p0 (width hd) x y) c)
              px_A8 Hr Hw Hh H32)
    as (pb & Hrun & Ha & Hpw & Hph & Hs & Hholds).
  - apply px_A8_fills; [assumption | lia].
  - exists pb. unfold gdk_pixbuf__vtf_load_frame. rewrite Hfmt. simpl.
    rewrite Hrun. simpl. split; [reflexivity|]. repeat (split; [assumption|]).
    rewrite <- Hs in Hholds.
    intros x y Hx Hy. cbv zeta.
    rewrite (holds_pixel_of_ch pb (width hd) (height hd)
               (a8_pixel (buffer ctx) p0 (width hd))) by assumption.
    unfold a8_pixel, texel_pos. rewrite Z.mul_1_l. reflexivity.
Qed.

Lemma a8_decoding_witness :
  exists pb,
    gdk_pixbuf__vtf_load_frame
      (mk_header 2 2 1 IMAGE_FORMAT_A8 1 1)
      (mk_context [10; 20; 30; 40]) 0 = Some (Some pb, [])
    /\ pixel_of pb 1 1 = Some (255, 255, 255, 40).
Proof.
  destruct (a8_decoding (mk_header 2 2 1 IMAGE_FORMAT_A8 1 1)
              (mk_context [10; 20; 30; 40]) 0)
    as (pb & Hrun & Hrest).
  - split; vm_compute; split; congruence.
  - reflexivity.
  - reflexivity.
  - reflexivity.
  - vm_compute. congruence.
  - lia.
  - vm_compute. congruence.
  - vm_compute. reflexivity.
  - exists pb. split; [exact Hrun|].
    repeat match type of Hrest with _ /\ _ => destruct Hrest as [_ Hrest] end.
    rewrite (Hrest 1 1) by (simpl; lia). vm_compute. reflexivity.
Defined.

(** X9: a BGRA8888 frame whose data lies inside the buffer and ends
    below position 2^31 (the read position is an [int]) decodes to a
    pixbuf with alpha in which pixel [(x, y)] takes its B, G, R, A samples,
    in this order, from the four bytes at [p0 + 4 * (y * width + x)]. *)
Theorem bgra8888_decoding (hd : VtfHeader) (ctx : VtfContext) (p0 : Z) :
  header_in_range hd ->
  highResImageFormat hd = IMAGE_FORMAT_BGRA8888 ->
  0 < width hd -> 0 < height hd -> 4 * width hd * height hd <= 2 ^ 32 ->
  0 <= p0 -> p0 + 4 * (height hd * width hd) <= Z.of_nat (length (buffer ctx)) ->
  p0 + 4 * (height hd * width hd) < 2 ^ 31 ->
  exists pb,
    gdk_pixbuf__vtf_load_frame hd ctx p0 = Some (Some pb, [])
    /\ has_alpha pb = true /\ pb_width pb = width hd /\ pb_height pb = height hd
    /\ forall x y, 0 <= x < width hd -> 0 <= y < height hd ->
         let p := p0 + 4 * (y * width hd + x) in
         pixel_of pb x y
         = Some (in_byte (buffer ctx) (p + 2), in_byte (buffer ctx) (p + 1),
                 in_byte (buffer ctx) p, in_byte (buffer ctx) (p + 3)).
Proof.
  intros Hr Hfmt Hw Hh H32 Hp0 Hlen Hint.
  pose proof (read_limit_fits _ _ Hlen Hint) as Hlim.
  destruct (decode_with_pixels hd ctx true 4 p0
              (fun x y c => channel (bgra_pixel (buffer ctx) p0 (width hd) x y) c)
              px_BGRA8888 Hr Hw Hh H32)
    as (pb & Hrun & Ha & Hpw & Hph & Hs & Hholds).
  - apply px_BGRA8888_fills; assumption.
  - exists pb. unfold gdk_pixbuf__vtf_load_frame. rewrite Hfmt. simpl.
    rewrite Hrun. simpl. split; [reflexivity|]. repeat (split; [assumption|]).
    rewrite <- Hs in Hholds.
    intros x y Hx Hy. cbv zeta.
    apply (holds_pixel_of_ch pb (width hd) (height hd)
             (bgra_pixel (buffer ctx) p0 (width hd))); assumption.
Qed.

Lemma bgra8888_decoding_witness :
  exists pb,
    gdk_pixbuf__vtf_load_frame
      (mk_header 2 1 1 IMAGE_FORMAT_BGRA8888 1 1)
      (mk_context [1; 2; 3; 4; 5; 6; 7; 8]) 0 = Some (Some pb, [])
    /\ pixel_of pb 1 0 = Some (7, 6, 5, 8).
Proof.
  destruct (bgra8888_decoding (mk_header 2 1 1 IMAGE_FORMAT_BGRA8888 1 1)
              (mk_context [1; 2; 3; 4; 5; 6; 7; 8]) 0)
    as (pb & Hrun & Hrest).
  - split; vm_compute; split; congruence.
  - reflexivity.
  - reflexivity.
  - reflexivity.
  - vm_compute. congruence.
  - lia.
  - vm_compute. congruence.
  - vm_compute. reflexivity.
  - exists pb. split; [exact Hrun|].
    repeat match type of Hrest with _ /\ _ => destruct Hrest as [_ Hrest] end.
    rewrite (Hrest 1 0) by (simpl; lia). vm_compute. reflexivity.
Defined.

(* ===================================================================== *)
(** ** What a run that comes back has read and written *)
(* ===================================================================== *)

(** From a result of a sequence of steps to the result of its first step. *)
Ltac inv_bind H :=
  match type of H with
  | (?m ≫= _) = Some _ =>
      let E := fresh "E" in
      destruct m as [?|] eqn:E; [cbn [mbind option_bind] in H | discriminate H]
  end.

Lemma read_byte_inv (buf : list byte) (st st' : dstate) (v : Z) :
  read_byte buf st = Some (v, st') ->
  0 <= pos st < read_limit buf /\ st' = advance st 1.
Proof.
  unfold read_byte, read_limit.
  destruct (pos st <? 0) eqn:E; [discriminate|].
  destruct (int_max <=? pos st) eqn:E'; [discriminate|].
  apply Z.ltb_ge in E. apply Z.leb_gt in E'.
  destruct (buf !! Z.to_nat (pos st)) as [b|] eqn:Eb; [|discriminate].
  simpl. intros [= <- <-]. apply lookup_lt_Some in Eb. split; [lia | reflexivity].
Qed.

Lemma poke_inv (idx v : Z) (st st' : dstate) :
  poke idx v st = Some st' ->
  pos st' = pos st /\ length (pixels st') = length (pixels st)
  /\ 0 <= idx < Z.of_nat (length (pixels st)).
Proof.
  unfold poke. destruct (_ && _) eqn:E; [|discriminate].
  intros [= <-]. simpl. rewrite length_insert.
  apply andb_true_iff in E. destruct E as [E1 E2].
  apply Z.leb_le in E1. apply Z.ltb_lt in E2. auto.
Qed.

Lemma has_read_seq (buf : list byte) (k1 k2 : Z) (s1 s2 s3 : dstate) :
  0 <= k1 -> 0 <= k2 ->
  has_read buf k1 s1 s2 -> has_read buf k2 s2 s3 -> has_read buf (k1 + k2) s1 s3.
Proof. unfold has_read. intros. intuition lia. Qed.

Lemma read_byte_has_read (buf : list byte) (st st' : dstate) (v : Z) :
  read_byte buf st = Some (v, st') -> has_read buf 1 st st'.
Proof.
  intros H. apply read_byte_inv in H. destruct H as [Hp ->].
  unfold has_read, advance. simpl. lia.
Qed.

Lemma poke_has_read (buf : list byte) (idx v : Z) (st st' : dstate) :
  0 <= pos st <= read_limit buf ->
  poke idx v st = Some st' -> has_read buf 0 st st'.
Proof.
  intros Hp H. apply poke_inv in H. unfold has_read. intuition lia.
Qed.

Lemma copy_byte_has_read (buf : list byte) (idx : Z) (st st' : dstate) :
  copy_byte buf idx st = Some st' -> has_read buf 1 st st'.
Proof.
  unfold copy_byte. intros H. inv_bind H. destruct p as [b s1].
  apply read_byte_has_read in E. apply poke_inv in H.
  unfold has_read in *. intuition lia.
Qed.

Lemma read_u16_has_read (buf : list byte) (st st' : dstate) (v : Z) :
  read_u16 buf st = Some (v, st') -> has_read buf 2 st st'.
Proof.
  unfold read_u16. intros H.
  inv_bind H. destruct p as [b0 s1]. apply read_byte_has_read in E.
  inv_bind H. destruct p as [b1 s2]. apply read_byte_has_read in E0.
  injection H as _ <-. unfold has_read in *. intuition lia.
Qed.

Lemma read_u32_has_read (buf : list byte) (st st' : dstate) (v : Z) :
  read_u32 buf st = Some (v, st') -> has_read buf 4 st st'.
Proof.
  unfold read_u32. intros H.
  inv_bind H. destruct p as [b0 s1]. apply read_byte_has_read in E.
  inv_bind H. destruct p as [b1 s2]. apply read_byte_has_read in E0.
  inv_bind H. destruct p as [b2 s3]. apply read_byte_has_read in E1.
  inv_bind H. destruct p as [b3 s4]. apply read_byte_has_read in E2.
  injection H as _ <-. unfold has_read in *. intuition lia.
Qed.

Lemma read_u48_has_read (buf : list byte) (st st' : dstate) (v : Z) :
  read_u48 buf st = Some (v, st') -> has_read buf 6 st st'.
Proof.
  unfold read_u48. intros H.
  inv_bind H. destruct p as [b0 s1]. apply read_byte_has_read in E.
  inv_bind H. destruct p as [b1 s2]. apply read_byte_has_read in E0.
  inv_bind H. destruct p as [b2 s3]. apply read_byte_has_read in E1.
  inv_bind H. destruct p as [b3 s4]. apply read_byte_has_read in E2.
  inv_bind H. destruct p as [b4 s5]. apply read_byte_has_read in E3.
  inv_bind H. destruct p as [b5 s6]. apply read_byte_has_read in E4.
  injection H as _ <-. unfold has_read in *. intuition lia.
Qed.

(** *** Loops that come back *)

Lemma for_lt_done {S : Type} (bound step : Z) (body : Z -> S -> option S)
    (fuel : nat) (i : Z) (s s' : S) :
  bound <= i -> for_lt fuel i bound step body s = Some s' -> s' = s.
Proof.
  intros Hi. destruct fuel as [|fuel]; simpl; [discriminate|].
  destruct (i <? bound) eqn:E; [apply Z.ltb_lt in E; lia|].
  intros [= <-]. reflexivity.
Qed.

(** A property every round keeps holds when the loop comes back. *)
Lemma for_lt_preserves {S : Type} (P : S -> Prop) (bound step : Z)
    (body : Z -> S -> option S) :
  (forall i s s', P s -> body i s = Some s' -> P s') ->
  forall (fuel : nat) i s s',
    P s -> for_lt fuel i bound step body s = Some s' -> P s'.
Proof.
  intros Hbody. induction fuel as [|fuel IH]; intros i s s' HP; simpl; [discriminate|].
  destruct (i <? bound); [|intros [= <-]; exact HP].
  intros H. inv_bind H. eapply IH; [|exact H]. eapply Hbody; eauto.
Qed.

(** When the loop came back, each of its rounds came back, from a state
    with the property the rounds keep. *)
Lemma for_lt_reach {S : Type} (P : S -> Prop) (bound step : Z)
    (body : Z -> S -> option S) :
  (forall i s s', P s -> body i s = Some s' -> P s') ->
  forall (fuel : nat) i s s',
    P s -> for_lt fuel i bound step body s = Some s' ->
    forall n : nat, i + step * Z.of_nat n < bound -> 0 <= step ->
      exists t t', P t /\ body (i + step * Z.of_nat n) t = Some t'.
Proof.
  intros Hbody. induction fuel as [|fuel IH]; intros i s s' HP; simpl; [discriminate|].
  destruct (i <? bound) eqn:Ei.
  - intros H n Hn Hstep. inv_bind H.
    destruct n as [|n].
    + exists s, s0. rewrite Z.mul_0_r, Z.add_0_r. auto.
    + destruct (IH (i + step) s0 s' ltac:(eapply Hbody; eauto) H n) as (t & t' & HPt & Ht).
      * lia.
      * exact Hstep.
      * exists t, t'. split; [exact HPt|].
        replace (i + step * Z.of_nat (Datatypes.S n)) with (i + step + step * Z.of_nat n) by lia.
        exact Ht.
  - intros _ n Hn Hstep. apply Z.ltb_ge in Ei. nia.
Qed.

Lemma for_loop_reach {S : Type} (P : S -> Prop) (bound step : Z)
    (body : Z -> S -> option S) (s s' : S) :
  (forall i s s', P s -> body i s = Some s' -> P s') ->
  P s -> for_loop bound step body s = Some s' ->
  forall k, 0 <= k -> step * k < bound -> 0 <= step ->
    exists t t', P t /\ body (step * k) t = Some t'.
Proof.
  intros Hbody HP H k Hk Hlt Hstep. unfold for_loop in H.
  destruct (for_lt_reach P bound step body Hbody _ _ _ _ HP H (Z.to_nat k))
    as (t & t' & HPt & Ht); [lia | exact Hstep |].
  replace (0 + step * Z.of_nat (Z.to_nat k)) with (step * k) in Ht by lia.
  eauto.
Qed.

Lemma for_loop_preserves {S : Type} (P : S -> Prop) (bound step : Z)
    (body : Z -> S -> option S) (s s' : S) :
  (forall i s s', P s -> body i s = Some s' -> P s') ->
  P s -> for_loop bound step body s = Some s' -> P s'.
Proof.
  intros Hbody HP H. unfold for_loop in H.
  exact (for_lt_preserves P bound step body Hbody _ _ _ _ HP H).
Qed.

Lemma rounds_next (n step : Z) :
  0 < step -> 0 < n -> rounds n step = 1 + rounds (n - step) step.
Proof.
  intros Hs Hn. unfold rounds.
  replace (n + step - 1) with (n - step + step - 1 + 1 * step) by ring.
  rewrite Z.div_add by lia.
  assert (0 <= (n - step + step - 1) / step).
  { apply Z.div_pos; lia. }
  lia.
Qed.

Lemma rounds_none (n step : Z) : 0 < step -> n <= 0 -> rounds n step = 0.
Proof.
  intros Hs Hn. unfold rounds.
  assert ((n + step - 1) / step <= 0).
  { assert ((n + step - 1) / step < 1); [|lia].
    apply Z.div_lt_upper_bound; lia. }
  lia.
Qed.

Lemma rounds_1 (n : Z) : 0 <= n -> rounds n 1 = n.
Proof. intros Hn. unfold rounds. rewrite Z.div_1_r. lia. Qed.

(** A loop whose rounds each read [k] bytes, and which came back, has read
    [k] bytes per round, all inside the buffer. *)
Lemma for_lt_has_read {S : Type} (st_of : S -> dstate) (buf : list byte)
    (k bound step : Z) (body : Z -> S -> option S) :
  0 < step -> 0 <= k ->
  (forall i s s', body i s = Some s' -> has_read buf k (st_of s) (st_of s')) ->
  forall (fuel : nat) i s s',
    for_lt fuel i bound step body s = Some s' ->
    pos (st_of s') = pos (st_of s) + k * rounds (bound - i) step
    /\ length (pixels (st_of s')) = length (pixels (st_of s))
    /\ (i < bound ->
        0 <= pos (st_of s) /\ pos (st_of s') <= read_limit buf).
Proof.
  intros Hstep Hk Hbody.
  induction fuel as [|fuel IH]; intros i s s'; simpl; [discriminate|].
  destruct (i <? bound) eqn:Ei.
  - apply Z.ltb_lt in Ei. intros H. inv_bind H.
    destruct (Hbody _ _ _ E) as (B1 & B2 & B3 & B4).
    destruct (IH _ _ _ H) as (I1 & I2 & I3).
    rewrite (rounds_next (bound - i) step) by lia.
    replace (bound - i - step) with (bound - (i + step)) by ring.
    split; [lia|]. split; [lia|]. intros _. split; [exact B1|].
    destruct (Z_lt_ge_dec (i + step) bound) as [Hlt|Hge].
    + apply I3. exact Hlt.
    + apply for_lt_done in H; [|lia]. subst. exact B3.
  - apply Z.ltb_ge in Ei. intros [= <-].
    rewrite rounds_none by lia. split; [lia|]. split; [reflexivity|]. lia.
Qed.

Lemma for_loop_has_read {S : Type} (st_of : S -> dstate) (buf : list byte)
    (k bound step : Z) (body : Z -> S -> option S) (s s' : S) :
  0 < step -> 0 <= k -> 0 < bound ->
  (forall i s s', body i s = Some s' -> has_read buf k (st_of s) (st_of s')) ->
  for_loop bound step body s = Some s' ->
  has_read buf (k * rounds bound step) (st_of s) (st_of s').
Proof.
  intros Hstep Hk Hb Hbody H. unfold for_loop in H.
  destruct (for_lt_has_read st_of buf k bound step body Hstep Hk Hbody _ _ _ _ H)
    as (H1 & H2 & H3).
  rewrite Z.sub_0_r in H1. destruct (H3 Hb) as [H4 H5].
  unfold has_read. auto.
Qed.

(** A loop of rounds that read nothing. *)
Lemma for_loop_reads_nothing {S : Type} (st_of : S -> dstate) (buf : list byte)
    (bound step : Z) (body : Z -> S -> option S) (s s' : S) :
  0 <= pos (st_of s) <= read_limit buf ->
  (forall i s s', 0 <= pos (st_of s) <= read_limit buf ->
     body i s = Some s' -> has_read buf 0 (st_of s) (st_of s')) ->
  for_loop bound step body s = Some s' ->
  has_read buf 0 (st_of s) (st_of s').
Proof.
  intros Hp Hbody H. unfold for_loop in H.
  pose (P := fun t : S =>
    pos (st_of t) = pos (st_of s)
    /\ length (pixels (st_of t)) = length (pixels (st_of s))).
  assert (HP : P s').
  { refine (for_lt_preserves P bound step body _ _ _ _ _ _ H).
    - intros i t t' [P1 P2] Ht.
      destruct (Hbody i t t' ltac:(lia) Ht) as (B1 & B2 & B3 & B4).
      unfold P. split; lia.
    - unfold P. auto. }
  destruct HP as [P1 P2]. unfold has_read. lia.
Qed.

(* ===================================================================== *)
(** ** The bytes a frame decode reads *)
(* ===================================================================== *)

(** Taking a body that came back apart into its steps. *)
Ltac split_body H :=
  repeat (inv_bind H;
          try match goal with
              | p : (Z * dstate)%type |- _ => destruct p
              end);
  repeat match goal with
         | E : copy_byte _ _ _ = Some _ |- _ => apply (copy_byte_has_read _) in E
         | E : read_byte _ _ = Some _ |- _ => apply read_byte_has_read in E
         | E : read_u16 _ _ = Some _ |- _ => apply read_u16_has_read in E
         | E : read_u32 _ _ = Some _ |- _ => apply read_u32_has_read in E
         | E : read_u48 _ _ = Some _ |- _ => apply read_u48_has_read in E
         | E : poke _ _ _ = Some _ |- _ => apply poke_inv in E
         end.

Section BodiesRead.
Variable buf : list byte.
Variable stride : Z.

Lemma px_RGBA8888_has_read (i j : Z) (st st' : dstate) :
  px_RGBA8888 buf stride i j st = Some st' -> has_read buf 4 st st'.
Proof.
  unfold px_RGBA8888. intros H. split_body H. unfold has_read in *. intuition lia.
Qed.

Lemma px_ABGR8888_has_read (i j : Z) (st st' : dstate) :
  px_ABGR8888 buf stride i j st = Some st' -> has_read buf 4 st st'.
Proof.
  unfold px_ABGR8888. intros H. split_body H. unfold has_read in *. intuition lia.
Qed.

Lemma px_RGB888_has_read (i j : Z) (st st' : dstate) :
  px_RGB888 buf stride i j st = Some st' -> has_read buf 3 st st'.
Proof.
  unfold px_RGB888. intros H. split_body H. unfold has_read in *. intuition lia.
Qed.

Lemma px_BGR888_has_read (i j : Z) (st st' : dstate) :
  px_BGR888 buf stride i j st = Some st' -> has_read buf 3 st st'.
Proof.
  unfold px_BGR888. intros H. split_body H. unfold has_read in *. intuition lia.
Qed.

Lemma px_RGB565_has_read (i j : Z) (st st' : dstate) :
  px_RGB565 buf stride i j st = Some st' -> has_read buf 2 st st'.
Proof.
  unfold px_RGB565. intros H. split_body H. unfold has_read in *. intuition lia.
Qed.

Lemma px_I8_has_read (i j : Z) (st st' : dstate) :
  px_I8 buf stride i j st = Some st' -> has_read buf 1 st st'.
Proof.
  unfold px_I8. intros H. split_body H. unfold has_read in *. intuition lia.
Qed.

Lemma px_IA88_has_read (i j : Z) (st st' : dstate) :
  px_IA88 buf stride i j st = Some st' -> has_read buf 2 st st'.
Proof.
  unfold px_IA88. intros H. split_body H. unfold has_read in *. intuition lia.
Qed.

Lemma px_A8_has_read (i j : Z) (st st' : dstate) :
  px_A8 buf stride i j st = Some st' -> has_read buf 1 st st'.
Proof.
  unfold px_A8. intros H. split_body H. unfold has_read in *. intuition lia.
Qed.

Lemma px_ARGB8888_has_read (i j : Z) (st st' : dstate) :
  px_ARGB8888 buf stride i j st = Some st' -> has_read buf 4 st st'.
Proof.
  unfold px_ARGB8888. intros H. split_body H. unfold has_read in *. intuition lia.
Qed.

Lemma px_BGRA8888_has_read (i j : Z) (st st' : dstate) :
  px_BGRA8888 buf stride i j st = Some st' -> has_read buf 4 st st'.
Proof.
  unfold px_BGRA8888. intros H. split_body H. unfold has_read in *. intuition lia.
Qed.

(** The texel bodies only write. *)
Lemma dxt1_texel_has_read (r g b a : list Z) (i j ii jj : Z) (s s' : Z * dstate) :
  0 <= pos (snd s) <= read_limit buf ->
  dxt1_texel stride r g b a i j ii jj s = Some s' ->
  has_read buf 0 (snd s) (snd s').
Proof.
  destruct s as [sel st]. unfold dxt1_texel. simpl. intros Hp H.
  split_body H. injection H as _ <-. simpl. unfold has_read. intuition lia.
Qed.

Lemma dxt5_alpha_texel_has_read (a : list Z) (i j ii jj : Z) (s s' : Z * dstate) :
  0 <= pos (snd s) <= read_limit buf ->
  dxt5_alpha_texel stride a i j ii jj s = Some s' ->
  has_read buf 0 (snd s) (snd s').
Proof.
  destruct s as [sel st]. unfold dxt5_alpha_texel. simpl. intros Hp H.
  split_body H. injection H as _ <-. simpl. unfold has_read. intuition lia.
Qed.

Lemma dxt5_color_texel_has_read (r g b : list Z) (i j ii jj : Z) (s s' : Z * dstate) :
  0 <= pos (snd s) <= read_limit buf ->
  dxt5_color_texel stride r g b i j ii jj s = Some s' ->
  has_read buf 0 (snd s) (snd s').
Proof.
  destruct s as [sel st]. unfold dxt5_color_texel. simpl. intros Hp H.
  split_body H. injection H as _ <-. simpl. unfold has_read. intuition lia.
Qed.

(** The two loops over the texels of a block only write. *)
Lemma texel_loops_have_read (texel : Z -> Z -> Z * dstate -> option (Z * dstate))
    (s s' : Z * dstate) :
  (forall ii jj t t', 0 <= pos (snd t) <= read_limit buf ->
     texel ii jj t = Some t' -> has_read buf 0 (snd t) (snd t')) ->
  0 <= pos (snd s) <= read_limit buf ->
  for_loop 4 1 (fun ii => for_loop 4 1 (fun jj => texel ii jj)) s = Some s' ->
  has_read buf 0 (snd s) (snd s').
Proof.
  intros Htexel Hp H.
  refine (for_loop_reads_nothing snd buf 4 1 _ s s' Hp _ H).
  intros ii t t' Ht Hrow.
  refine (for_loop_reads_nothing snd buf 4 1 _ t t' Ht _ Hrow).
  intros jj u u' Hu. apply Htexel. exact Hu.
Qed.

Lemma dxt1_block_has_read (i j : Z) (st st' : dstate) :
  dxt1_block buf stride i j st = Some st' -> has_read buf 8 st st'.
Proof.
  unfold dxt1_block. intros H.
  inv_bind H. destruct p as [c0 s1]. apply read_u16_has_read in E.
  inv_bind H. destruct p as [c1 s2]. apply read_u16_has_read in E0.
  inv_bind H. destruct p as [sel s3]. apply read_u32_has_read in E1.
  inv_bind H. destruct p as [sel' s4]. injection H as <-.
  apply texel_loops_have_read in E2.
  - unfold has_read in *. simpl in *. intuition lia.
  - intros ii jj t t'. apply dxt1_texel_has_read.
  - unfold has_read in *. simpl. intuition lia.
Qed.

Lemma dxt5_block_has_read (i j : Z) (st st' : dstate) :
  dxt5_block buf stride i j st = Some st' -> has_read buf 16 st st'.
Proof.
  unfold dxt5_block. intros H.
  inv_bind H. destruct p as [a0 s1]. apply read_byte_has_read in E.
  inv_bind H. destruct p as [a1 s2]. apply read_byte_has_read in E0.
  inv_bind H. destruct p as [asel s3]. apply read_u48_has_read in E1.
  inv_bind H. destruct p as [asel' s4].
  apply texel_loops_have_read in E2;
    [ | intros ii jj t t'; apply dxt5_alpha_texel_has_read
      | unfold has_read in *; simpl; intuition lia ].
  inv_bind H. destruct p as [c0 s5]. apply read_u16_has_read in E3.
  inv_bind H. destruct p as [c1 s6]. apply read_u16_has_read in E4.
  inv_bind H. destruct p as [sel s7]. apply read_u32_has_read in E5.
  inv_bind H. destruct p as [sel' s8]. injection H as <-.
  apply texel_loops_have_read in E6;
    [ | intros ii jj t t'; apply dxt5_color_texel_has_read
      | unfold has_read in *; simpl in *; intuition lia ].
  unfold has_read in *. simpl in *. intuition lia.
Qed.
End BodiesRead.

(** A frame decode that came back has read, from [p0] on, the bytes of all
    its rounds inside the buffer. *)
Lemma decode_with_has_read (hd : VtfHeader) (ctx : VtfContext) (alpha : bool)
    (step k p0 : Z) (body : list byte -> Z -> Z -> Z -> dstate -> option dstate)
    (pb : GdkPixbuf) :
  0 < step -> 0 <= k ->
  (forall stride i j st st',
     body (buffer ctx) stride i j st = Some st' -> has_read (buffer ctx) k st st') ->
  decode_with hd ctx alpha step body p0 = Some (Some pb) ->
  0 <= p0
  /\ p0 + k * (rounds (height hd) step * rounds (width hd) step)
     <= read_limit (buffer ctx).
Proof.
  intros Hstep Hk Hbody H.
  destruct (decode_with_Some _ _ _ _ _ _ _ H) as [Ew Eh].
  unfold decode_with in H. inv_bind H.
  apply (for_loop_has_read id (buffer ctx)
           (k * rounds (width hd) step) (height hd) step) in E;
    [ | exact Hstep | | exact Eh | ].
  - destruct E as (E1 & E2 & E3 & _). simpl in *. unfold id in *. simpl in *.
    split; [exact E1|]. rewrite E2 in E3.
    replace (k * (rounds (height hd) step * rounds (width hd) step))
      with (k * rounds (width hd) step * rounds (height hd) step) by ring.
    exact E3.
  - unfold rounds. nia.
  - intros i s s' Hrow.
    apply (for_loop_has_read id (buffer ctx) k (width hd) step) in Hrow;
      [exact Hrow | exact Hstep | exact Hk | exact Ew |].
    intros j t t'. apply Hbody.
Qed.

(* ===================================================================== *)
(** ** The branches of [gdk_pixbuf__vtf_load_frame], side by side *)
(* ===================================================================== *)

Lemma load_frame_branch (hd : VtfHeader) (ctx : VtfContext) (p : Z) :
  gdk_pixbuf__vtf_load_frame hd ctx p
  = match branch_of (highResImageFormat hd) with
    | Some b =>
        pixbuf ← decode_with hd ctx (br_alpha b) (br_step b) (br_body b) p;
        Some (pixbuf, [])
    | None =>
        Some (None,
              [ EvPrintf msg_unsupported_format (to_int (highResImageFormat hd));
                EvSetError GDK_PIXBUF_ERROR_CORRUPT_IMAGE msg_cant_read ])
    end.
Proof.
  unfold gdk_pixbuf__vtf_load_frame, branch_of.
  repeat match goal with
         | |- (if ?c then _ else _) = _ => destruct c; [reflexivity|]
         end.
  reflexivity.
Qed.

Lemma branch_of_supported (fmt : Z) :
  supported fmt = true <-> exists b, branch_of fmt = Some b.
Proof.
  unfold supported, supported_formats, branch_of. simpl existsb.
  repeat match goal with
         | |- context [fmt =? ?k] =>
             destruct (fmt =? k); [simpl; rewrite ?orb_true_r; split; eauto|]
         end.
  simpl. split; [discriminate | intros [b Hb]; discriminate].
Qed.

Lemma rounds_4 (n : Z) : 0 <= n -> rounds n 4 = (n + 3) / 4.
Proof.
  intros Hn. unfold rounds. replace (n + 4 - 1) with (n + 3) by ring.
  assert (0 <= (n + 3) / 4) by (apply Z.div_pos; lia). lia.
Qed.

(** Each branch reads its bytes per round inside the buffer; its rounds
    add up to [frame_bytes]. *)
Lemma branch_has_read (fmt w h : Z) (b : branch) :
  branch_of fmt = Some b ->
  0 < br_step b /\ 0 <= br_bytes b
  /\ (forall buf stride i j st st',
        br_body b buf stride i j st = Some st' -> has_read buf (br_bytes b) st st')
  /\ (0 <= w -> 0 <= h ->
      frame_bytes fmt w h
      = br_bytes b * (rounds h (br_step b) * rounds w (br_step b))).
Proof.
  unfold branch_of, frame_bytes. unfold_formats.
  repeat match goal with
         | |- (if ?a =? ?k then _ else _) = _ -> _ =>
             let E := fresh "E" in
             destruct (a =? k) eqn:E;
             [ apply Z.eqb_eq in E; subst fmt; intros [= <-]; simpl;
               split; [lia|]; split; [lia|]; split;
               [ intros buf stride i j st st'
               | intros Hw Hh; rewrite ?rounds_1 by lia; reflexivity ]
             | ]
         end; try discriminate.
  - apply px_RGBA8888_has_read.
  - apply px_ABGR8888_has_read.
  - apply px_RGB888_has_read.
  - apply px_BGR888_has_read.
  - apply px_RGB565_has_read.
  - apply px_I8_has_read.
  - apply px_IA88_has_read.
  - apply px_A8_has_read.
  - apply dxt1_block_has_read.
  - apply dxt5_block_has_read.
  - apply px_ARGB8888_has_read.
  - apply px_BGRA8888_has_read.
Qed.

(** A frame decode that gave a pixbuf has read [frame_bytes] bytes from
    [p0] on, all inside the buffer, and the image is not empty. *)
Lemma load_frame_has_read (hd : VtfHeader) (ctx : VtfContext) (p0 : Z)
    (pb : GdkPixbuf) (evs : list event) :
  gdk_pixbuf__vtf_load_frame hd ctx p0 = Some (Some pb, evs) ->
  0 <= p0
  /\ p0 + frame_bytes (highResImageFormat hd) (width hd) (height hd)
     <= read_limit (buffer ctx).
Proof.
  rewrite load_frame_branch.
  destruct (branch_of (highResImageFormat hd)) as [b|] eqn:Eb; [|discriminate].
  intros H. inv_bind H. injection H as -> <-.
  destruct (branch_has_read _ (width hd) (height hd) b Eb) as (Hs & Hk & Hbody & Hfb).
  pose proof (decode_with_Some _ _ _ _ _ _ _ E) as Hdim.
  rewrite Hfb by lia.
  apply (decode_with_has_read hd ctx (br_alpha b) (br_step b) (br_bytes b) p0
           (br_body b) pb Hs Hk); [|exact E].
  intros stride i j st st'. apply Hbody.
Qed.

(** The bytes of one frame, as the decoder consumes them, and the size of
    one slice of mip level 0, as [vtf_mip_size] computes it, agree. *)
Lemma frame_bytes_mip_size (hd : VtfHeader) :
  header_in_range hd -> 0 < width hd -> 0 < height hd ->
  mip_size_spec hd 0 1
  = frame_bytes (highResImageFormat hd) (width hd) (height hd).
Proof.
  intros Hr Hw Hh. unfold mip_size_spec, mip_dim.
  rewrite !Z.shiftr_0_r. rewrite !Z.max_r by lia.
  unfold slice_cost, frame_bytes.
  rewrite !rounds_4 by lia. rewrite <- !ceil_div_4 by lia.
  repeat match goal with
         | |- context [if ?c then _ else _] => destruct c; [ring|]
         end.
  ring.
Qed.

(** X10: a frame of a supported format is read from [frame_bytes] input
    bytes starting at [pos]: per pixel for the uncompressed formats, per
    4 x 4 block started for DXT1 and DXT5.  When these bytes do not all lie
    inside the buffer, the decode reads outside it.  The count is, modulo
    2^32, what [vtf_mip_size] gives for one slice of mip level 0. *)
Theorem frame_outside_buffer_faults (hd : VtfHeader) (ctx : VtfContext) (p0 : Z) :
  header_in_range hd ->
  supported (highResImageFormat hd) = true ->
  0 < width hd -> 0 < height hd ->
  p0 < 0
  \/ Z.of_nat (length (buffer ctx))
     < p0 + frame_bytes (highResImageFormat hd) (width hd) (height hd) ->
  gdk_pixbuf__vtf_load_frame hd ctx p0 = None
  /\ vtf_mip_size hd 0 1
     = frame_bytes (highResImageFormat hd) (width hd) (height hd) mod 2 ^ 32.
Proof.
  intros Hr Hsup Hw Hh Hout. split.
  - destruct (gdk_pixbuf__vtf_load_frame hd ctx p0) as [r|] eqn:E; [|reflexivity].
    destruct (load_frame_supported hd ctx p0 r Hsup E) as (pixbuf & -> & Hnull).
    destruct pixbuf as [pb|]; [|destruct (proj1 Hnull eq_refl); lia].
    apply load_frame_has_read in E.
    pose proof (read_limit_length (buffer ctx)). lia.
  - rewrite vtf_mip_size_mod by (unfold two32; auto; lia).
    rewrite frame_bytes_mip_size by assumption. reflexivity.
Qed.

Lemma frame_outside_buffer_faults_witness :
  gdk_pixbuf__vtf_load_frame (mk_header 2 2 1 IMAGE_FORMAT_RGB565 1 1)
    (mk_context [1; 2; 3; 4; 5; 6; 7]) 0 = None
  /\ vtf_mip_size (mk_header 2 2 1 IMAGE_FORMAT_RGB565 1 1) 0 1 = 8.
Proof.
  destruct (frame_outside_buffer_faults (mk_header 2 2 1 IMAGE_FORMAT_RGB565 1 1)
              (mk_context [1; 2; 3; 4; 5; 6; 7]) 0) as [H1 H2].
  - split; vm_compute; split; congruence.
  - reflexivity.
  - reflexivity.
  - reflexivity.
  - right. vm_compute. reflexivity.
  - split; [exact H1|]. rewrite H2. reflexivity.
Defined.

(* ===================================================================== *)
(** ** DXT images with a partial block *)
(* ===================================================================== *)

(** From two texel loops that came back to one of their texels. *)
Lemma texel_loops_reach (buf : list byte)
    (texel : Z -> Z -> Z * dstate -> option (Z * dstate)) (s s' : Z * dstate) :
  (forall ii jj t t', 0 <= pos (snd t) <= read_limit buf ->
     texel ii jj t = Some t' -> has_read buf 0 (snd t) (snd t')) ->
  0 <= pos (snd s) <= read_limit buf ->
  for_loop 4 1 (fun ii => for_loop 4 1 (fun jj => texel ii jj)) s = Some s' ->
  forall ii jj, 0 <= ii < 4 -> 0 <= jj < 4 ->
    exists t t',
      length (pixels (snd t)) = length (pixels (snd s))
      /\ texel ii jj t = Some t'.
Proof.
  intros Htexel Hp H ii jj Hii Hjj.
  pose (P := fun t : Z * dstate =>
    0 <= pos (snd t) <= read_limit buf
    /\ length (pixels (snd t)) = length (pixels (snd s))).
  assert (Htx : forall ii jj u u', P u -> texel ii jj u = Some u' -> P u').
  { intros k k' u u' [Hu1 Hu2] Hu.
    destruct (Htexel _ _ _ _ Hu1 Hu) as (B1 & B2 & B3 & B4).
    unfold P. split; [lia | congruence]. }
  assert (Hin : forall ii t t', P t ->
            for_loop 4 1 (fun jj => texel ii jj) t = Some t' -> P t').
  { intros k t t' HP Hrow.
    exact (for_loop_preserves P 4 1 _ t t' (Htx k) HP Hrow). }
  assert (HPs : P s) by (unfold P; auto).
  destruct (for_loop_reach P 4 1 _ s s' Hin HPs H ii) as (t & t' & HPt & Ht);
    [lia | lia | lia |].
  rewrite Z.mul_1_l in Ht.
  destruct (for_loop_reach P 4 1 _ t t' (Htx ii) HPt Ht jj)
    as (u & u' & [_ HPu] & Hu); [lia | lia | lia |].
  rewrite Z.mul_1_l in Hu.
  exists u, u'. auto.
Qed.

Lemma dxt1_block_writes : block_writes 0 dxt1_block.
Proof.
  intros buf stride i j st st' H ii jj Hii Hjj. unfold dxt1_block in H.
  inv_bind H. destruct p as [c0 s1]. apply read_u16_has_read in E.
  inv_bind H. destruct p as [c1 s2]. apply read_u16_has_read in E0.
  inv_bind H. destruct p as [sel s3]. apply read_u32_has_read in E1.
  inv_bind H. destruct p as [sel' s4].
  assert (Hp3 : 0 <= pos s3 <= read_limit buf)
    by (unfold has_read in *; lia).
  destruct (texel_loops_reach buf _ (sel, s3) _
              (fun ii jj t t' =>
                 dxt1_texel_has_read buf stride _ _ _ _ i j ii jj t t')
              Hp3 E2 ii jj Hii Hjj)
    as ([usel u] & u' & Hlen & Hu).
  unfold dxt1_texel in Hu. inv_bind Hu. apply poke_inv in E3.
  unfold has_read in *. simpl in *.
  destruct E3 as (_ & _ & Hidx).
  replace (length (pixels st)) with (length (pixels u)) by intuition congruence.
  lia.
Qed.

Lemma dxt5_block_writes : block_writes 3 dxt5_block.
Proof.
  intros buf stride i j st st' H ii jj Hii Hjj. unfold dxt5_block in H.
  inv_bind H. destruct p as [a0 s1]. apply read_byte_has_read in E.
  inv_bind H. destruct p as [a1 s2]. apply read_byte_has_read in E0.
  inv_bind H. destruct p as [asel s3]. apply read_u48_has_read in E1.
  inv_bind H. destruct p as [asel' s4].
  assert (Hp3 : 0 <= pos s3 <= read_limit buf)
    by (unfold has_read in *; lia).
  destruct (texel_loops_reach buf _ (asel, s3) _
              (fun ii jj t t' =>
                 dxt5_alpha_texel_has_read buf stride _ i j ii jj t t')
              Hp3 E2 ii jj Hii Hjj)
    as ([usel u] & u' & Hlen & Hu).
  unfold dxt5_alpha_texel in Hu. inv_bind Hu. apply poke_inv in E3.
  unfold has_read in *. simpl in *.
  destruct E3 as (_ & _ & Hidx).
  replace (length (pixels st)) with (length (pixels u)) by intuition congruence.
  lia.
Qed.

(** A frame decode in blocks that came back has written sample [c0] of
    every texel of every block started inside the pixel array. *)
Lemma decode_with_block_writes (hd : VtfHeader) (ctx : VtfContext) (k c0 p0 : Z)
    (body : list byte -> Z -> Z -> Z -> dstate -> option dstate) (pb : GdkPixbuf) :
  0 <= k ->
  (forall stride i j st st',
     body (buffer ctx) stride i j st = Some st' -> has_read (buffer ctx) k st st') ->
  block_writes c0 body ->
  4 * width hd * height hd < two32 ->
  decode_with hd ctx true 4 body p0 = Some (Some pb) ->
  forall bi bj ii jj,
    0 <= bi -> 4 * bi < height hd -> 0 <= bj -> 4 * bj < width hd ->
    0 <= ii < 4 -> 0 <= jj < 4 ->
    u32 (4 * width hd * (4 * bi + ii) + 4 * (4 * bj + jj) + c0)
    < 4 * width hd * height hd.
Proof.
  intros Hk Hread Hwrites H32 H bi bj ii jj Hbi Hbi' Hbj Hbj' Hii Hjj.
  destruct (decode_with_Some _ _ _ _ _ _ _ H) as [Hw Hh].
  unfold decode_with in H.
  rewrite gdk_pixbuf_new_rgba in H by assumption.
  cbn [gdk_pixbuf_get_rowstride gdk_pixbuf_get_pixels rowstride pb_pixels] in H.
  inv_bind H.
  assert (Hs : u32 (4 * width hd) = 4 * width hd).
  { apply u32_small. unfold two32 in *. nia. }
  rewrite Hs in E.
  set (L := length (replicate (Z.to_nat (4 * width hd * height hd)) 0)) in *.
  pose (P := fun t : dstate => length (pixels t) = L).
  assert (Hblock : forall i j t t', P t ->
            body (buffer ctx) (4 * width hd) i j t = Some t' -> P t').
  { intros i j t t' HP Ht. destruct (Hread _ _ _ _ _ Ht) as (_ & _ & _ & B4).
    unfold P in *. congruence. }
  assert (Hrow : forall i t t', P t ->
            for_loop (width hd) 4
              (fun j => body (buffer ctx) (4 * width hd) i j) t = Some t' -> P t').
  { intros i t t' HP Ht.
    exact (for_loop_preserves P (width hd) 4 _ t t' (Hblock i) HP Ht). }
  assert (HP0 : P {| pos := p0;
                     pixels := replicate (Z.to_nat (4 * width hd * height hd)) 0 |})
    by reflexivity.
  destruct (for_loop_reach P (height hd) 4 _ _ _ Hrow HP0 E bi)
    as (t & t' & HPt & Ht); [lia | lia | lia |].
  destruct (for_loop_reach P (width hd) 4 _ t t' (Hblock (4 * bi)) HPt Ht bj)
    as (u & u' & HPu & Hu); [lia | lia | lia |].
  pose proof (Hwrites _ _ _ _ _ _ Hu ii jj Hii Hjj) as Hidx.
  unfold pix_index in Hidx. unfold P in HPu. rewrite HPu in Hidx.
  unfold L in Hidx. rewrite length_replicate in Hidx.
  rewrite Z2Nat.id in Hidx by nia. exact Hidx.
Qed.

(** X11: a DXT1 or DXT5 frame whose width or height is not a multiple of
    four is not decoded: the loops write whole 4 x 4 blocks, and a texel of
    the last block started lies outside the pixel array of the
    [width] x [height] pixbuf, whatever the input holds. *)
Theorem dxt_partial_block_faults (hd : VtfHeader) (ctx : VtfContext) (p0 : Z) :
  highResImageFormat hd = IMAGE_FORMAT_DXT1
  \/ highResImageFormat hd = IMAGE_FORMAT_DXT5 ->
  0 < width hd -> 0 < height hd -> 4 * width hd * height hd < 2 ^ 32 ->
  width hd mod 4 <> 0 \/ height hd mod 4 <> 0 ->
  gdk_pixbuf__vtf_load_frame hd ctx p0 = None.
Proof.
  intros Hfmt Hw Hh H32 Hpart.
  destruct (gdk_pixbuf__vtf_load_frame hd ctx p0) as [r|] eqn:E; [|reflexivity].
  exfalso.
  assert (Hgen : exists k c0 body pb,
             0 <= k <= 16 /\ 0 <= c0 < 4
             /\ (forall stride i j st st',
                   body (buffer ctx) stride i j st = Some st' ->
                   has_read (buffer ctx) k st st')
             /\ block_writes c0 body
             /\ decode_with hd ctx true 4 body p0 = Some (Some pb)).
  { unfold gdk_pixbuf__vtf_load_frame in E.
    destruct Hfmt as [Hfmt|Hfmt]; rewrite Hfmt in E; simpl in E; inv_bind E;
      pose proof (decode_with_result _ _ _ _ _ _ _ E0) as Hnull;
      destruct o as [pb|]; try (destruct (proj1 Hnull eq_refl); lia).
    - exists 8, 0, dxt1_block, pb. split; [lia|]. split; [lia|].
      split; [intros; eapply dxt1_block_has_read; eauto|].
      split; [exact dxt1_block_writes | exact E0].
    - exists 16, 3, dxt5_block, pb. split; [lia|]. split; [lia|].
      split; [intros; eapply dxt5_block_has_read; eauto|].
      split; [exact dxt5_block_writes | exact E0]. }
  destruct Hgen as (k & c0 & body & pb & Hk & Hc0 & Hread & Hwrites & Hrun).
  pose proof (decode_with_block_writes hd ctx k c0 p0 body pb ltac:(lia)
                Hread Hwrites H32 Hrun) as Hpoke.
  assert (Hfit : u32 (4 * width hd * height hd + c0)
                 = 4 * width hd * height hd + c0).
  { apply u32_small. unfold two32 in *. change (2 ^ 32) with 4294967296 in H32. lia. }
  destruct (Z.eq_dec (height hd mod 4) 0) as [Hh4|Hh4].
  - (* the last block row is whole: a texel right of the image in row
       [height - 1] *)
    assert (Hw4 : width hd mod 4 <> 0) by tauto.
    specialize (Hpoke (height hd / 4 - 1) (width hd / 4) 3 (width hd mod 4)).
    replace (4 * width hd * (4 * (height hd / 4 - 1) + 3)
             + 4 * (4 * (width hd / 4) + width hd mod 4) + c0)
      with (4 * width hd * height hd + c0) in Hpoke
      by (Z.to_euclidean_division_equations; nia).
    rewrite Hfit in Hpoke.
    assert (4 * width hd * height hd + c0 < 4 * width hd * height hd); [|lia].
    apply Hpoke; Z.to_euclidean_division_equations; lia.
  - (* the first row below the image *)
    specialize (Hpoke (height hd / 4) 0 (height hd mod 4) 0).
    replace (4 * width hd * (4 * (height hd / 4) + height hd mod 4)
             + 4 * (4 * 0 + 0) + c0)
      with (4 * width hd * height hd + c0) in Hpoke
      by (Z.to_euclidean_division_equations; nia).
    rewrite Hfit in Hpoke.
    assert (4 * width hd * height hd + c0 < 4 * width hd * height hd); [|lia].
    apply Hpoke; Z.to_euclidean_division_equations; lia.
Qed.

Lemma dxt_partial_block_faults_witness :
  gdk_pixbuf__vtf_load_frame (mk_header 2 2 1 IMAGE_FORMAT_DXT1 1 1)
    (mk_context [0; 0; 0; 0; 0; 0; 0; 0]) 0 = None.
Proof.
  apply dxt_partial_block_faults.
  - left. reflexivity.
  - reflexivity.
  - reflexivity.
  - reflexivity.
  - left. vm_compute. discriminate.
Defined.

(* ===================================================================== *)
(** ** The buffer of the loader *)
(* ===================================================================== *)

Lemma capacity_next (k : Z) : 0 <= k -> capacity (k + 1) = capacity k * 2.
Proof. intros Hk. unfold capacity. replace (k + 1) with (Z.succ k) by lia. rewrite Z.pow_succ_r by lia. ring. Qed.

Lemma capacity_mono (k k' : Z) : 0 <= k <= k' -> capacity k <= capacity k'.
Proof.
  intros Hk. unfold capacity.
  assert (2 ^ k <= 2 ^ k') by (apply Z.pow_le_mono_r; lia). lia.
Qed.

Lemma capacity_pos (k : Z) : 0 <= k -> 0 < capacity k.
Proof.
  intros Hk. unfold capacity.
  assert (0 < 2 ^ k) by (apply Z.pow_pos_nonneg; lia). lia.
Qed.

Lemma capacity_fits (k : Z) : 0 <= k <= 12 -> capacity k <= max_capacity < two32.
Proof.
  intros Hk. pose proof (capacity_mono k 12 ltac:(lia)) as H.
  change (capacity 12) with max_capacity in H.
  unfold max_capacity, two32 in *. lia.
Qed.

(** The doubling loop stops at the least capacity that holds the data, as
    long as one below 2^32 does. *)
Lemma grow_loop_capacity (N : Z) :
  N <= max_capacity ->
  forall (n : nat) (k : Z) (fuel : nat),
    0 <= k -> k + Z.of_nat n = 12 -> (n < fuel)%nat ->
    exists k', k <= k' <= 12
      /\ grow_loop fuel N (capacity k) = Some (capacity k')
      /\ N <= capacity k'
      /\ (k < k' -> capacity (k' - 1) < N).
Proof.
  intros HN. induction n as [|n IH]; intros k fuel Hk Hkn Hfuel.
  - destruct fuel as [|fuel]; [lia|]. simpl.
    assert (k = 12) as -> by lia. change (capacity 12) with max_capacity.
    destruct (max_capacity <? N) eqn:E; [apply Z.ltb_lt in E; lia|].
    exists 12. split; [lia|]. split; [reflexivity|]. split; [exact HN | lia].
  - destruct fuel as [|fuel]; [lia|]. simpl.
    destruct (capacity k <? N) eqn:E.
    + apply Z.ltb_lt in E.
      rewrite <- capacity_next by lia.
      rewrite u32_small
        by (pose proof (capacity_fits (k + 1) ltac:(lia));
            pose proof (capacity_pos (k + 1) ltac:(lia)); lia).
      destruct (IH (k + 1) fuel ltac:(lia) ltac:(lia) ltac:(lia))
        as (k' & Hk' & Hrun & Hfit & Hmin).
      exists k'. split; [lia|]. split; [exact Hrun|]. split; [exact Hfit|].
      intros _. destruct (Z.eq_dec k' (k + 1)) as [->|Hne].
      * replace (k + 1 - 1) with k by ring. exact E.
      * apply Hmin. lia.
    + apply Z.ltb_ge in E. exists k. split; [lia|]. split; [reflexivity|].
      split; [exact E | lia].
Qed.

Lemma size_orbit_closed (s : Z) :
  In s size_orbit -> In (u32 (s * 2)) size_orbit /\ s <= max_capacity.
Proof.
  unfold size_orbit. intros H. vm_compute in H.
  repeat (destruct H as [<-|H]; [vm_compute; split; [tauto | discriminate]|]).
  destruct H.
Qed.

Lemma capacity_in_orbit (k : Z) : 0 <= k <= 12 -> In (capacity k) size_orbit.
Proof.
  intros Hk.
  assert (Hcases : k = 0 \/ k = 1 \/ k = 2 \/ k = 3 \/ k = 4 \/ k = 5 \/ k = 6
                   \/ k = 7 \/ k = 8 \/ k = 9 \/ k = 10 \/ k = 11 \/ k = 12) by lia.
  repeat (destruct Hcases as [->|Hcases]; [vm_compute; tauto|]).
  subst. vm_compute. tauto.
Qed.

(** Past the largest capacity the doubling loop never stops. *)
Lemma grow_loop_hangs (N : Z) :
  max_capacity < N ->
  forall (fuel : nat) (s : Z), In s size_orbit -> grow_loop fuel N s = None.
Proof.
  intros HN. induction fuel as [|fuel IH]; intros s Hs; [reflexivity|].
  simpl. destruct (size_orbit_closed s Hs) as [Hnext Hle].
  destruct (s <? N) eqn:E; [|apply Z.ltb_ge in E; lia].
  apply IH. exact Hnext.
Qed.

(** When the loop stops, the size it leaves holds the data. *)
Lemma grow_loop_result (fuel : nat) (N s s' : Z) :
  grow_loop fuel N s = Some s' -> N <= s'.
Proof.
  revert s. induction fuel as [|fuel IH]; intros s; simpl; [discriminate|].
  destruct (s <? N) eqn:E.
  - apply IH.
  - apply Z.ltb_ge in E. intros [= <-]. exact E.
Qed.

Lemma seqZ_length (m n : Z) : Z.of_nat (length (seqZ m n)) = Z.max 0 n.
Proof. rewrite length_seqZ. lia. Qed.

Lemma g_malloc_Some (junk : Z -> byte) (n : Z) :
  n <> 0 -> g_malloc junk n = Some (map junk (seqZ 0 n)).
Proof.
  intros Hn. unfold g_malloc.
  destruct (n =? 0) eqn:E; [apply Z.eqb_eq in E; lia | reflexivity].
Qed.

Lemma begin_load_context (junk : Z -> byte) :
  gdk_pixbuf__vtf_image_begin_load junk
  = (Some {| buffer := map junk (seqZ 0 1000000); buffer_size := 1000000;
             buffer_data_size := 0 |}, []).
Proof.
  unfold gdk_pixbuf__vtf_image_begin_load.
  rewrite (g_malloc_Some junk sizeof_VtfContext) by (unfold sizeof_VtfContext; lia).
  rewrite (g_malloc_Some junk 1000000) by lia. reflexivity.
Qed.

Lemma begin_load_ok (junk : Z -> byte) :
  context_ok {| buffer := map junk (seqZ 0 1000000); buffer_size := 1000000;
                buffer_data_size := 0 |}.
Proof.
  split; cbn [buffer buffer_size buffer_data_size].
  - rewrite length_map, seqZ_length. lia.
  - lia.
  - exists 0. split; [lia | reflexivity].
Qed.

(** The buffer after [g_realloc] to a larger size: the old bytes, then
    fresh ones. *)
Lemma g_realloc_grows (junk : Z -> byte) (mem : list byte) (n : Z) :
  Z.of_nat (length mem) <= n -> 0 < n ->
  exists fresh,
    g_realloc junk mem n = Some (mem ++ fresh)
    /\ Z.of_nat (length (mem ++ fresh)) = n.
Proof.
  intros Hlen Hn. unfold g_realloc.
  destruct (n =? 0) eqn:E; [apply Z.eqb_eq in E; lia|].
  rewrite take_ge by lia.
  eexists. split; [reflexivity|].
  rewrite length_app, length_map, Nat2Z.inj_add, seqZ_length. lia.
Qed.

(** The copy at the end of [load_increment], for a context whose data and
    the new bytes fit the buffer. *)
Lemma append_data_ok (mem data : list byte) (bsize dsize size : Z) :
  0 <= size -> size <= dsize -> dsize <= Z.of_nat (length mem) ->
  size <= Z.of_nat (length data) ->
  exists mem',
    append_data {| buffer := mem; buffer_size := bsize; buffer_data_size := dsize |}
      data size
    = IncReturned true
        {| buffer := mem'; buffer_size := bsize; buffer_data_size := dsize |} []
    /\ length mem' = length mem
    /\ take (Z.to_nat dsize) mem'
       = take (Z.to_nat (dsize - size)) mem ++ take (Z.to_nat size) data.
Proof.
  intros Hs Hd Hm Hdata. unfold append_data, memcpy_at.
  cbn [buffer buffer_size buffer_data_size].
  replace (dsize - size + size) with dsize by ring.
  destruct (_ && _) eqn:E.
  2:{ repeat (apply andb_false_iff in E; destruct E as [E|E]);
        try apply Z.leb_gt in E; lia. }
  eexists. split; [reflexivity|]. split.
  - rewrite !length_app, !length_take, length_drop. lia.
  - rewrite app_assoc. rewrite take_app_length'; [reflexivity|].
    rewrite length_app, !length_take. lia.
Qed.

(** One call of [load_increment] on a context of the loader, when the data
    fits the largest capacity. *)
Lemma load_increment_ok (fuel : nat) (junk : Z -> byte) (ctx : VtfContext)
    (data : list byte) (size : Z) :
  context_ok ctx -> (13 < fuel)%nat ->
  0 <= size <= Z.of_nat (length data) ->
  buffer_data_size ctx + size <= max_capacity ->
  exists ctx' k k',
    gdk_pixbuf__vtf_image_load_increment fuel junk ctx data size
    = IncReturned true ctx' []
    /\ context_ok ctx'
    /\ buffer_data_size ctx' = buffer_data_size ctx + size
    /\ take (Z.to_nat (buffer_data_size ctx')) (buffer ctx')
       = take (Z.to_nat (buffer_data_size ctx)) (buffer ctx)
         ++ take (Z.to_nat size) data
    /\ buffer_size ctx = capacity k /\ buffer_size ctx' = capacity k'
    /\ 0 <= k <= k' /\ k' <= 12
    /\ (k < k' -> capacity (k' - 1) < buffer_data_size ctx + size).
Proof.
  intros [Hlen Hdata (k & Hk & Hsize)] Hfuel Hs Hfit.
  unfold gdk_pixbuf__vtf_image_load_increment.
  assert (HN : u32 (buffer_data_size ctx + size) = buffer_data_size ctx + size).
  { apply u32_small. unfold max_capacity, two32 in *. lia. }
  rewrite HN. set (N := buffer_data_size ctx + size) in *.
  destruct (buffer_size ctx <? N) eqn:E.
  - apply Z.ltb_lt in E. rewrite Hsize.
    destruct (grow_loop_capacity N Hfit (Z.to_nat (12 - k)) k fuel
                ltac:(lia) ltac:(lia) ltac:(lia))
      as (k' & Hk' & -> & HNk' & Hmin).
    destruct (g_realloc_grows junk (buffer ctx) (capacity k'))
      as (fresh & -> & Hlen').
    { rewrite Hlen, Hsize. apply capacity_mono. lia. }
    { apply capacity_pos. lia. }
    destruct (append_data_ok (buffer ctx ++ fresh) data (capacity k') N size)
      as (mem' & -> & Hlm & Htake); [lia | lia | lia | lia |].
    eexists _, k, k'. split; [reflexivity|].
    cbn [buffer buffer_size buffer_data_size].
    split.
    { split; cbn [buffer buffer_size buffer_data_size].
      - rewrite Hlm. exact Hlen'.
      - lia.
      - exists k'. split; [lia | reflexivity]. }
    split; [reflexivity|]. split.
    { rewrite Htake. f_equal. replace (N - size) with (buffer_data_size ctx) by lia.
      rewrite take_app_le by lia. reflexivity. }
    repeat split; lia.
  - apply Z.ltb_ge in E.
    destruct (append_data_ok (buffer ctx) data (buffer_size ctx) N size)
      as (mem' & -> & Hlm & Htake); [lia | lia | lia | lia |].
    eexists _, k, k. split; [reflexivity|].
    cbn [buffer buffer_size buffer_data_size].
    split.
    { split; cbn [buffer buffer_size buffer_data_size].
      - rewrite Hlm. exact Hlen.
      - lia.
      - exists k. split; [lia | exact Hsize]. }
    split; [reflexivity|]. split.
    { rewrite Htake. f_equal. f_equal. lia. }
    repeat split; lia.
Qed.

Lemma capacity_inj (k k' : Z) :
  0 <= k -> 0 <= k' -> capacity k = capacity k' -> k = k'.
Proof.
  intros Hk Hk' H. unfold capacity in H.
  apply (Z.pow_inj_r 2); lia.
Qed.

Lemma total_length_cons (d : list byte) (rest : list (list byte)) :
  Z.of_nat (length (concat (d :: rest)))
  = Z.of_nat (length d) + Z.of_nat (length (concat rest)).
Proof. simpl. rewrite length_app. lia. Qed.

(** A session: each chunk is appended, and the buffer ends at the least
    capacity that holds what was fed. *)
Lemma feed_ok (fuel : nat) (junk : Z -> byte) (chunks : list (list byte)) :
  (13 < fuel)%nat ->
  forall ctx,
    context_ok ctx ->
    buffer_data_size ctx + Z.of_nat (length (concat chunks)) <= max_capacity ->
    exists ctx' k k',
      feed fuel junk ctx chunks = IncReturned true ctx' []
      /\ context_ok ctx'
      /\ buffer_data_size ctx'
         = buffer_data_size ctx + Z.of_nat (length (concat chunks))
      /\ take (Z.to_nat (buffer_data_size ctx')) (buffer ctx')
         = take (Z.to_nat (buffer_data_size ctx)) (buffer ctx) ++ concat chunks
      /\ buffer_size ctx = capacity k /\ buffer_size ctx' = capacity k'
      /\ 0 <= k <= k' /\ k' <= 12
      /\ (k < k' ->
          capacity (k' - 1)
          < buffer_data_size ctx + Z.of_nat (length (concat chunks))).
Proof.
  intros Hfuel. induction chunks as [|d rest IH]; intros ctx Hok Hfit.
  - destruct Hok as [Hlen Hdata (k & Hk & Hsize)].
    exists ctx, k, k. cbn [feed concat length]. rewrite app_nil_r.
    split; [reflexivity|]. split; [split; eauto|].
    repeat split; lia.
  - rewrite total_length_cons in Hfit.
    destruct (load_increment_ok fuel junk ctx d (Z.of_nat (length d)) Hok Hfuel
                ltac:(lia) ltac:(lia))
      as (ctx1 & k & k1 & Hrun & Hok1 & Hd1 & Ht1 & Hs & Hs1 & Hk & Hk1 & Hmin1).
    destruct (IH ctx1 Hok1 ltac:(lia))
      as (ctx2 & k1' & k2 & Hrun2 & Hok2 & Hd2 & Ht2 & Hs1' & Hs2 & Hk1' & Hk2 & Hmin2).
    assert (k1' = k1) as -> by (apply capacity_inj; [lia | lia | congruence]).
    exists ctx2, k, k2. cbn [feed]. rewrite Hrun.
    split; [exact Hrun2|]. split; [exact Hok2|].
    rewrite total_length_cons.
    split; [lia|]. split.
    { rewrite Ht2, Ht1. rewrite Nat2Z.id, firstn_all.
      cbn [concat]. rewrite app_assoc. reflexivity. }
    split; [exact Hs|]. split; [exact Hs2|]. split; [lia|]. split; [lia|].
    intros Hlt. destruct (Z.eq_dec k1 k2) as [->|Hne]; lia.
Qed.

(** X12: a call of [load_increment] on a context of the loader, with
    [size] bytes of data that fit the largest capacity, returns [TRUE] with
    no error: [buffer_data_size] grows by [size], the bytes held before stay
    and the new ones follow them, and [buffer_size] is unchanged when the
    data fit it and otherwise doubled just as often as needed. *)
Theorem load_increment_appends (fuel : nat) (junk : Z -> byte) (ctx : VtfContext)
    (data : list byte) (size : Z) :
  context_ok ctx -> (13 < fuel)%nat ->
  0 <= size <= Z.of_nat (length data) ->
  buffer_data_size ctx + size <= max_capacity ->
  exists ctx',
    gdk_pixbuf__vtf_image_load_increment fuel junk ctx data size
    = IncReturned true ctx' []
    /\ context_ok ctx'
    /\ buffer_data_size ctx' = buffer_data_size ctx + size
    /\ take (Z.to_nat (buffer_data_size ctx')) (buffer ctx')
       = take (Z.to_nat (buffer_data_size ctx)) (buffer ctx)
         ++ take (Z.to_nat size) data
    /\ (buffer_data_size ctx + size <= buffer_size ctx ->
        buffer_size ctx' = buffer_size ctx)
    /\ (buffer_size ctx < buffer_data_size ctx + size ->
        exists n, 0 < n /\ buffer_size ctx' = buffer_size ctx * 2 ^ n
                  /\ buffer_size ctx' / 2 < buffer_data_size ctx + size
                     <= buffer_size ctx').
Proof.
  intros Hok Hfuel Hs Hfit.
  destruct (load_increment_ok fuel junk ctx data size Hok Hfuel Hs Hfit)
    as (ctx' & k & k' & Hrun & Hok' & Hd & Ht & Hb & Hb' & Hk & Hk' & Hmin).
  exists ctx'. split; [exact Hrun|]. split; [exact Hok'|].
  split; [exact Hd|]. split; [exact Ht|].
  destruct Hok' as [_ Hdata' _]. rewrite Hd in Hdata'.
  split.
  - intros Hle. destruct (Z.eq_dec k k') as [->|Hne]; [congruence|].
    specialize (Hmin ltac:(lia)).
    pose proof (capacity_mono k (k' - 1) ltac:(lia)). lia.
  - intros Hlt. assert (Hkk : k < k').
    { destruct (Z.eq_dec k k') as [->|Hne]; [lia | lia]. }
    exists (k' - k). split; [lia|]. split.
    + rewrite Hb, Hb'. unfold capacity.
      rewrite <- Z.mul_assoc, <- Z.pow_add_r by lia. f_equal. f_equal. lia.
    + specialize (Hmin Hkk).
      assert (Hc : capacity k' = capacity (k' - 1) * 2)
        by (rewrite <- capacity_next by lia; f_equal; lia).
      rewrite Hb', Hc in *. rewrite Z.div_mul by lia. lia.
Qed.

Lemma load_increment_appends_witness :
  exists ctx',
    gdk_pixbuf__vtf_image_load_increment 14 (fun _ => x00%byte)
      {| buffer := map (fun _ => x00%byte) (seqZ 0 1000000);
         buffer_size := 1000000; buffer_data_size := 0 |}
      [x56; x54; x46]%byte 3
    = IncReturned true ctx' []
    /\ buffer_data_size ctx' = 3
    /\ take 3 (buffer ctx') = [x56; x54; x46]%byte.
Proof.
  destruct (load_increment_appends 14 (fun _ => x00%byte)
              {| buffer := map (fun _ => x00%byte) (seqZ 0 1000000);
                 buffer_size := 1000000; buffer_data_size := 0 |}
              [x56; x54; x46]%byte 3)
    as (ctx' & Hrun & _ & Hd & Ht & _).
  - apply begin_load_ok.
  - lia.
  - simpl. lia.
  - unfold max_capacity. simpl. lia.
  - exists ctx'. split; [exact Hrun|]. split; [exact Hd|].
    rewrite Hd in Ht. exact Ht.
Defined.

(** X13: a session that starts with [begin_load] and feeds chunks of at
    most 4,096,000,000 bytes in all succeeds at every call and ends with
    exactly the bytes fed, in order, at the start of the buffer, however
    they were cut into chunks; the buffer has [buffer_size] bytes, and
    [buffer_size] is the least of 1,000,000 * 2^k that holds them. *)
Theorem session_accumulates (fuel : nat) (junk : Z -> byte)
    (chunks : list (list byte)) :
  (13 < fuel)%nat ->
  Z.of_nat (length (concat chunks)) <= max_capacity ->
  exists ctx0 ctx k,
    gdk_pixbuf__vtf_image_begin_load junk = (Some ctx0, [])
    /\ feed fuel junk ctx0 chunks = IncReturned true ctx []
    /\ buffer_data_size ctx = Z.of_nat (length (concat chunks))
    /\ take (length (concat chunks)) (buffer ctx) = concat chunks
    /\ Z.of_nat (length (buffer ctx)) = buffer_size ctx
    /\ buffer_size ctx = 1000000 * 2 ^ k /\ 0 <= k <= 12
    /\ Z.of_nat (length (concat chunks)) <= buffer_size ctx
    /\ (0 < k -> 1000000 * 2 ^ (k - 1) < Z.of_nat (length (concat chunks))).
Proof.
  intros Hfuel Hfit.
  destruct (feed_ok fuel junk chunks Hfuel _ (begin_load_ok junk) Hfit)
    as (ctx & k0 & k & Hrun & Hok & Hd & Ht & Hb0 & Hb & Hk0 & Hk & Hmin).
  cbn [buffer buffer_size buffer_data_size] in *.
  assert (k0 = 0) as ->.
  { apply capacity_inj; [lia | lia |]. rewrite <- Hb0. reflexivity. }
  eexists _, ctx, k. split; [apply begin_load_context|].
  split; [exact Hrun|]. split; [lia|].
  destruct Hok as [Hlen Hdata _].
  split.
  { rewrite Hd, Z.add_0_l, Nat2Z.id in Ht.
    change (Z.to_nat 0) with 0%nat in Ht. rewrite take_0 in Ht. exact Ht. }
  split; [exact Hlen|]. split; [exact Hb|]. split; [lia|]. split; [lia|].
  exact Hmin.
Qed.

Lemma session_accumulates_witness :
  exists ctx0 ctx,
    gdk_pixbuf__vtf_image_begin_load (fun _ => xff%byte) = (Some ctx0, [])
    /\ feed 14 (fun _ => xff%byte) ctx0 [[x56; x54]; []; [x46; x00]]%byte
       = IncReturned true ctx []
    /\ buffer_data_size ctx = 4
    /\ take 4 (buffer ctx) = [x56; x54; x46; x00]%byte
    /\ buffer_size ctx = 1000000.
Proof.
  destruct (session_accumulates 14 (fun _ => xff%byte)
              [[x56; x54]; []; [x46; x00]]%byte)
    as (ctx0 & ctx & k & Hb & Hrun & Hd & Ht & _ & Hs & Hk & _ & Hmin).
  - lia.
  - unfold max_capacity. simpl. lia.
  - exists ctx0, ctx. split; [exact Hb|]. split; [exact Hrun|].
    split; [exact Hd|]. split; [exact Ht|].
    destruct (Z.eq_dec k 0) as [->|Hne]; [exact Hs|].
    exfalso. specialize (Hmin ltac:(lia)). simpl in Hmin.
    assert (0 < 2 ^ (k - 1)) by (apply Z.pow_pos_nonneg; lia). lia.
Defined.

(** X14: past 4,096,000,000 bytes the loop that doubles [buffer_size]
    never ends: every size it reaches, on [guint], is at most
    4,096,000,000, and after 26 doublings it is 0 for good. *)
Theorem load_increment_hangs (fuel : nat) (junk : Z -> byte) (ctx : VtfContext)
    (data : list byte) (size : Z) :
  context_ok ctx ->
  max_capacity < u32 (buffer_data_size ctx + size) ->
  gdk_pixbuf__vtf_image_load_increment fuel junk ctx data size = IncNoFuel.
Proof.
  intros [Hlen Hdata (k & Hk & Hsize)] HN.
  unfold gdk_pixbuf__vtf_image_load_increment.
  pose proof (capacity_fits k Hk) as Hcap.
  destruct (buffer_size ctx <? _) eqn:E; [|apply Z.ltb_ge in E; lia].
  rewrite grow_loop_hangs; [reflexivity | exact HN |].
  rewrite Hsize. apply capacity_in_orbit. exact Hk.
Qed.

Lemma load_increment_hangs_witness :
  gdk_pixbuf__vtf_image_load_increment 1000 (fun _ => x00%byte)
    {| buffer := map (fun _ => x00%byte) (seqZ 0 1000000);
       buffer_size := 1000000; buffer_data_size := 1000000 |}
    [] 4095000001
  = IncNoFuel.
Proof.
  apply load_increment_hangs.
  - split; cbn [buffer buffer_size buffer_data_size].
    + rewrite length_map, seqZ_length. lia.
    + lia.
    + exists 0. split; [lia | reflexivity].
  - cbn [buffer_data_size]. vm_compute. reflexivity.
Defined.

(** X15: when [buffer_data_size + size] does not fit [guint], the counter
    wraps to a value below the old one, the buffer is not grown, and the
    copy starts [2^32 - buffer_data_size] bytes before the buffer. *)
Theorem size_counter_wrap_faults (fuel : nat) (junk : Z -> byte)
    (ctx : VtfContext) (data : list byte) (size : Z) :
  context_ok ctx ->
  0 <= size < 2 ^ 32 -> 2 ^ 32 <= buffer_data_size ctx + size ->
  gdk_pixbuf__vtf_image_load_increment fuel junk ctx data size = IncFault
  /\ u32 (buffer_data_size ctx + size) - size = buffer_data_size ctx - 2 ^ 32.
Proof.
  intros [Hlen Hdata (k & Hk & Hsize)] Hs Hwrap.
  change (2 ^ 32) with 4294967296 in *.
  pose proof (capacity_fits k Hk) as Hcap. unfold max_capacity, two32 in Hcap.
  assert (HN : u32 (buffer_data_size ctx + size)
               = buffer_data_size ctx + size - 4294967296).
  { unfold u32, two32. Z.to_euclidean_division_equations. lia. }
  split; [|lia].
  unfold gdk_pixbuf__vtf_image_load_increment. rewrite HN.
  destruct (buffer_size ctx <? _) eqn:E; [apply Z.ltb_lt in E; lia|].
  unfold append_data, memcpy_at. cbn [buffer buffer_size buffer_data_size].
  destruct (0 <=? _) eqn:E0; [apply Z.leb_le in E0; lia|].
  reflexivity.
Qed.

Lemma size_counter_wrap_faults_witness :
  gdk_pixbuf__vtf_image_load_increment 14 (fun _ => x00%byte)
    {| buffer := map (fun _ => x00%byte) (seqZ 0 1000000);
       buffer_size := 1000000; buffer_data_size := 1000000 |}
    [] 4294000000
  = IncFault.
Proof.
  apply (size_counter_wrap_faults 14 (fun _ => x00%byte)
           {| buffer := map (fun _ => x00%byte) (seqZ 0 1000000);
              buffer_size := 1000000; buffer_data_size := 1000000 |}
           [] 4294000000).
  - split; cbn [buffer buffer_size buffer_data_size].
    + rewrite length_map, seqZ_length. lia.
    + lia.
    + exists 0. split; [lia | reflexivity].
  - lia.
  - cbn [buffer_data_size]. lia.
Defined.

(** X16: [load_increment] never returns [FALSE] and never sets the error:
    [g_realloc] gives [NULL] only for a size of 0, and the size the
    doubling loop leaves is at least the data size, which is above the old
    [buffer_size] and so positive. *)
Theorem load_increment_never_fails (fuel : nat) (junk : Z -> byte)
    (ctx ctx' : VtfContext) (data : list byte) (size : Z)
    (rv : bool) (tr : list event) :
  0 <= buffer_size ctx ->
  gdk_pixbuf__vtf_image_load_increment fuel junk ctx data size
  = IncReturned rv ctx' tr ->
  rv = true /\ tr = [].
Proof.
  intros Hb. unfold gdk_pixbuf__vtf_image_load_increment, append_data.
  destruct (buffer_size ctx <? _) eqn:E.
  - apply Z.ltb_lt in E.
    destruct (grow_loop _ _ _) as [s|] eqn:Eg; [|discriminate].
    apply grow_loop_result in Eg.
    unfold g_realloc. destruct (s =? 0) eqn:Es; [apply Z.eqb_eq in Es; lia|].
    destruct (memcpy_at _ _ _ _); [|discriminate].
    intros [= <- _ <-]. auto.
  - destruct (memcpy_at _ _ _ _); [|discriminate].
    intros [= <- _ <-]. auto.
Qed.

Lemma load_increment_never_fails_witness :
  exists rv ctx' tr,
    gdk_pixbuf__vtf_image_load_increment 14 (fun _ => x00%byte)
      {| buffer := [x00; x00]%byte; buffer_size := 2; buffer_data_size := 0 |}
      [x01; x02; x03]%byte 3
    = IncReturned rv ctx' tr
    /\ rv = true /\ tr = [].
Proof.
  eexists _, _, _. split; [vm_compute; reflexivity|].
  eapply (load_increment_never_fails 14 (fun _ => x00%byte)
            {| buffer := [x00; x00]%byte; buffer_size := 2; buffer_data_size := 0 |}
            _ [x01; x02; x03]%byte 3).
  - cbn [buffer_size]. lia.
  - vm_compute. reflexivity.
Defined.

(* ===================================================================== *)
(** ** Files whose data is all there *)
(* ===================================================================== *)

Lemma supported_cases (fmt : Z) :
  supported fmt = true ->
  In fmt supported_formats.
Proof.
  unfold supported. intros H. apply existsb_exists in H.
  destruct H as (k & Hk & E). apply Z.eqb_eq in E. subst. exact Hk.
Qed.

Lemma rounds_4_aligned (n : Z) : 0 <= n -> n mod 4 = 0 -> rounds n 4 = n / 4.
Proof.
  intros Hn H4. rewrite rounds_4 by exact Hn.
  Z.to_euclidean_division_equations. lia.
Qed.

(** A frame of a supported format whose bytes lie inside the buffer and
    below [INT_MAX] is decoded, when the dimensions are positive, a DXT
    image is made of whole blocks, and the indices into the pixel array fit
    [uint32_t]. *)
Lemma load_frame_ok (hd : VtfHeader) (ctx : VtfContext) (p0 : Z) :
  header_in_range hd ->
  supported (highResImageFormat hd) = true ->
  0 < width hd -> 0 < height hd ->
  (highResImageFormat hd = IMAGE_FORMAT_DXT1
   \/ highResImageFormat hd = IMAGE_FORMAT_DXT5 ->
   width hd mod 4 = 0 /\ height hd mod 4 = 0) ->
  4 * width hd * height hd <= two32 ->
  0 <= p0 ->
  p0 + frame_bytes (highResImageFormat hd) (width hd) (height hd)
  <= read_limit (buffer ctx) ->
  exists pb,
    gdk_pixbuf__vtf_load_frame hd ctx p0 = Some (Some pb, [])
    /\ pb_width pb = width hd /\ pb_height pb = height hd.
Proof.
  intros Hr Hsup Hw Hh Hal H32 Hp0 Hlen.
  apply supported_cases in Hsup. unfold supported_formats in Hsup.
  assert (Hpix : forall alpha k E body,
            fills_pixel (n_channels alpha) k p0 (row_bytes alpha (width hd))
              (width hd) (height hd) E
              (body (buffer ctx) (row_bytes alpha (width hd))) ->
            exists pb, decode_with hd ctx alpha 1 body p0 = Some (Some pb)
                       /\ pb_width pb = width hd /\ pb_height pb = height hd).
  { intros alpha k E body Hfill.
    destruct (decode_with_pixels hd ctx alpha k p0 E body Hr Hw Hh H32 Hfill)
      as (pb & Hrun & _ & Hpw & Hph & _). eauto. }
  unfold gdk_pixbuf__vtf_load_frame.
  repeat (destruct Hsup as [Hfmt|Hsup];
          [symmetry in Hfmt; rewrite Hfmt in *; unfold frame_bytes in Hlen;
           simpl in Hlen; simpl|]); [..|destruct Hsup].
  - destruct (Hpix true 4 _ px_RGBA8888
                (px_RGBA8888_fills _ _ _ _ _ Hp0 Hlen)) as (pb & -> & Hd).
    exists pb. simpl. auto.
  - destruct (Hpix true 4 _ px_ABGR8888
                (px_ABGR8888_fills _ _ _ _ _ Hp0 Hlen)) as (pb & -> & Hd).
    exists pb. simpl. auto.
  - destruct (Hpix false 3 _ px_RGB888
                (px_RGB888_fills _ _ _ _ _ Hp0 Hlen)) as (pb & -> & Hd).
    exists pb. simpl. auto.
  - destruct (Hpix false 3 _ px_BGR888
                (px_BGR888_fills _ _ _ _ _ Hp0 Hlen)) as (pb & -> & Hd).
    exists pb. simpl. auto.
  - destruct (Hpix false 2 _ px_RGB565
                (px_RGB565_fills _ _ _ _ _ Hp0 Hlen)) as (pb & -> & Hd).
    exists pb. simpl. auto.
  - destruct (Hpix false 1 _ px_I8
                (px_I8_fills _ _ _ _ _ Hp0 Hlen)) as (pb & -> & Hd).
    exists pb. simpl. auto.
  - destruct (Hpix true 2 _ px_IA88
                (px_IA88_fills _ _ _ _ _ Hp0 Hlen)) as (pb & -> & Hd).
    exists pb. simpl. auto.
  - destruct (Hpix true 1 _ px_A8
                (px_A8_fills _ _ _ _ _ Hp0 Hlen)) as (pb & -> & Hd).
    exists pb. simpl. auto.
  - destruct (Hal ltac:(left; reflexivity)) as [Hw4 Hh4].
    rewrite !rounds_4_aligned in Hlen by lia.
    assert (HW : width hd = 4 * (width hd / 4))
      by (Z.to_euclidean_division_equations; lia).
    assert (HH : height hd = 4 * (height hd / 4))
      by (Z.to_euclidean_division_equations; lia).
    destruct (decode_with_rgba hd ctx 4 8 p0 (width hd / 4) (height hd / 4)
                (fun x y c => channel (dxt1_pixel (buffer ctx) p0 (width hd) x y) c)
                dxt1_block Hr Hw Hh H32 ltac:(lia) HW HH)
      as (pb & -> & _ & Hpw & Hph & _).
    + intros a b D st Ha Hb. rewrite HW, HH.
      replace (4 * (width hd / 4) / 4) with (width hd / 4)
        by (Z.to_euclidean_division_equations; lia).
      replace (4 * (height hd / 4) / 4) with (height hd / 4)
        by (Z.to_euclidean_division_equations; lia).
      apply (dxt1_block_holds (buffer ctx) _ (width hd / 4) (height hd / 4) p0);
        assumption.
    + exists pb. simpl. auto.
  - destruct (Hal ltac:(right; reflexivity)) as [Hw4 Hh4].
    rewrite !rounds_4_aligned in Hlen by lia.
    assert (HW : width hd = 4 * (width hd / 4))
      by (Z.to_euclidean_division_equations; lia).
    assert (HH : height hd = 4 * (height hd / 4))
      by (Z.to_euclidean_division_equations; lia).
    destruct (decode_with_rgba hd ctx 4 16 p0 (width hd / 4) (height hd / 4)
                (fun x y c => channel (dxt5_pixel (buffer ctx) p0 (width hd) x y) c)
                dxt5_block Hr Hw Hh H32 ltac:(lia) HW HH)
      as (pb & -> & _ & Hpw & Hph & _).
    + intros a b D st Ha Hb. rewrite HW, HH.
      replace (4 * (width hd / 4) / 4) with (width hd / 4)
        by (Z.to_euclidean_division_equations; lia).
      replace (4 * (height hd / 4) / 4) with (height hd / 4)
        by (Z.to_euclidean_division_equations; lia).
      apply (dxt5_block_holds (buffer ctx) _ (width hd / 4) (height hd / 4) p0);
        assumption.
    + exists pb. simpl. auto.
  - destruct (Hpix true 4 _ px_ARGB8888
                (px_ARGB8888_fills _ _ _ _ _ Hp0 Hlen)) as (pb & -> & Hd).
    exists pb. simpl. auto.
  - destruct (Hpix true 4 _ px_BGRA8888
                (px_BGRA8888_fills _ _ _ _ _ Hp0 Hlen)) as (pb & -> & Hd).
    exists pb. simpl. auto.
Qed.

Lemma effective_header_in_range (h : VtfHeader) :
  header_in_range h -> header_in_range (effective_header h).
Proof.
  intros Hr. unfold effective_header. destruct (_ <? _); [|exact Hr].
  destruct Hr. split; simpl; try assumption. unfold two16. lia.
Qed.

Lemma effective_header_mipmaps (h : VtfHeader) :
  mipmapCount (effective_header h) = mipmapCount h.
Proof. unfold effective_header. destruct (_ <? _); reflexivity. Qed.

(** The size of mip level 0, before the reduction modulo 2^32: the bytes of
    one frame times the depth. *)
Lemma mip_size_spec_level0 (hd : VtfHeader) (d : Z) :
  0 < width hd -> 0 < height hd ->
  mip_size_spec hd 0 d
  = frame_bytes (highResImageFormat hd) (width hd) (height hd) * Z.max 1 d.
Proof.
  intros Hw Hh. unfold mip_size_spec, mip_dim.
  rewrite !Z.shiftr_0_r. rewrite !(Z.max_r 1 (width hd)), !(Z.max_r 1 (height hd)) by lia.
  f_equal. unfold slice_cost, frame_bytes.
  rewrite !rounds_4 by lia. rewrite <- !ceil_div_4 by lia.
  repeat match goal with
         | |- context [if ?c then _ else _] => destruct c; [ring|]
         end.
  ring.
Qed.

Lemma frame_bytes_nonneg (fmt w h : Z) : 0 <= w -> 0 <= h -> 0 <= frame_bytes fmt w h.
Proof.
  intros Hw Hh. unfold frame_bytes.
  assert (0 <= rounds h 4 * rounds w 4) by (unfold rounds; nia).
  repeat match goal with
         | |- context [if ?c then _ else _] => destruct c; [nia|]
         end.
  lia.
Qed.

(** Where the frames of the largest mip level are read from: they are the
    last [frames] images of the data. *)
Lemma frame_pos_exact (h : VtfHeader) (ds i : Z) :
  header_in_range h -> 1 <= mipmapCount h ->
  region_length h < two32 -> region_length h <= ds < two31 ->
  0 <= i < frames h ->
  frame_pos h (u32 (ds - vtf_offset h 0 0 0 (-1))) i
  = ds - (frames h - i) * vtf_mip_size h 0 (depth h)
  /\ frames h * vtf_mip_size h 0 (depth h) <= region_length h.
Proof.
  intros Hr Hm Hfit Hds Hi.
  pose proof (vtf_mip_size_range h 0 (depth h)) as HS.
  pose proof (mip_sum_nonneg h 0) as HM.
  assert (ER : region_length h
               = (vtf_mip_size h 0 (depth h) + mip_sum h 0) * frames h).
  { rewrite (region_length_mip_sum h Hr), (mip_sum_split h (-1) 0) by lia.
    change (seqZ (-1 + 1) (0 - -1)) with [0]. simpl. unfold Zsum. simpl.
    change (u32 0) with 0. f_equal. lia. }
  set (S := vtf_mip_size h 0 (depth h)) in *.
  set (M := mip_sum h 0) in *.
  assert (E1 : vtf_offset h 0 0 0 (-1) = region_length h).
  { rewrite vtf_offset_exact by (assumption || lia).
    symmetry. apply region_length_mip_sum. exact Hr. }
  assert (E0 : vtf_offset h i 0 0 0 = u32 (M * frames h + S * i)).
  { rewrite vtf_offset_mod. unfold offset_spec. cbv zeta.
    change (u32 0) with 0. fold S. fold M. apply (f_equal u32). ring. }
  assert (HSF : S * frames h <= region_length h) by nia.
  split; [|lia].
  unfold frame_pos. rewrite E1, E0, u32_add_l.
  rewrite Z.add_comm, u32_add_l.
  replace (M * frames h + S * i + (ds - region_length h))
    with (ds - (frames h - i) * S) by (rewrite ER; ring).
  assert (Hin : 0 <= ds - (frames h - i) * S < two31).
  { assert ((frames h - i) * S <= S * frames h) by nia.
    assert (0 <= (frames h - i) * S) by nia.
    unfold two31 in *. lia. }
  unfold to_int.
  rewrite !(u32_small (ds - (frames h - i) * S)) by (unfold two31, two32 in *; lia).
  destruct (_ <? two31) eqn:E; [reflexivity | apply Z.ltb_ge in E; lia].
Qed.

(** The trace of a frame loop in which every decode came back with a
    pixbuf. *)
Lemma frames_trace (h : VtfHeader) (base : Z) (pbs : Z -> GdkPixbuf) (n : nat) :
  forall i, 0 <= i ->
    let tr := flat_map (frame_events h base pbs) (seqZ i (Z.of_nat n)) in
    error_of tr = None /\ unref_in tr = false
    /\ loads_of tr = map (frame_pos h base) (seqZ i (Z.of_nat n))
    /\ added_of tr = map pbs (seqZ i (Z.of_nat n))
    /\ prepared_of tr = (if (i =? 0) && (0 <? Z.of_nat n) then [pbs 0] else []).
Proof.
  induction n as [|n IH]; intros i Hi.
  - simpl. rewrite andb_false_r. auto.
  - cbv zeta. rewrite (seqZ_cons i) by lia.
    replace (Z.pred (Z.of_nat (S n))) with (Z.of_nat n) by lia.
    replace (Z.succ i) with (i + 1) by lia.
    destruct (IH (i + 1) ltac:(lia)) as (E1 & E2 & E3 & E4 & E5).
    assert (Efe : error_of (frame_events h base pbs i) = None)
      by (unfold frame_events; destruct (i =? 0); reflexivity).
    cbn [flat_map map].
    rewrite (error_of_app_none _ _ Efe), E1.
    rewrite loads_of_app, added_of_app, prepared_of_app, unref_in_app.
    rewrite E2, E3, E4, E5.
    replace (i + 1 =? 0) with false by (symmetry; apply Z.eqb_neq; lia).
    replace (0 <? Z.of_nat (S n)) with true by (symmetry; apply Z.ltb_lt; lia).
    rewrite andb_true_r. unfold frame_events.
    destruct (i =? 0) eqn:E0.
    + apply Z.eqb_eq in E0. subst i. simpl. auto.
    + simpl. auto.
Qed.

(** What [stop_load] leaves behind when the header is valid and every
    frame decodes. *)
Lemma stop_load_success (ctx : VtfContext) (h : VtfHeader) (pbs : Z -> GdkPixbuf) :
  read_header (buffer ctx) = Some h ->
  take 4 (buffer ctx) = vtf_signature -> frames h <> 0 ->
  (forall i, 0 <= i < frames h ->
     gdk_pixbuf__vtf_load_frame (effective_header h) ctx
       (frame_pos (effective_header h) (load_base ctx h) i)
     = Some (Some (pbs i), [])) ->
  exists tr,
    gdk_pixbuf__vtf_image_stop_load ctx = Returned true tr
    /\ error_of tr = None
    /\ loads_of tr
       = map (frame_pos (effective_header h) (load_base ctx h)) (seqZ 0 (frames h))
    /\ delivered tr = map pbs (seqZ 0 (frames h))
    /\ prepared_of tr = [pbs 0].
Proof.
  intros Hh Hs Hf Hd.
  pose proof (read_header_in_range _ h Hh) as Hr.
  destruct (effective_header_fields h) as (Ew & Eh & Ef & Efmt).
  assert (Hpos : 0 < frames h) by (destruct Hr; lia).
  rewrite (stop_load_unfold ctx h Hh), (good_header _ h Hh Hs Hf).
  rewrite (frames_loop_success _ ctx _ pbs);
    [| rewrite Ef; exact Hd | lia | rewrite Ef; lia].
  rewrite Ef, Z.sub_0_r.
  destruct (frames_trace (effective_header h) (load_base ctx h) pbs
              (Z.to_nat (frames h)) 0 ltac:(lia)) as (E1 & E2 & E3 & E4 & E5).
  rewrite Z2Nat.id in * by lia.
  eexists. split; [reflexivity|].
  split; [simpl; exact E1|]. split; [simpl; exact E3|].
  split.
  - unfold delivered. rewrite unref_in_app, E2. simpl. exact E4.
  - simpl. rewrite E5.
    replace (0 <? frames h) with true by (symmetry; apply Z.ltb_lt; lia).
    reflexivity.
Qed.

(** A file with a valid header of a supported format, at least one mip
    level and all of its image data present is loaded, frame by frame, from
    the end of the data. *)
Lemma stop_load_complete (ctx : VtfContext) (h : VtfHeader) :
  read_header (buffer ctx) = Some h ->
  take 4 (buffer ctx) = vtf_signature -> frames h <> 0 ->
  supported (highResImageFormat h) = true ->
  0 < width h -> 0 < height h ->
  (highResImageFormat h = IMAGE_FORMAT_DXT1
   \/ highResImageFormat h = IMAGE_FORMAT_DXT5 ->
   width h mod 4 = 0 /\ height h mod 4 = 0) ->
  4 * width h * height h <= 2 ^ 32 ->
  1 <= mipmapCount h ->
  mip_size_spec (effective_header h) 0 (depth (effective_header h)) < 2 ^ 32 ->
  region_length (effective_header h) < 2 ^ 32 ->
  region_length (effective_header h) <= buffer_data_size ctx ->
  buffer_data_size ctx <= Z.of_nat (length (buffer ctx)) ->
  buffer_data_size ctx < 2 ^ 31 ->
  let frame_size :=
    vtf_mip_size (effective_header h) 0 (depth (effective_header h)) in
  let frame_start i := buffer_data_size ctx - (frames h - i) * frame_size in
  exists tr pbs,
    gdk_pixbuf__vtf_image_stop_load ctx = Returned true tr
    /\ error_of tr = None
    /\ loads_of tr = map frame_start (seqZ 0 (frames h))
    /\ delivered tr = map pbs (seqZ 0 (frames h))
    /\ Z.of_nat (length (delivered tr)) = frames h
    /\ prepared_of tr = [pbs 0]
    /\ forall i, 0 <= i < frames h ->
         0 <= frame_start i
         /\ frame_start i
            + frame_bytes (highResImageFormat h) (width h) (height h)
            <= buffer_data_size ctx
         /\ gdk_pixbuf__vtf_load_frame (effective_header h) ctx (frame_start i)
            = Some (Some (pbs i), [])
         /\ pb_width (pbs i) = width h /\ pb_height (pbs i) = height h.
Proof.
  intros Hh Hs Hf Hsup Hw Hht Hal H32 Hm Hsz Hfit Hreg Hlen Hds.
  change (2 ^ 32) with two32 in *. change (2 ^ 31) with two31 in *.
  pose proof (read_header_in_range _ h Hh) as Hr.
  pose proof (effective_header_in_range h Hr) as Hr'.
  destruct (effective_header_fields h) as (Ew & Eh & Ef & Efmt).
  pose proof (effective_header_mipmaps h) as Em.
  set (h' := effective_header h) in *.
  intros frame_size frame_start.
  assert (Hdr : 0 <= depth h' < two32)
    by (destruct Hr'; unfold two16, two32 in *; lia).
  assert (ES : frame_size
               = frame_bytes (highResImageFormat h) (width h) (height h)
                 * Z.max 1 (depth h')).
  { unfold frame_size. rewrite vtf_mip_size_mod by (assumption || lia).
    assert (E0 : mip_size_spec h' 0 (depth h')
                 = frame_bytes (highResImageFormat h) (width h) (height h)
                   * Z.max 1 (depth h')).
    { rewrite mip_size_spec_level0 by lia. rewrite Efmt, Ew, Eh. reflexivity. }
    rewrite E0 in *.
    pose proof (frame_bytes_nonneg (highResImageFormat h) (width h) (height h)
                  ltac:(lia) ltac:(lia)).
    apply u32_small. nia. }
  pose proof (frame_bytes_nonneg (highResImageFormat h) (width h) (height h)
                ltac:(lia) ltac:(lia)) as Hfb.
  assert (Hpos : forall i, 0 <= i < frames h ->
            frame_pos h' (load_base ctx h) i = frame_start i
            /\ 0 <= frame_start i
            /\ frame_start i
               + frame_bytes (highResImageFormat h) (width h) (height h)
               <= buffer_data_size ctx).
  { intros i Hi. unfold load_base. fold h'.
    destruct (frame_pos_exact h' (buffer_data_size ctx) i Hr' ltac:(lia) Hfit
                ltac:(lia) ltac:(lia)) as [Ep Hall].
    fold frame_size in Ep, Hall. rewrite Ef in Ep, Hall.
    split; [exact Ep|]. unfold frame_start.
    assert (0 <= frame_size) by (rewrite ES; nia).
    assert ((frames h - i) * frame_size <= frames h * frame_size) by nia.
    assert (frame_size <= (frames h - i) * frame_size) by nia.
    assert (frame_bytes (highResImageFormat h) (width h) (height h) <= frame_size)
      by (rewrite ES; nia).
    lia. }
  assert (Hdec : forall i, 0 <= i < frames h ->
            exists pb,
              gdk_pixbuf__vtf_load_frame h' ctx (frame_start i) = Some (Some pb, [])
              /\ pb_width pb = width h /\ pb_height pb = height h).
  { intros i Hi. destruct (Hpos i Hi) as (_ & Hlo & Hhi).
    rewrite <- Ew, <- Eh.
    apply load_frame_ok; rewrite ?Efmt, ?Ew, ?Eh; try assumption; try lia.
    apply read_limit_fits; lia. }
  pose (dummy := {| has_alpha := false; pb_width := 0; pb_height := 0;
                    rowstride := 0; pb_pixels := [] |}).
  pose (pbs := fun i =>
          match gdk_pixbuf__vtf_load_frame h' ctx (frame_start i) with
          | Some (Some pb, _) => pb
          | _ => dummy
          end).
  assert (Hpbs : forall i, 0 <= i < frames h ->
            gdk_pixbuf__vtf_load_frame h' ctx (frame_start i) = Some (Some (pbs i), [])
            /\ pb_width (pbs i) = width h /\ pb_height (pbs i) = height h).
  { intros i Hi. destruct (Hdec i Hi) as (pb & Hrun & Hd).
    unfold pbs. rewrite Hrun. auto. }
  destruct (stop_load_success ctx h pbs Hh Hs Hf)
    as (tr & Hrun & Herr & Hloads & Hdel & Hprep).
  { intros i Hi. fold h'. destruct (Hpos i Hi) as [-> _]. apply Hpbs. exact Hi. }
  exists tr, pbs. split; [exact Hrun|]. split; [exact Herr|].
  split.
  { rewrite Hloads. fold h'. apply map_ext_in. intros i Hi.
    apply list_elem_of_In, elem_of_seqZ in Hi. apply Hpos. lia. }
  split; [exact Hdel|].
  split.
  { rewrite Hdel, length_map, length_seqZ. destruct Hr. lia. }
  split; [exact Hprep|].
  intros i Hi. destruct (Hpos i Hi) as (_ & Hlo & Hhi).
  destruct (Hpbs i Hi) as (Hl & Hd). auto.
Qed.


(** X17: a file with a valid header of a supported format and positive
    dimensions (whole blocks for DXT), at least one mip level and all of its
    image data present is loaded: [stop_load] returns [TRUE] with no error,
    reads frame [i] of the largest mip level from the last [frames - i]
    images of the data, hands frame 0 to [prepared_func] and ends with
    [frames] frames of the size of the header. *)
Theorem complete_file_loads (ctx : VtfContext) (h : VtfHeader) :
  read_header (buffer ctx) = Some h ->
  take 4 (buffer ctx) = vtf_signature -> frames h <> 0 ->
  supported (highResImageFormat h) = true ->
  0 < width h -> 0 < height h ->
  (highResImageFormat h = IMAGE_FORMAT_DXT1
   \/ highResImageFormat h = IMAGE_FORMAT_DXT5 ->
   width h mod 4 = 0 /\ height h mod 4 = 0) ->
  4 * width h * height h <= 2 ^ 32 ->
  1 <= mipmapCount h ->
  mip_size_spec (effective_header h) 0 (depth (effective_header h)) < 2 ^ 32 ->
  region_length (effective_header h) < 2 ^ 32 ->
  region_length (effective_header h) <= buffer_data_size ctx ->
  buffer_data_size ctx <= Z.of_nat (length (buffer ctx)) ->
  buffer_data_size ctx < 2 ^ 31 ->
  let frame_size :=
    vtf_mip_size (effective_header h) 0 (depth (effective_header h)) in
  let frame_start i := buffer_data_size ctx - (frames h - i) * frame_size in
  exists tr pbs,
    gdk_pixbuf__vtf_image_stop_load ctx = Returned true tr
    /\ error_of tr = None
    /\ loads_of tr = map frame_start (seqZ 0 (frames h))
    /\ delivered tr = map pbs (seqZ 0 (frames h))
    /\ Z.of_nat (length (delivered tr)) = frames h
    /\ prepared_of tr = [pbs 0]
    /\ forall i, 0 <= i < frames h ->
         0 <= frame_start i
         /\ frame_start i
            + frame_bytes (highResImageFormat h) (width h) (height h)
            <= buffer_data_size ctx
         /\ gdk_pixbuf__vtf_load_frame (effective_header h) ctx (frame_start i)
            = Some (Some (pbs i), [])
         /\ pb_width (pbs i) = width h /\ pb_height (pbs i) = height h.
Proof.
  intros Hh Hs Hf Hsup Hw Hht Hal H32 Hm Hsz Hfit Hreg Hlen Hds.
  exact (stop_load_complete ctx h Hh Hs Hf Hsup Hw Hht Hal H32 Hm Hsz Hfit Hreg
           Hlen Hds).
Qed.

Lemma complete_file_loads_witness :
  exists tr,
    gdk_pixbuf__vtf_image_stop_load ctx_two_frames = Returned true tr
    /\ error_of tr = None
    /\ loads_of tr = [80; 88]
    /\ Z.of_nat (length (delivered tr)) = 2.
Proof.
  destruct (complete_file_loads ctx_two_frames
              (mk_header 2 1 2 IMAGE_FORMAT_ARGB8888 1 1))
    as (tr & pbs & Hrun & Herr & Hloads & _ & Hn & _).
  - vm_compute. reflexivity.
  - vm_compute. reflexivity.
  - vm_compute. discriminate.
  - reflexivity.
  - reflexivity.
  - reflexivity.
  - intros [H|H]; vm_compute in H; discriminate.
  - vm_compute. discriminate.
  - vm_compute. discriminate.
  - vm_compute. reflexivity.
  - vm_compute. reflexivity.
  - vm_compute. discriminate.
  - vm_compute. discriminate.
  - vm_compute. reflexivity.
  - exists tr. split; [exact Hrun|]. split; [exact Herr|].
    split; [rewrite Hloads; vm_compute; reflexivity | exact Hn].
Defined.

(* ===================================================================== *)
(** ** A frame decode looks at the bytes of its frame only *)
(* ===================================================================== *)

Lemma bind_ext {A B : Type} (r1 r2 : option A) (k1 k2 : A -> option B) :
  r1 = r2 -> (forall a, r2 = Some a -> k1 a = k2 a) ->
  (r1 ≫= k1) = (r2 ≫= k2).
Proof.
  intros -> Hk. destruct r2 as [a|]; simpl; [apply Hk; reflexivity | reflexivity].
Qed.

Lemma agree_sub (buf1 buf2 : list byte) (lo hi lo' hi' : Z) :
  agree buf1 buf2 lo hi -> lo <= lo' -> hi' <= hi -> agree buf1 buf2 lo' hi'.
Proof. intros H Hlo Hhi q Hq. apply H. lia. Qed.

Section Ext.
Variables buf1 buf2 : list byte.

Lemma read_byte_ext (st : dstate) :
  agree buf1 buf2 (pos st) (pos st + 1) ->
  read_byte buf1 st = read_byte buf2 st.
Proof.
  intros H. unfold read_byte. destruct (pos st <? 0); [reflexivity|].
  rewrite (H (pos st)) by lia. reflexivity.
Qed.

Lemma copy_byte_ext (idx : Z) (st : dstate) :
  agree buf1 buf2 (pos st) (pos st + 1) ->
  copy_byte buf1 idx st = copy_byte buf2 idx st.
Proof. intros H. unfold copy_byte. rewrite (read_byte_ext st H). reflexivity. Qed.

Lemma read_u16_ext (st : dstate) :
  agree buf1 buf2 (pos st) (pos st + 2) ->
  read_u16 buf1 st = read_u16 buf2 st.
Proof.
  intros H. unfold read_u16.
  apply bind_ext; [apply read_byte_ext; eapply agree_sub; eauto; lia|].
  intros [b0 s1] E. apply read_byte_has_read in E. destruct E as (_ & E & _).
  apply bind_ext; [apply read_byte_ext; eapply agree_sub; eauto; lia|].
  reflexivity.
Qed.

Lemma read_u32_ext (st : dstate) :
  agree buf1 buf2 (pos st) (pos st + 4) ->
  read_u32 buf1 st = read_u32 buf2 st.
Proof.
  intros H. unfold read_u32.
  apply bind_ext; [apply read_byte_ext; eapply agree_sub; eauto; lia|].
  intros [b0 s1] E1. apply read_byte_has_read in E1. destruct E1 as (_ & E1 & _).
  apply bind_ext; [apply read_byte_ext; eapply agree_sub; eauto; lia|].
  intros [b1 s2] E2. apply read_byte_has_read in E2. destruct E2 as (_ & E2 & _).
  apply bind_ext; [apply read_byte_ext; eapply agree_sub; eauto; lia|].
  intros [b2 s3] E3. apply read_byte_has_read in E3. destruct E3 as (_ & E3 & _).
  apply bind_ext; [apply read_byte_ext; eapply agree_sub; eauto; lia|].
  reflexivity.
Qed.

Lemma read_u48_ext (st : dstate) :
  agree buf1 buf2 (pos st) (pos st + 6) ->
  read_u48 buf1 st = read_u48 buf2 st.
Proof.
  intros H. unfold read_u48.
  apply bind_ext; [apply read_byte_ext; eapply agree_sub; eauto; lia|].
  intros [b0 s1] E1. apply read_byte_has_read in E1. destruct E1 as (_ & E1 & _).
  apply bind_ext; [apply read_byte_ext; eapply agree_sub; eauto; lia|].
  intros [b1 s2] E2. apply read_byte_has_read in E2. destruct E2 as (_ & E2 & _).
  apply bind_ext; [apply read_byte_ext; eapply agree_sub; eauto; lia|].
  intros [b2 s3] E3. apply read_byte_has_read in E3. destruct E3 as (_ & E3 & _).
  apply bind_ext; [apply read_byte_ext; eapply agree_sub; eauto; lia|].
  intros [b3 s4] E4. apply read_byte_has_read in E4. destruct E4 as (_ & E4 & _).
  apply bind_ext; [apply read_byte_ext; eapply agree_sub; eauto; lia|].
  intros [b4 s5] E5. apply read_byte_has_read in E5. destruct E5 as (_ & E5 & _).
  apply bind_ext; [apply read_byte_ext; eapply agree_sub; eauto; lia|].
  reflexivity.
Qed.

(** One step of a body on the two buffers: the same result, and the
    position it leaves. *)
Ltac same_step H :=
  first
    [ apply bind_ext;
      [ first [ apply copy_byte_ext | apply read_byte_ext | apply read_u16_ext
              | apply read_u32_ext | apply read_u48_ext ];
        eapply agree_sub; [exact H | lia | lia]
      | let a := fresh "a" in let E := fresh "E" in
        intros a E;
        first [ apply (copy_byte_has_read buf2) in E
              | destruct a; apply read_byte_has_read in E
              | destruct a; apply read_u16_has_read in E
              | destruct a; apply read_u32_has_read in E
              | destruct a; apply read_u48_has_read in E ];
        destruct E as (? & ? & ? & ?) ]
    | apply bind_ext;
      [ reflexivity
      | let a := fresh "a" in let E := fresh "E" in
        intros a E; apply poke_inv in E; destruct E as (? & ? & ?) ] ].

Ltac same_last H :=
  first [ apply copy_byte_ext; eapply agree_sub; [exact H | lia | lia]
        | reflexivity ].

Variable stride : Z.

Lemma px_RGBA8888_ext (i j : Z) (st : dstate) :
  agree buf1 buf2 (pos st) (pos st + 4) ->
  px_RGBA8888 buf1 stride i j st = px_RGBA8888 buf2 stride i j st.
Proof. intros H. unfold px_RGBA8888. do 3 same_step H. same_last H. Qed.

Lemma px_ABGR8888_ext (i j : Z) (st : dstate) :
  agree buf1 buf2 (pos st) (pos st + 4) ->
  px_ABGR8888 buf1 stride i j st = px_ABGR8888 buf2 stride i j st.
Proof. intros H. unfold px_ABGR8888. do 3 same_step H. same_last H. Qed.

Lemma px_ARGB8888_ext (i j : Z) (st : dstate) :
  agree buf1 buf2 (pos st) (pos st + 4) ->
  px_ARGB8888 buf1 stride i j st = px_ARGB8888 buf2 stride i j st.
Proof. intros H. unfold px_ARGB8888. do 3 same_step H. same_last H. Qed.

Lemma px_BGRA8888_ext (i j : Z) (st : dstate) :
  agree buf1 buf2 (pos st) (pos st + 4) ->
  px_BGRA8888 buf1 stride i j st = px_BGRA8888 buf2 stride i j st.
Proof. intros H. unfold px_BGRA8888. do 3 same_step H. same_last H. Qed.

Lemma px_RGB888_ext (i j : Z) (st : dstate) :
  agree buf1 buf2 (pos st) (pos st + 3) ->
  px_RGB888 buf1 stride i j st = px_RGB888 buf2 stride i j st.
Proof. intros H. unfold px_RGB888. do 2 same_step H. same_last H. Qed.

Lemma px_BGR888_ext (i j : Z) (st : dstate) :
  agree buf1 buf2 (pos st) (pos st + 3) ->
  px_BGR888 buf1 stride i j st = px_BGR888 buf2 stride i j st.
Proof. intros H. unfold px_BGR888. do 2 same_step H. same_last H. Qed.

Lemma px_RGB565_ext (i j : Z) (st : dstate) :
  agree buf1 buf2 (pos st) (pos st + 2) ->
  px_RGB565 buf1 stride i j st = px_RGB565 buf2 stride i j st.
Proof. intros H. unfold px_RGB565. same_step H. reflexivity. Qed.

Lemma px_I8_ext (i j : Z) (st : dstate) :
  agree buf1 buf2 (pos st) (pos st + 1) ->
  px_I8 buf1 stride i j st = px_I8 buf2 stride i j st.
Proof. intros H. unfold px_I8. same_step H. reflexivity. Qed.

Lemma px_IA88_ext (i j : Z) (st : dstate) :
  agree buf1 buf2 (pos st) (pos st + 2) ->
  px_IA88 buf1 stride i j st = px_IA88 buf2 stride i j st.
Proof.
  intros H. unfold px_IA88. same_step H. cbv beta iota.
  do 3 same_step H. same_last H.
Qed.

Lemma px_A8_ext (i j : Z) (st : dstate) :
  agree buf1 buf2 (pos st) (pos st + 1) ->
  px_A8 buf1 stride i j st = px_A8 buf2 stride i j st.
Proof. intros H. unfold px_A8. do 3 same_step H. same_last H. Qed.

Lemma dxt1_block_ext (i j : Z) (st : dstate) :
  agree buf1 buf2 (pos st) (pos st + 8) ->
  dxt1_block buf1 stride i j st = dxt1_block buf2 stride i j st.
Proof.
  intros H. unfold dxt1_block.
  same_step H. cbv beta iota. same_step H. cbv beta iota. same_step H.
  reflexivity.
Qed.

Lemma dxt5_block_ext (i j : Z) (st : dstate) :
  agree buf1 buf2 (pos st) (pos st + 16) ->
  dxt5_block buf1 stride i j st = dxt5_block buf2 stride i j st.
Proof.
  intros H. unfold dxt5_block.
  same_step H. cbv beta iota. same_step H. cbv beta iota. same_step H.
  cbv beta iota.
  apply bind_ext; [reflexivity|]. intros [asel' s4] Eloop.
  apply (texel_loops_have_read buf2) in Eloop;
    [ | intros ii jj t t'; apply dxt5_alpha_texel_has_read | simpl; lia ].
  destruct Eloop as (? & ? & ? & ?). simpl in *.
  same_step H. cbv beta iota. same_step H. cbv beta iota. same_step H.
  reflexivity.
Qed.
End Ext.

(** Two loops whose bodies give the same result from every state the
    loop reaches give the same result. *)
Lemma for_lt_ext {S : Type} (Inv : Z -> S -> Prop) (bound step : Z)
    (body1 body2 : Z -> S -> option S) :
  (forall i s, i < bound -> Inv i s ->
     body1 i s = body2 i s
     /\ forall s', body2 i s = Some s' -> Inv (i + step) s') ->
  forall (fuel : nat) i s,
    Inv i s ->
    for_lt fuel i bound step body1 s = for_lt fuel i bound step body2 s.
Proof.
  intros Hbody. induction fuel as [|fuel IH]; intros i s Hinv; [reflexivity|].
  simpl. destruct (i <? bound) eqn:E; [|reflexivity].
  apply Z.ltb_lt in E. destruct (Hbody i s E Hinv) as [Heq Hnext].
  apply bind_ext; [exact Heq|]. intros s' Hs'. apply IH. apply Hnext. exact Hs'.
Qed.

Lemma rounds_above (n step a : Z) :
  0 < step -> 0 <= a -> step * a < n -> a + 1 <= rounds n step.
Proof.
  intros Hs Ha Hlt. unfold rounds.
  assert (a + 1 <= (n + step - 1) / step); [|lia].
  apply Z.div_le_lower_bound; [lia | nia].
Qed.

Lemma rounds_nonneg (n step : Z) : 0 <= rounds n step.
Proof. unfold rounds. lia. Qed.

(** A frame decode gives the same result on two buffers that agree on
    the bytes of the frame. *)
Lemma decode_with_ext (hd : VtfHeader) (ctx1 ctx2 : VtfContext) (alpha : bool)
    (step k p0 : Z) (body : list byte -> Z -> Z -> Z -> dstate -> option dstate) :
  0 < step -> 0 <= k ->
  (forall stride i j st st',
     body (buffer ctx2) stride i j st = Some st' ->
     has_read (buffer ctx2) k st st') ->
  (forall stride i j st,
     agree (buffer ctx1) (buffer ctx2) (pos st) (pos st + k) ->
     body (buffer ctx1) stride i j st = body (buffer ctx2) stride i j st) ->
  agree (buffer ctx1) (buffer ctx2) p0
    (p0 + k * (rounds (height hd) step * rounds (width hd) step)) ->
  decode_with hd ctx1 alpha step body p0 = decode_with hd ctx2 alpha step body p0.
Proof.
  intros Hstep Hk Hread Hext Hag.
  destruct (decide (0 < width hd /\ 0 < height hd)) as [[Ew Eh]|Hn];
    [|rewrite !decode_with_null by (try assumption; lia); reflexivity].
  unfold decode_with.
  set (stride := u32 _). set (W := rounds (width hd) step) in *.
  set (H := rounds (height hd) step) in *.
  pose proof (rounds_nonneg (width hd) step) as HW0. fold W in HW0.
  apply bind_ext; [|reflexivity]. unfold for_loop at 1 3.
  apply (for_lt_ext (fun i s => exists a, i = step * a /\ 0 <= a
                                 /\ pos s = p0 + k * (a * W))).
  - intros i s Hi (a & -> & Ha & Hpos).
    pose proof (rounds_above (height hd) step a Hstep Ha Hi) as HaH. fold H in HaH.
    split.
    + unfold for_loop.
      apply (for_lt_ext (fun j t => exists b, j = step * b /\ 0 <= b
                                     /\ pos t = p0 + k * (a * W + b))).
      * intros j t Hj (b & -> & Hb & Hpt).
        pose proof (rounds_above (width hd) step b Hstep Hb Hj) as HbW. fold W in HbW.
        split.
        -- apply Hext. eapply agree_sub; [exact Hag | nia |].
           rewrite Hpt.
           assert (a * W + b + 1 <= H * W) by nia. nia.
        -- intros t' Ht'. destruct (Hread _ _ _ _ _ Ht') as (_ & Hp' & _).
           exists (b + 1). split; [ring|]. split; [lia|]. rewrite Hp', Hpt. ring.
      * exists 0. split; [ring|]. split; [lia|]. rewrite Hpos. ring.
    + intros s' Hs'.
      apply (for_loop_has_read id (buffer ctx2) k (width hd) step) in Hs';
        [ | exact Hstep | exact Hk | exact Ew | intros j t t'; apply Hread ].
      destruct Hs' as (_ & Hp' & _). unfold id in Hp'. fold W in Hp'.
      exists (a + 1). split; [ring|]. split; [lia|]. rewrite Hp', Hpos. ring.
  - exists 0. split; [ring|]. split; [lia|]. simpl. ring.
Qed.

(** Each branch looks at its bytes per round only. *)
Lemma branch_ext (fmt : Z) (b : branch) :
  branch_of fmt = Some b ->
  forall buf1 buf2 stride i j st,
    agree buf1 buf2 (pos st) (pos st + br_bytes b) ->
    br_body b buf1 stride i j st = br_body b buf2 stride i j st.
Proof.
  unfold branch_of.
  repeat match goal with
         | |- (if ?c then _ else _) = _ -> _ =>
             destruct c;
             [ intros [= <-]; simpl; intros buf1 buf2 stride i j st | ]
         end; try discriminate.
  - apply px_RGBA8888_ext.
  - apply px_ABGR8888_ext.
  - apply px_RGB888_ext.
  - apply px_BGR888_ext.
  - apply px_RGB565_ext.
  - apply px_I8_ext.
  - apply px_IA88_ext.
  - apply px_A8_ext.
  - apply dxt1_block_ext.
  - apply dxt5_block_ext.
  - apply px_ARGB8888_ext.
  - apply px_BGRA8888_ext.
Qed.

Lemma load_frame_ext (hd : VtfHeader) (ctx1 ctx2 : VtfContext) (p0 : Z) :
  agree (buffer ctx1) (buffer ctx2) p0
    (p0 + frame_bytes (highResImageFormat hd) (width hd) (height hd)) ->
  gdk_pixbuf__vtf_load_frame hd ctx1 p0 = gdk_pixbuf__vtf_load_frame hd ctx2 p0.
Proof.
  intros Hag. rewrite !load_frame_branch.
  destruct (branch_of (highResImageFormat hd)) as [b|] eqn:Eb; [|reflexivity].
  destruct (branch_has_read _ (width hd) (height hd) b Eb)
    as (Hs & Hk & Hread & Hfb).
  destruct (decide (0 < width hd /\ 0 < height hd)) as [[Hw Hh]|Hn].
  - rewrite Hfb in Hag by lia.
    rewrite (decode_with_ext hd ctx1 ctx2 (br_alpha b) (br_step b) (br_bytes b) p0
               (br_body b) Hs Hk); [reflexivity | | | exact Hag].
    + intros stride i j st st'. apply Hread.
    + intros stride i j st. apply (branch_ext _ b Eb).
  - rewrite !decode_with_null by (try assumption; lia). reflexivity.
Qed.

(** X18: a frame decode depends on the buffer through the bytes of its
    frame only: on two buffers that hold the same bytes at the positions
    [pos] up to [pos + frame_bytes] it gives the same result, whatever else
    the buffers hold and however long they are. *)
Theorem load_frame_reads_only_frame (hd : VtfHeader) (ctx1 ctx2 : VtfContext)
    (p0 : Z) :
  (forall q, p0 <= q < p0 + frame_bytes (highResImageFormat hd) (width hd) (height hd) ->
     buffer ctx1 !! Z.to_nat q = buffer ctx2 !! Z.to_nat q) ->
  gdk_pixbuf__vtf_load_frame hd ctx1 p0 = gdk_pixbuf__vtf_load_frame hd ctx2 p0.
Proof. intros H. apply load_frame_ext. exact H. Qed.

Lemma load_frame_reads_only_frame_witness :
  gdk_pixbuf__vtf_load_frame (mk_header 1 1 1 IMAGE_FORMAT_RGB888 1 1)
    (mk_context [9; 1; 2; 3; 9; 9]) 1
  = gdk_pixbuf__vtf_load_frame (mk_header 1 1 1 IMAGE_FORMAT_RGB888 1 1)
      (mk_context [7; 1; 2; 3]) 1.
Proof.
  apply load_frame_reads_only_frame.
  intros q Hq. change (frame_bytes _ _ _) with 3 in Hq.
  assert (Hc : q = 1 \/ q = 2 \/ q = 3) by lia.
  destruct Hc as [-> | [-> | ->]]; reflexivity.
Defined.

(* ===================================================================== *)
(** ** A whole session *)
(* ===================================================================== *)

Lemma field_take (buf : list byte) (n off len : nat) :
  (off + len <= n)%nat -> field (take n buf) off len = field buf off len.
Proof.
  intros H. unfold field.
  rewrite skipn_firstn_comm, take_take. f_equal. lia.
Qed.

(** The header is read from the first 68 bytes. *)
Lemma read_header_take (buf : list byte) (n : nat) (h : VtfHeader) :
  read_header (take n buf) = Some h -> read_header buf = Some h.
Proof.
  unfold read_header, sizeof_VtfHeader. intros H.
  destruct (Z.of_nat (length (take n buf)) <? 68) eqn:E1; [discriminate|].
  apply Z.ltb_ge in E1. rewrite length_take in E1.
  destruct (Z.of_nat (length buf) <? 68) eqn:E2; [apply Z.ltb_lt in E2; lia|].
  rewrite !field_take in H by lia. exact H.
Qed.

Lemma frames_loop_ext (h : VtfHeader) (ctx1 ctx2 : VtfContext) (base : Z) :
  (forall i, 0 <= i < frames h ->
     gdk_pixbuf__vtf_load_frame h ctx1 (frame_pos h base i)
     = gdk_pixbuf__vtf_load_frame h ctx2 (frame_pos h base i)) ->
  forall (fuel : nat) i tr,
    0 <= i ->
    frames_loop h ctx1 fuel base i tr = frames_loop h ctx2 fuel base i tr.
Proof.
  intros Hsame. induction fuel as [|fuel IH]; intros i tr Hi; [reflexivity|].
  simpl. destruct (i <? frames h) eqn:E; [|reflexivity].
  apply Z.ltb_lt in E. fold (frame_pos h base i).
  rewrite (Hsame i) by lia.
  destruct (gdk_pixbuf__vtf_load_frame h ctx2 (frame_pos h base i))
    as [[[pb|] evs]|]; cbn [mbind option_bind];
    [apply IH; lia | reflexivity | reflexivity].
Qed.

(** [stop_load] gives the same outcome on two contexts with the same
    header and data size whose frames decode alike. *)
Lemma stop_load_ext (ctx1 ctx2 : VtfContext) (h : VtfHeader) :
  read_header (buffer ctx1) = Some h -> read_header (buffer ctx2) = Some h ->
  buffer_data_size ctx1 = buffer_data_size ctx2 ->
  (forall i, 0 <= i < frames h ->
     gdk_pixbuf__vtf_load_frame (effective_header h) ctx1
       (frame_pos (effective_header h) (load_base ctx1 h) i)
     = gdk_pixbuf__vtf_load_frame (effective_header h) ctx2
         (frame_pos (effective_header h) (load_base ctx1 h) i)) ->
  gdk_pixbuf__vtf_image_stop_load ctx1 = gdk_pixbuf__vtf_image_stop_load ctx2.
Proof.
  intros H1 H2 Hds Hsame.
  rewrite (stop_load_unfold ctx1 h H1), (stop_load_unfold ctx2 h H2).
  destruct (bad_header h); [reflexivity|].
  assert (Eb : load_base ctx2 h = load_base ctx1 h)
    by (unfold load_base; rewrite Hds; reflexivity).
  rewrite Eb.
  destruct (effective_header_fields h) as (_ & _ & Ef & _).
  rewrite (frames_loop_ext (effective_header h) ctx1 ctx2 (load_base ctx1 h));
    [reflexivity | | lia].
  intros i Hi. apply Hsame. rewrite <- Ef. exact Hi.
Qed.

(** X19: a session on a file with a valid header of a supported format, at
    least one mip level and all of its image data, of less than 2^31 bytes:
    [begin_load], one [load_increment] per chunk and [stop_load] all
    succeed, and the outcome of [stop_load] is the one it has on a buffer
    that holds exactly the file.  It does not depend on how the file was
    cut into chunks nor on what the memory past the data holds. *)
Theorem session_loads_file (fuel : nat) (junk : Z -> byte)
    (chunks : list (list byte)) (h : VtfHeader) :
  (13 < fuel)%nat ->
  read_header (concat chunks) = Some h ->
  take 4 (concat chunks) = vtf_signature -> frames h <> 0 ->
  supported (highResImageFormat h) = true ->
  0 < width h -> 0 < height h ->
  (highResImageFormat h = IMAGE_FORMAT_DXT1
   \/ highResImageFormat h = IMAGE_FORMAT_DXT5 ->
   width h mod 4 = 0 /\ height h mod 4 = 0) ->
  4 * width h * height h <= 2 ^ 32 ->
  1 <= mipmapCount h ->
  mip_size_spec (effective_header h) 0 (depth (effective_header h)) < 2 ^ 32 ->
  region_length (effective_header h) < 2 ^ 32 ->
  region_length (effective_header h) <= Z.of_nat (length (concat chunks)) ->
  Z.of_nat (length (concat chunks)) < 2 ^ 31 ->
  exists ctx0 ctx tr,
    gdk_pixbuf__vtf_image_begin_load junk = (Some ctx0, [])
    /\ feed fuel junk ctx0 chunks = IncReturned true ctx []
    /\ gdk_pixbuf__vtf_image_stop_load ctx
       = gdk_pixbuf__vtf_image_stop_load (whole_file (concat chunks))
    /\ gdk_pixbuf__vtf_image_stop_load ctx = Returned true tr
    /\ error_of tr = None
    /\ Z.of_nat (length (delivered tr)) = frames h
    /\ Z.of_nat (length (prepared_of tr)) = 1.
Proof.
  intros Hfuel Hh Hs Hf Hsup Hw Hht Hal H32 Hm Hsz Hfit Hreg Hn.
  set (file := concat chunks) in *. set (n := Z.of_nat (length file)) in *.
  assert (Hcap : n <= max_capacity)
    by (unfold max_capacity; change (2 ^ 31) with 2147483648 in Hn; lia).
  destruct (feed_ok fuel junk chunks Hfuel _ (begin_load_ok junk) Hcap)
    as (ctx & k0 & k & Hrun & Hok & Hd & Ht & _).
  fold file in Hd, Ht. fold n in Hd, Ht.
  cbn [buffer buffer_size buffer_data_size] in Hd, Ht.
  rewrite Z.add_0_l in Hd. change (Z.to_nat 0) with 0%nat in Ht.
  rewrite take_0, app_nil_l, Hd in Ht. unfold n in Ht. rewrite Nat2Z.id in Ht.
  destruct Hok as [Hlen Hdata _].
  assert (Hn68 : 68 <= n).
  { unfold read_header, sizeof_VtfHeader in Hh. fold n in Hh.
    destruct (n <? 68) eqn:E; [discriminate | apply Z.ltb_ge in E; exact E]. }
  assert (Hh' : read_header (buffer ctx) = Some h).
  { apply (read_header_take _ (length file)). rewrite Ht. exact Hh. }
  assert (Hs' : take 4 (buffer ctx) = vtf_signature).
  { rewrite <- Hs, <- Ht, take_take. f_equal. lia. }
  assert (Hag : forall q, 0 <= q < n ->
            buffer ctx !! Z.to_nat q = file !! Z.to_nat q).
  { intros q Hq. rewrite <- (lookup_take_lt (buffer ctx) (length file)) by lia.
    rewrite Ht. reflexivity. }
  destruct (stop_load_complete ctx h Hh' Hs' Hf Hsup Hw Hht Hal H32 Hm Hsz Hfit
              ltac:(lia) ltac:(lia) ltac:(lia))
    as (tr & pbs & Hstop & Herr & Hloads & Hdel & Hcount & Hprep & Hframes).
  destruct (stop_load_complete (whole_file file) h Hh Hs Hf Hsup Hw Hht Hal H32
              Hm Hsz Hfit ltac:(simpl; lia) ltac:(simpl; lia) ltac:(simpl; lia))
    as (tr2 & pbs2 & _ & _ & Hloads2 & _).
  eexists _, ctx, tr. split; [apply begin_load_context|].
  split; [exact Hrun|]. split.
  { apply (stop_load_ext ctx (whole_file file) h Hh' Hh); [simpl; lia|].
    intros i Hi.
    pose proof (read_header_in_range _ h Hh) as Hr.
    pose proof (effective_header_in_range h Hr) as Hr'.
    destruct (effective_header_fields h) as (Ew & Eh & Ef & Efmt).
    destruct (frame_pos_exact (effective_header h) (buffer_data_size ctx) i Hr'
                ltac:(rewrite effective_header_mipmaps; lia) Hfit
                ltac:(unfold two31; change (2 ^ 31) with 2147483648 in Hn; lia)
                ltac:(lia)) as [Ep _].
    change (u32 (buffer_data_size ctx
                 - vtf_offset (effective_header h) 0 0 0 (-1)))
      with (load_base ctx h) in Ep.
    rewrite Ep. destruct (Hframes i Hi) as (Hlo & Hhi & _).
    cbv zeta in Hlo, Hhi. rewrite Ef.
    apply load_frame_ext. rewrite Efmt, Ew, Eh.
    intros q Hq. apply Hag. lia. }
  split; [exact Hstop|]. split; [exact Herr|]. split; [exact Hcount|].
  rewrite Hprep. reflexivity.
Qed.

Lemma session_loads_file_witness :
  exists ctx0 ctx tr,
    gdk_pixbuf__vtf_image_begin_load (fun _ => xff%byte) = (Some ctx0, [])
    /\ feed 14 (fun _ => xff%byte) ctx0
         [take 50 (buffer ctx_two_frames); drop 50 (buffer ctx_two_frames)]
       = IncReturned true ctx []
    /\ gdk_pixbuf__vtf_image_stop_load ctx
       = gdk_pixbuf__vtf_image_stop_load ctx_two_frames
    /\ gdk_pixbuf__vtf_image_stop_load ctx = Returned true tr
    /\ Z.of_nat (length (delivered tr)) = 2.
Proof.
  destruct (session_loads_file 14 (fun _ => xff%byte)
              [take 50 (buffer ctx_two_frames); drop 50 (buffer ctx_two_frames)]
              (mk_header 2 1 2 IMAGE_FORMAT_ARGB8888 1 1))
    as (ctx0 & ctx & tr & Hb & Hrun & Hsame & Hstop & _ & Hn & _).
  - lia.
  - vm_compute. reflexivity.
  - vm_compute. reflexivity.
  - vm_compute. discriminate.
  - reflexivity.
  - reflexivity.
  - reflexivity.
  - intros [H|H]; vm_compute in H; discriminate.
  - vm_compute. discriminate.
  - vm_compute. discriminate.
  - vm_compute. reflexivity.
  - vm_compute. reflexivity.
  - vm_compute. discriminate.
  - vm_compute. reflexivity.
  - exists ctx0, ctx, tr. split; [exact Hb|]. split; [exact Hrun|].
    split; [rewrite Hsame; vm_compute; reflexivity|].
    split; [exact Hstop | exact Hn].
Defined.

(* ===================================================================== *)
(** ** The layout of the image data *)
(* ===================================================================== *)

Lemma mip_sum_step (h : VtfHeader) (m : Z) :
  0 <= m <= mipmapCount h - 1 -> mipmapCount h <= two8 ->
  mip_sum h (m - 1) = vtf_mip_size h m (depth h) + mip_sum h m.
Proof.
  intros Hm Hc. rewrite (mip_sum_split h (m - 1) m) by lia.
  replace (m - 1 + 1) with m by ring. replace (m - (m - 1)) with 1 by ring.
  rewrite (seqZ_cons m 1), (seqZ_empty _ (Z.pred 1)) by lia.
  unfold Zsum. simpl. rewrite mip_index_u32 by lia. lia.
Qed.

Lemma mip_sum_top (h : VtfHeader) (m : Z) :
  mipmapCount h - 1 <= m -> mip_sum h m = 0.
Proof.
  intros Hm. unfold mip_sum, mips_above. rewrite seqZ_empty by lia. reflexivity.
Qed.

(** X20: when the whole region is shorter than 2^32 bytes, the images of
    all mip levels and frames tile it without gap or overlap: the smallest
    mip level comes first, each level holds its frames in order, the image
    of a frame ends where that of the next frame begins, the last image of
    a level ends where the next larger level begins, and the last image of
    level 0 ends with the region. *)
Theorem mip_layout_tiles (h : VtfHeader) (m f : Z) :
  header_in_range h -> region_length h < 2 ^ 32 ->
  0 <= m < mipmapCount h -> 0 <= f < frames h ->
  vtf_offset h 0 0 0 (mipmapCount h - 1) = 0
  /\ vtf_offset h f 0 0 m + vtf_mip_size h m (depth h)
     = (if f + 1 <? frames h then vtf_offset h (f + 1) 0 0 m
        else if 0 <? m then vtf_offset h 0 0 0 (m - 1)
        else region_length h)
  /\ vtf_offset h f 0 0 m + vtf_mip_size h m (depth h) <= region_length h.
Proof.
  intros Hr Hfit Hm Hf. change (2 ^ 32) with two32 in Hfit.
  assert (Hc : mipmapCount h <= two8) by (destruct Hr; lia).
  pose proof (vtf_mip_size_range h m (depth h)) as HS.
  pose proof (mip_sum_nonneg h m) as HM.
  pose proof (mip_sum_step h m ltac:(lia) Hc) as Hstep.
  pose proof (mip_sum_antitone h (-1) (m - 1) ltac:(lia)) as Hanti.
  pose proof (region_length_mip_sum h Hr) as ER.
  set (S := vtf_mip_size h m (depth h)) in *.
  assert (Hin : forall g, 0 <= g <= frames h ->
            0 <= mip_sum h m * frames h + S * g <= region_length h).
  { intros g Hg. rewrite ER.
    assert (mip_sum h m * frames h + S * g <= mip_sum h (m - 1) * frames h) by nia.
    assert (mip_sum h (m - 1) * frames h <= mip_sum h (-1) * frames h) by nia.
    nia. }
  assert (Eoff : forall g, 0 <= g < frames h ->
            vtf_offset h g 0 0 m = mip_sum h m * frames h + S * g).
  { intros g Hg. rewrite vtf_offset_mod. unfold offset_spec. cbv zeta.
    rewrite !(mip_index_u32 m) by lia. fold S.
    replace (mip_sum h m * frames h * 1 + S * (g * 1 + 0)
             + vtf_mip_size h m 1 * 0)
      with (mip_sum h m * frames h + S * g) by ring.
    apply u32_small. pose proof (Hin g ltac:(lia)). lia. }
  split; [|split].
  - rewrite vtf_offset_exact by (assumption || lia).
    rewrite mip_sum_top by lia. reflexivity.
  - rewrite (Eoff f Hf).
    destruct (f + 1 <? frames h) eqn:E1.
    + apply Z.ltb_lt in E1. rewrite (Eoff (f + 1)) by lia. ring.
    + apply Z.ltb_ge in E1. assert (f + 1 = frames h) by lia.
      destruct (0 <? m) eqn:E2.
      * rewrite vtf_offset_exact by (assumption || lia). rewrite Hstep. nia.
      * apply Z.ltb_ge in E2. assert (m = 0) by lia. subst m.
        rewrite ER. change (0 - 1) with (-1) in Hstep. rewrite Hstep. nia.
  - rewrite (Eoff f Hf). pose proof (Hin (f + 1) ltac:(lia)). lia.
Qed.

Lemma mip_layout_tiles_witness :
  vtf_offset hdr_four_mips 0 0 0 3 = 0
  /\ vtf_offset hdr_four_mips 1 0 0 1 + vtf_mip_size hdr_four_mips 1 1
     = vtf_offset hdr_four_mips 0 0 0 0
  /\ vtf_offset hdr_four_mips 1 0 0 0 + vtf_mip_size hdr_four_mips 0 1 = 680.
Proof.
  assert (Hr : header_in_range hdr_four_mips)
    by (split; vm_compute; split; congruence).
  destruct (mip_layout_tiles hdr_four_mips 1 1 Hr) as (E1 & E2 & _);
    [vm_compute; reflexivity | vm_compute; split; congruence
     | vm_compute; split; congruence |].
  destruct (mip_layout_tiles hdr_four_mips 0 1 Hr) as (_ & E3 & _);
    [vm_compute; reflexivity | vm_compute; split; congruence
     | vm_compute; split; congruence |].
  split; [exact E1|]. split; [exact E2 | exact E3].
Defined.

(* ===================================================================== *)
(** ** A header without mip levels *)
(* ===================================================================== *)

Lemma frame_bytes_pos (fmt w h : Z) :
  supported fmt = true -> 0 < w -> 0 < h -> 0 < frame_bytes fmt w h.
Proof.
  intros Hsup Hw Hh. apply branch_of_supported in Hsup. destruct Hsup as [b Hb].
  destruct (branch_has_read fmt w h b Hb) as (Hs & _ & _ & Hfb).
  rewrite Hfb by lia.
  pose proof (rounds_above w (br_step b) 0 Hs ltac:(lia) ltac:(lia)).
  pose proof (rounds_above h (br_step b) 0 Hs ltac:(lia) ltac:(lia)).
  assert (0 < br_bytes b).
  { unfold branch_of in Hb.
    repeat match type of Hb with
           | (if ?c then _ else _) = _ =>
               destruct c; [injection Hb as <-; simpl; lia|]
           end.
    discriminate. }
  nia.
Qed.

(** X21: with [mipmapCount = 0] the loader takes the image data to be
    empty and reads the first frame at [buffer_data_size], right after the
    data: from memory that was never written, or, when the buffer ends with
    the data, from outside the buffer. *)
Theorem no_mip_levels_reads_past_data (ctx : VtfContext) (h : VtfHeader) :
  read_header (buffer ctx) = Some h ->
  take 4 (buffer ctx) = vtf_signature -> frames h <> 0 ->
  supported (highResImageFormat h) = true ->
  mipmapCount h = 0 ->
  0 <= buffer_data_size ctx < 2 ^ 31 ->
  (forall rv tr,
      gdk_pixbuf__vtf_image_stop_load ctx = Returned rv tr ->
      exists rest, loads_of tr = buffer_data_size ctx :: rest)
  /\ (0 < width h -> 0 < height h ->
      Z.of_nat (length (buffer ctx)) = buffer_data_size ctx ->
      gdk_pixbuf__vtf_image_stop_load ctx = Fault).
Proof.
  intros Hh Hs Hf Hsup Hm Hds. change (2 ^ 31) with two31 in Hds.
  pose proof (read_header_in_range _ h Hh) as Hr.
  pose proof (effective_header_in_range h Hr) as Hr'.
  destruct (effective_header_fields h) as (Ew & Eh & Ef & Efmt).
  pose proof (effective_header_mipmaps h) as Em.
  assert (Hpos : 0 < frames h) by (destruct Hr; lia).
  set (h' := effective_header h) in *.
  assert (E1 : vtf_offset h' 0 0 0 (-1) = 0).
  { rewrite vtf_offset_mod. unfold offset_spec. cbv zeta.
    rewrite mip_sum_top by lia.
    match goal with |- u32 ?e = 0 => replace e with 0 by ring end.
    reflexivity. }
  assert (E0 : vtf_offset h' 0 0 0 0 = 0).
  { rewrite vtf_offset_mod. unfold offset_spec. cbv zeta.
    rewrite mip_sum_top by lia.
    match goal with |- u32 ?e = 0 => replace e with 0 by ring end.
    reflexivity. }
  assert (Ebase : load_base ctx h = buffer_data_size ctx).
  { unfold load_base. fold h'. rewrite E1, Z.sub_0_r.
    apply u32_small. unfold two31, two32 in *. lia. }
  assert (Ep : frame_pos h' (load_base ctx h) 0 = buffer_data_size ctx).
  { unfold frame_pos. rewrite Ebase, E0, Z.add_0_r. unfold to_int.
    rewrite !(u32_small (buffer_data_size ctx)) by (unfold two31, two32 in *; lia).
    destruct (_ <? two31) eqn:E; [reflexivity | apply Z.ltb_ge in E; lia]. }
  rewrite (stop_load_unfold ctx h Hh), (good_header _ h Hh Hs Hf). fold h'.
  split.
  - intros rv tr.
    destruct (frames_loop _ _ _ _ _ _) as [tr'|] eqn:El; [|discriminate].
    intros [= <- <-].
    apply frames_loop_first_load in El; [|rewrite Ef; exact Hpos].
    destruct El as [rest El]. rewrite El, Ep. simpl. eauto.
  - intros Hw Hht Hlen.
    destruct (frames_loop _ _ _ _ _ _) as [tr'|] eqn:El; [|reflexivity].
    exfalso. simpl in El. rewrite Ef in El.
    destruct (0 <? frames h) eqn:E; [|apply Z.ltb_ge in E; lia].
    fold (frame_pos h' (load_base ctx h) 0) in El. rewrite Ep in El.
    destruct (gdk_pixbuf__vtf_load_frame h' ctx (buffer_data_size ctx))
      as [r|] eqn:Eload; [|discriminate].
    destruct (load_frame_supported h' ctx _ r ltac:(rewrite Efmt; exact Hsup) Eload)
      as (pixbuf & -> & Hnull).
    destruct pixbuf as [pb|]; [|destruct (proj1 Hnull eq_refl); lia].
    apply load_frame_has_read in Eload. rewrite Efmt, Ew, Eh in Eload.
    pose proof (read_limit_length (buffer ctx)).
    pose proof (frame_bytes_pos _ _ _ Hsup Hw Hht). lia.
Qed.

Lemma no_mip_levels_reads_past_data_witness :
  gdk_pixbuf__vtf_image_stop_load
    (mk_context (header_bytes 7 2 1 1 1 IMAGE_FORMAT_I8 0 1 ++ [200]))
  = Fault.
Proof.
  destruct (no_mip_levels_reads_past_data
              (mk_context (header_bytes 7 2 1 1 1 IMAGE_FORMAT_I8 0 1 ++ [200]))
              (mk_header 1 1 1 IMAGE_FORMAT_I8 0 1)) as [_ H].
  - vm_compute. reflexivity.
  - vm_compute. reflexivity.
  - vm_compute. discriminate.
  - reflexivity.
  - reflexivity.
  - vm_compute. split; [discriminate | reflexivity].
  - apply H; vm_compute; reflexivity.
Defined.

(* ===================================================================== *)
(** ** Files that end too early *)
(* ===================================================================== *)

(** The position of frame [i], before it is known to lie in the data. *)
Lemma frame_pos_mod (h : VtfHeader) (ds i : Z) :
  header_in_range h -> 1 <= mipmapCount h ->
  region_length h < two32 -> 0 <= i < frames h ->
  frame_pos h (u32 (ds - vtf_offset h 0 0 0 (-1))) i
  = to_int (u32 (ds - (frames h - i) * vtf_mip_size h 0 (depth h))).
Proof.
  intros Hr Hm Hfit Hi.
  pose proof (vtf_mip_size_range h 0 (depth h)) as HS.
  pose proof (mip_sum_nonneg h 0) as HM.
  assert (Hc : mipmapCount h <= two8) by (destruct Hr; lia).
  pose proof (mip_sum_step h 0 ltac:(lia) Hc) as Hstep.
  change (0 - 1) with (-1) in Hstep.
  pose proof (region_length_mip_sum h Hr) as ER. rewrite Hstep in ER.
  set (S := vtf_mip_size h 0 (depth h)) in *.
  set (M := mip_sum h 0) in *.
  assert (E1 : vtf_offset h 0 0 0 (-1) = region_length h).
  { rewrite vtf_offset_exact by (assumption || lia).
    symmetry. apply region_length_mip_sum. exact Hr. }
  assert (E0 : vtf_offset h i 0 0 0 = u32 (M * frames h + S * i)).
  { rewrite vtf_offset_mod. unfold offset_spec. cbv zeta.
    change (u32 0) with 0. fold S. fold M. apply (f_equal u32). ring. }
  unfold frame_pos. rewrite E1, E0, u32_add_l.
  rewrite Z.add_comm, u32_add_l.
  replace (M * frames h + S * i + (ds - region_length h))
    with (ds - (frames h - i) * S) by (rewrite ER; ring).
  reflexivity.
Qed.

(** X22: a file that ends before the frames of its largest mip level are
    complete, that is with fewer data bytes than [frames] images of mip
    level 0 take, is not rejected: the position of the first frame, counted
    back from the end of the data, is negative, and the decode reads before
    the buffer. *)
Theorem truncated_file_faults (ctx : VtfContext) (h : VtfHeader) :
  read_header (buffer ctx) = Some h ->
  take 4 (buffer ctx) = vtf_signature -> frames h <> 0 ->
  supported (highResImageFormat h) = true ->
  0 < width h -> 0 < height h ->
  1 <= mipmapCount h ->
  region_length (effective_header h) < 2 ^ 32 ->
  let frame_size :=
    vtf_mip_size (effective_header h) 0 (depth (effective_header h)) in
  0 <= buffer_data_size ctx < frames h * frame_size ->
  frames h * frame_size - buffer_data_size ctx <= 2 ^ 31 ->
  frame_pos (effective_header h) (load_base ctx h) 0
  = buffer_data_size ctx - frames h * frame_size
  /\ gdk_pixbuf__vtf_image_stop_load ctx = Fault.
Proof.
  intros Hh Hs Hf Hsup Hw Hht Hm Hfit frame_size Hds Hgap.
  change (2 ^ 32) with two32 in *. change (2 ^ 31) with two31 in *.
  pose proof (read_header_in_range _ h Hh) as Hr.
  pose proof (effective_header_in_range h Hr) as Hr'.
  destruct (effective_header_fields h) as (Ew & Eh & Ef & Efmt).
  pose proof (effective_header_mipmaps h) as Em.
  assert (Hpos : 0 < frames h) by (destruct Hr; lia).
  set (h' := effective_header h) in *.
  assert (Ep : frame_pos h' (load_base ctx h) 0
               = buffer_data_size ctx - frames h * frame_size).
  { unfold load_base. fold h'.
    rewrite frame_pos_mod by (assumption || lia).
    fold frame_size. rewrite Ef, Z.sub_0_r.
    set (d := buffer_data_size ctx - frames h * frame_size) in *.
    assert (Hd : - two31 <= d < 0) by (unfold d; lia).
    assert (Eu : u32 d = d + two32).
    { unfold u32, two31, two32 in *. Z.to_euclidean_division_equations. lia. }
    unfold to_int. rewrite Eu.
    rewrite u32_small by (unfold two31, two32 in *; lia).
    destruct (_ <? two31) eqn:E;
      [apply Z.ltb_lt in E; unfold two31, two32 in *; lia | lia]. }
  split; [exact Ep|].
  rewrite (stop_load_unfold ctx h Hh), (good_header _ h Hh Hs Hf). fold h'.
  destruct (frames_loop _ _ _ _ _ _) as [tr'|] eqn:El; [|reflexivity].
  exfalso. simpl in El. rewrite Ef in El.
  destruct (0 <? frames h) eqn:E; [|apply Z.ltb_ge in E; lia].
  fold (frame_pos h' (load_base ctx h) 0) in El. rewrite Ep in El.
  destruct (gdk_pixbuf__vtf_load_frame h' ctx _) as [r|] eqn:Eload; [|discriminate].
  destruct (load_frame_supported h' ctx _ r ltac:(rewrite Efmt; exact Hsup) Eload)
    as (pixbuf & -> & Hnull).
  destruct pixbuf as [pb|]; [|destruct (proj1 Hnull eq_refl); lia].
  apply load_frame_has_read in Eload. lia.
Qed.

Lemma truncated_file_faults_witness :
  frame_pos (effective_header hdr_8x8) (load_base ctx_short hdr_8x8) 0 = -176
  /\ gdk_pixbuf__vtf_image_stop_load ctx_short = Fault.
Proof.
  destruct (truncated_file_faults ctx_short hdr_8x8) as [H1 H2].
  - vm_compute. reflexivity.
  - vm_compute. reflexivity.
  - vm_compute. discriminate.
  - reflexivity.
  - reflexivity.
  - reflexivity.
  - vm_compute. discriminate.
  - vm_compute. reflexivity.
  - vm_compute. split; [discriminate | reflexivity].
  - vm_compute. discriminate.
  - split; [rewrite H1; vm_compute; reflexivity | exact H2].
Defined.

(* ===================================================================== *)
(** ** The sizes of the mip levels *)
(* ===================================================================== *)

Lemma mip_dim_shrinks (v level : Z) :
  0 <= v -> 0 <= level -> 1 <= mip_dim v (level + 1) <= mip_dim v level.
Proof.
  intros Hv Hl. unfold mip_dim.
  pose proof (shiftr_bounds v level Hv Hl) as H1.
  assert (Z.shiftr v (level + 1) <= Z.shiftr v level).
  { rewrite <- Z.shiftr_shiftr by lia.
    apply (shiftr_bounds (Z.shiftr v level) 1); lia. }
  lia.
Qed.

Lemma ceil_div_4_mono (a b : Z) : a <= b -> ceil_div a 4 <= ceil_div b 4.
Proof. intros H. unfold ceil_div. Z.to_euclidean_division_equations. lia. Qed.

Lemma ceil_div_4_pos (a : Z) : 1 <= a -> 1 <= ceil_div a 4.
Proof. intros H. unfold ceil_div. Z.to_euclidean_division_equations. lia. Qed.

Lemma slice_cost_mono (fmt w h w' h' : Z) :
  1 <= w' <= w -> 1 <= h' <= h ->
  0 <= slice_cost fmt w' h' <= slice_cost fmt w h.
Proof.
  intros Hw Hh. unfold slice_cost.
  pose proof (ceil_div_4_mono w' w ltac:(lia)).
  pose proof (ceil_div_4_mono h' h ltac:(lia)).
  pose proof (ceil_div_4_pos w' ltac:(lia)).
  pose proof (ceil_div_4_pos h' ltac:(lia)).
  assert (w' * h' <= w * h) by nia.
  assert (ceil_div w' 4 * ceil_div h' 4 <= ceil_div w 4 * ceil_div h 4) by nia.
  repeat match goal with
         | |- context [if ?c then _ else _] => destruct c; [nia|]
         end.
  lia.
Qed.

Lemma slice_cost_pos (fmt w h : Z) :
  supported fmt = true -> 1 <= w -> 1 <= h -> 1 <= slice_cost fmt w h.
Proof.
  intros Hsup Hw Hh. apply supported_cases in Hsup.
  pose proof (ceil_div_4_pos w Hw). pose proof (ceil_div_4_pos h Hh).
  unfold supported_formats in Hsup.
  repeat (destruct Hsup as [<-|Hsup]; [unfold slice_cost; simpl; nia|]).
  destruct Hsup.
Qed.

(** X23: for mip levels below 32 (the shift counts C gives a meaning), as
    long as the size of a level fits 32 bits the next level is not larger;
    and that next level of a supported format still takes at least one
    byte, however far the dimensions were halved. *)
Theorem mip_size_shrinks (h : VtfHeader) (level d : Z) :
  header_in_range h -> 0 <= level -> level + 1 < 32 -> 0 <= d < 2 ^ 32 ->
  mip_size_spec h level d < 2 ^ 32 ->
  vtf_mip_size h (level + 1) d <= vtf_mip_size h level d
  /\ (supported (highResImageFormat h) = true ->
      1 <= vtf_mip_size h (level + 1) d).
Proof.
  intros Hr Hl Hl32 Hd Hfit. change (2 ^ 32) with two32 in *.
  rewrite !vtf_mip_size_mod by (assumption || lia).
  assert (Hw : 0 <= width h) by (destruct Hr; lia).
  assert (Hh : 0 <= height h) by (destruct Hr; lia).
  pose proof (mip_dim_shrinks (width h) level Hw Hl) as HW.
  pose proof (mip_dim_shrinks (height h) level Hh Hl) as HH.
  pose proof (mip_dim_shrinks d level ltac:(lia) Hl) as HD.
  pose proof (slice_cost_mono (highResImageFormat h) _ _ _ _ HW HH) as Hc.
  assert (Hle : 0 <= mip_size_spec h (level + 1) d <= mip_size_spec h level d).
  { unfold mip_size_spec in *. nia. }
  rewrite !u32_small by lia. split; [lia|].
  intros Hsup.
  pose proof (slice_cost_pos (highResImageFormat h) _ _ Hsup
                (proj1 HW) (proj1 HH)).
  unfold mip_size_spec. nia.
Qed.

Lemma mip_size_shrinks_witness :
  vtf_mip_size hdr_dxt1 1 1 <= vtf_mip_size hdr_dxt1 0 1
  /\ 1 <= vtf_mip_size hdr_dxt1 1 1.
Proof.
  destruct (mip_size_shrinks hdr_dxt1 0 1) as [H1 H2].
  - split; vm_compute; split; congruence.
  - lia.
  - lia.
  - lia.
  - vm_compute. reflexivity.
  - split; [exact H1 | apply H2; reflexivity].
Defined.

(* ===================================================================== *)
(** ** A session without data *)
(* ===================================================================== *)

Lemma field_fresh (junk : Z -> byte) (n : Z) (off len : nat) :
  Z.of_nat (off + len) <= n ->
  field (map junk (seqZ 0 n)) off len
  = map junk (seqZ (Z.of_nat off) (Z.of_nat len)).
Proof.
  intros H. unfold field.
  replace n with (Z.of_nat off + (Z.of_nat len + (n - Z.of_nat off - Z.of_nat len)))
    by lia.
  rewrite seqZ_app, seqZ_app by lia. rewrite !map_app.
  rewrite drop_app_length' by (rewrite length_map, length_seqZ; lia).
  rewrite take_app_length' by (rewrite length_map, length_seqZ; lia).
  rewrite Z.add_0_l. reflexivity.
Qed.

Lemma read_header_frames (buf : list byte) (h : VtfHeader) :
  read_header buf = Some h -> frames h = le_value (field buf 24 2).
Proof.
  unfold read_header. destruct (_ <? _); [discriminate|].
  intros [= <-]. reflexivity.
Qed.

Lemma field_0 (buf : list byte) (len : nat) : field buf 0 len = take len buf.
Proof. reflexivity. Qed.

(** The header test of [stop_load] on any context. *)
Lemma stop_load_header_test (ctx : VtfContext) (h : VtfHeader) :
  read_header (buffer ctx) = Some h ->
  gdk_pixbuf__vtf_image_stop_load ctx
  = Returned false [EvSetError GDK_PIXBUF_ERROR_CORRUPT_IMAGE msg_corrupt]
  <-> field (buffer ctx) 0 4 <> vtf_signature
      \/ le_value (field (buffer ctx) 24 2) = 0.
Proof.
  intros Hh. rewrite field_0, <- (read_header_frames _ h Hh).
  rewrite <- (bad_header_iff _ h Hh).
  rewrite (stop_load_unfold ctx h Hh).
  destruct (bad_header h).
  - split; reflexivity.
  - split; [|discriminate].
    destruct (frames_loop _ _ _ _ _ _); discriminate.
Qed.

Lemma read_header_fresh (junk : Z -> byte) (n : Z) :
  68 <= n ->
  exists h, read_header (map junk (seqZ 0 n)) = Some h
            /\ signature h = field (map junk (seqZ 0 n)) 0 4.
Proof.
  intros Hn. unfold read_header, sizeof_VtfHeader.
  rewrite length_map, seqZ_length.
  destruct (Z.max 0 n <? 68) eqn:E; [apply Z.ltb_lt in E; lia|].
  eexists. split; reflexivity.
Qed.

(** X24: [stop_load] does not look at [buffer_data_size] before it reads
    the header.  In a session without any data the header is what the
    fresh buffer of [begin_load] happens to hold, and the file is rejected
    as corrupt exactly when those bytes do not start with the signature or
    have a zero frame count. *)
Theorem empty_session_reads_fresh_memory (junk : Z -> byte) :
  exists ctx0 h,
    gdk_pixbuf__vtf_image_begin_load junk = (Some ctx0, [])
    /\ buffer_data_size ctx0 = 0
    /\ read_header (buffer ctx0) = Some h
    /\ signature h = map junk [0; 1; 2; 3]
    /\ frames h = le_value (map junk [24; 25])
    /\ (gdk_pixbuf__vtf_image_stop_load ctx0
        = Returned false [EvSetError GDK_PIXBUF_ERROR_CORRUPT_IMAGE msg_corrupt]
        <-> map junk [0; 1; 2; 3] <> vtf_signature
            \/ le_value (map junk [24; 25]) = 0).
Proof.
  destruct (read_header_fresh junk 1000000 ltac:(lia)) as (h & Hh & Hsig).
  pose proof (read_header_frames _ h Hh) as Hfr.
  pose proof (stop_load_header_test
                {| buffer := map junk (seqZ 0 1000000); buffer_size := 1000000;
                   buffer_data_size := 0 |} h Hh) as Htest.
  cbn [buffer] in Htest.
  rewrite (field_fresh junk 1000000 0 4) in Hsig, Htest by lia.
  rewrite (field_fresh junk 1000000 24 2) in Hfr, Htest by lia.
  eexists _, h. split; [apply begin_load_context|].
  split; [reflexivity|]. split; [exact Hh|]. split; [exact Hsig|].
  split; [exact Hfr | exact Htest].
Qed.
